(** * Readiness-gated search, progress polling and notifications

    A shallow embedding of the browser-side code of the image search demo:

    - [Search]     : [backend/static/js/search.js] ([perform_search],
                     [poll_for_model_ready_and_search] and the DOM helpers);
    - [Debug]      : the debug panel's progress pollers
                     ([start_progress_polling], background monitoring);
    - [UseSearch]  : the React hook [useSearch.performSearch];
    - [FetchWrap]  : the global [window.fetch] wrapper;
    - [Notify]     : the legacy notification list ([show_notification]);
    - [UseNotifications] : the React hook [useNotifications.addNotification].

    [SearchView], [DebugView] and [UseSearchView] hold what the statements
    need on top of the code (views of a state, invariants, poller rounds),
    [Scenario] concrete runs; the proofs
    follow, and [Claims] states the properties of the specification.

    The rest of the code these files hold comes after [Scenario]:

    - [SearchPage]  : the mode toggle and its tooltip, the example queries,
                      the Google button and the result items of [search.js];
    - [ImageViewer] : [backend/static/js/image-viewer.js];
    - [DebugPanel], [Statistics] : the keys and the statistics of the debug
                      panel;
    - [NotifyOps], [Theme] : the other functions of the notification script
                      and its theme toggle;
    - [UseSearchUrl] : the address of the page as [useSearch] reads and
                      writes it, and its comparison links;
    - [UseModelStatus], [UseTheme] : the hooks of [useModelStatus.ts];
    - [ResultsList] : the columns and the image addresses of
                      [ResultsList.tsx].

    Their properties follow [Claims].  Strings are strings of bytes, the
    UTF-8 form of the text; numbers are whole numbers or NaN.

    JavaScript runs these on one event loop.  An [async] function runs
    until its next [await]; what follows the [await] is a continuation
    that runs when the awaited network reply arrives.  Each module below
    therefore has a state (module variables, closures, the DOM fields the
    code touches, the requests in flight with their continuations), a type
    of events chosen by the environment (user actions, timer ticks, network
    replies) and a total function [step].  An event that cannot happen in
    the browser (a tick of a cleared timer, a reply to a request that is not
    in flight) leaves the state unchanged.  [await fetch(..)] followed by
    [await response.json()] is one suspension point: nothing of the state is
    read between the two. *)

From Stdlib Require Import List String Ascii Bool Arith Lia DecimalString.
From Stdlib Require Import ZArith DecimalNat.
Import ListNotations.
Open Scope string_scope.
Open Scope list_scope.
Open Scope nat_scope.

Set Implicit Arguments.

(** ** JavaScript helpers *)

Notation "s |> f" := (f s) (at level 45, left associativity, only parsing).

(** String concatenation, as [+] and template literals do it. *)
Infix "+++" := String.append (at level 60, right associativity).

(** Template literals print numbers in decimal. *)
Definition nat_to_string (n : nat) : string :=
  NilEmpty.string_of_uint (Nat.to_uint n).

Definition dquote : string := String (ascii_of_nat 34) EmptyString.

(** White space removed by [String.prototype.trim] and skipped by [parseInt]
    (WhiteSpace and LineTerminator), on byte strings that hold the UTF-8 form
    of the text: the six of one byte, U+00A0 of two bytes, and those of three
    bytes. *)
Definition is_space (c : ascii) : bool :=
  let n := nat_of_ascii c in
  (n =? 32) || ((9 <=? n) && (n <=? 13)).

Definition is_space2 (a b : ascii) : bool :=
  (nat_of_ascii a =? 194) && (nat_of_ascii b =? 160).          (* U+00A0 *)

Definition is_space3 (a b c : ascii) : bool :=
  let x := nat_of_ascii a in
  let y := nat_of_ascii b in
  let z := nat_of_ascii c in
  ((x =? 225) && (y =? 154) && (z =? 128))                     (* U+1680 *)
  || ((x =? 226) && (y =? 128) &&
      (((128 <=? z) && (z <=? 138))                            (* U+2000 to U+200A *)
       || (z =? 168) || (z =? 169) || (z =? 175)))             (* U+2028, U+2029, U+202F *)
  || ((x =? 226) && (y =? 129) && (z =? 159))                  (* U+205F *)
  || ((x =? 227) && (y =? 128) && (z =? 128))                  (* U+3000 *)
  || ((x =? 239) && (y =? 187) && (z =? 191)).                 (* U+FEFF *)

(** What follows the white space character [s] starts with, if it starts
    with one. *)
Definition white_space (s : string) : option string :=
  match s with
  | String a s1 =>
      if is_space a then Some s1
      else
        match s1 with
        | String b s2 =>
            if is_space2 a b then Some s2
            else
              match s2 with
              | String c s3 => if is_space3 a b c then Some s3 else None
              | EmptyString => None
              end
        | EmptyString => None
        end
  | EmptyString => None
  end.

Fixpoint trim_start (s : string) : string :=
  match s with
  | String a s1 =>
      if is_space a then trim_start s1
      else
        match s1 with
        | String b s2 =>
            if is_space2 a b then trim_start s2
            else
              match s2 with
              | String c s3 => if is_space3 a b c then trim_start s3 else s
              | EmptyString => s
              end
        | EmptyString => s
        end
  | EmptyString => EmptyString
  end.

(** A string of white space only. *)
Definition blank (s : string) : bool :=
  match trim_start s with
  | EmptyString => true
  | _ => false
  end.

(** [trim_end s] drops the trailing white space: what is kept up to a
    character is dropped when it is white space only. *)
Fixpoint trim_end (s : string) : string :=
  match s with
  | String c s' =>
      let kept := String c (trim_end s') in
      if blank kept then EmptyString else kept
  | EmptyString => EmptyString
  end.

Definition trim (s : string) : string := trim_end (trim_start s).

(** U+0009, U+00A0 and U+3000. *)
Definition tab : string := String (ascii_of_nat 9) EmptyString.

Definition nbsp : string :=
  String (ascii_of_nat 194) (String (ascii_of_nat 160) EmptyString).

Definition ideographic_space : string :=
  String (ascii_of_nat 227)
    (String (ascii_of_nat 128) (String (ascii_of_nat 128) EmptyString)).

(** [s.includes(sub)] *)
Fixpoint includes (sub s : string) : bool :=
  prefix sub s ||
  match s with
  | String _ s' => includes sub s'
  | EmptyString => false
  end.

(** [x || fallback] on a possibly absent string: absent and empty are falsy. *)
Definition or_else (x : option string) (fallback : string) : string :=
  match x with
  | Some (String c s) => String c s
  | _ => fallback
  end.

(** [response.ok] *)
Definition http_ok (code : nat) : bool := (200 <=? code) && (code <=? 299).

(** Association lists keyed by [nat], for requests in flight. *)
Fixpoint lookup {A} (k : nat) (l : list (nat * A)) : option A :=
  match l with
  | [] => None
  | (k', v) :: l' => if k =? k' then Some v else lookup k l'
  end.

Fixpoint remove_key {A} (k : nat) (l : list (nat * A)) : list (nat * A) :=
  match l with
  | [] => []
  | (k', v) :: l' => if k =? k' then remove_key k l' else (k', v) :: remove_key k l'
  end.

(** Update of a list at an index; out of range nothing changes (the closures
    indexed this way always exist). *)
Fixpoint update_nth {A} (n : nat) (f : A -> A) (l : list A) : list A :=
  match l, n with
  | [], _ => []
  | x :: l', 0 => f x :: l'
  | x :: l', S n' => x :: update_nth n' f l'
  end.

(** The elements of a list that [f] selects, mapped; used to read logs. *)
Fixpoint pick {A B} (f : A -> option B) (l : list A) : list B :=
  match l with
  | [] => []
  | x :: l' =>
      match f x with
      | Some y => y :: pick f l'
      | None => pick f l'
      end
  end.

(** ** search.js *)

Module Search.

(** The request body [body_data]. *)
Record payload := {
  query : string;
  p_max_results : nat;
  p_hybrid_function : option nat
}.

(** A parsed JSON reply, with the fields the code reads.  JavaScript reads
    them by name on whatever object arrives, so one record serves the search
    and the status endpoint; an absent field is [None] (or [false] for the
    flag, which the code only tests for truth). *)
Record json := {
  j_status : option string;
  j_message : option string;
  j_error : option string;
  j_results : option (list string);
  j_total : option nat;
  j_warning : option (string * option string);
  j_ready_for_search : bool;
  j_model_status : option string;
  j_model_alias : option string
}.

(** What awaiting [fetch(..)] and then [response.json()] yields. *)
Inductive net :=
| NetError (msg : string)                    (* fetch rejects *)
| Unparsable (code : nat) (msg : string)     (* response.json() rejects *)
| Http (code : nat) (data : json).

(** The DOM fields the code reads and writes. *)
Record form := {
  input_value : string;          (* search_input.value *)
  is_hybrid_search : bool;
  max_results_value : nat;       (* parseInt(max_results_select.value) *)
  hybrid_function_value : nat    (* parseInt(hybrid_function_select.value) *)
}.

Record panels := {
  loading_display : bool;        (* loading_indicator.style.display is not none *)
  no_results_display : bool;
  results_display : bool;        (* results_list.style.display is not none *)
  model_loading : option (bool * string);
    (* #model_loading_indicator once created: displayed, text *)
  welcome_display : bool
}.

Record button := {
  disabled : bool;
  text : string;
  loading_class : bool
}.

Record dom := {
  frm : form;
  pan : panels;
  results_items : list string;   (* children of results_list *)
  btn : button;
  loadingNotificationId : option nat  (* search_input.dataset.loadingNotificationId *)
}.

(** The callbacks the interval callback hands to [setTimeout]: after 2 s the
    loading notification is removed; after 3 s it is removed and the timeout
    is shown once more as a toast.  They are recorded in the log and not run:
    they are created only while [loadingNotificationId] is set, and no state
    between two events has it set ([SearchFacts.settled_down_run]). *)
Inductive deferred :=
| RemoveLoadingNotification (id : nat)
| TimeoutToast (id : nat).

(** Effects that leave the page's own state: network requests, toasts,
    the console, timers. *)
Inductive effect :=
| Fetch (rid : nat) (url : string) (body : option payload) (skipNotification : bool)
| Display (data : json)                           (* display_results(data) *)
| Notify (kind title message : string)            (* show_notification *)
| UpdateNotification (id : nat) (title message : string)
| RemoveNotification (id : nat)
| ConsoleError (msg : string)
| SetTimeout (ms : nat) (what : deferred).

(** One call of [poll_for_model_ready_and_search]: its closure. *)
Record poller := {
  timer_active : bool;           (* poll_timer not yet cleared *)
  attempts : nat;
  search_data : payload;
  p_endpoint : string
}.

(** What runs when a reply arrives. *)
Inductive kont :=
| KPrimary (endpoint : string) (body_data : payload)   (* perform_search, line 206 *)
| KStatus (pid : nat)                                  (* the tick, line 255 *)
| KRetry (pid : nat).                                  (* the tick, line 277 *)

Record state := {
  ui : dom;
  pollers : list poller;
  inflight : list (nat * kont);
  next_rid : nat;
  notification_id : nat;        (* the toast counter of the notification script *)
  log : list effect
}.

Definition max_attempts : nat := 60.

(** *** Setters *)

Definition set_ui (f : dom -> dom) (st : state) : state :=
  {| ui := f (ui st); pollers := pollers st; inflight := inflight st;
     next_rid := next_rid st; notification_id := notification_id st;
     log := log st |}.

Definition emit (e : effect) (st : state) : state :=
  {| ui := ui st; pollers := pollers st; inflight := inflight st;
     next_rid := next_rid st; notification_id := notification_id st;
     log := log st ++ [e] |}.

Definition set_pollers (f : list poller -> list poller) (st : state) : state :=
  {| ui := ui st; pollers := f (pollers st); inflight := inflight st;
     next_rid := next_rid st; notification_id := notification_id st;
     log := log st |}.

Definition set_pan (f : panels -> panels) (d : dom) : dom :=
  {| frm := frm d; pan := f (pan d); results_items := results_items d;
     btn := btn d; loadingNotificationId := loadingNotificationId d |}.

Definition set_frm (f : form -> form) (d : dom) : dom :=
  {| frm := f (frm d); pan := pan d; results_items := results_items d;
     btn := btn d; loadingNotificationId := loadingNotificationId d |}.

Definition set_btn (f : button -> button) (d : dom) : dom :=
  {| frm := frm d; pan := pan d; results_items := results_items d;
     btn := f (btn d); loadingNotificationId := loadingNotificationId d |}.

Definition set_items (items : list string) (d : dom) : dom :=
  {| frm := frm d; pan := pan d; results_items := items;
     btn := btn d; loadingNotificationId := loadingNotificationId d |}.

Definition set_loading_id (id : option nat) (d : dom) : dom :=
  {| frm := frm d; pan := pan d; results_items := results_items d;
     btn := btn d; loadingNotificationId := id |}.

(** *** Notifications, as seen from this script *)

(** [show_notification] hands out [notification_id++]. *)
Definition show_notification (kind title message : string) (st : state) : state :=
  {| ui := ui st; pollers := pollers st; inflight := inflight st;
     next_rid := next_rid st; notification_id := S (notification_id st);
     log := log st ++ [Notify kind title message] |}.

Definition showError := show_notification "error".
Definition showWarning := show_notification "warning".
Definition showSuccess := show_notification "success".
Definition showInfo := show_notification "info".

(** *** DOM helpers *)

Definition hide_all_result_elements : state -> state :=
  set_ui (set_pan (fun p =>
    {| loading_display := false; no_results_display := false;
       results_display := false;
       model_loading :=
         match model_loading p with
         | Some (_, t) => Some (false, t)
         | None => None
         end;
       welcome_display := welcome_display p |})).

Definition set_welcome (b : bool) : state -> state :=
  set_ui (set_pan (fun p =>
    {| loading_display := loading_display p;
       no_results_display := no_results_display p;
       results_display := results_display p;
       model_loading := model_loading p;
       welcome_display := b |})).

Definition show_welcome_section := set_welcome true.
Definition hide_welcome_section := set_welcome false.

Definition set_loading_display (b : bool) : state -> state :=
  set_ui (set_pan (fun p =>
    {| loading_display := b;
       no_results_display := no_results_display p;
       results_display := results_display p;
       model_loading := model_loading p;
       welcome_display := welcome_display p |})).

Definition show_loading (st : state) : state :=
  st |> hide_all_result_elements
     |> set_loading_display true
     |> set_ui (set_btn (fun _ =>
          {| disabled := true; text := "Searching..."; loading_class := true |})).

Definition hide_model_loading (st : state) : state :=
  let st1 :=
    st |> set_ui (set_pan (fun p =>
            {| loading_display := loading_display p;
               no_results_display := no_results_display p;
               results_display := results_display p;
               model_loading :=
                 match model_loading p with
                 | Some (_, t) => Some (false, t)
                 | None => None
                 end;
               welcome_display := welcome_display p |}))
       |> set_ui (set_btn (fun b =>
            {| disabled := disabled b; text := text b; loading_class := false |})) in
  match loadingNotificationId (ui st1) with
  | Some id => st1 |> emit (RemoveNotification id) |> set_ui (set_loading_id None)
  | None => st1
  end.

Definition hide_loading (st : state) : state :=
  st |> set_loading_display false
     |> set_ui (set_btn (fun _ =>
          {| disabled := false; text := "Search"; loading_class := false |}))
     |> hide_model_loading.

Definition show_model_loading_message (message : option string) (st : state) : state :=
  let st1 := hide_all_result_elements st in
  let id := notification_id st1 in
  st1 |> showInfo "Model Loading"
           "The AI model is loading. Please wait while we prepare your search..."
      |> set_ui (set_loading_id (Some id))
      |> set_ui (set_pan (fun p =>
           {| loading_display := loading_display p;
              no_results_display := no_results_display p;
              results_display := results_display p;
              model_loading :=
                Some (true, match message with Some m => m | None => "undefined" end);
              welcome_display := welcome_display p |}))
      |> set_ui (set_btn (fun _ =>
           {| disabled := true; text := "Loading Model..."; loading_class := true |})).

Definition update_model_loading_message (message : string) (st : state) : state :=
  let st1 :=
    st |> set_ui (set_pan (fun p =>
            {| loading_display := loading_display p;
               no_results_display := no_results_display p;
               results_display := results_display p;
               model_loading :=
                 match model_loading p with
                 | Some (d, _) => Some (d, message)
                 | None => None
                 end;
               welcome_display := welcome_display p |})) in
  match loadingNotificationId (ui st1) with
  | Some id => emit (UpdateNotification id "Model Loading" message) st1
  | None => st1
  end.

Definition show_results (st : state) : state :=
  st |> hide_all_result_elements
     |> set_ui (set_pan (fun p =>
          {| loading_display := loading_display p;
             no_results_display := no_results_display p;
             results_display := true;
             model_loading := model_loading p;
             welcome_display := welcome_display p |})).

Definition show_no_results (st : state) : state :=
  st |> hide_all_result_elements
     |> set_ui (set_pan (fun p =>
          {| loading_display := loading_display p;
             no_results_display := true;
             results_display := results_display p;
             model_loading := model_loading p;
             welcome_display := welcome_display p |})).

Definition show_error_message (message : string) (st : state) : state :=
  st |> hide_all_result_elements |> showError "Search Error" message.

Definition show_warning_message (warning : string * option string) (st : state) : state :=
  let message :=
    match snd warning with
    | Some (String c r) => fst warning +++ " (" +++ String c r +++ ")"
    | _ => fst warning
    end in
  showWarning "Search Warning" message st.

Definition clear_results (st : state) : state :=
  st |> hide_all_result_elements
     |> set_ui (set_items [])
     |> set_ui (set_frm (fun f =>
          {| input_value := ""; is_hybrid_search := is_hybrid_search f;
             max_results_value := max_results_value f;
             hybrid_function_value := hybrid_function_value f |}))
     |> show_welcome_section.

Definition display_normal_results (items : list string) (st : state) : state :=
  st |> set_ui (set_items items) |> show_results.

Definition display_results (data : json) (st : state) : state :=
  let st1 := emit (Display data) st in
  let st2 :=
    match j_warning data with
    | Some w => show_warning_message w st1
    | None => st1
    end in
  match j_results data, j_total data with
  | None, _ => show_no_results st2
  | Some _, Some 0 => show_no_results st2
  | Some items, _ => display_normal_results items st2
  end.

(** *** Requests and timers *)

(** [fetch(url, {body, skipNotification})] up to the [await]: the request
    goes out and the rest of the caller waits as [k]. *)
Definition fetch (url : string) (body : option payload) (skip : bool) (k : kont)
    (st : state) : state :=
  {| ui := ui st; pollers := pollers st;
     inflight := inflight st ++ [(next_rid st, k)];
     next_rid := S (next_rid st); notification_id := notification_id st;
     log := log st ++ [Fetch (next_rid st) url body skip] |}.

Definition settle (rid : nat) (st : state) : state :=
  {| ui := ui st; pollers := pollers st;
     inflight := remove_key rid (inflight st);
     next_rid := next_rid st; notification_id := notification_id st;
     log := log st |}.

Definition clearInterval (pid : nat) : state -> state :=
  set_pollers (update_nth pid (fun p =>
    {| timer_active := false; attempts := attempts p;
       search_data := search_data p; p_endpoint := p_endpoint p |})).

(** [poll_for_model_ready_and_search(search_data, endpoint)]: it only arms the
    interval and returns. *)
Definition poll_for_model_ready_and_search (data : payload) (endpoint : string)
    (st : state) : state :=
  st |> set_pollers (fun ps => ps ++
          [{| timer_active := true; attempts := 0;
              search_data := data; p_endpoint := endpoint |}]).

(** The [catch] of the interval callback, lines 328-340. *)
Definition poll_catch (pid : nat) (msg : string) (st : state) : state :=
  let st1 := st |> clearInterval pid |> emit (ConsoleError ("Polling error: " +++ msg)) in
  let st2 :=
    match loadingNotificationId (ui st1) with
    | Some id => st1 |> emit (RemoveNotification id) |> set_ui (set_loading_id None)
    | None => st1
    end in
  st2 |> show_error_message ("Search failed: " +++ msg) |> hide_loading.

Definition timeout_message : string :=
  "Model loading timeout - please try again later".

(** The interval callback up to its first [await], lines 252-255.  The poll
    carries no skipNotification; on a page that loaded the notification script
    it passes the wrapper of module [FetchWrap], which leaves a reply that is
    not 2xx with its body used up, so that such a reply reaches the callback
    as [Unparsable]. *)
Definition poll_tick (pid : nat) (st : state) : state :=
  match nth_error (pollers st) pid with
  | Some p =>
      if timer_active p then
        st |> set_pollers (update_nth pid (fun p =>
                {| timer_active := timer_active p; attempts := S (attempts p);
                   search_data := search_data p; p_endpoint := p_endpoint p |}))
           |> fetch "/api/search/status" None false (KStatus pid)
      else st
  | None => st
  end.

(** The callback from the status reply on, lines 256-326. *)
Definition poll_status_resume (pid : nat) (r : net) (st : state) : state :=
  match nth_error (pollers st) pid with
  | None => st
  | Some p =>
    match r with
    | NetError msg => poll_catch pid msg st
    | Unparsable _ msg => poll_catch pid msg st
    | Http _ status_data =>
        if j_ready_for_search status_data then
          let st1 := clearInterval pid st in
          let st2 :=
            match loadingNotificationId (ui st1) with
            | Some id =>
                st1 |> emit (UpdateNotification id "Model Ready"
                               "Model loaded successfully! Processing your search...")
                    |> emit (SetTimeout 2000 (RemoveLoadingNotification id))
            | None => st1
            end in
          st2 |> show_loading
              |> fetch (p_endpoint p) (Some (search_data p)) true (KRetry pid)
        else
          let progress_message :=
            if match j_model_status status_data with
               | Some m => String.eqb m "loading"
               | None => false
               end
            then "AI model is loading, please wait... ("
                   +++ nat_to_string (attempts p) +++ "s elapsed)"
            else "Loading model... (" +++ nat_to_string (attempts p) +++ "s)" in
          let st1 := update_model_loading_message progress_message st in
          if max_attempts <=? attempts p then
            let st2 := clearInterval pid st1 in
            let st3 :=
              match loadingNotificationId (ui st2) with
              | Some id =>
                  st2 |> emit (UpdateNotification id "Loading Timeout"
                            "Model loading is taking longer than expected. Please try again.")
                      |> emit (SetTimeout 3000 (TimeoutToast id))
              | None => st2
              end in
            poll_catch pid timeout_message st3
          else st1
    end
  end.

(** The callback from the retried search's reply on, lines 286-297. *)
Definition poll_retry_resume (pid : nat) (r : net) (st : state) : state :=
  match nth_error (pollers st) pid with
  | None => st
  | Some p =>
    match r with
    | NetError msg => poll_catch pid msg st
    | Unparsable _ msg => poll_catch pid msg st
    | Http code search_result =>
        if http_ok code then
          st |> display_results search_result
             |> showSuccess "Search Complete"
                  ("Found " +++ match j_total search_result with
                               | Some n => nat_to_string n
                               | None => "undefined"
                               end
                   +++ " results for " +++ dquote +++ query (search_data p) +++ dquote)
             |> hide_loading
        else
          poll_catch pid
            (or_else (j_error search_result)
               ("HTTP error! status: " +++ nat_to_string code)) st
    end
  end.

(** *** perform_search *)

(** The [catch] and [finally] of [perform_search], lines 238-243. *)
Definition search_catch (msg : string) (st : state) : state :=
  st |> emit (ConsoleError ("Search failed: " +++ msg))
     |> show_error_message ("Search failed: " +++ msg)
     |> hide_loading.

(** The endpoint and the body [perform_search] builds from the form,
    lines 196-204. *)
Definition endpoint_of (f : form) : string :=
  if is_hybrid_search f then "/search_complex" else "/search".

Definition body_data_of (f : form) : payload :=
  let hybrid_function := if is_hybrid_search f then hybrid_function_value f else 1 in
  {| query := trim (input_value f);
     p_max_results := max_results_value f;
     p_hybrid_function :=
       if is_hybrid_search f then Some hybrid_function else None |}.

(** [perform_search] up to its first [await], lines 182-213. *)
Definition perform_search (st : state) : state :=
  let f := frm (ui st) in
  match trim (input_value f) with
  | EmptyString => show_error_message "Please enter a search query" st
  | _ =>
      st |> hide_welcome_section
         |> show_loading
         |> fetch (endpoint_of f) (Some (body_data_of f)) true
              (KPrimary (endpoint_of f) (body_data_of f))
  end.

(** [perform_search] from the reply on, lines 215-243. *)
Definition perform_search_resume (endpoint : string) (body_data : payload)
    (r : net) (st : state) : state :=
  match r with
  | NetError msg => search_catch msg st
  | Unparsable _ msg => search_catch msg st
  | Http code data =>
      if (code =? 202) &&
         match j_status data with
         | Some s => String.eqb s "model_loading"
         | None => false
         end
      then
        let st1 := show_model_loading_message (j_message data) st in
        match j_message data with
        | None =>
            (* data.message.includes throws a TypeError *)
            search_catch "Cannot read properties of undefined (reading 'includes')" st1
        | Some m =>
            let st2 :=
              if includes "now loading" m then
                showInfo "First Search Setup"
                  "Initializing AI model for the first time. Subsequent searches will be much faster!"
                  st1
              else st1 in
            st2 |> poll_for_model_ready_and_search body_data endpoint
                |> hide_loading
        end
      else if negb (http_ok code) then
        search_catch
          (or_else (j_error data) ("HTTP error! status: " +++ nat_to_string code)) st
      else
        st |> display_results data |> hide_loading
  end.

(** The other listeners of [setup_event_listeners] and the mode toggle. *)
Definition on_input (s : string) (st : state) : state :=
  let st1 :=
    st |> set_ui (set_frm (fun f =>
            {| input_value := s; is_hybrid_search := is_hybrid_search f;
               max_results_value := max_results_value f;
               hybrid_function_value := hybrid_function_value f |})) in
  match trim s with
  | EmptyString => clear_results st1
  | _ => st1
  end.

Definition toggle_search_mode (st : state) : state :=
  st |> set_ui (set_frm (fun f =>
          {| input_value := input_value f;
             is_hybrid_search := negb (is_hybrid_search f);
             max_results_value := max_results_value f;
             hybrid_function_value := hybrid_function_value f |}))
     |> clear_results.

(** The user picks another number of results; the change listener clears the
    results. *)
Definition on_max_results_change (n : nat) (st : state) : state :=
  st |> set_ui (set_frm (fun f =>
          {| input_value := input_value f;
             is_hybrid_search := is_hybrid_search f;
             max_results_value := n;
             hybrid_function_value := hybrid_function_value f |}))
     |> clear_results.

(** The user picks another hybrid function; nothing listens. *)
Definition on_hybrid_function_change (n : nat) : state -> state :=
  set_ui (set_frm (fun f =>
    {| input_value := input_value f;
       is_hybrid_search := is_hybrid_search f;
       max_results_value := max_results_value f;
       hybrid_function_value := n |})).

(** *** The event loop *)

Inductive event :=
| Input (s : string)            (* the user edits the search box *)
| Submit                        (* click on the button or Enter: perform_search() *)
| Toggle                        (* click on the mode toggle *)
| SelectMax (n : nat)           (* another entry of max_results_select *)
| SelectFunction (n : nat)      (* another entry of hybrid_function_select *)
| Tick (pid : nat)              (* the interval of poller [pid] fires *)
| Response (rid : nat) (r : net).

Definition step (st : state) (e : event) : state :=
  match e with
  | Input s => on_input s st
  | Submit => perform_search st
  | Toggle => toggle_search_mode st
  | SelectMax n => on_max_results_change n st
  | SelectFunction n => on_hybrid_function_change n st
  | Tick pid => poll_tick pid st
  | Response rid r =>
      match lookup rid (inflight st) with
      | None => st
      | Some k =>
          let st' := settle rid st in
          match k with
          | KPrimary endpoint body_data => perform_search_resume endpoint body_data r st'
          | KStatus pid => poll_status_resume pid r st'
          | KRetry pid => poll_retry_resume pid r st'
          end
      end
  end.

Definition run (st : state) (evs : list event) : state := fold_left step evs st.

(** The page after [initialize_search]: everything hidden but the welcome
    section, nothing in flight. *)
Definition init (hybrid : bool) (max_results hybrid_function : nat) : state :=
  {| ui :=
       {| frm := {| input_value := ""; is_hybrid_search := hybrid;
                    max_results_value := max_results;
                    hybrid_function_value := hybrid_function |};
          pan := {| loading_display := false; no_results_display := false;
                    results_display := false; model_loading := None;
                    welcome_display := true |};
          results_items := [];
          btn := {| disabled := false; text := "Search"; loading_class := false |};
          loadingNotificationId := None |};
     pollers := []; inflight := []; next_rid := 0; notification_id := 1;
     log := [] |}.

(** *** Replies of the backend, as section 6 of the specification lists them *)

Definition status_reply (ready : bool) (model_status : string) : json :=
  {| j_status := None; j_message := None; j_error := None; j_results := None;
     j_total := None; j_warning := None;
     j_ready_for_search := ready; j_model_status := Some model_status;
     j_model_alias := None |}.

Definition loading_reply (message : string) : json :=
  {| j_status := Some "model_loading"; j_message := Some message;
     j_error := None; j_results := None; j_total := None; j_warning := None;
     j_ready_for_search := false; j_model_status := None;
     j_model_alias := None |}.

Definition results_reply (items : list string) : json :=
  {| j_status := None; j_message := None; j_error := None;
     j_results := Some items; j_total := Some (List.length items);
     j_warning := None; j_ready_for_search := false; j_model_status := None;
     j_model_alias := None |}.

Definition error_reply (err : string) : json :=
  {| j_status := None; j_message := None; j_error := Some err;
     j_results := None; j_total := None; j_warning := None;
     j_ready_for_search := false; j_model_status := None;
     j_model_alias := None |}.

(** *** What a run did, read off its log *)

(** Requests that carry a search payload: the primary request and retries. *)
Definition search_requests : list effect -> list (string * payload) :=
  pick (fun e => match e with
                 | Fetch _ url (Some b) _ => Some (url, b)
                 | _ => None
                 end).

(** Status polls sent. *)
Definition status_polls : list effect -> list nat :=
  pick (fun e => match e with
                 | Fetch rid _ None _ => Some rid
                 | _ => None
                 end).

(** Replies handed to [display_results]. *)
Definition displayed : list effect -> list json :=
  pick (fun e => match e with Display d => Some d | _ => None end).

(** Messages of the error toasts. *)
Definition errors_shown : list effect -> list string :=
  pick (fun e => match e with
                 | Notify kind _ m => if String.eqb kind "error" then Some m else None
                 | _ => None
                 end).

(** The timer of poller [pid] is armed. *)
Definition polling (pid : nat) (st : state) : bool :=
  match nth_error (pollers st) pid with
  | Some p => timer_active p
  | None => false
  end.

(** Every status reply arrives before the next tick: one round per reply. *)
Fixpoint sequential_polls (pid : nat) (rs : list net) (st : state) : state :=
  match rs with
  | [] => st
  | r :: rs' =>
      sequential_polls pid rs'
        (step (step st (Tick pid)) (Response (next_rid st) r))
  end.

Definition not_ready (r : net) : Prop :=
  match r with
  | Http _ d => j_ready_for_search d = false
  | _ => False
  end.

(** Request identifiers not yet handed out are not in flight. *)
Definition well_formed (st : state) : Prop :=
  forall r, next_rid st <= r -> lookup r (inflight st) = None.

End Search.

(** ** The debug panel: embedding progress *)

Module Debug.

(** The JSON objects of the progress and the generation endpoint, with the
    fields the code reads. *)
Record json := {
  active : bool;                 (* truthiness of progress.active *)
  error : option string;         (* None when absent or falsy *)
  stage : string;
  percentage : nat;
  success : bool;
  processed : nat;
  skipped : nat;
  errors : nat
}.

Inductive body :=
| Unparsable (msg : string)      (* response.json() rejects *)
| Null                           (* a falsy value *)
| Obj (j : json).

Inductive reply :=
| NetFail (msg : string)         (* fetch rejects *)
| Http (ok : bool) (b : body).

Inductive timer_kind :=
| Fast                           (* start_progress_polling, every second *)
| Background                     (* start_background_progress_monitoring, 5 s *)
| Statistics                     (* start_statistics_polling *)
| SystemInfo.                    (* start_system_info_polling *)

Inductive container_class := Idle | Active | Completed.

(** The progress widgets.  Their four text fields are a function of the
    snapshot handed to [update_progress_display], or the fixed texts of the
    idle state. *)
Inductive display :=
| ReadyText
| Rendered (j : json).

(** Who called [check_embedding_progress_on_open]; the code does not keep
    this, it is recorded here to tell the two callers apart. *)
Inductive origin := FromPanel | FromBackground.

Inductive kont :=
| KBackground                    (* background tick, line 29 *)
| KCheck (o : origin)            (* check_embedding_progress_on_open, line 235 *)
| KProgress                      (* fast tick, line 407 *)
| KGenerate.                     (* trigger_embedding_generation, line 293 *)

Inductive timeout_kind :=
| CloseDone                      (* hide_debug_panel, 300 ms *)
| ResetIdle                      (* after completion, 5 s *)
| ResetUnlessCompleted.          (* trigger_embedding_generation, 3 s *)

Inductive effect :=
| Fetch (rid : nat) (url : string)
| Render (j : json)                            (* update_progress_display *)
| SetContainer (c : container_class)           (* progress_container.className *)
| StartFast (by_whom : option origin) (prior : option nat)
    (* start_progress_polling was called; [prior] is global_progress_interval
       at that moment *)
| Toast (kind title message : string)
| ConsoleError (msg : string).

Record state := {
  is_debug_open : bool;
  global_progress_interval : option nat;
  background_progress_check : option nat;
  statistics_polling_interval : option nat;
  system_info_polling_interval : option nat;
  timers : list (nat * timer_kind);       (* the intervals the browser runs *)
  timeouts : list (nat * timeout_kind);   (* the timeouts still pending *)
  next_timer : nat;
  inflight : list (nat * kont);
  next_rid : nat;
  container : container_class;
  shown : display;
  button_disabled : bool;
  button_text : string;
  log : list effect
}.

(** *** Setters *)

Definition emit (e : effect) (st : state) : state :=
  {| is_debug_open := is_debug_open st;
     global_progress_interval := global_progress_interval st;
     background_progress_check := background_progress_check st;
     statistics_polling_interval := statistics_polling_interval st;
     system_info_polling_interval := system_info_polling_interval st;
     timers := timers st; timeouts := timeouts st; next_timer := next_timer st;
     inflight := inflight st; next_rid := next_rid st;
     container := container st; shown := shown st;
     button_disabled := button_disabled st; button_text := button_text st;
     log := log st ++ [e] |}.

Definition set_open (b : bool) (st : state) : state :=
  {| is_debug_open := b;
     global_progress_interval := global_progress_interval st;
     background_progress_check := background_progress_check st;
     statistics_polling_interval := statistics_polling_interval st;
     system_info_polling_interval := system_info_polling_interval st;
     timers := timers st; timeouts := timeouts st; next_timer := next_timer st;
     inflight := inflight st; next_rid := next_rid st;
     container := container st; shown := shown st;
     button_disabled := button_disabled st; button_text := button_text st;
     log := log st |}.

(** The four module variables that hold interval identifiers. *)
Definition var (k : timer_kind) (st : state) : option nat :=
  match k with
  | Fast => global_progress_interval st
  | Background => background_progress_check st
  | Statistics => statistics_polling_interval st
  | SystemInfo => system_info_polling_interval st
  end.

Definition set_var (k : timer_kind) (v : option nat) (st : state) : state :=
  {| is_debug_open := is_debug_open st;
     global_progress_interval :=
       match k with Fast => v | _ => global_progress_interval st end;
     background_progress_check :=
       match k with Background => v | _ => background_progress_check st end;
     statistics_polling_interval :=
       match k with Statistics => v | _ => statistics_polling_interval st end;
     system_info_polling_interval :=
       match k with SystemInfo => v | _ => system_info_polling_interval st end;
     timers := timers st; timeouts := timeouts st; next_timer := next_timer st;
     inflight := inflight st; next_rid := next_rid st;
     container := container st; shown := shown st;
     button_disabled := button_disabled st; button_text := button_text st;
     log := log st |}.

Definition set_timers (f : list (nat * timer_kind) -> list (nat * timer_kind))
    (next : nat) (st : state) : state :=
  {| is_debug_open := is_debug_open st;
     global_progress_interval := global_progress_interval st;
     background_progress_check := background_progress_check st;
     statistics_polling_interval := statistics_polling_interval st;
     system_info_polling_interval := system_info_polling_interval st;
     timers := f (timers st); timeouts := timeouts st; next_timer := next;
     inflight := inflight st; next_rid := next_rid st;
     container := container st; shown := shown st;
     button_disabled := button_disabled st; button_text := button_text st;
     log := log st |}.

Definition set_timeouts (f : list (nat * timeout_kind) -> list (nat * timeout_kind))
    (next : nat) (st : state) : state :=
  {| is_debug_open := is_debug_open st;
     global_progress_interval := global_progress_interval st;
     background_progress_check := background_progress_check st;
     statistics_polling_interval := statistics_polling_interval st;
     system_info_polling_interval := system_info_polling_interval st;
     timers := timers st; timeouts := f (timeouts st); next_timer := next;
     inflight := inflight st; next_rid := next_rid st;
     container := container st; shown := shown st;
     button_disabled := button_disabled st; button_text := button_text st;
     log := log st |}.

Definition set_container (c : container_class) (st : state) : state :=
  {| is_debug_open := is_debug_open st;
     global_progress_interval := global_progress_interval st;
     background_progress_check := background_progress_check st;
     statistics_polling_interval := statistics_polling_interval st;
     system_info_polling_interval := system_info_polling_interval st;
     timers := timers st; timeouts := timeouts st; next_timer := next_timer st;
     inflight := inflight st; next_rid := next_rid st;
     container := c; shown := shown st;
     button_disabled := button_disabled st; button_text := button_text st;
     log := log st ++ [SetContainer c] |}.

Definition set_shown (d : display) (st : state) : state :=
  {| is_debug_open := is_debug_open st;
     global_progress_interval := global_progress_interval st;
     background_progress_check := background_progress_check st;
     statistics_polling_interval := statistics_polling_interval st;
     system_info_polling_interval := system_info_polling_interval st;
     timers := timers st; timeouts := timeouts st; next_timer := next_timer st;
     inflight := inflight st; next_rid := next_rid st;
     container := container st; shown := d;
     button_disabled := button_disabled st; button_text := button_text st;
     log := log st |}.

Definition set_button (d : bool) (t : string) (st : state) : state :=
  {| is_debug_open := is_debug_open st;
     global_progress_interval := global_progress_interval st;
     background_progress_check := background_progress_check st;
     statistics_polling_interval := statistics_polling_interval st;
     system_info_polling_interval := system_info_polling_interval st;
     timers := timers st; timeouts := timeouts st; next_timer := next_timer st;
     inflight := inflight st; next_rid := next_rid st;
     container := container st; shown := shown st;
     button_disabled := d; button_text := t;
     log := log st |}.

Definition set_inflight (f : list (nat * kont) -> list (nat * kont)) (next : nat)
    (st : state) : state :=
  {| is_debug_open := is_debug_open st;
     global_progress_interval := global_progress_interval st;
     background_progress_check := background_progress_check st;
     statistics_polling_interval := statistics_polling_interval st;
     system_info_polling_interval := system_info_polling_interval st;
     timers := timers st; timeouts := timeouts st; next_timer := next_timer st;
     inflight := f (inflight st); next_rid := next;
     container := container st; shown := shown st;
     button_disabled := button_disabled st; button_text := button_text st;
     log := log st |}.

(** *** Timers and requests *)

(** [v = setInterval(callback, ..)]: the browser hands out a fresh, non-zero
    identifier.  Intervals and timeouts share the counter. *)
Definition setInterval (k : timer_kind) (st : state) : state :=
  st |> set_timers (fun ts => ts ++ [(next_timer st, k)]) (S (next_timer st))
     |> set_var k (Some (next_timer st)).

(** [if (v) { clearInterval(v); v = null; }] *)
Definition stop (k : timer_kind) (st : state) : state :=
  match var k st with
  | Some id => st |> set_timers (remove_key id) (next_timer st) |> set_var k None
  | None => st
  end.

Definition setTimeout (k : timeout_kind) (st : state) : state :=
  set_timeouts (fun ts => ts ++ [(next_timer st, k)]) (S (next_timer st)) st.

Definition fetch (url : string) (k : kont) (st : state) : state :=
  st |> set_inflight (fun l => l ++ [(next_rid st, k)]) (S (next_rid st))
     |> emit (Fetch (next_rid st) url).

Definition stop_progress_polling := stop Fast.
Definition stop_background_progress_monitoring := stop Background.
Definition stop_statistics_polling := stop Statistics.
Definition stop_system_info_polling := stop SystemInfo.

Definition start_progress_polling (by_whom : option origin) (st : state) : state :=
  st |> emit (StartFast by_whom (global_progress_interval st))
     |> stop_progress_polling
     |> setInterval Fast.

Definition start_background_progress_monitoring (st : state) : state :=
  st |> stop_background_progress_monitoring |> setInterval Background.

Definition start_statistics_polling (st : state) : state :=
  st |> stop_statistics_polling |> setInterval Statistics.

Definition start_system_info_polling (st : state) : state :=
  st |> stop_system_info_polling |> setInterval SystemInfo.

Definition update_progress_display (j : json) (st : state) : state :=
  st |> emit (Render j) |> set_shown (Rendered j).

(** The texts of the idle widget, lines 432-441 and 340-349. *)
Definition reset_idle (st : state) : state :=
  st |> set_container Idle |> set_shown ReadyText.

Definition progress_url : string := "/api/embeddings/progress".

(** [check_embedding_progress_on_open] up to its [await]. *)
Definition check_embedding_progress_on_open (o : origin) : state -> state :=
  fetch progress_url (KCheck o).

(** ... and from the reply on, lines 239-270. *)
Definition check_resume (o : origin) (r : reply) (st : state) : state :=
  match r with
  | NetFail msg =>
      emit (ConsoleError ("[DEBUG] Failed to check embedding progress: " +++ msg)) st
  | Http false _ => st
  | Http true (Unparsable msg) =>
      emit (ConsoleError ("[DEBUG] Failed to check embedding progress: " +++ msg)) st
  | Http true Null => st
  | Http true (Obj progress) =>
      match error progress, active progress with
      | None, true =>
          st |> set_button true "Generating..."
             |> set_container Active
             |> update_progress_display progress
             |> start_progress_polling (Some o)
      | _, _ => st
      end
  end.

(** The background interval, lines 25-46. *)
Definition background_tick (st : state) : state :=
  match global_progress_interval st with
  | Some _ => st
  | None => fetch progress_url KBackground st
  end.

Definition background_resume (r : reply) (st : state) : state :=
  match r with
  | NetFail _ => st
  | Http false _ => stop_background_progress_monitoring st
  | Http true (Unparsable _) => st
  | Http true Null => st
  | Http true (Obj progress) =>
      match error progress, active progress with
      | None, true => check_embedding_progress_on_open FromBackground st
      | _, _ => st
      end
  end.

(** The fast interval, lines 405-448. *)
Definition progress_tick : state -> state := fetch progress_url KProgress.

Definition progress_resume (r : reply) (st : state) : state :=
  match r with
  | NetFail msg => emit (ConsoleError ("Failed to fetch progress: " +++ msg)) st
  | Http false _ => stop_progress_polling st
  | Http true (Unparsable msg) =>
      emit (ConsoleError ("Failed to fetch progress: " +++ msg)) st
  | Http true Null => st
  | Http true (Obj progress) =>
      match error progress with
      | Some _ => st
      | None =>
          let st1 := update_progress_display progress st in
          if active progress then st1
          else
            st1 |> stop_progress_polling
                |> set_button false "Generate Embeddings"
                |> set_container Completed
                |> setTimeout ResetIdle
      end
  end.

(** [trigger_embedding_generation], lines 281-353. *)
Definition trigger_embedding_generation (st : state) : state :=
  st |> set_button true "Generating..."
     |> set_container Active
     |> start_progress_polling None
     |> fetch "/api/embeddings/generate" KGenerate.

Definition generate_finally (st : state) : state :=
  st |> set_button false "Generate Embeddings"
     |> setTimeout ResetUnlessCompleted.

Definition generate_catch (msg : string) (st : state) : state :=
  st |> emit (ConsoleError ("Failed to generate embeddings: " +++ msg))
     |> emit (Toast "error" "Embedding Generation Error"
                ("Failed to generate embeddings: " +++ msg))
     |> stop_progress_polling
     |> set_container Idle.

Definition generate_resume (r : reply) (st : state) : state :=
  match r with
  | NetFail msg => st |> generate_catch msg |> generate_finally
  | Http false _ =>
      st |> stop_progress_polling
         |> emit (Toast "error" "Generation Failed" "Unable to start embedding generation")
         |> generate_finally
  | Http true (Unparsable msg) => st |> generate_catch msg |> generate_finally
  | Http true Null =>
      (* result.success on null throws after the poller was stopped *)
      st |> stop_progress_polling
         |> generate_catch "Cannot read properties of null (reading 'success')"
         |> generate_finally
  | Http true (Obj result) =>
      let st1 := stop_progress_polling st in
      if success result then
        st1 |> emit (Toast "success" "Embedding Generation Complete"
                       ("Processed: " +++ nat_to_string (processed result)
                        +++ ", Skipped: " +++ nat_to_string (skipped result)
                        +++ ", Errors: " +++ nat_to_string (errors result)))
            |> update_progress_display
                 {| active := false; error := None; stage := "Completed";
                    percentage := 100; success := false;
                    processed := processed result; skipped := skipped result;
                    errors := errors result |}
            |> generate_finally
      else
        match error result with
        | Some e =>
            st1 |> emit (Toast "error" "Embedding Generation Failed" e)
                |> set_container Idle
                |> generate_finally
        | None =>
            (* showError throws in escape_html on the missing message *)
            st1 |> generate_catch
                     "Cannot read properties of undefined (reading 'replace')"
                |> generate_finally
        end
  end.

(** [show_debug_panel] and [hide_debug_panel].  Refreshing the statistics and
    the system information writes fields of the panel that are not part of
    this state; their two intervals are kept. *)
Definition show_debug_panel (st : state) : state :=
  if is_debug_open st then st
  else
    st |> set_open true
       |> start_statistics_polling
       |> start_system_info_polling
       |> start_background_progress_monitoring
       |> check_embedding_progress_on_open FromPanel.

Definition hide_debug_panel (st : state) : state :=
  if is_debug_open st then
    st |> stop_progress_polling
       |> stop_statistics_polling
       |> stop_system_info_polling
       |> stop_background_progress_monitoring
       |> setTimeout CloseDone
  else st.

Definition fire_timeout (k : timeout_kind) (st : state) : state :=
  match k with
  | CloseDone => set_open false st
  | ResetIdle => reset_idle st
  | ResetUnlessCompleted =>
      match container st with
      | Completed => st
      | _ => reset_idle st
      end
  end.

(** *** The event loop *)

Inductive event :=
| OpenPanel                      (* show_debug_panel() *)
| ClosePanel                     (* hide_debug_panel() *)
| ClickGenerate                  (* trigger_embedding_generation() *)
| Tick (id : nat)                (* interval [id] fires *)
| Timeout (id : nat)             (* timeout [id] fires *)
| Reply (rid : nat) (r : reply).

Definition step (st : state) (e : event) : state :=
  match e with
  | OpenPanel => show_debug_panel st
  | ClosePanel => hide_debug_panel st
  | ClickGenerate => trigger_embedding_generation st
  | Tick id =>
      match lookup id (timers st) with
      | Some Fast => progress_tick st
      | Some Background => background_tick st
      | Some Statistics => st
      | Some SystemInfo => st
      | None => st
      end
  | Timeout id =>
      match lookup id (timeouts st) with
      | Some k =>
          st |> set_timeouts (remove_key id) (next_timer st) |> fire_timeout k
      | None => st
      end
  | Reply rid r =>
      match lookup rid (inflight st) with
      | None => st
      | Some k =>
          let st' := set_inflight (remove_key rid) (next_rid st) st in
          match k with
          | KBackground => background_resume r st'
          | KCheck o => check_resume o r st'
          | KProgress => progress_resume r st'
          | KGenerate => generate_resume r st'
          end
      end
  end.

Definition run (st : state) (evs : list event) : state := fold_left step evs st.

(** The page once loaded: panel closed, no timer, the widget idle. *)
Definition init : state :=
  {| is_debug_open := false;
     global_progress_interval := None; background_progress_check := None;
     statistics_polling_interval := None; system_info_polling_interval := None;
     timers := []; timeouts := []; next_timer := 1;
     inflight := []; next_rid := 0;
     container := Idle; shown := ReadyText;
     button_disabled := false; button_text := "Generate Embeddings";
     log := [] |}.

(** *** What a run did *)

Definition snapshot (is_active : bool) (stage_text : string) (pct : nat) : json :=
  {| active := is_active; error := None; stage := stage_text; percentage := pct;
     success := false; processed := 0; skipped := 0; errors := 0 |}.

Definition kind_eqb (a b : timer_kind) : bool :=
  match a, b with
  | Fast, Fast | Background, Background
  | Statistics, Statistics | SystemInfo, SystemInfo => true
  | _, _ => false
  end.

(** The intervals of one kind that the browser is running. *)
Definition running_in (k : timer_kind) (ts : list (nat * timer_kind)) : list nat :=
  pick (fun t : nat * timer_kind =>
          if kind_eqb (snd t) k then Some (fst t) else None) ts.

Definition running (k : timer_kind) (st : state) : list nat :=
  running_in k (timers st).

(** Completion updates: the container was set to [completed]. *)
Definition completions : list effect -> nat :=
  fun l => List.length (pick (fun e => match e with
                                         | SetContainer Completed => Some tt
                                         | _ => None
                                         end) l).

Definition renders : list effect -> list json :=
  pick (fun e => match e with Render j => Some j | _ => None end).

Definition progress_fetches : list effect -> list nat :=
  pick (fun e => match e with Fetch rid _ => Some rid | _ => None end).

(** One round of the fast poller: its tick, then the reply to its request;
    and a run of rounds, one per snapshot, none overlapping. *)
Definition progress_round (id : nat) (j : json) (st : state) : state :=
  step (step st (Tick id)) (Reply (next_rid st) (Http true (Obj j))).

Fixpoint progress_rounds (id : nat) (js : list json) (st : state) : state :=
  match js with
  | [] => st
  | j :: js' => progress_rounds id js' (progress_round id j st)
  end.

(** Hand-offs of the background checker that found a fast poller running. *)
Definition handoffs_over_running : list effect -> list nat :=
  pick (fun e => match e with
                        | StartFast (Some FromBackground) (Some id) => Some id
                        | _ => None
                        end).

End Debug.

(** ** The React hook useSearch *)

Module UseSearch.

Import Search.

(** The query string of the page, as [updateUrlParams] leaves it. *)
Record url := {
  u_q : option string;
  u_max : option nat;
  u_mode_hybrid : bool;
  u_func : option nat
}.

(** One call of [performSearch]: its arguments, the settings its closure
    captured and its local variables. *)
Record call := {
  c_query : string;
  c_hybrid : bool;
  c_max : nat;
  c_func : nat;
  statusPollInterval : option nat;
  searchCompleted : bool;
  pollInterval : option nat
}.

Inductive timer_kind :=
| StatusPoll (c : nat)           (* startStatusPolling, 500 ms *)
| ReadyPoll (c : nat).           (* the 202 branch, 2 s *)

Inductive kont :=
| KStatusPoll (c : nat)          (* line 359 *)
| KSearch (c : nat)              (* line 392 *)
| KReadyPoll (c : nat).          (* line 414 *)

Inductive effect :=
| Fetch (rid : nat) (url : string) (body : option payload)
| OnError (msg : string)
| OnWarning (msg : string)
| Console (msg : string).

Record state := {
  isLoading : bool;
  loadingMessage : string;
  results : list string;
  currentQuery : string;
  isHybridSearch : bool;
  maxResults : nat;
  hybridFunction : nat;
  location : url;
  calls : list call;
  timers : list (nat * timer_kind);
  timeouts : list (nat * nat);       (* the 60 s deadline of a call *)
  next_timer : nat;
  inflight : list (nat * kont);
  next_rid : nat;
  log : list effect
}.

Section Config.

(** [config.defaultMaxResults] *)
Variable defaultMaxResults : nat.

Definition emit (e : effect) (st : state) : state :=
  {| isLoading := isLoading st; loadingMessage := loadingMessage st;
     results := results st; currentQuery := currentQuery st;
     isHybridSearch := isHybridSearch st; maxResults := maxResults st;
     hybridFunction := hybridFunction st; location := location st;
     calls := calls st; timers := timers st; timeouts := timeouts st;
     next_timer := next_timer st; inflight := inflight st;
     next_rid := next_rid st; log := log st ++ [e] |}.

Definition setLoading (b : bool) (m : string) (st : state) : state :=
  {| isLoading := b; loadingMessage := m;
     results := results st; currentQuery := currentQuery st;
     isHybridSearch := isHybridSearch st; maxResults := maxResults st;
     hybridFunction := hybridFunction st; location := location st;
     calls := calls st; timers := timers st; timeouts := timeouts st;
     next_timer := next_timer st; inflight := inflight st;
     next_rid := next_rid st; log := log st |}.

Definition setLoadingMessage (m : string) (st : state) : state :=
  setLoading (isLoading st) m st.

Definition setResults (rs : list string) (st : state) : state :=
  {| isLoading := isLoading st; loadingMessage := loadingMessage st;
     results := rs; currentQuery := currentQuery st;
     isHybridSearch := isHybridSearch st; maxResults := maxResults st;
     hybridFunction := hybridFunction st; location := location st;
     calls := calls st; timers := timers st; timeouts := timeouts st;
     next_timer := next_timer st; inflight := inflight st;
     next_rid := next_rid st; log := log st |}.

Definition setCurrentQuery (q : string) (u : url) (st : state) : state :=
  {| isLoading := isLoading st; loadingMessage := loadingMessage st;
     results := results st; currentQuery := q;
     isHybridSearch := isHybridSearch st; maxResults := maxResults st;
     hybridFunction := hybridFunction st; location := u;
     calls := calls st; timers := timers st; timeouts := timeouts st;
     next_timer := next_timer st; inflight := inflight st;
     next_rid := next_rid st; log := log st |}.

Definition set_calls (f : list call -> list call) (st : state) : state :=
  {| isLoading := isLoading st; loadingMessage := loadingMessage st;
     results := results st; currentQuery := currentQuery st;
     isHybridSearch := isHybridSearch st; maxResults := maxResults st;
     hybridFunction := hybridFunction st; location := location st;
     calls := f (calls st); timers := timers st; timeouts := timeouts st;
     next_timer := next_timer st; inflight := inflight st;
     next_rid := next_rid st; log := log st |}.

Definition set_timers (f : list (nat * timer_kind) -> list (nat * timer_kind))
    (g : list (nat * nat) -> list (nat * nat)) (next : nat) (st : state) : state :=
  {| isLoading := isLoading st; loadingMessage := loadingMessage st;
     results := results st; currentQuery := currentQuery st;
     isHybridSearch := isHybridSearch st; maxResults := maxResults st;
     hybridFunction := hybridFunction st; location := location st;
     calls := calls st; timers := f (timers st); timeouts := g (timeouts st);
     next_timer := next; inflight := inflight st;
     next_rid := next_rid st; log := log st |}.

Definition fetch (u : string) (body : option payload) (k : kont) (st : state) : state :=
  {| isLoading := isLoading st; loadingMessage := loadingMessage st;
     results := results st; currentQuery := currentQuery st;
     isHybridSearch := isHybridSearch st; maxResults := maxResults st;
     hybridFunction := hybridFunction st; location := location st;
     calls := calls st; timers := timers st; timeouts := timeouts st;
     next_timer := next_timer st; inflight := inflight st ++ [(next_rid st, k)];
     next_rid := S (next_rid st); log := log st ++ [Fetch (next_rid st) u body] |}.

Definition settle (rid : nat) (st : state) : state :=
  {| isLoading := isLoading st; loadingMessage := loadingMessage st;
     results := results st; currentQuery := currentQuery st;
     isHybridSearch := isHybridSearch st; maxResults := maxResults st;
     hybridFunction := hybridFunction st; location := location st;
     calls := calls st; timers := timers st; timeouts := timeouts st;
     next_timer := next_timer st; inflight := remove_key rid (inflight st);
     next_rid := next_rid st; log := log st |}.

Definition clearInterval (id : option nat) (st : state) : state :=
  match id with
  | Some i => set_timers (remove_key i) (fun t => t) (next_timer st) st
  | None => st
  end.

(** [updateUrlParams({query, maxResults, isHybridSearch, hybridFunction})] for
    a query that is not blank. *)
Definition updateUrlParams (q : string) (c : call) : url :=
  {| u_q := Some (trim q);
     u_max := if c_max c =? defaultMaxResults then None else Some (c_max c);
     u_mode_hybrid := c_hybrid c;
     u_func := if c_func c =? 1 then None else Some (c_func c) |}.

Definition endpoint_of (c : call) : string :=
  if c_hybrid c then "/search_complex" else "/search".

Definition bodyData_of (c : call) : payload :=
  {| query := trim (c_query c); p_max_results := c_max c;
     p_hybrid_function := if c_hybrid c then Some (c_func c) else None |}.

Definition status_url : string := "/api/search/status".

Definition loading_text (data : json) : string :=
  "Model '" +++ or_else (j_model_alias data) "AI model" +++ "' is loading...".

(** [performSearch(query, onError, onWarning)] up to its first [await],
    lines 337-398; [hybrid], [max] and [func] are the settings its closure
    captured. *)
Definition performSearch (q : string) (hybrid : bool) (max func : nat)
    (st : state) : state :=
  match trim q with
  | EmptyString => emit (OnError "Please enter a search query") st
  | _ =>
      let cid := List.length (calls st) in
      let c := {| c_query := q; c_hybrid := hybrid; c_max := max; c_func := func;
                  statusPollInterval := Some (next_timer st);
                  searchCompleted := false; pollInterval := None |} in
      st |> setCurrentQuery (trim q) (updateUrlParams q c)
         |> setLoading true "Searching..."
         |> set_calls (fun cs => cs ++ [c])
         |> set_timers (fun ts => ts ++ [(next_timer st, StatusPoll cid)])
              (fun t => t) (S (next_timer st))
         |> fetch (endpoint_of c) (Some (bodyData_of c)) (KSearch cid)
  end.

Definition complete (cid : nat) (st : state) : state :=
  set_calls (update_nth cid (fun c =>
    {| c_query := c_query c; c_hybrid := c_hybrid c; c_max := c_max c;
       c_func := c_func c; statusPollInterval := statusPollInterval c;
       searchCompleted := true; pollInterval := pollInterval c |})) st.

Definition search_catch (cid : nat) (c : call) (msg : string) (st : state) : state :=
  st |> complete cid
     |> clearInterval (statusPollInterval c)
     |> emit (Console ("Search failed: " +++ msg))
     |> emit (OnError ("Search failed: " +++ msg))
     |> setLoading false "".

(** [performSearch] from the reply on, lines 400-479. *)
Definition search_resume (cid : nat) (r : net) (st : state) : state :=
  match nth_error (calls st) cid with
  | None => st
  | Some c =>
    match r with
    | NetError msg => search_catch cid c msg st
    | Search.Unparsable _ msg => search_catch cid c msg st
    | Http code data =>
        let st1 := st |> complete cid |> clearInterval (statusPollInterval c) in
        if (code =? 202) &&
           match j_status data with
           | Some s => String.eqb s "model_loading"
           | None => false
           end
        then
          st1 |> setLoadingMessage (or_else (j_message data) "Model is loading...")
              |> setResults []
              |> set_calls (update_nth cid (fun c =>
                   {| c_query := c_query c; c_hybrid := c_hybrid c;
                      c_max := c_max c; c_func := c_func c;
                      statusPollInterval := statusPollInterval c;
                      searchCompleted := searchCompleted c;
                      pollInterval := Some (next_timer st) |}))
              |> set_timers (fun ts => ts ++ [(next_timer st, ReadyPoll cid)])
                   (fun ts => ts ++ [(S (next_timer st), cid)])
                   (S (S (next_timer st)))
              |> setLoading false ""
        else if negb (http_ok code) then
          search_catch cid c
            (or_else (option_map fst (j_warning data))
               ("HTTP error! status: " +++ nat_to_string code)) st1
        else
          let st2 :=
            match j_warning data with
            | Some (m, Some (String a r)) =>
                emit (OnWarning (m +++ " (" +++ String a r +++ ")")) st1
            | Some (m, _) => emit (OnWarning m) st1
            | None => st1
            end in
          st2 |> setResults (match j_results data with Some l => l | None => [] end)
              |> setLoading false ""
    end
  end.

(** The 2 s interval of the 202 branch, lines 412-439. *)
Definition ready_tick (cid : nat) : state -> state :=
  fetch status_url None (KReadyPoll cid).

Definition ready_resume (cid : nat) (r : net) (st : state) : state :=
  match nth_error (calls st) cid with
  | None => st
  | Some c =>
    match r with
    | NetError msg => emit (Console ("Model status polling failed: " +++ msg)) st
    | Search.Unparsable code msg =>
        if http_ok code
        then emit (Console ("Model status polling failed: " +++ msg)) st
        else st
    | Http code statusData =>
        if http_ok code then
          if j_ready_for_search statusData then
            st |> clearInterval (pollInterval c)
               |> setLoading false ""
               |> performSearch (c_query c) (c_hybrid c) (c_max c) (c_func c)
          else if match j_model_status statusData with
                  | Some m => String.eqb m "loading"
                  | None => false
                  end
          then setLoadingMessage (loading_text statusData) st
          else st
        else st
    end
  end.

(** The 60 s timeout of the 202 branch, lines 442-447. *)
Definition deadline (cid : nat) (st : state) : state :=
  match nth_error (calls st) cid with
  | None => st
  | Some c =>
      st |> clearInterval (pollInterval c)
         |> setLoading false ""
         |> emit (OnError "Model loading timeout. Please try again.")
  end.

(** The 500 ms interval of [startStatusPolling], lines 357-376. *)
Definition status_tick (cid : nat) : state -> state :=
  fetch status_url None (KStatusPoll cid).

Definition status_resume (cid : nat) (r : net) (st : state) : state :=
  match nth_error (calls st) cid with
  | None => st
  | Some c =>
    match r with
    | NetError msg => emit (Console ("Status polling failed: " +++ msg)) st
    | Search.Unparsable code msg =>
        if http_ok code
        then emit (Console ("Status polling failed: " +++ msg)) st
        else st
    | Http code statusData =>
        if http_ok code &&
           match j_model_status statusData with
           | Some m => String.eqb m "loading"
           | None => false
           end && negb (searchCompleted c)
        then setLoadingMessage (loading_text statusData) st
        else st
    end
  end.

Inductive event :=
| Invoke (q : string)            (* the component calls performSearch(q, ..) *)
| Tick (id : nat)
| Timeout (id : nat)
| Reply (rid : nat) (r : net).

Definition step (st : state) (e : event) : state :=
  match e with
  | Invoke q => performSearch q (isHybridSearch st) (maxResults st) (hybridFunction st) st
  | Tick id =>
      match lookup id (timers st) with
      | Some (StatusPoll c) => status_tick c st
      | Some (ReadyPoll c) => ready_tick c st
      | None => st
      end
  | Timeout id =>
      match lookup id (timeouts st) with
      | Some c =>
          st |> set_timers (fun t => t) (remove_key id) (next_timer st) |> deadline c
      | None => st
      end
  | Reply rid r =>
      match lookup rid (inflight st) with
      | None => st
      | Some k =>
          let st' := settle rid st in
          match k with
          | KStatusPoll c => status_resume c r st'
          | KSearch c => search_resume c r st'
          | KReadyPoll c => ready_resume c r st'
          end
      end
  end.

Definition run (st : state) (evs : list event) : state := fold_left step evs st.

Definition init (hybrid : bool) (max func : nat) : state :=
  {| isLoading := false; loadingMessage := ""; results := []; currentQuery := "";
     isHybridSearch := hybrid; maxResults := max; hybridFunction := func;
     location := {| u_q := None; u_max := None; u_mode_hybrid := hybrid;
                    u_func := None |};
     calls := []; timers := []; timeouts := []; next_timer := 1;
     inflight := []; next_rid := 0; log := [] |}.

End Config.

Definition search_requests : list effect -> list (string * payload) :=
  pick (fun e => match e with
                 | Fetch _ u (Some b) => Some (u, b)
                 | _ => None
                 end).

Definition errors_reported : list effect -> list string :=
  pick (fun e => match e with OnError m => Some m | _ => None end).

End UseSearch.

(** ** The global fetch wrapper of the notification script *)

Module FetchWrap.

(** A [Response] as far as the wrapper and its callers use it.  The body can
    be read once: [text_result] is what reading it yields (the text, or the
    message of the error when the read fails), [bodyUsed] whether it has been
    read. *)
Record response := {
  ok : bool;
  status : nat;
  statusText : string;
  text_result : string + string;
  bodyUsed : bool
}.

(** What [await original_fetch(url, options)] yields. *)
Inductive outcome :=
| Resolved (r : response)
| Rejected (msg : string).

(** An error toast: [showError(title, message)]. *)
Definition toast : Type := string * string.

Section Wrapper.

(** [JSON.parse(error_text)] followed by [error_data.error || error_data.message];
    [None] when parsing throws or both are falsy. *)
Variable error_message_of : string -> option string.

(** [await response.text()]: the first read consumes the body, a second read
    rejects. *)
Definition read_text (r : response) : (string + string) * response :=
  if bodyUsed r then (inr "body stream already read", r)
  else (text_result r,
        {| ok := ok r; status := status r; statusText := statusText r;
           text_result := text_result r; bodyUsed := true |}).

(** [window.fetch = async function(url, options = {})], lines 184-209, as a
    function of what the original fetch yields and of
    [options.skipNotification]. *)
Definition wrapped_fetch (orig : outcome) (skipNotification : bool)
    : list toast * outcome :=
  match orig with
  | Rejected msg =>
      (if skipNotification then []
       else [("Connection Error", "Failed to connect to server: " +++ msg)],
       Rejected msg)
  | Resolved response =>
      if negb (ok response) && negb skipNotification then
        match read_text response with
        | (inl error_text, response') =>
            let fallback :=
              "HTTP " +++ nat_to_string (status response) +++ ": "
                +++ statusText response in
            ([("Network Error", or_else (error_message_of error_text) fallback)],
             Resolved response')
        | (inr msg, _) =>
            (* the outer catch: skipNotification is false here *)
            ([("Connection Error", "Failed to connect to server: " +++ msg)],
             Rejected msg)
        end
      else ([], Resolved response)
  end.

(** The request failed: the fetch threw or the response is not 2xx. *)
Definition failed (orig : outcome) : bool :=
  match orig with
  | Rejected _ => true
  | Resolved r => negb (ok r)
  end.

(** What a caller gets when it reads the body of what the wrapper gave it. *)
Definition caller_reads (o : outcome) : string + string :=
  match o with
  | Resolved r => fst (read_text r)
  | Rejected msg => inr msg
  end.

End Wrapper.

End FetchWrap.

(** ** The legacy notification list *)

Module Notify.

Record entry := {
  n_type : string;
  n_title : string;
  n_message : string;
  show_class : bool              (* the element carries the class show *)
}.

Record options := {
  duration : option nat;
  persistent : bool
}.

(** The callbacks handed to [setTimeout]. *)
Inductive timeout :=
| AddShow (id : nat)             (* 10 ms after creation *)
| Expire (id : nat)              (* remove_notification(id) after the duration *)
| Delete (id : nat).             (* 300 ms after remove_notification *)

(** [notification_list] is a [Map]: it keeps its keys in insertion order, and
    its first key is the oldest entry. *)
Record state := {
  notification_list : list (nat * entry);
  notification_id : nat;
  attached : list nat;           (* elements in the container *)
  scheduled : list timeout
}.

Definition max_notifications : nat := 5.
Definition default_duration : nat := 5000.

(** [Map.prototype.set]: an existing key keeps its place. *)
Fixpoint map_set (k : nat) (v : entry) (m : list (nat * entry)) : list (nat * entry) :=
  match m with
  | [] => [(k, v)]
  | (k', v') :: m' => if k =? k' then (k, v) :: m' else (k', v') :: map_set k v m'
  end.

Definition set_show (b : bool) (e : entry) : entry :=
  {| n_type := n_type e; n_title := n_title e; n_message := n_message e;
     show_class := b |}.

Fixpoint map_update (k : nat) (f : entry -> entry) (m : list (nat * entry))
    : list (nat * entry) :=
  match m with
  | [] => []
  | (k', v') :: m' => if k =? k' then (k', f v') :: m' else (k', v') :: map_update k f m'
  end.

(** [remove_notification(id)], lines 88-100: the entry stays in the map until
    the 300 ms timeout runs. *)
Definition remove_notification (id : nat) (st : state) : state :=
  match lookup id (notification_list st) with
  | None => st
  | Some _ =>
      {| notification_list := map_update id (set_show false) (notification_list st);
         notification_id := notification_id st;
         attached := attached st;
         scheduled := scheduled st ++ [Delete id] |}
  end.

(** [show_notification(type, title, message, options)], lines 14-52. *)
Definition show_notification (type title message : string) (opts : options)
    (st : state) : nat * state :=
  let id := notification_id st in
  let duration := match duration opts with Some d => d | None => default_duration end in
  let st1 :=
    {| notification_list := notification_list st; notification_id := S id;
       attached := attached st; scheduled := scheduled st |} in
  let st2 :=
    if max_notifications <=? List.length (notification_list st1) then
      match notification_list st1 with
      | (oldest_id, _) :: _ => remove_notification oldest_id st1
      | [] => st1
      end
    else st1 in
  let st3 :=
    {| notification_list :=
         map_set id {| n_type := type; n_title := title; n_message := message;
                       show_class := false |} (notification_list st2);
       notification_id := notification_id st2;
       attached := attached st2 ++ [id];
       scheduled := scheduled st2 ++ [AddShow id] |} in
  let st4 :=
    if negb (persistent opts) && (0 <? duration) then
      {| notification_list := notification_list st3;
         notification_id := notification_id st3;
         attached := attached st3;
         scheduled := scheduled st3 ++ [Expire id] |}
    else st3 in
  (id, st4).

(** [show_notification] with a title or a message that is undefined:
    [escape_html] throws in [create_notification_element], lines 64-65, after
    the id was taken and room was made, lines 19-26. *)
Definition show_notification_undefined (st : state) : state :=
  let st1 :=
    {| notification_list := notification_list st;
       notification_id := S (notification_id st);
       attached := attached st; scheduled := scheduled st |} in
  if max_notifications <=? List.length (notification_list st1) then
    match notification_list st1 with
    | (oldest_id, _) :: _ => remove_notification oldest_id st1
    | [] => st1
    end
  else st1.

(** A timeout runs. *)
Definition fire (t : timeout) (st : state) : state :=
  match t with
  | AddShow id =>
      {| notification_list := map_update id (set_show true) (notification_list st);
         notification_id := notification_id st;
         attached := attached st; scheduled := scheduled st |}
  | Expire id => remove_notification id st
  | Delete id =>
      {| notification_list := remove_key id (notification_list st);
         notification_id := notification_id st;
         attached := filter (fun i => negb (i =? id)) (attached st);
         scheduled := scheduled st |}
  end.

(** [clear_all_notifications], lines 120-124. *)
Definition clear_all_notifications (st : state) : state :=
  fold_left (fun s id => remove_notification id s)
    (map fst (notification_list st)) st.

(** [update_notification_message(id, new_title, new_message)], lines 102-118:
    an empty title or message leaves the old one. *)
Definition update_notification_message (id : nat) (new_title new_message : string)
    (st : state) : state :=
  match lookup id (notification_list st) with
  | None => st
  | Some _ =>
      {| notification_list :=
           map_update id (fun e =>
             {| n_type := n_type e;
                n_title := match new_title with
                           | EmptyString => n_title e
                           | _ => new_title
                           end;
                n_message := match new_message with
                             | EmptyString => n_message e
                             | _ => new_message
                             end;
                show_class := show_class e |}) (notification_list st);
         notification_id := notification_id st;
         attached := attached st;
         scheduled := scheduled st |}
  end.

Inductive event :=
| Show (type title message : string) (opts : options)
| Fire (n : nat)                 (* the n-th scheduled timeout runs *)
| Remove (id : nat)
    (* a click on the close button of [id], or the page calls
       remove_notification(id) *)
| Update (id : nat) (new_title new_message : string)
    (* the page calls update_notification_message *)
| ClearAll                       (* clear_all_notifications() *)
| ShowUndefined.                 (* show_notification without a message *)

Fixpoint drop_nth {A} (n : nat) (l : list A) : list A :=
  match l, n with
  | [], _ => []
  | _ :: l', 0 => l'
  | x :: l', S n' => x :: drop_nth n' l'
  end.

Definition step (st : state) (e : event) : state :=
  match e with
  | Show type title message opts => snd (show_notification type title message opts st)
  | Fire n =>
      match nth_error (scheduled st) n with
      | Some t =>
          fire t {| notification_list := notification_list st;
                    notification_id := notification_id st;
                    attached := attached st;
                    scheduled := drop_nth n (scheduled st) |}
      | None => st
      end
  | Remove id => remove_notification id st
  | Update id new_title new_message =>
      update_notification_message id new_title new_message st
  | ClearAll => clear_all_notifications st
  | ShowUndefined => show_notification_undefined st
  end.

Definition run (st : state) (evs : list event) : state := fold_left step evs st.

Definition init : state :=
  {| notification_list := []; notification_id := 1; attached := []; scheduled := [] |}.

(** [notification_list.size] *)
Definition size (st : state) : nat := List.length (notification_list st).

End Notify.

(** ** The React hook useNotifications *)

Module UseNotifications.

Record notification := {
  id : nat;
  type : string;
  title : string;
  message : string
}.

(** [a.slice(-n)] for [n >= 0]: the last [n] elements, and the whole array
    for [n = 0], since [-0] is [0]. *)
Definition slice_last {A} (n : nat) (a : list A) : list A :=
  match n with
  | 0 => a
  | _ => skipn (List.length a - n) a
  end.

(** The updater handed to [setNotifications], lines 34-40. *)
Definition addNotification (maxNotifications : nat) (n : notification)
    (prev : list notification) : list notification :=
  let updated := prev ++ [n] in
  if maxNotifications <? List.length updated
  then slice_last maxNotifications updated
  else updated.

Definition removeNotification (i : nat) (prev : list notification)
    : list notification :=
  filter (fun n => negb (id n =? i)) prev.

End UseNotifications.

(** ** Views of the search page, for the statements below *)

Module SearchView.
Import Search.

(** The part of a state the properties below speak about: the closures of
    the pollers, the requests in flight and what the log says was sent,
    displayed and reported.  The DOM is left out. *)
Record view := {
  v_pollers : list poller;
  v_inflight : list (nat * kont);
  v_next : nat;
  v_requests : list (string * payload);
  v_polls : list nat;
  v_displayed : list json;
  v_errors : list string
}.

Definition view_of (st : state) : view :=
  {| v_pollers := pollers st; v_inflight := inflight st; v_next := next_rid st;
     v_requests := search_requests (log st); v_polls := status_polls (log st);
     v_displayed := displayed (log st); v_errors := errors_shown (log st) |}.

(** One more entry in the log. *)
Definition observe (e : effect) (v : view) : view :=
  {| v_pollers := v_pollers v; v_inflight := v_inflight v; v_next := v_next v;
     v_requests := v_requests v ++ search_requests [e];
     v_polls := v_polls v ++ status_polls [e];
     v_displayed := v_displayed v ++ displayed [e];
     v_errors := v_errors v ++ errors_shown [e] |}.

Definition quiet (e : effect) : Prop :=
  search_requests [e] = [] /\ status_polls [e] = [] /\
  displayed [e] = [] /\ errors_shown [e] = [].

Definition with_pollers (f : list poller -> list poller) (v : view) : view :=
  {| v_pollers := f (v_pollers v); v_inflight := v_inflight v; v_next := v_next v;
     v_requests := v_requests v; v_polls := v_polls v;
     v_displayed := v_displayed v; v_errors := v_errors v |}.

Definition enqueue (k : kont) (v : view) : view :=
  {| v_pollers := v_pollers v; v_inflight := v_inflight v ++ [(v_next v, k)];
     v_next := S (v_next v);
     v_requests := v_requests v; v_polls := v_polls v;
     v_displayed := v_displayed v; v_errors := v_errors v |}.

Definition settled (rid : nat) (v : view) : view :=
  {| v_pollers := v_pollers v; v_inflight := remove_key rid (v_inflight v);
     v_next := v_next v;
     v_requests := v_requests v; v_polls := v_polls v;
     v_displayed := v_displayed v; v_errors := v_errors v |}.

Definition stopped (p : poller) : poller :=
  {| timer_active := false; attempts := attempts p;
     search_data := search_data p; p_endpoint := p_endpoint p |}.

Definition bumped (p : poller) : poller :=
  {| timer_active := timer_active p; attempts := S (attempts p);
     search_data := search_data p; p_endpoint := p_endpoint p |}.

Definition armed (a : nat) (d : payload) (ep : string) : poller :=
  {| timer_active := true; attempts := a; search_data := d; p_endpoint := ep |}.

(** What the catch block of the interval callback does to the view. *)
Definition caught (pid : nat) (msg : string) (v : view) : view :=
  {| v_pollers := update_nth pid stopped (v_pollers v);
     v_inflight := v_inflight v; v_next := v_next v;
     v_requests := v_requests v; v_polls := v_polls v;
     v_displayed := v_displayed v;
     v_errors := v_errors v ++ ["Search failed: " +++ msg] |}.

Definition reported (msg : string) (v : view) : view :=
  {| v_pollers := v_pollers v; v_inflight := v_inflight v; v_next := v_next v;
     v_requests := v_requests v; v_polls := v_polls v;
     v_displayed := v_displayed v;
     v_errors := v_errors v ++ [msg] |}.

Definition shown (data : json) (v : view) : view :=
  {| v_pollers := v_pollers v; v_inflight := v_inflight v; v_next := v_next v;
     v_requests := v_requests v; v_polls := v_polls v;
     v_displayed := v_displayed v ++ [data];
     v_errors := v_errors v |}.

(** A search request went out and its continuation [k] waits. *)
Definition requested (url : string) (body : payload) (k : kont) (v : view) : view :=
  {| v_pollers := v_pollers v; v_inflight := v_inflight v ++ [(v_next v, k)];
     v_next := S (v_next v);
     v_requests := v_requests v ++ [(url, body)]; v_polls := v_polls v;
     v_displayed := v_displayed v; v_errors := v_errors v |}.

(** A status poll went out. *)
Definition polled (k : kont) (v : view) : view :=
  {| v_pollers := v_pollers v; v_inflight := v_inflight v ++ [(v_next v, k)];
     v_next := S (v_next v);
     v_requests := v_requests v; v_polls := v_polls v ++ [v_next v];
     v_displayed := v_displayed v; v_errors := v_errors v |}.

(** The view of a state whose last poller is [p], with [fl] in flight. *)
Definition shape (ps : list poller) (fl : list (nat * kont))
    (R : list (string * payload)) (D : list json)
    (p : poller) (n : nat) (P : list nat) (E : list string) : view :=
  {| v_pollers := ps ++ [p]; v_inflight := fl; v_next := n;
     v_requests := R; v_polls := P; v_displayed := D; v_errors := E |}.

Definition fresh_from (fl : list (nat * kont)) (n : nat) : Prop :=
  forall r, n <= r -> lookup r fl = None.

(** One round: the tick, then the reply to its poll. *)
Definition round (pid : nat) (r : net) (st : state) : state :=
  step (step st (Tick pid)) (Response (next_rid st) r).

Definition retry_error (code : nat) (result : json) : string :=
  or_else (j_error result) ("HTTP error! status: " +++ nat_to_string code).

(** What a reply to a search request amounts to for the user. *)
Inductive outcome :=
| Results (data : json)
| Failure (msg : string).

Definition outcome_of (r : net) : outcome :=
  match r with
  | NetError msg => Failure msg
  | Search.Unparsable _ msg => Failure msg
  | Http code result =>
      if http_ok code then Results result else Failure (retry_error code result)
  end.

(** Events that neither submit a search nor report readiness. *)
Definition calm (e : event) : Prop :=
  match e with
  | Submit => False
  | Response _ (Http _ d) => j_ready_for_search d = false
  | _ => True
  end.

(** The notification that [show_model_loading_message] left in the dataset of
    the search box, and the callbacks handed to [setTimeout]. *)
Definition loading_id (st : state) : option nat := loadingNotificationId (ui st).

Definition deferrals : list effect -> list deferred :=
  pick (fun e => match e with SetTimeout _ w => Some w | _ => None end).

Definition idle_pair (st : state) : option nat * list deferred :=
  (loading_id st, deferrals (log st)).

(** Between two events nothing is left in the dataset and no callback was
    handed to [setTimeout]. *)
Definition settled_down (st : state) : Prop :=
  loading_id st = None /\ deferrals (log st) = [].

(** A failed status poll: what lands in the catch block. *)
Definition poll_failure (r : net) : option string :=
  match r with
  | NetError msg => Some msg
  | Search.Unparsable _ msg => Some msg
  | Http _ _ => None
  end.

Definition is_loading_reply (code : nat) (data : json) : bool :=
  (code =? 202) &&
  match j_status data with
  | Some s => String.eqb s "model_loading"
  | None => false
  end.

End SearchView.

(** ** Invariants of the debug panel's timers *)

Module DebugView.
Import Debug.

Definition opt_list (o : option nat) : list nat :=
  match o with Some id => [id] | None => [] end.

(** The module variables and the browser agree: the interval a variable names
    is the only one of its kind that runs, identifiers not yet handed out do
    not run, and no two variables name the same interval. *)
Record consistent (st : state) : Prop := {
  holds : forall k, running k st = opt_list (var k st);
  fresh : forall id kd, In (id, kd) (timers st) -> id < next_timer st;
  apart : forall k k' id, var k st = Some id -> var k' st = Some id -> k = k'
}.

(** Request identifiers not yet handed out are not in flight. *)
Definition fresh_rids (st : state) : Prop :=
  forall r, next_rid st <= r -> lookup r (inflight st) = None.

(** A snapshot of a job that is still running. *)
Definition running_snapshot (j : json) : Prop := error j = None /\ active j = true.

End DebugView.

(** ** Views of the hook, for the statements below *)

Module UseSearchView.
Import Search UseSearch.

(** Events of the hook that neither call [performSearch] nor report
    readiness. *)
Definition calm (e : event) : Prop :=
  match e with
  | Invoke _ => False
  | Reply _ (Http _ d) => j_ready_for_search d = false
  | _ => True
  end.

(** A reply to a status poll after which the hook goes on polling: any reply
    but one that is ok and reports readiness. *)
Definition waiting (r : net) : Prop :=
  match r with
  | Http code d => http_ok code && j_ready_for_search d = false
  | _ => True
  end.

(** The 2 s interval [i] of call [c] runs, and request identifiers not yet
    handed out are not in flight. *)
Definition ready_polling (c i : nat) (cl : call) (st : state) : Prop :=
  nth_error (calls st) c = Some cl /\
  pollInterval cl = Some i /\
  lookup i (timers st) = Some (ReadyPoll c) /\
  i < next_timer st /\
  (forall r, next_rid st <= r -> lookup r (inflight st) = None).

Section Config.

Variable defaultMaxResults : nat.

(** One round of the interval [i]: the tick, then the reply to its poll. *)
Definition round (i : nat) (r : net) (st : state) : state :=
  step defaultMaxResults (step defaultMaxResults st (Tick i)) (Reply (next_rid st) r).

(** Every status reply arrives before the next tick. *)
Fixpoint sequential_polls (i : nat) (rs : list net) (st : state) : state :=
  match rs with
  | [] => st
  | r :: rs' => sequential_polls i rs' (round i r st)
  end.

End Config.

End UseSearchView.

(** ** Concrete runs *)

Module Scenario.

(** The search page: the user typed dogs, the backend answers the search with
    202 model_loading. *)
Definition typed : Search.state :=
  Search.run (Search.init false 8 1) [Search.Input "dogs"].

Definition loading : Search.net :=
  Search.Http 202 (Search.loading_reply "Model is now loading").

Definition not_yet : Search.net := Search.Http 200 (Search.status_reply false "loading").
Definition ready : Search.net := Search.Http 200 (Search.status_reply true "loaded").
Definition found : Search.net := Search.Http 200 (Search.results_reply ["a"; "b"; "c"]).

Definition dogs : string * Search.payload :=
  ("/search",
   {| Search.query := "dogs"; Search.p_max_results := 8;
      Search.p_hybrid_function := None |}).

Definition dispatched : list Search.event :=
  [Search.Input "dogs"; Search.Submit; Search.Response 0 loading].

Definition waiting : Search.state := Search.run (Search.init false 8 1) dispatched.

(** The debug panel: a job is running when the panel is opened. *)
Definition at_percent (n : nat) : Debug.reply :=
  Debug.Http true (Debug.Obj (Debug.snapshot true "Embedding" n)).

Definition done : Debug.json := Debug.snapshot false "Done" 100.

Definition finished : Debug.reply := Debug.Http true (Debug.Obj done).

Definition idle_reply : Debug.reply :=
  Debug.Http true (Debug.Obj (Debug.snapshot false "" 0)).

(** The panel is open and the fast poller (interval 4) runs. *)
Definition watching : Debug.state :=
  Debug.run Debug.init [Debug.OpenPanel; Debug.Reply 0 (at_percent 10)].

(** The panel was closed and opened again while the reply to the old poller's
    request 1 was still on its way; interval 9 is the new fast poller. *)
Definition reopened : Debug.state :=
  Debug.run watching
    [Debug.Tick 4; Debug.ClosePanel; Debug.Timeout 5; Debug.OpenPanel;
     Debug.Reply 2 (at_percent 50)].

(** The React hook after a 202 reply, with the first status poll of the
    waiting call (interval 2) in flight as request 1. *)
Definition hook_polling : UseSearch.state :=
  UseSearch.run 8 (UseSearch.init false 8 1)
    [UseSearch.Invoke "dogs"; UseSearch.Reply 0 loading; UseSearch.Tick 2].

Definition hook_call : UseSearch.call :=
  {| UseSearch.c_query := "dogs"; UseSearch.c_hybrid := false;
     UseSearch.c_max := 8; UseSearch.c_func := 1;
     UseSearch.statusPollInterval := Some 1;
     UseSearch.searchCompleted := true;
     UseSearch.pollInterval := Some 2 |}.

(** Notifications that stay until closed. *)
Definition sticky : Notify.options :=
  {| Notify.duration := Some 0; Notify.persistent := true |}.

Definition burst (n : nat) : list Notify.event :=
  repeat (Notify.Show "info" "t" "m" sticky) n.

(** A 500 reply with a JSON body. *)
Definition server_error : FetchWrap.response :=
  {| FetchWrap.ok := false; FetchWrap.status := 500;
     FetchWrap.statusText := "Internal Server Error";
     FetchWrap.text_result := inl "{}"; FetchWrap.bodyUsed := false |}.

(** A 500 reply whose body cannot be read to the end. *)
Definition broken_body : FetchWrap.response :=
  {| FetchWrap.ok := false; FetchWrap.status := 500;
     FetchWrap.statusText := "Internal Server Error";
     FetchWrap.text_result := inr "network error"; FetchWrap.bodyUsed := false |}.

End Scenario.

(** ** More of JavaScript: substrings, the image path pattern, URI encoding *)

(** [s.substring(n)] *)
Fixpoint drop (n : nat) (s : string) : string :=
  match n, s with
  | S n', String _ s' => drop n' s'
  | _, _ => s
  end.

(** [x] when it is truthy: a string that is present and not empty. *)
Definition truthy (x : option string) : option string :=
  match x with
  | Some (String c s) => Some (String c s)
  | _ => None
  end.

(** A possibly absent string printed by a template literal. *)
Definition show_js (x : option string) : string :=
  match x with
  | Some s => s
  | None => "undefined"
  end.

Definition newline : string := String (ascii_of_nat 10) EmptyString.

(** The character class [a-f0-9]. *)
Definition is_hex (c : ascii) : bool :=
  let n := nat_of_ascii c in
  ((48 <=? n) && (n <=? 57)) || ((97 <=? n) && (n <=? 102)).

(** The longest prefix in [a-f0-9]: what [([a-f0-9]+)] captures, being
    greedy. *)
Fixpoint take_hex (s : string) : string :=
  match s with
  | String c s' => if is_hex c then String c (take_hex s') else EmptyString
  | EmptyString => EmptyString
  end.

(** [s.match(/\/image\/([a-f0-9]+)/)]: the capture group of the leftmost
    match, [None] when the pattern does not occur. *)
Fixpoint match_image_hash (s : string) : option string :=
  match (if prefix "/image/" s then take_hex (drop 7 s) else EmptyString) with
  | String c h => Some (String c h)
  | EmptyString =>
      match s with
      | String _ s' => match_image_hash s'
      | EmptyString => None
      end
  end.

(** An origin, scheme://host:port, has no slash but the two after the
    colon. *)
Definition no_slash (s : string) : bool :=
  forallb (fun c => negb (Ascii.eqb c "/")) (list_ascii_of_string s).

(** [encodeURIComponent] on byte strings (the UTF-8 form of the text): letters,
    digits and - _ . ! ~ * ' ( ) stay, every other byte becomes a percent sign
    and two upper-case hexadecimal digits. *)
Definition unreserved (c : ascii) : bool :=
  let n := nat_of_ascii c in
  ((65 <=? n) && (n <=? 90)) || ((97 <=? n) && (n <=? 122)) ||
  ((48 <=? n) && (n <=? 57)) ||
  existsb (Nat.eqb n) [45; 95; 46; 33; 126; 42; 39; 40; 41].

Definition hex_digit (n : nat) : ascii :=
  nth n (list_ascii_of_string "0123456789ABCDEF") "0"%char.

Definition percent_encode (c : ascii) : string :=
  let n := nat_of_ascii c in
  String "%" (String (hex_digit (n / 16)) (String (hex_digit (n mod 16)) EmptyString)).

Fixpoint encodeURIComponent (s : string) : string :=
  match s with
  | String c s' =>
      (if unreserved c then String c EmptyString else percent_encode c)
        +++ encodeURIComponent s'
  | EmptyString => EmptyString
  end.


(** What [trim_start] returns does not start with white space. *)
Definition starts_clean (s : string) : Prop := white_space s = None.

(** ** search.js: the rest of the page *)

Module SearchPage.
Import Search.

(** The body of /api/model/status as the tooltip reads it. *)
Record info := {
  alias : option string;
  description : option string;
  model_type : option string
}.

(** What [await fetch('/api/model/status')] and [response.json()] yield. *)
Inductive info_reply :=
| InfoNetError (msg : string)        (* fetch or json() rejects *)
| InfoHttpError (code : nat)         (* !response.ok *)
| InfoNull                           (* the body is null or another falsy value *)
| InfoData (i : option info).        (* an object; [i] is its field info, if truthy *)

(** The search page with what [Search.state] leaves out: the model
    information and the tooltip of the mode toggle, the requests for the model
    information that are in flight, and the windows opened. *)
Record state := {
  page : Search.state;
  current_model_info : option (option info);   (* null, or an object with its info *)
  toggle_title : string;                       (* search_toggle_button.title *)
  info_pending : nat;
  opened : list string                         (* window.open(url, ..) *)
}.

Definition with_page (f : Search.state -> Search.state) (st : state) : state :=
  {| page := f (page st); current_model_info := current_model_info st;
     toggle_title := toggle_title st; info_pending := info_pending st;
     opened := opened st |}.

Definition get_search_mode (st : state) : string :=
  if is_hybrid_search (frm (ui (page st))) then "hybrid" else "normal".

(** The text [update_search_toggle_tooltip] builds, lines 674-685. *)
Definition tooltip (i : info) (hybrid : bool) : string :=
  "Current Search Mode: " +++ (if hybrid then "Hybrid" else "Normal") +++ newline +++
  "Model: " +++ or_else (alias i) "Unknown Model" +++ newline +++
  "Type: " +++ or_else (model_type i) "Unknown Type" +++ newline +++
  "Description: " +++ or_else (description i) "No description available" +++ newline +++
  newline +++
  "Click to toggle between Normal and Hybrid search modes".

Definition set_title (t : string) (st : state) : state :=
  {| page := page st; current_model_info := current_model_info st;
     toggle_title := t; info_pending := info_pending st; opened := opened st |}.

Definition update_search_toggle_tooltip (st : state) : state :=
  match current_model_info st with
  | None => st
  | Some None => set_title "Toggle search mode" st
  | Some (Some i) => set_title (tooltip i (is_hybrid_search (frm (ui (page st))))) st
  end.

(** [toggle_search_mode] with its call of [update_search_toggle_tooltip]; the
    tooltip reads the flag, which [clear_results] leaves alone. *)
Definition toggle_search_mode (st : state) : state :=
  st |> with_page Search.toggle_search_mode |> update_search_toggle_tooltip.

(** [fetch_model_info] up to its [await]. *)
Definition fetch_model_info (st : state) : state :=
  {| page := page st; current_model_info := current_model_info st;
     toggle_title := toggle_title st; info_pending := S (info_pending st);
     opened := opened st |}.

(** ... and from the reply on, lines 650-660. *)
Definition fetch_model_info_resume (r : info_reply) (st : state) : state :=
  match r with
  | InfoNetError _ => st
  | InfoHttpError _ => st
  | InfoNull =>
      update_search_toggle_tooltip
        {| page := page st; current_model_info := None;
           toggle_title := toggle_title st; info_pending := info_pending st;
           opened := opened st |}
  | InfoData i =>
      update_search_toggle_tooltip
        {| page := page st; current_model_info := Some i;
           toggle_title := toggle_title st; info_pending := info_pending st;
           opened := opened st |}
  end.

(** A click on an example query, lines 137-141. *)
Definition on_suggestion (query : string) : state -> state :=
  with_page (fun p =>
    p |> set_ui (set_frm (fun f =>
           {| input_value := query; is_hybrid_search := is_hybrid_search f;
              max_results_value := max_results_value f;
              hybrid_function_value := hybrid_function_value f |}))
      |> perform_search).

Definition start_date : string := "01/01/16".
Definition end_date : string := "03/31/25".

Definition google_url (query : string) : string :=
  "https://www.google.com/search?q=" +++ encodeURIComponent query
    +++ "+site%3Apresidencia.pt&udm=2&hl=en&tbs=cdr%3A1%2Ccd_min%3A"
    +++ encodeURIComponent start_date +++ "%2Ccd_max%3A"
    +++ encodeURIComponent end_date.

(** [open_google_comparison], lines 615-639. *)
Definition open_google_comparison (st : state) : state :=
  match trim (input_value (frm (ui (page st)))) with
  | EmptyString =>
      with_page (show_error_message "Please enter a search query first") st
  | query =>
      {| page := page st; current_model_info := current_model_info st;
         toggle_title := toggle_title st; info_pending := info_pending st;
         opened := opened st ++ [google_url query] |}
  end.

Inductive event :=
| Page (e : Search.event)        (* the events of the search form and its pollers *)
| Suggestion (query : string)    (* click on an example query *)
| Compare                        (* click on the Google button *)
| InfoTick                       (* the 30 s interval of fetch_model_info *)
| InfoReply (r : info_reply).

Definition step (st : state) (e : event) : state :=
  match e with
  | Page Toggle => toggle_search_mode st
  | Page e' => with_page (fun p => Search.step p e') st
  | Suggestion query => on_suggestion query st
  | Compare => open_google_comparison st
  | InfoTick => fetch_model_info st
  | InfoReply r =>
      match info_pending st with
      | 0 => st
      | S n =>
          fetch_model_info_resume r
            {| page := page st; current_model_info := current_model_info st;
               toggle_title := toggle_title st; info_pending := n;
               opened := opened st |}
      end
  end.

Definition run (st : state) (evs : list event) : state := fold_left step evs st.

(** The page after [initialize_search], with its first request for the model
    information on its way. *)
Definition init (hybrid : bool) (max_results hybrid_function : nat) : state :=
  {| page := Search.init hybrid max_results hybrid_function;
     current_model_info := None;
     toggle_title := "Loading model information...";
     info_pending := 1; opened := [] |}.

(** *** What the statements about the page speak of *)

(** The panels that are displayed among the spinner, the no-results message
    and the results list. *)
Definition visible_panels (p : panels) : nat :=
  Nat.b2n (loading_display p) + Nat.b2n (no_results_display p)
    + Nat.b2n (results_display p).

Definition model_loading_hidden (p : panels) : bool :=
  match model_loading p with
  | Some (true, _) => false
  | _ => true
  end.

(** A continuation that waits for the reply to a search request. *)
Definition awaits_search (k : kont) : bool :=
  match k with
  | KPrimary _ _ => true
  | KRetry _ => true
  | KStatus _ => false
  end.

Definition search_pending (st : Search.state) : bool :=
  existsb (fun e => awaits_search (snd e)) (inflight st).

Definition idle_button : button :=
  {| disabled := false; text := "Search"; loading_class := false |}.

(** A search request as [perform_search] builds it: the query is not empty and
    trimmed, and the hybrid function goes with the hybrid endpoint only. *)
Definition sound_request (r : string * payload) : Prop :=
  query (snd r) <> "" /\ trim (query (snd r)) = query (snd r) /\
  ((fst r = "/search" /\ p_hybrid_function (snd r) = None) \/
   (fst r = "/search_complex" /\ exists n, p_hybrid_function (snd r) = Some n)).

Definition busy_button : button :=
  {| disabled := true; text := "Searching..."; loading_class := true |}.

(** What the user sees of the search form: which panels are displayed,
    the button, the mode. *)
Record face := {
  f_loading : bool;
  f_no_results : bool;
  f_results : bool;
  f_model_hidden : bool;
  f_btn : button;
  f_hybrid : bool
}.

Definition face_of (st : Search.state) : face :=
  {| f_loading := loading_display (pan (ui st));
     f_no_results := no_results_display (pan (ui st));
     f_results := results_display (pan (ui st));
     f_model_hidden := model_loading_hidden (pan (ui st));
     f_btn := btn (ui st);
     f_hybrid := is_hybrid_search (frm (ui st)) |}.

(** After [hide_all_result_elements]; after [show_loading]; after
    [hide_loading] when no panel was displayed; after [display_results] and
    [hide_loading]. *)
Definition wiped (f : face) : face :=
  {| f_loading := false; f_no_results := false; f_results := false;
     f_model_hidden := true; f_btn := f_btn f; f_hybrid := f_hybrid f |}.

Definition searching (f : face) : face :=
  {| f_loading := true; f_no_results := false; f_results := false;
     f_model_hidden := true; f_btn := busy_button; f_hybrid := f_hybrid f |}.

Definition rested (f : face) : face :=
  {| f_loading := false; f_no_results := false; f_results := false;
     f_model_hidden := true; f_btn := idle_button; f_hybrid := f_hybrid f |}.

Definition nothing_found (data : json) : bool :=
  match j_results data, j_total data with
  | None, _ => true
  | Some _, Some 0 => true
  | Some _, _ => false
  end.

Definition presented (data : json) (f : face) : face :=
  {| f_loading := false; f_no_results := nothing_found data;
     f_results := negb (nothing_found data);
     f_model_hidden := true; f_btn := idle_button; f_hybrid := f_hybrid f |}.

(** What one event can do to the face. *)
Inductive face_change (f : face) : face -> Prop :=
| Unchanged : face_change f f
| Wiped : face_change f (wiped f)
| Switched : face_change f
    {| f_loading := false; f_no_results := false; f_results := false;
       f_model_hidden := true; f_btn := f_btn f; f_hybrid := negb (f_hybrid f) |}
| Searching : face_change f (searching f)
| Rested : face_change f (rested f)
| Presented data : face_change f (presented data f).

(** At most one panel is displayed and the model-loading indicator is
    hidden. *)
Definition tidy (f : face) : Prop :=
  Nat.b2n (f_loading f) + Nat.b2n (f_no_results f) + Nat.b2n (f_results f) <= 1 /\
  f_model_hidden f = true.

(** The request a poller retries with. *)
Definition poller_request (p : poller) : string * payload :=
  (p_endpoint p, search_data p).

(** A request is in flight whose reply ends a search. *)
Definition pending (fl : list (nat * kont)) : Prop :=
  exists rid k, lookup rid fl = Some k /\ awaits_search k = true.

(** What the page keeps between two events: identifiers not yet handed out
    are not in flight, the pollers that replies will look up exist, and every
    search request sent or kept for later is sound. *)
Record orderly (v : SearchView.view) : Prop := {
  unused_free : SearchView.fresh_from (SearchView.v_inflight v) (SearchView.v_next v);
  pollers_exist :
    forall rid pid,
      lookup rid (SearchView.v_inflight v) = Some (KStatus pid) \/
      lookup rid (SearchView.v_inflight v) = Some (KRetry pid) ->
      pid < List.length (SearchView.v_pollers v);
  sent_sound : Forall sound_request (SearchView.v_requests v);
  pollers_sound :
    Forall (fun p => sound_request (poller_request p)) (SearchView.v_pollers v);
  awaited_sound :
    forall rid endpoint body,
      lookup rid (SearchView.v_inflight v) = Some (KPrimary endpoint body) ->
      sound_request (endpoint, body)
}.

(** What a continuation that starts to wait needs: a sound request to hand
    on, or its poller. *)
Definition may_wait (k : kont) (v : SearchView.view) : Prop :=
  match k with
  | KPrimary endpoint body => sound_request (endpoint, body)
  | KStatus pid => pid < List.length (SearchView.v_pollers v)
  | KRetry pid => pid < List.length (SearchView.v_pollers v)
  end.

(** The button is disabled only while a search request is in flight. *)
Definition button_waits (st : Search.state) : Prop :=
  disabled (btn (ui st)) = true -> pending (inflight st).




(** *** Result items *)

(** One entry of [data.results]. *)
Record result := {
  r_id : option string;
  r_hash : option string;
  r_url : option string
}.

(** A [.result-item] element as the image viewer reads it. *)
Record result_item := {
  data_index : nat;
  data_hash : option string;         (* the attribute data-hash *)
  img_src : option string;           (* [.result-image img]: its property src *)
  img_alt : string;
  result_title : option string;      (* text of [.result-title] *)
  result_info : option string        (* text of [.result-info] *)
}.

Section Items.

(** The browser resolves the [src] assigned to an image against the address of
    the page; reading [img.src] yields the resolved address. *)
Variable resolve : string -> string.

(** The text of the score line, [Score: x.xxx]. *)
Variable score_text : result -> string.

(** [create_normal_result_item(result, index)], lines 397-442. *)
Definition create_normal_result_item (r : result) (index : nat) : result_item :=
  let title := or_else (r_hash r) "Unknown" in
  {| data_index := index;
     data_hash := None;
     img_src :=
       Some (resolve
         (or_else (r_url r)
            ("/image/" +++ match truthy (r_hash r) with
                           | Some h => h
                           | None => show_js (r_id r)
                           end)));
     img_alt := or_else (r_hash r) "Search result";
     result_title := Some title;
     result_info :=
       Some (title +++ score_text r +++
             "ID: " +++ match truthy (r_id r) with
                        | Some i => i
                        | None => or_else (r_hash r) "Unknown"
                        end) |}.

End Items.

End SearchPage.

(** ** image-viewer.js *)

Module ImageViewer.

Import SearchPage.

(** [extract_image_title(result_item)], lines 57-69. *)
Definition extract_image_title (item : result_item) : string :=
  match result_title item with
  | Some t => trim t
  | None =>
      match result_info item with
      | Some t => trim t
      | None => "Image"
      end
  end.

(** [extract_image_hash(result_item, img)], lines 71-89, for the image of the
    item, whose [src] is [src]. *)
Definition extract_image_hash (item : result_item) (src : string) : option string :=
  match truthy (data_hash item) with
  | Some h => Some h
  | None =>
      match match_image_hash src with
      | Some h => Some h
      | None =>
          if 10 <? String.length (img_alt item) then Some (img_alt item) else None
      end
  end.

(** One document of [data.documents]. *)
Record doc := {
  doc_title : option string;
  doc_content : option string;
  doc_url : option string
}.

(** What the request for the details of an image yields. *)
Inductive details_reply :=
| DetailsNetError (msg : string)                (* fetch or json() rejects *)
| DetailsHttpError                              (* !response.ok *)
| DetailsNull                                   (* the body is null: data.documents throws *)
| Details (documents : option (list doc)).      (* an object and its documents *)

Record state := {
  title_text : string;               (* image_viewer_title.textContent *)
  image_src : string;
  image_alt : string;
  details_display : bool;            (* image_viewer_document_details is displayed *)
  url_btn_display : bool;
  url_btn_onclick : option string;   (* the address the handler opens *)
  active : bool;                     (* image_viewer carries the class active *)
  is_image_viewer_open : bool;
  body_overflow_hidden : bool;       (* document.body.style.overflow *)
  document_title : string;
  document_content : string;
  inflight : list nat;
  next_rid : nat;
  fetched : list string              (* the addresses requested *)
}.

(** [display_document_details(documents)], lines 128-149. *)
Definition display_document_details (documents : option (list doc)) (st : state)
    : state :=
  match documents with
  | None | Some [] =>
      {| title_text := title_text st; image_src := image_src st;
         image_alt := image_alt st; details_display := false;
         url_btn_display := url_btn_display st;
         url_btn_onclick := url_btn_onclick st;
         active := active st; is_image_viewer_open := is_image_viewer_open st;
         body_overflow_hidden := body_overflow_hidden st;
         document_title := document_title st;
         document_content := document_content st;
         inflight := inflight st; next_rid := next_rid st; fetched := fetched st |}
  | Some (d :: _) =>
      {| title_text := title_text st; image_src := image_src st;
         image_alt := image_alt st; details_display := true;
         url_btn_display :=
           match truthy (doc_url d) with Some _ => true | None => false end;
         url_btn_onclick :=
           match truthy (doc_url d) with
           | Some u => Some u
           | None => url_btn_onclick st
           end;
         active := active st; is_image_viewer_open := is_image_viewer_open st;
         body_overflow_hidden := body_overflow_hidden st;
         document_title := or_else (doc_title d) "Untitled Document";
         document_content := or_else (doc_content d) "No content available";
         inflight := inflight st; next_rid := next_rid st; fetched := fetched st |}
  end.

(** [open_image_viewer(image_src, title, image_hash)] up to its [await],
    lines 91-114. *)
Definition open_image_viewer (src title : string) (image_hash : option string)
    (st : state) : state :=
  let title := match title with EmptyString => "Image" | _ => title end in
  let requests : bool :=
    match truthy image_hash with Some _ => true | None => false end in
  {| title_text := title; image_src := src; image_alt := title;
     details_display := false; url_btn_display := false;
     url_btn_onclick := url_btn_onclick st;
     active := true; is_image_viewer_open := true; body_overflow_hidden := true;
     document_title := document_title st;
     document_content := document_content st;
     inflight := if requests then inflight st ++ [next_rid st] else inflight st;
     next_rid := if requests then S (next_rid st) else next_rid st;
     fetched :=
       match truthy image_hash with
       | Some h => fetched st ++ ["/api/image/" +++ h +++ "/details"]
       | None => fetched st
       end |}.

(** ... and from the reply on, lines 116-124. *)
Definition open_image_viewer_resume (r : details_reply) (st : state) : state :=
  match r with
  | Details documents => display_document_details documents st
  | _ => st
  end.

(** [close_image_viewer], lines 151-164. *)
Definition close_image_viewer (st : state) : state :=
  {| title_text := title_text st; image_src := ""; image_alt := image_alt st;
     details_display := false; url_btn_display := false; url_btn_onclick := None;
     active := false; is_image_viewer_open := false; body_overflow_hidden := false;
     document_title := ""; document_content := "";
     inflight := inflight st; next_rid := next_rid st; fetched := fetched st |}.

Inductive event :=
| ClickItem (item : result_item)   (* a click inside a result item *)
| ClickClose                       (* the close button or the overlay *)
| Escape                           (* keydown with key Escape *)
| Reply (rid : nat) (r : details_reply).

Definition step (st : state) (e : event) : state :=
  match e with
  | ClickItem item =>
      match img_src item with
      | Some src =>
          open_image_viewer src (extract_image_title item)
            (extract_image_hash item src) st
      | None => st
      end
  | ClickClose => close_image_viewer st
  | Escape => if is_image_viewer_open st then close_image_viewer st else st
  | Reply rid r =>
      if existsb (Nat.eqb rid) (inflight st) then
        open_image_viewer_resume r
          {| title_text := title_text st; image_src := image_src st;
             image_alt := image_alt st; details_display := details_display st;
             url_btn_display := url_btn_display st;
             url_btn_onclick := url_btn_onclick st;
             active := active st; is_image_viewer_open := is_image_viewer_open st;
             body_overflow_hidden := body_overflow_hidden st;
             document_title := document_title st;
             document_content := document_content st;
             inflight := filter (fun i => negb (i =? rid)) (inflight st);
             next_rid := next_rid st; fetched := fetched st |}
      else st
  end.

Definition run (st : state) (evs : list event) : state := fold_left step evs st.

(** The viewer is open, shown and the page behind it does not scroll, or none
    of the three; and the link to the document is shown only with an address
    to open. *)
Definition coherent (st : state) : Prop :=
  active st = is_image_viewer_open st /\
  body_overflow_hidden st = is_image_viewer_open st /\
  (url_btn_display st = true -> url_btn_onclick st <> None).

Definition init : state :=
  {| title_text := ""; image_src := ""; image_alt := "";
     details_display := false; url_btn_display := false; url_btn_onclick := None;
     active := false; is_image_viewer_open := false; body_overflow_hidden := false;
     document_title := ""; document_content := "";
     inflight := []; next_rid := 0; fetched := [] |}.

End ImageViewer.

(** ** The debug panel: keys, statistics *)

Module DebugPanel.
Import Debug.




End DebugPanel.

Module Statistics.

(** [data.statistics] and [data.embedding_schedule] of /api/status, with the
    fields [fetch_server_statistics] reads; a number that is absent is
    [None]. *)
Record statistics := {
  total_images : option nat;
  visible_images : option nat;
  hidden_images : option nat;
  total_documents : option nat;
  visible_documents : option nat;
  hidden_documents : option nat;
  watched_folders : option nat
}.

Record embedding_schedule := {
  schedule_type : option string;
  start_hour : option nat;
  interval_hours : option nat;
  current_model : option string;
  scheduler_running : bool
}.

Record data := {
  d_statistics : option statistics;
  d_embedding_schedule : option embedding_schedule
}.

Inductive reply :=
| NetFail (msg : string)         (* fetch or json() rejects *)
| HttpError                      (* !response.ok *)
| Null                           (* the body is null: data.statistics throws *)
| Data (d : data).

(** The text of the twelve fields of the panel. *)
Record fields := {
  debug_total_images : string;
  debug_visible_images : string;
  debug_hidden_images : string;
  debug_total_documents : string;
  debug_visible_documents : string;
  debug_hidden_documents : string;
  debug_watched_folders : string;
  debug_schedule_type : string;
  debug_start_hour : string;
  debug_interval_hours : string;
  debug_current_model : string;
  debug_scheduler_running : string
}.

(** [set_default_values], lines 162-176. *)
Definition set_default_values (_ : fields) : fields :=
  {| debug_total_images := "0"; debug_visible_images := "0";
     debug_hidden_images := "0"; debug_total_documents := "0";
     debug_visible_documents := "0"; debug_hidden_documents := "0";
     debug_watched_folders := "0";
     debug_schedule_type := "N/A"; debug_start_hour := "N/A";
     debug_interval_hours := "N/A"; debug_current_model := "N/A";
     debug_scheduler_running := "No" |}.

(** [n || "N/A"] assigned to [textContent]: zero is falsy. *)
Definition number_or_na (n : option nat) : string :=
  match n with
  | Some (S m) => nat_to_string (S m)
  | _ => "N/A"
  end.

Definition write_statistics (s : statistics) (f : fields) : fields :=
  {| debug_total_images := number_or_na (total_images s);
     debug_visible_images := number_or_na (visible_images s);
     debug_hidden_images := number_or_na (hidden_images s);
     debug_total_documents := number_or_na (total_documents s);
     debug_visible_documents := number_or_na (visible_documents s);
     debug_hidden_documents := number_or_na (hidden_documents s);
     debug_watched_folders := number_or_na (watched_folders s);
     debug_schedule_type := debug_schedule_type f;
     debug_start_hour := debug_start_hour f;
     debug_interval_hours := debug_interval_hours f;
     debug_current_model := debug_current_model f;
     debug_scheduler_running := debug_scheduler_running f |}.

Definition write_schedule (e : embedding_schedule) (f : fields) : fields :=
  {| debug_total_images := debug_total_images f;
     debug_visible_images := debug_visible_images f;
     debug_hidden_images := debug_hidden_images f;
     debug_total_documents := debug_total_documents f;
     debug_visible_documents := debug_visible_documents f;
     debug_hidden_documents := debug_hidden_documents f;
     debug_watched_folders := debug_watched_folders f;
     debug_schedule_type := or_else (schedule_type e) "N/A";
     debug_start_hour := number_or_na (start_hour e);
     debug_interval_hours := number_or_na (interval_hours e);
     debug_current_model := or_else (current_model e) "N/A";
     debug_scheduler_running := if scheduler_running e then "Yes" else "No" |}.

(** [fetch_server_statistics] from the reply on, lines 184-229. *)
Definition fetch_server_statistics (r : reply) (f : fields) : fields :=
  match r with
  | NetFail _ => set_default_values f
  | HttpError => set_default_values f
  | Null => set_default_values f
  | Data d =>
      let f1 :=
        match d_statistics d with
        | Some s => write_statistics s f
        | None => set_default_values f
        end in
      match d_embedding_schedule d with
      | Some e => write_schedule e f1
      | None => set_default_values f1
      end
  end.

End Statistics.

(** ** The notification script: the rest of the list, escaping, the theme *)

Module NotifyOps.
Import Notify.

(** [escape_html(text)], lines 126-135. *)
Definition escape_char (c : ascii) : string :=
  match nat_of_ascii c with
  | 38 => "&amp;"
  | 60 => "&lt;"
  | 62 => "&gt;"
  | 34 => "&quot;"
  | 39 => "&#039;"
  | _ => String c EmptyString
  end.

Fixpoint escape_html (text : string) : string :=
  match text with
  | String c s => escape_char c +++ escape_html s
  | EmptyString => EmptyString
  end.

(** The characters that open or close a tag or an attribute value. *)
Definition markup (c : ascii) : bool :=
  let n := nat_of_ascii c in
  (n =? 60) || (n =? 62) || (n =? 34) || (n =? 39).

(** Only timeouts run. *)
Definition timeouts_only (ns : list nat) : list event := map Fire ns.

(** An entry whose removal is under way or due: a timeout that deletes it or
    that will call [remove_notification] for it is pending. *)
Definition targets (t : timeout) (id : nat) : bool :=
  match t with
  | Expire i => i =? id
  | Delete i => i =? id
  | AddShow _ => false
  end.

Definition doomed (id : nat) (ts : list timeout) : bool :=
  existsb (fun t => targets t id) ts.

(** The entries whose key satisfies [P]; those that stay when every pending
    timeout has run. *)
Definition count (P : nat -> bool) (l : list (nat * entry)) : nat :=
  List.length (filter (fun e => P (fst e)) l).

Definition staying (st : state) : nat :=
  count (fun k => negb (doomed k (scheduled st))) (notification_list st).

(** A timeout that calls [remove_notification] may schedule one more. *)
Definition weight (t : timeout) : nat :=
  match t with
  | Expire _ => 2
  | _ => 1
  end.

(** The keys of the list are in use only once and were all handed out. *)
Definition well_keyed (st : state) : Prop :=
  NoDup (map fst (notification_list st)) /\
  (forall k, In k (map fst (notification_list st)) -> k < notification_id st).

(** The notification [id] was handed out and is gone or about to go. *)
Definition leaving (id : nat) (st : state) : Prop :=
  id < notification_id st /\
  (lookup id (notification_list st) = None \/ doomed id (scheduled st) = true).

(** The notification goes away by itself. *)
Definition expires (opts : options) : bool :=
  negb (persistent opts) &&
  (0 <? match duration opts with Some d => d | None => default_duration end).

End NotifyOps.

Module Theme.

Inductive icon := Sun | Moon.

(** [body]'s attribute data-theme, the item theme of localStorage and the
    text of the toggle. *)
Record state := {
  data_theme : string;
  stored : option string;
  theme_icon : icon
}.

(** [get_prefered_theme()] for what the media query says. *)
Definition get_prefered_theme (prefers_dark : bool) : string :=
  if prefers_dark then "dark" else "light".

Definition update_theme_icon (theme : string) : icon :=
  if String.eqb theme "dark" then Sun else Moon.

(** The script as it loads, lines 231-233. *)
Definition init (saved : option string) (prefers_dark : bool) : state :=
  let saved_theme := or_else saved (get_prefered_theme prefers_dark) in
  {| data_theme := saved_theme; stored := saved;
     theme_icon := update_theme_icon saved_theme |}.

Inductive event :=
| PreferenceChange (dark : bool)   (* the media query changes *)
| Click.                           (* a click on the toggle *)

Definition step (st : state) (e : event) : state :=
  match e with
  | PreferenceChange dark =>
      match truthy (stored st) with
      | Some _ => st
      | None =>
          let new_theme := get_prefered_theme dark in
          {| data_theme := new_theme; stored := stored st;
             theme_icon := update_theme_icon new_theme |}
      end
  | Click =>
      let new_theme :=
        if String.eqb (data_theme st) "dark" then "light" else "dark" in
      {| data_theme := new_theme; stored := Some new_theme;
         theme_icon := update_theme_icon new_theme |}
  end.

Definition run (st : state) (evs : list event) : state := fold_left step evs st.

End Theme.

(** ** useSearch: the address of the page, the comparison links *)

(** [parseInt(s)]: white space, a sign, then digits, hexadecimal after 0x;
    [None] is NaN. *)
Definition digit_of (c : ascii) : option nat :=
  let n := nat_of_ascii c in
  if (48 <=? n) && (n <=? 57) then Some (n - 48) else None.

Definition hex_of (c : ascii) : option nat :=
  let n := nat_of_ascii c in
  if (48 <=? n) && (n <=? 57) then Some (n - 48)
  else if (97 <=? n) && (n <=? 102) then Some (n - 87)
  else if (65 <=? n) && (n <=? 70) then Some (n - 55)
  else None.

Fixpoint read_digits (value : ascii -> option nat) (radix : nat)
    (acc : option nat) (s : string) : option nat :=
  match s with
  | String c s' =>
      match value c with
      | Some d =>
          read_digits value radix
            (Some (d + radix * match acc with Some a => a | None => 0 end)) s'
      | None => acc
      end
  | EmptyString => acc
  end.

Definition parseInt (s : string) : option Z :=
  let s1 := trim_start s in
  let signed :=
    match s1 with
    | String "-" r => (true, r)
    | String "+" r => (false, r)
    | _ => (false, s1)
    end in
  let magnitude :=
    match snd signed with
    | String "0" (String "x" r) => read_digits hex_of 16 None r
    | String "0" (String "X" r) => read_digits hex_of 16 None r
    | r => read_digits digit_of 10 None r
    end in
  match magnitude with
  | Some n => Some (if fst signed then (- Z.of_nat n)%Z else Z.of_nat n)
  | None => None
  end.

(** A whole number or NaN, and [n.toString()].  JavaScript holds whole
    numbers exactly and prints all their digits below 2^53; the statements
    about numbers are made for that range, [precise]. *)
Definition number := option Z.

Definition precise (n : number) : Prop :=
  match n with
  | Some z => (Z.abs z < 2 ^ 53)%Z
  | None => True
  end.

Definition number_to_string (n : number) : string :=
  match n with
  | None => "NaN"
  | Some Z0 => "0"
  | Some (Zpos p) => nat_to_string (Pos.to_nat p)
  | Some (Zneg p) => "-" +++ nat_to_string (Pos.to_nat p)
  end.

(** [a !== b] on numbers: NaN differs from everything. *)
Definition number_differs (a b : number) : bool :=
  match a, b with
  | Some x, Some y => negb (Z.eqb x y)
  | _, _ => true
  end.

Module UseSearchUrl.

(** [URLSearchParams]: the pairs of the query string, in order. *)
Definition params := list (string * string).

Fixpoint get (k : string) (m : params) : option string :=
  match m with
  | [] => None
  | (k', v) :: m' => if String.eqb k' k then Some v else get k m'
  end.

Fixpoint delete (k : string) (m : params) : params :=
  match m with
  | [] => []
  | (k', v) :: m' => if String.eqb k' k then delete k m' else (k', v) :: delete k m'
  end.

(** [set] overwrites the first pair of the name and drops the others, or
    appends a pair. *)
Fixpoint set (k v : string) (m : params) : params :=
  match m with
  | [] => [(k, v)]
  | (k', v') :: m' =>
      if String.eqb k' k then (k, v) :: delete k m' else (k', v') :: set k v m'
  end.

(** What [getUrlParams] returns. *)
Record settings := {
  s_query : string;
  s_maxResults : number;
  s_isHybridSearch : bool;
  s_hybridFunction : number
}.

Section Config.

(** [config.defaultMaxResults] and [config.googleSearchSite] *)
Variable defaultMaxResults : number.
Variable googleSearchSite : string.

(** [getUrlParams()], lines 172-180, of the query string [m]. *)
Definition getUrlParams (m : params) : settings :=
  {| s_query := or_else (get "q" m) "";
     s_maxResults :=
       parseInt (or_else (get "max" m) (number_to_string defaultMaxResults));
     s_isHybridSearch :=
       match get "mode" m with
       | Some v => String.eqb v "hybrid"
       | None => false
       end;
     s_hybridFunction := parseInt (or_else (get "func" m) "1") |}.

(** [updateUrlParams(params)], lines 182-219: the query string it hands to
    [replaceState]; a field that is [undefined] is [None]. *)
Definition updateUrlParams (query : option string) (maxResults : option number)
    (isHybridSearch : option bool) (hybridFunction : option number)
    (m : params) : params :=
  let m1 :=
    match query with
    | Some q =>
        match trim q with
        | EmptyString => delete "q" m
        | t => set "q" t m
        end
    | None => m
    end in
  let m2 :=
    match maxResults with
    | Some n =>
        if number_differs n defaultMaxResults
        then set "max" (number_to_string n) m1
        else delete "max" m1
    | None => m1
    end in
  let m3 :=
    match isHybridSearch with
    | Some true => set "mode" "hybrid" m2
    | Some false => delete "mode" m2
    | None => m2
    end in
  match hybridFunction with
  | Some n =>
      if number_differs n (Some 1%Z)
      then set "func" (number_to_string n) m3
      else delete "func" m3
  | None => m3
  end.

(** The settings of the hook that go into the address, and the address. *)
Record state := {
  isHybridSearch : bool;
  maxResults : number;
  hybridFunction : number;
  search : params                  (* window.location.search *)
}.

(** [handleMaxResultsChange], [handleHybridFunctionChange],
    [toggleSearchModeWithSearch], lines 508-528, and [handlePopState],
    lines 243-248. *)
Definition handleMaxResultsChange (n : number) (st : state) : state :=
  {| isHybridSearch := isHybridSearch st; maxResults := n;
     hybridFunction := hybridFunction st;
     search := updateUrlParams None (Some n) None None (search st) |}.

Definition handleHybridFunctionChange (n : number) (st : state) : state :=
  {| isHybridSearch := isHybridSearch st; maxResults := maxResults st;
     hybridFunction := n;
     search := updateUrlParams None None None (Some n) (search st) |}.

Definition toggleSearchModeWithSearch (st : state) : state :=
  {| isHybridSearch := negb (isHybridSearch st); maxResults := maxResults st;
     hybridFunction := hybridFunction st;
     search := updateUrlParams None None (Some (negb (isHybridSearch st))) None
                 (search st) |}.

Definition handlePopState (st : state) : state :=
  let p := getUrlParams (search st) in
  {| isHybridSearch := s_isHybridSearch p; maxResults := s_maxResults p;
     hybridFunction := s_hybridFunction p; search := search st |}.

(** The address [performSearch] leaves, lines 337-348, when it was created
    with the settings [hybrid], [max] and [func]: it returns before
    [updateUrlParams] for a blank query. *)
Definition retry_address (query : string) (hybrid : bool) (max func : number)
    (st : state) : state :=
  match trim query with
  | EmptyString => st
  | _ =>
      {| isHybridSearch := isHybridSearch st; maxResults := maxResults st;
         hybridFunction := hybridFunction st;
         search := updateUrlParams (Some (trim query)) (Some max) (Some hybrid)
                     (Some func) (search st) |}
  end.

Definition search_address (query : string) (st : state) : state :=
  retry_address query (isHybridSearch st) (maxResults st) (hybridFunction st) st.

(** [clearResults], lines 500-506: the address becomes the bare path, the
    settings stay. *)
Definition clearResults (st : state) : state :=
  {| isHybridSearch := isHybridSearch st; maxResults := maxResults st;
     hybridFunction := hybridFunction st; search := [] |}.

(** The hook and the address agree. *)
Definition in_step (st : state) : Prop :=
  let p := getUrlParams (search st) in
  s_maxResults p = maxResults st /\
  s_isHybridSearch p = isHybridSearch st /\
  s_hybridFunction p = hybridFunction st.

(** The component calls the [performSearch] of the latest render, which
    holds the settings of the moment; the retry after a 202 reply calls the
    [performSearch] it was created in, with the settings of that moment. *)
Inductive event :=
| SelectMax (n : number)
| SelectFunction (n : number)
| ToggleMode
| PopState
| Searched (query : string)
| Retried (query : string) (hybrid : bool) (max func : number)
| ClearResults.

Definition step (st : state) (e : event) : state :=
  match e with
  | SelectMax n => handleMaxResultsChange n st
  | SelectFunction n => handleHybridFunctionChange n st
  | ToggleMode => toggleSearchModeWithSearch st
  | PopState => handlePopState st
  | Searched query => search_address query st
  | Retried query hybrid max func => retry_address query hybrid max func st
  | ClearResults => clearResults st
  end.

(** What can happen, with numbers in the precise range. *)
Definition by_user (e : event) : Prop :=
  match e with
  | SelectMax n => precise n
  | SelectFunction n => precise n
  | Retried _ _ max func => precise max /\ precise func
  | _ => True
  end.

(** The events that write the settings of the moment or none: all but the
    Back button and the retry after a 202 reply. *)
Definition steady (e : event) : Prop :=
  match e with
  | SelectMax n => precise n
  | SelectFunction n => precise n
  | Retried _ _ _ _ => False
  | ClearResults => False
  | _ => True
  end.

(** The events that bring the address and the settings together again: a
    search that is sent and a step in the history. *)
Definition resyncs (e : event) : Prop :=
  match e with
  | PopState => True
  | Searched query => trim query <> EmptyString
  | _ => False
  end.

(** The numbers of the configuration and of the query string [m] are in the
    precise range. *)
Definition precise_address (m : params) : Prop :=
  precise defaultMaxResults /\
  precise (s_maxResults (getUrlParams m)) /\
  precise (s_hybridFunction (getUrlParams m)).

Definition run (st : state) (evs : list event) : state := fold_left step evs st.

(** The state the hook starts with, lines 222-239. *)
Definition init (m : params) : state :=
  let p := getUrlParams m in
  {| isHybridSearch := s_isHybridSearch p; maxResults := s_maxResults p;
     hybridFunction := s_hybridFunction p; search := m |}.



End Config.

End UseSearchUrl.

(** ** The hooks useModelStatus and useTheme *)

Module UseModelStatus.

Inductive reply :=
| NetError (msg : string)        (* fetch or json() rejects *)
| HttpError (code : nat)         (* !response.ok *)
| Ok (data : Search.json).

(** The state of the hook, the interval its effect holds, and the browser's
    intervals and requests. *)
Record state := {
  status : option Search.json;
  error : option string;
  isPolling : bool;
  interval : option nat;           (* the interval the effect's cleanup clears *)
  timers : list nat;
  next_timer : nat;
  inflight : list nat;
  next_rid : nat
}.

(** [fetchStatus] up to its [await]. *)
Definition fetchStatus (st : state) : state :=
  {| status := status st; error := error st; isPolling := isPolling st;
     interval := interval st; timers := timers st; next_timer := next_timer st;
     inflight := inflight st ++ [next_rid st]; next_rid := S (next_rid st) |}.

(** ... and from the reply on, lines 26-36. *)
Definition fetchStatus_resume (r : reply) (st : state) : state :=
  match r with
  | Ok data =>
      {| status := Some data; error := None; isPolling := isPolling st;
         interval := interval st; timers := timers st; next_timer := next_timer st;
         inflight := inflight st; next_rid := next_rid st |}
  | HttpError code =>
      {| status := status st;
         error := Some ("Failed to fetch status: " +++ nat_to_string code);
         isPolling := isPolling st;
         interval := interval st; timers := timers st; next_timer := next_timer st;
         inflight := inflight st; next_rid := next_rid st |}
  | NetError msg =>
      {| status := status st; error := Some ("Network error: " +++ msg);
         isPolling := isPolling st;
         interval := interval st; timers := timers st; next_timer := next_timer st;
         inflight := inflight st; next_rid := next_rid st |}
  end.

(** The effect of lines 39-49: its body, and the cleanup it returned. *)
Definition effect (st : state) : state :=
  if isPolling st then
    let st1 := fetchStatus st in
    {| status := status st1; error := error st1; isPolling := isPolling st1;
       interval := Some (next_timer st1);
       timers := timers st1 ++ [next_timer st1];
       next_timer := S (next_timer st1);
       inflight := inflight st1; next_rid := next_rid st1 |}
  else st.

Definition cleanup (st : state) : state :=
  match interval st with
  | Some i =>
      {| status := status st; error := error st; isPolling := isPolling st;
         interval := None;
         timers := filter (fun t => negb (t =? i)) (timers st);
         next_timer := next_timer st;
         inflight := inflight st; next_rid := next_rid st |}
  | None => st
  end.

(** [setIsPolling(b)]: a new value renders the hook again, which runs the
    cleanup of the effect and then the effect; the same value does nothing. *)
Definition setIsPolling (b : bool) (st : state) : state :=
  if Bool.eqb b (isPolling st) then st
  else
    let st1 := cleanup st in
    effect
      {| status := status st1; error := error st1; isPolling := b;
         interval := interval st1; timers := timers st1;
         next_timer := next_timer st1;
         inflight := inflight st1; next_rid := next_rid st1 |}.

Inductive event :=
| StartPolling
| StopPolling
| Refetch
| Tick (id : nat)
| Reply (rid : nat) (r : reply).

Definition step (st : state) (e : event) : state :=
  match e with
  | StartPolling => setIsPolling true st
  | StopPolling => setIsPolling false st
  | Refetch => fetchStatus st
  | Tick id => if existsb (Nat.eqb id) (timers st) then fetchStatus st else st
  | Reply rid r =>
      if existsb (Nat.eqb rid) (inflight st) then
        fetchStatus_resume r
          {| status := status st; error := error st; isPolling := isPolling st;
             interval := interval st; timers := timers st;
             next_timer := next_timer st;
             inflight := filter (fun i => negb (i =? rid)) (inflight st);
             next_rid := next_rid st |}
      else st
  end.

Definition run (st : state) (evs : list event) : state := fold_left step evs st.

(** The hook once mounted: the effect has run. *)
Definition init : state :=
  effect {| status := None; error := None; isPolling := true; interval := None;
            timers := []; next_timer := 1; inflight := []; next_rid := 0 |}.


End UseModelStatus.

Module UseTheme.

(** The state of the hook, the item theme of localStorage, the class dark of
    the document and what the media query says. *)
Record state := {
  theme : string;
  stored : option string;
  dark_class : bool;
  prefers_dark : bool
}.

(** [applyTheme], lines 83-89 of the hooks file. *)
Definition applyTheme (st : state) : state :=
  {| theme := theme st; stored := stored st;
     dark_class :=
       match stored st with
       | Some t => String.eqb t "dark"
       | None => prefers_dark st
       end;
     prefers_dark := prefers_dark st |}.

Definition set_theme (t : string) (s : option string) (st : state) : state :=
  applyTheme {| theme := t; stored := s; dark_class := dark_class st;
                prefers_dark := prefers_dark st |}.

Definition setLight : state -> state := set_theme "light" (Some "light").
Definition setDark : state -> state := set_theme "dark" (Some "dark").
Definition setSystem : state -> state := set_theme "system" None.

(** The listener of the media query. *)
Definition handleChange (dark : bool) (st : state) : state :=
  let st1 := {| theme := theme st; stored := stored st;
                dark_class := dark_class st; prefers_dark := dark |} in
  match stored st1 with
  | None => applyTheme st1
  | Some _ => st1
  end.

Inductive event :=
| SetLight
| SetDark
| SetSystem
| PreferenceChange (dark : bool).

Definition step (st : state) (e : event) : state :=
  match e with
  | SetLight => setLight st
  | SetDark => setDark st
  | SetSystem => setSystem st
  | PreferenceChange dark => handleChange dark st
  end.

Definition run (st : state) (evs : list event) : state := fold_left step evs st.

(** The hook once mounted: the effect has applied the theme. *)
Definition init (saved : option string) (prefers : bool) (class : bool) : state :=
  applyTheme {| theme := or_else saved "system"; stored := saved;
                dark_class := class; prefers_dark := prefers |}.

(** What the class dark should be. *)
Definition wants_dark (st : state) : bool :=
  match stored st with
  | Some t => String.eqb t "dark"
  | None => prefers_dark st
  end.

End UseTheme.

(** ** The component ResultsList *)

Module ResultsList.
Import SearchPage.

(** [getColumnsCount()] for the width of the window. *)
Definition getColumnsCount (width : nat) : nat :=
  if width <? 640 then 1
  else if width <? 1024 then 2
  else if width <? 1280 then 3
  else 4.

(** [distributeItems()], lines 60-72: the results dealt out over [columns]
    columns, each with its index in [results].  The component calls it with
    1 to 4 columns. *)
Definition distributeItems {A} (columns : nat) (results : list A)
    : list (list (A * nat)) :=
  fst (fold_left
         (fun (acc : list (list (A * nat)) * nat) item =>
            (update_nth (snd acc mod columns)
               (fun col => col ++ [(item, snd acc)]) (fst acc),
             S (snd acc)))
         results (repeat [] columns, 0)).

(** The results with their indices, and those of them whose index is
    congruent to [c]. *)
Definition indexed {A} (results : list A) : list (A * nat) :=
  combine results (seq 0 (List.length results)).

Definition column_of {A} (columns c : nat) (results : list A) : list (A * nat) :=
  filter (fun p => snd p mod columns =? c) (indexed results).

Section Config.

(** [config.apiBaseUrl] *)
Variable apiBaseUrl : string.

(** The [imgSrc] of a result, line 202. *)
Definition imgSrc (r : result) : string :=
  or_else (r_url r)
    (apiBaseUrl +++ "/image/" +++
     match truthy (r_hash r) with
     | Some h => h
     | None => or_else (r_id r) ""
     end).

(** [extractImageHash(result, imgSrc)] and [extractTitle(result)],
    lines 26-37. *)
Definition extractImageHash (r : result) (src : string) : option string :=
  match truthy (r_hash r) with
  | Some h => Some h
  | None =>
      match match_image_hash src with
      | Some h => Some h
      | None => truthy (r_id r)
      end
  end.

Definition extractTitle (r : result) : string :=
  match truthy (r_hash r) with
  | Some h => h
  | None => or_else (r_id r) "Unknown"
  end.

End Config.

End ResultsList.

(** * Proofs *)

(** ** Lists and association lists *)

Section ListFacts.
Context {A : Type}.

Lemma lookup_snoc_fresh (n : nat) (v : A) l :
  lookup n l = None -> lookup n (l ++ [(n, v)]) = Some v.
Proof.
  induction l as [|[k w] l IH]; simpl.
  - now rewrite Nat.eqb_refl.
  - destruct (n =? k); [discriminate | exact IH].
Qed.

Lemma remove_key_fresh (n : nat) (l : list (nat * A)) :
  lookup n l = None -> remove_key n l = l.
Proof.
  induction l as [|[k w] l IH]; simpl; trivial.
  destruct (n =? k); [discriminate | intros H; now rewrite IH].
Qed.

Lemma remove_key_snoc_fresh (n : nat) (v : A) l :
  lookup n l = None -> remove_key n (l ++ [(n, v)]) = l.
Proof.
  induction l as [|[k w] l IH]; simpl.
  - now rewrite Nat.eqb_refl.
  - destruct (n =? k); [discriminate | intros H; now rewrite IH].
Qed.

Lemma lookup_remove_key (n m : nat) (l : list (nat * A)) :
  lookup n l = None -> lookup n (remove_key m l) = None.
Proof.
  induction l as [|[k w] l IH]; simpl; trivial.
  destruct (n =? k) eqn:E; [discriminate|].
  intros H. destruct (m =? k); simpl; [auto | now rewrite E; auto].
Qed.

Lemma nth_error_snoc (l : list A) (x : A) :
  nth_error (l ++ [x]) (List.length l) = Some x.
Proof. induction l; simpl; auto. Qed.

Lemma update_nth_snoc (f : A -> A) (l : list A) (x : A) :
  update_nth (List.length l) f (l ++ [x]) = l ++ [f x].
Proof. induction l; simpl; [|rewrite IHl]; reflexivity. Qed.

Lemma update_nth_idem (f : A -> A) (n : nat) (l : list A) :
  (forall x, f (f x) = f x) ->
  update_nth n f (update_nth n f l) = update_nth n f l.
Proof.
  intros Hf. revert n; induction l as [|x l IH]; intros [|n]; simpl; trivial.
  - now rewrite Hf.
  - now rewrite IH.
Qed.

Lemma nth_error_update_nth (f : A -> A) (n : nat) (l : list A) :
  nth_error (update_nth n f l) n = option_map f (nth_error l n).
Proof. revert n; induction l; intros [|n]; simpl; auto. Qed.

End ListFacts.

Lemma pick_app {A B} (f : A -> option B) (l1 l2 : list A) :
  pick f (l1 ++ l2) = pick f l1 ++ pick f l2.
Proof.
  induction l1 as [|x l1 IH]; simpl; trivial.
  destruct (f x); simpl; now rewrite IH.
Qed.


(** ** Facts about search.js *)

Module SearchFacts.
Import Search SearchView.

Lemma view_set_ui f st : view_of (set_ui f st) = view_of st.
Proof. reflexivity. Qed.

Lemma view_emit e st : view_of (emit e st) = observe e (view_of st).
Proof.
  unfold view_of, observe, emit, search_requests, status_polls, displayed,
    errors_shown; cbn [log pollers inflight next_rid v_pollers v_inflight v_next
    v_requests v_polls v_displayed v_errors].
  now rewrite !pick_app.
Qed.

Lemma observe_quiet e v : quiet e -> observe e v = v.
Proof.
  intros (H1 & H2 & H3 & H4). unfold observe. rewrite H1, H2, H3, H4, !app_nil_r.
  now destruct v.
Qed.

Lemma view_emit_quiet e st : quiet e -> view_of (emit e st) = view_of st.
Proof. intros H. now rewrite view_emit, observe_quiet. Qed.

Lemma view_show_notification k t m st :
  view_of (show_notification k t m st) = observe (Notify k t m) (view_of st).
Proof. apply (view_emit (Notify k t m) st). Qed.

Lemma view_set_pollers f st :
  view_of (set_pollers f st) = with_pollers f (view_of st).
Proof. reflexivity. Qed.

Lemma view_settle rid st : view_of (settle rid st) = settled rid (view_of st).
Proof. reflexivity. Qed.

Lemma view_fetch_search url body skip k st :
  view_of (fetch url (Some body) skip k st) = requested url body k (view_of st).
Proof.
  unfold view_of, requested, fetch, search_requests, status_polls, displayed,
    errors_shown; cbn [log pollers inflight next_rid v_pollers v_inflight v_next
    v_requests v_polls v_displayed v_errors].
  rewrite !pick_app. cbn [pick]. now rewrite !app_nil_r.
Qed.

Lemma view_fetch_poll url skip k st :
  view_of (fetch url None skip k st) = polled k (view_of st).
Proof.
  unfold view_of, polled, fetch, search_requests, status_polls, displayed,
    errors_shown; cbn [log pollers inflight next_rid v_pollers v_inflight v_next
    v_requests v_polls v_displayed v_errors].
  rewrite !pick_app. cbn [pick]. now rewrite !app_nil_r.
Qed.

Lemma quiet_remove id : quiet (RemoveNotification id).
Proof. now repeat split. Qed.
Lemma quiet_update id t m : quiet (UpdateNotification id t m).
Proof. now repeat split. Qed.
Lemma quiet_console m : quiet (ConsoleError m).
Proof. now repeat split. Qed.
Lemma quiet_timeout ms w : quiet (SetTimeout ms w).
Proof. now repeat split. Qed.
Lemma quiet_info t m : quiet (Notify "info" t m).
Proof. now repeat split. Qed.
Lemma quiet_success t m : quiet (Notify "success" t m).
Proof. now repeat split. Qed.
Lemma quiet_warning t m : quiet (Notify "warning" t m).
Proof. now repeat split. Qed.

Create HintDb quiet.
#[local] Hint Resolve quiet_remove quiet_update quiet_console quiet_timeout
  quiet_info quiet_success quiet_warning : quiet.

(** Helpers that only touch the DOM. *)
Lemma view_hide_all st : view_of (hide_all_result_elements st) = view_of st.
Proof. reflexivity. Qed.
Lemma view_set_welcome b st : view_of (set_welcome b st) = view_of st.
Proof. reflexivity. Qed.
Lemma view_set_loading_display b st : view_of (set_loading_display b st) = view_of st.
Proof. reflexivity. Qed.
Lemma view_show_loading st : view_of (show_loading st) = view_of st.
Proof. reflexivity. Qed.
Lemma view_show_results st : view_of (show_results st) = view_of st.
Proof. reflexivity. Qed.
Lemma view_show_no_results st : view_of (show_no_results st) = view_of st.
Proof. reflexivity. Qed.
Lemma view_display_normal items st :
  view_of (display_normal_results items st) = view_of st.
Proof. reflexivity. Qed.
Lemma view_clear_results st : view_of (clear_results st) = view_of st.
Proof. reflexivity. Qed.

Lemma view_hide_model_loading st : view_of (hide_model_loading st) = view_of st.
Proof.
  unfold hide_model_loading. cbv zeta.
  destruct (loadingNotificationId _);
    now rewrite ?view_set_ui, ?view_emit_quiet, ?view_set_ui by auto with quiet.
Qed.

Lemma view_hide_loading st : view_of (hide_loading st) = view_of st.
Proof. unfold hide_loading. now rewrite view_hide_model_loading. Qed.

Lemma view_update_message m st :
  view_of (update_model_loading_message m st) = view_of st.
Proof.
  unfold update_model_loading_message. cbv zeta.
  destruct (loadingNotificationId _);
    now rewrite ?view_emit_quiet, ?view_set_ui by auto with quiet.
Qed.

Lemma view_show_model_loading m st :
  view_of (show_model_loading_message m st) = view_of st.
Proof.
  unfold show_model_loading_message. cbv zeta.
  rewrite !view_set_ui. unfold showInfo.
  now rewrite view_show_notification, observe_quiet, view_hide_all by auto with quiet.
Qed.

Lemma reported_eq t m v : observe (Notify "error" t m) v = reported m v.
Proof. unfold observe, reported. cbn. now rewrite !app_nil_r. Qed.

Lemma view_show_error m st :
  view_of (show_error_message m st) = reported m (view_of st).
Proof.
  unfold show_error_message, showError.
  now rewrite view_show_notification, view_hide_all, reported_eq.
Qed.

Lemma view_show_warning w st : view_of (show_warning_message w st) = view_of st.
Proof.
  unfold show_warning_message, showWarning. cbv zeta.
  now rewrite view_show_notification, observe_quiet by auto with quiet.
Qed.

Lemma shown_eq data v : observe (Display data) v = shown data v.
Proof. unfold observe, shown. cbn. now rewrite !app_nil_r. Qed.

Lemma view_display_results data st :
  view_of (display_results data st) = shown data (view_of st).
Proof.
  unfold display_results. cbv zeta.
  assert (H : forall s, view_of s = shown data (view_of st) ->
              view_of match j_results data, j_total data with
                      | None, _ => show_no_results s
                      | Some _, Some 0 => show_no_results s
                      | Some items, _ => display_normal_results items s
                      end = shown data (view_of st)).
  { intros s Hs. destruct (j_results data), (j_total data) as [[|n]|];
      now rewrite ?view_show_no_results, ?view_display_normal. }
  apply H. destruct (j_warning data);
    now rewrite ?view_show_warning, view_emit, shown_eq.
Qed.

Lemma caught_eq pid msg v :
  reported ("Search failed: " +++ msg) (with_pollers (update_nth pid stopped) v)
  = caught pid msg v.
Proof. reflexivity. Qed.

Lemma view_poll_catch pid msg st :
  view_of (poll_catch pid msg st) = caught pid msg (view_of st).
Proof.
  unfold poll_catch. cbv zeta.
  rewrite view_hide_loading, view_show_error.
  destruct (loadingNotificationId _);
    rewrite ?view_set_ui, ?view_emit_quiet by auto with quiet;
    unfold clearInterval; now rewrite view_set_pollers.
Qed.

Lemma view_search_catch msg st :
  view_of (search_catch msg st) = reported ("Search failed: " +++ msg) (view_of st).
Proof.
  unfold search_catch.
  now rewrite view_hide_loading, view_show_error, view_emit_quiet by auto with quiet.
Qed.

(** The tick of an armed poller sends one status poll. *)
Lemma view_poll_tick pid p st :
  nth_error (pollers st) pid = Some p -> timer_active p = true ->
  view_of (poll_tick pid st) =
  polled (KStatus pid) (with_pollers (update_nth pid bumped) (view_of st)).
Proof.
  intros Hp Ha. unfold poll_tick. rewrite Hp, Ha.
  now rewrite view_fetch_poll, view_set_pollers.
Qed.

Lemma poll_tick_cleared pid st : polling pid st = false -> poll_tick pid st = st.
Proof.
  unfold polling, poll_tick. destruct (nth_error _ _) as [p|]; trivial.
  now intros ->.
Qed.

Lemma view_status_ready pid p code data st :
  nth_error (pollers st) pid = Some p -> j_ready_for_search data = true ->
  view_of (poll_status_resume pid (Http code data) st) =
  requested (p_endpoint p) (search_data p) (KRetry pid)
    (with_pollers (update_nth pid stopped) (view_of st)).
Proof.
  intros Hp Hr. unfold poll_status_resume. rewrite Hp, Hr. cbv zeta.
  rewrite view_fetch_search, view_show_loading.
  destruct (loadingNotificationId _);
    rewrite ?view_emit_quiet by auto with quiet;
    unfold clearInterval; now rewrite view_set_pollers.
Qed.

Lemma view_status_waiting pid p code data st :
  nth_error (pollers st) pid = Some p -> j_ready_for_search data = false ->
  attempts p < max_attempts ->
  view_of (poll_status_resume pid (Http code data) st) = view_of st.
Proof.
  intros Hp Hr Ha. unfold poll_status_resume. rewrite Hp, Hr.
  apply Nat.leb_gt in Ha. rewrite Ha. apply view_update_message.
Qed.

Lemma caught_stopped pid msg v :
  caught pid msg (with_pollers (update_nth pid stopped) v) = caught pid msg v.
Proof.
  unfold caught, with_pollers. cbn. now rewrite update_nth_idem.
Qed.

Lemma view_status_timeout pid p code data st :
  nth_error (pollers st) pid = Some p -> j_ready_for_search data = false ->
  max_attempts <= attempts p ->
  view_of (poll_status_resume pid (Http code data) st) =
  caught pid timeout_message (view_of st).
Proof.
  intros Hp Hr Ha. unfold poll_status_resume. rewrite Hp, Hr.
  apply Nat.leb_le in Ha. rewrite Ha. cbv zeta.
  rewrite view_poll_catch.
  destruct (loadingNotificationId _);
    rewrite ?view_emit_quiet by auto with quiet;
    unfold clearInterval; rewrite view_set_pollers, view_update_message;
    apply caught_stopped.
Qed.

Lemma view_status_failed pid p r msg st :
  nth_error (pollers st) pid = Some p -> poll_failure r = Some msg ->
  view_of (poll_status_resume pid r st) = caught pid msg (view_of st).
Proof.
  intros Hp Hf. unfold poll_status_resume. rewrite Hp.
  destruct r; try discriminate; injection Hf as <-; apply view_poll_catch.
Qed.

Lemma view_retry pid p r st :
  nth_error (pollers st) pid = Some p ->
  view_of (poll_retry_resume pid r st) =
  match outcome_of r with
  | Results result => shown result (view_of st)
  | Failure msg => caught pid msg (view_of st)
  end.
Proof.
  intros Hp. unfold poll_retry_resume. rewrite Hp.
  destruct r as [msg|code msg|code result]; cbn [outcome_of];
    try apply view_poll_catch.
  destruct (http_ok code); [|apply view_poll_catch].
  rewrite view_hide_loading. unfold showSuccess.
  now rewrite view_show_notification, observe_quiet, view_display_results
    by auto with quiet.
Qed.

Lemma view_perform_search st c q :
  trim (input_value (frm (ui st))) = String c q ->
  view_of (perform_search st) =
  requested (endpoint_of (frm (ui st))) (body_data_of (frm (ui st)))
    (KPrimary (endpoint_of (frm (ui st))) (body_data_of (frm (ui st))))
    (view_of st).
Proof.
  intros Hq. unfold perform_search. cbv zeta. rewrite Hq.
  now rewrite view_fetch_search, view_show_loading.
Qed.

Lemma view_perform_search_blank st :
  trim (input_value (frm (ui st))) = "" ->
  perform_search st = show_error_message "Please enter a search query" st.
Proof. intros Hq. unfold perform_search. cbv zeta. now rewrite Hq. Qed.

Lemma view_resume_loading endpoint body code data m st :
  is_loading_reply code data = true -> j_message data = Some m ->
  view_of (perform_search_resume endpoint body (Http code data) st) =
  with_pollers (fun ps => ps ++ [armed 0 body endpoint]) (view_of st).
Proof.
  intros Hl Hm. unfold perform_search_resume.
  unfold is_loading_reply in Hl. rewrite Hl, Hm. cbv zeta.
  rewrite view_hide_loading. unfold poll_for_model_ready_and_search.
  rewrite view_set_pollers. unfold showInfo.
  destruct (includes _ _);
    now rewrite ?view_show_notification, ?observe_quiet, view_show_model_loading
      by auto with quiet.
Qed.

(** *** Steps *)

Lemma step_response st rid r k :
  lookup rid (inflight st) = Some k ->
  step st (Response rid r) =
  match k with
  | KPrimary endpoint body => perform_search_resume endpoint body r (settle rid st)
  | KStatus pid => poll_status_resume pid r (settle rid st)
  | KRetry pid => poll_retry_resume pid r (settle rid st)
  end.
Proof. intros H. unfold step. now rewrite H. Qed.

Lemma step_response_stray st rid r :
  lookup rid (inflight st) = None -> step st (Response rid r) = st.
Proof. intros H. unfold step. now rewrite H. Qed.

Lemma run_app st evs1 evs2 : run st (evs1 ++ evs2) = run (run st evs1) evs2.
Proof. apply fold_left_app. Qed.


(** *** Rounds of a poller whose replies do not overlap *)

Ltac view_simpl :=
  unfold caught, requested, polled, reported, shown, settled, with_pollers, shape;
  cbn [v_pollers v_inflight v_next v_requests v_polls v_displayed v_errors].

Lemma polling_shape ps fl R D p n P E st :
  view_of st = shape ps fl R D p n P E ->
  polling (List.length ps) st = timer_active p.
Proof.
  intros Hv. apply (f_equal v_pollers) in Hv. cbn in Hv.
  unfold polling. now rewrite Hv, nth_error_snoc.
Qed.

Lemma poller_shape ps fl R D p n P E st :
  view_of st = shape ps fl R D p n P E ->
  nth_error (pollers st) (List.length ps) = Some p.
Proof.
  intros Hv. apply (f_equal v_pollers) in Hv. cbn in Hv.
  now rewrite Hv, nth_error_snoc.
Qed.

Lemma fresh_from_le fl n m : n <= m -> fresh_from fl n -> fresh_from fl m.
Proof. intros Hnm Hf r Hr. apply Hf. lia. Qed.

Lemma sequential_polls_round pid r rs st :
  sequential_polls pid (r :: rs) st = sequential_polls pid rs (round pid r st).
Proof. reflexivity. Qed.

Lemma sequential_polls_app pid rs1 rs2 st :
  sequential_polls pid (rs1 ++ rs2) st =
  sequential_polls pid rs2 (sequential_polls pid rs1 st).
Proof. revert st; induction rs1 as [|r rs1 IH]; intros st; simpl; auto. Qed.

Section Rounds.

Variables (ps : list poller) (fl : list (nat * kont)) (d : payload) (ep : string).
Variables (R : list (string * payload)) (D : list json).

Let pid := List.length ps.

(** After the tick, with the status poll [n] in flight. *)
Lemma tick_armed a n P E st :
  view_of st = shape ps fl R D (armed a d ep) n P E ->
  view_of (step st (Tick pid)) =
  shape ps (fl ++ [(n, KStatus pid)]) R D (armed (S a) d ep) (S n) (P ++ [n]) E.
Proof.
  intros Hv. cbn [step].
  rewrite (@view_poll_tick pid (armed a d ep)), Hv;
    [|exact (poller_shape Hv)|reflexivity].
  view_simpl. subst pid. now rewrite update_nth_snoc.
Qed.

(** The reply to the poll in flight reaches the tick's continuation. *)
Lemma reply_reaches p n P E r st :
  fresh_from fl n ->
  view_of st = shape ps (fl ++ [(n, KStatus pid)]) R D p (S n) P E ->
  step st (Response n r) = poll_status_resume pid r (settle n st) /\
  view_of (settle n st) = shape ps fl R D p (S n) P E.
Proof.
  intros Hf Hv. split.
  - apply (@step_response _ _ _ (KStatus pid)).
    apply (f_equal v_inflight) in Hv. cbn in Hv. rewrite Hv.
    apply lookup_snoc_fresh, Hf, le_n.
  - rewrite view_settle, Hv. view_simpl.
    now rewrite remove_key_snoc_fresh by apply Hf, le_n.
Qed.

Lemma next_shape p n P E st :
  view_of st = shape ps fl R D p n P E -> next_rid st = n.
Proof. intros Hv. now apply (f_equal v_next) in Hv. Qed.

Lemma round_waiting a n P E r st :
  fresh_from fl n -> not_ready r -> S a < max_attempts ->
  view_of st = shape ps fl R D (armed a d ep) n P E ->
  view_of (round pid r st) = shape ps fl R D (armed (S a) d ep) (S n) (P ++ [n]) E.
Proof.
  intros Hf Hr Ha Hv. unfold round. rewrite (next_shape Hv).
  apply tick_armed in Hv.
  destruct (@reply_reaches _ _ _ _ r _ Hf Hv) as [-> Hs].
  destruct r as [|?|code data]; try contradiction. simpl in Hr.
  rewrite (@view_status_waiting pid (armed (S a) d ep)); trivial.
  exact (poller_shape Hs).
Qed.

Lemma round_ready a n P E code data st :
  fresh_from fl n -> j_ready_for_search data = true ->
  view_of st = shape ps fl R D (armed a d ep) n P E ->
  view_of (round pid (Http code data) st) =
  shape ps (fl ++ [(S n, KRetry pid)]) (R ++ [(ep, d)]) D
        (stopped (armed (S a) d ep)) (S (S n)) (P ++ [n]) E.
Proof.
  intros Hf Hr Hv. unfold round. rewrite (next_shape Hv).
  apply tick_armed in Hv.
  destruct (@reply_reaches _ _ _ _ (Http code data) _ Hf Hv) as [-> Hs].
  rewrite (@view_status_ready pid (armed (S a) d ep)), Hs;
    [|exact (poller_shape Hs)|trivial].
  view_simpl. subst pid. now rewrite update_nth_snoc.
Qed.

Lemma round_timeout a n P E r st :
  fresh_from fl n -> not_ready r -> max_attempts <= S a ->
  view_of st = shape ps fl R D (armed a d ep) n P E ->
  view_of (round pid r st) =
  shape ps fl R D (stopped (armed (S a) d ep)) (S n) (P ++ [n])
        (E ++ ["Search failed: " +++ timeout_message]).
Proof.
  intros Hf Hr Ha Hv. unfold round. rewrite (next_shape Hv).
  apply tick_armed in Hv.
  destruct (@reply_reaches _ _ _ _ r _ Hf Hv) as [-> Hs].
  destruct r as [|?|code data]; try contradiction. simpl in Hr.
  rewrite (@view_status_timeout pid (armed (S a) d ep)), Hs;
    [|exact (poller_shape Hs)|trivial..].
  view_simpl. subst pid. now rewrite update_nth_snoc.
Qed.

(** A failed poll ends the polling. *)
Lemma round_failed a n P E r msg st :
  fresh_from fl n -> poll_failure r = Some msg ->
  view_of st = shape ps fl R D (armed a d ep) n P E ->
  view_of (round pid r st) =
  shape ps fl R D (stopped (armed (S a) d ep)) (S n) (P ++ [n])
        (E ++ ["Search failed: " +++ msg]).
Proof.
  intros Hf Hr Hv. unfold round. rewrite (next_shape Hv).
  apply tick_armed in Hv.
  destruct (@reply_reaches _ _ _ _ r _ Hf Hv) as [-> Hs].
  rewrite (@view_status_failed pid (armed (S a) d ep) r msg), Hs;
    [|exact (poller_shape Hs)|trivial].
  view_simpl. subst pid. now rewrite update_nth_snoc.
Qed.

(** Once the timer is cleared a round changes nothing. *)
Lemma round_cleared p n P E r st :
  fresh_from fl n -> timer_active p = false ->
  view_of st = shape ps fl R D p n P E ->
  round pid r st = st.
Proof.
  intros Hf Hp Hv. unfold round.
  cbn [step]. rewrite poll_tick_cleared.
  - apply step_response_stray. rewrite (next_shape Hv).
    apply (f_equal v_inflight) in Hv. cbn in Hv. rewrite Hv. apply Hf, le_n.
  - exact (eq_trans (polling_shape Hv) Hp).
Qed.

Lemma seq_waiting rs : forall a n P E st,
  fresh_from fl n -> Forall not_ready rs -> a + List.length rs < max_attempts ->
  view_of st = shape ps fl R D (armed a d ep) n P E ->
  view_of (sequential_polls pid rs st) =
  shape ps fl R D (armed (a + List.length rs) d ep) (n + List.length rs)
        (P ++ seq n (List.length rs)) E.
Proof.
  induction rs as [|r rs IH]; intros a n P E st Hf Hrs Ha Hv.
  - simpl. now rewrite !Nat.add_0_r, app_nil_r.
  - rewrite sequential_polls_round. inversion Hrs as [|? ? Hr Hrs']; subst.
    simpl List.length in *.
    rewrite (IH (S a) (S n) (P ++ [n]) E).
    + rewrite <- !Nat.add_succ_comm, <- app_assoc. reflexivity.
    + apply (@fresh_from_le _ n); auto.
    + assumption.
    + lia.
    + apply round_waiting; trivial. lia.
Qed.

Lemma seq_cleared rs : forall p n P E st,
  fresh_from fl n -> timer_active p = false ->
  view_of st = shape ps fl R D p n P E ->
  sequential_polls pid rs st = st.
Proof.
  induction rs as [|r rs IH]; intros p n P E st Hf Hp Hv; trivial.
  rewrite sequential_polls_round, (@round_cleared p n P E r st); eauto.
Qed.

End Rounds.

(** *** A dispatch answered with 202 model_loading *)

Lemma view_dispatch st c q code data m :
  well_formed st ->
  trim (input_value (frm (ui st))) = String c q ->
  is_loading_reply code data = true -> j_message data = Some m ->
  view_of (run st [Submit; Response (next_rid st) (Http code data)]) =
  shape (pollers st) (inflight st)
        (search_requests (log st) ++
           [(endpoint_of (frm (ui st)), body_data_of (frm (ui st)))])
        (displayed (log st))
        (armed 0 (body_data_of (frm (ui st))) (endpoint_of (frm (ui st))))
        (S (next_rid st)) (status_polls (log st)) (errors_shown (log st)).
Proof.
  intros Hwf Hq Hl Hm. cbn [run fold_left].
  pose proof (view_perform_search st Hq) as Hv.
  change (step st Submit) with (perform_search st).
  assert (Hs : step (perform_search st) (Response (next_rid st) (Http code data)) =
               perform_search_resume (endpoint_of (frm (ui st)))
                 (body_data_of (frm (ui st))) (Http code data)
                 (settle (next_rid st) (perform_search st))).
  { apply (@step_response _ _ _ (KPrimary _ _)).
    apply (f_equal v_inflight) in Hv. cbn in Hv. rewrite Hv.
    apply lookup_snoc_fresh, Hwf, le_n. }
  rewrite Hs, (@view_resume_loading _ _ _ _ m), view_settle, Hv; trivial.
  view_simpl. unfold view_of. cbn [v_pollers v_inflight v_next v_requests v_polls
    v_displayed v_errors].
  now rewrite remove_key_snoc_fresh by apply Hwf, le_n.
Qed.

Lemma well_formed_fresh st n : well_formed st -> next_rid st <= n ->
  fresh_from (inflight st) n.
Proof. intros Hwf Hn r Hr. apply Hwf. lia. Qed.

(** The reply to the retry reaches the retry's continuation. *)
Lemma view_retry_reply ps fl R D p n P E st :
  fresh_from fl n ->
  view_of st = shape ps (fl ++ [(n, KRetry (List.length ps))]) R D p (S n) P E ->
  forall retry,
  view_of (step st (Response n retry)) =
  match outcome_of retry with
  | Results result => shape ps fl R (D ++ [result]) p (S n) P E
  | Failure msg => shape ps fl R D (stopped p) (S n) P (E ++ ["Search failed: " +++ msg])
  end.
Proof.
  intros Hf Hv retry.
  assert (Hs : step st (Response n retry) =
               poll_retry_resume (List.length ps) retry (settle n st)).
  { apply (@step_response _ _ _ (KRetry _)).
    apply (f_equal v_inflight) in Hv. cbn in Hv. rewrite Hv.
    apply lookup_snoc_fresh, Hf, le_n. }
  rewrite Hs, (@view_retry _ p), view_settle, Hv.
  - destruct (outcome_of retry); view_simpl;
      rewrite ?update_nth_snoc, remove_key_snoc_fresh by apply Hf, le_n;
      reflexivity.
  - cbn [settle pollers]. exact (poller_shape Hv).
Qed.


Lemma fresh_from_snoc fl n k : fresh_from fl n -> fresh_from (fl ++ [(n, k)]) (S n).
Proof.
  intros Hf r Hr. induction fl as [|[k' v] fl IH]; simpl.
  - destruct (Nat.eqb_spec r n); [lia | reflexivity].
  - assert (H := Hf r ltac:(lia)). simpl in H.
    destruct (r =? k'); [discriminate|]. apply IH.
    intros r' Hr'. specialize (Hf r' Hr'). simpl in Hf.
    destruct (r' =? k'); [discriminate | exact Hf].
Qed.

(** *** Any interleaving *)

Lemma requests_resume endpoint body r st :
  search_requests (log (perform_search_resume endpoint body r st)) =
  search_requests (log st).
Proof.
  change (v_requests (view_of (perform_search_resume endpoint body r st)) =
          v_requests (view_of st)).
  unfold perform_search_resume.
  destruct r as [msg|code msg|code data]; try now rewrite view_search_catch.
  destruct (_ && _).
  - destruct (j_message data) as [m|]; cbv zeta.
    + rewrite view_hide_loading. unfold poll_for_model_ready_and_search.
      rewrite view_set_pollers. unfold showInfo.
      destruct (includes _ _);
        now rewrite ?view_show_notification, ?observe_quiet, view_show_model_loading
          by auto with quiet.
    + now rewrite view_search_catch, view_show_model_loading.
  - destruct (negb _); [now rewrite view_search_catch|].
    now rewrite view_hide_loading, view_display_results.
Qed.

Lemma requests_status_calm pid r st :
  calm (Response 0 r) ->
  search_requests (log (poll_status_resume pid r st)) = search_requests (log st).
Proof.
  intros Hc.
  change (v_requests (view_of (poll_status_resume pid r st)) = v_requests (view_of st)).
  destruct (nth_error (pollers st) pid) as [p|] eqn:Hp.
  2: { unfold poll_status_resume. now rewrite Hp. }
  destruct r as [msg|code msg|code data].
  1, 2: now erewrite view_status_failed by (eauto; reflexivity).
  simpl in Hc. destruct (Nat.lt_ge_cases (attempts p) max_attempts).
  - now erewrite view_status_waiting by eauto.
  - now erewrite view_status_timeout by eauto.
Qed.

Lemma requests_retry pid r st :
  search_requests (log (poll_retry_resume pid r st)) = search_requests (log st).
Proof.
  change (v_requests (view_of (poll_retry_resume pid r st)) = v_requests (view_of st)).
  destruct (nth_error (pollers st) pid) as [p|] eqn:Hp.
  2: { unfold poll_retry_resume. now rewrite Hp. }
  erewrite view_retry by eauto. now destruct (outcome_of r).
Qed.

Lemma requests_tick pid st :
  search_requests (log (poll_tick pid st)) = search_requests (log st).
Proof.
  change (v_requests (view_of (poll_tick pid st)) = v_requests (view_of st)).
  destruct (nth_error (pollers st) pid) as [p|] eqn:Hp.
  2: { unfold poll_tick. now rewrite Hp. }
  destruct (timer_active p) eqn:Ha.
  - now erewrite view_poll_tick by eauto.
  - unfold poll_tick. now rewrite Hp, Ha.
Qed.

(** Without a new submission and without a reply that reports readiness no
    search request is sent, however ticks and replies interleave. *)
Lemma requests_step_calm st e :
  calm e -> search_requests (log (step st e)) = search_requests (log st).
Proof.
  intros Hc. destruct e as [s| | |n|n|pid|rid r]; cbn [step].
  - unfold on_input. cbv zeta. now destruct (trim s).
  - contradiction.
  - reflexivity.
  - reflexivity.
  - reflexivity.
  - apply requests_tick.
  - destruct (lookup rid (inflight st)) as [[endpoint body|pid|pid]|]; trivial.
    + now rewrite requests_resume.
    + rewrite requests_status_calm; trivial.
    + now rewrite requests_retry.
Qed.

Lemma requests_run_calm evs : forall st,
  Forall calm evs ->
  search_requests (log (run st evs)) = search_requests (log st).
Proof.
  induction evs as [|e evs IH]; intros st H; trivial.
  inversion H; subst. cbn [run fold_left].
  change (fold_left step evs (step st e)) with (run (step st e) evs).
  now rewrite IH, requests_step_calm.
Qed.

(** A reply that reports readiness, whatever else is in flight. *)
Lemma view_step_ready st rid pid p code data :
  lookup rid (inflight st) = Some (KStatus pid) ->
  nth_error (pollers st) pid = Some p ->
  j_ready_for_search data = true ->
  view_of (step st (Response rid (Http code data))) =
  requested (p_endpoint p) (search_data p) (KRetry pid)
    (with_pollers (update_nth pid stopped) (settled rid (view_of st))).
Proof.
  intros Hl Hp Hr. rewrite (@step_response _ _ _ _ Hl).
  now rewrite (@view_status_ready pid p), view_settle.
Qed.

Lemma view_step_failed st rid pid p r msg :
  lookup rid (inflight st) = Some (KStatus pid) ->
  nth_error (pollers st) pid = Some p ->
  poll_failure r = Some msg ->
  view_of (step st (Response rid r)) = caught pid msg (settled rid (view_of st)).
Proof.
  intros Hl Hp Hr. rewrite (@step_response _ _ _ _ Hl).
  now rewrite (@view_status_failed pid p r msg), view_settle.
Qed.

Lemma polling_stopped pid p st st' :
  nth_error (pollers st) pid = Some p ->
  pollers st' = update_nth pid stopped (pollers st) ->
  polling pid st' = false.
Proof.
  intros Hp Hs. unfold polling. now rewrite Hs, nth_error_update_nth, Hp.
Qed.

Lemma clearInterval_idempotent pid st :
  clearInterval pid (clearInterval pid st) = clearInterval pid st.
Proof.
  unfold clearInterval, set_pollers. cbn.
  now rewrite update_nth_idem.
Qed.


(** *** The callbacks handed to setTimeout never run

    They are created only while [search_input.dataset.loadingNotificationId]
    is set, and every handler that sets it deletes it again before it returns
    ([hide_loading] runs last). *)

Lemma idle_emit e st :
  idle_pair (emit e st) = (loading_id st, deferrals (log st) ++ deferrals [e]).
Proof.
  unfold idle_pair, loading_id, deferrals. cbn [log ui emit]. now rewrite pick_app.
Qed.

Lemma idle_emit_plain e st :
  deferrals [e] = [] -> idle_pair (emit e st) = idle_pair st.
Proof. intros H. rewrite idle_emit, H, app_nil_r. reflexivity. Qed.

Lemma idle_notification k t m st :
  idle_pair (show_notification k t m st) = idle_pair st.
Proof. apply (idle_emit_plain (Notify k t m) st). reflexivity. Qed.

Lemma idle_set_pollers f st : idle_pair (set_pollers f st) = idle_pair st.
Proof. reflexivity. Qed.

Lemma idle_settle rid st : idle_pair (settle rid st) = idle_pair st.
Proof. reflexivity. Qed.

Lemma idle_fetch url body skip k st : idle_pair (fetch url body skip k st) = idle_pair st.
Proof.
  unfold idle_pair, deferrals, fetch. cbn [log]. rewrite pick_app. cbn [pick].
  now rewrite app_nil_r.
Qed.

Lemma idle_hide_all st : idle_pair (hide_all_result_elements st) = idle_pair st.
Proof. reflexivity. Qed.
Lemma idle_show_loading st : idle_pair (show_loading st) = idle_pair st.
Proof. reflexivity. Qed.
Lemma idle_set_welcome b st : idle_pair (set_welcome b st) = idle_pair st.
Proof. reflexivity. Qed.
Lemma idle_show_results st : idle_pair (show_results st) = idle_pair st.
Proof. reflexivity. Qed.
Lemma idle_show_no_results st : idle_pair (show_no_results st) = idle_pair st.
Proof. reflexivity. Qed.
Lemma idle_display_normal items st :
  idle_pair (display_normal_results items st) = idle_pair st.
Proof. reflexivity. Qed.

Lemma idle_clear_results st :
  idle_pair (clear_results st) = idle_pair st.
Proof. reflexivity. Qed.

Lemma idle_show_error m st : idle_pair (show_error_message m st) = idle_pair st.
Proof. unfold show_error_message, showError. now rewrite idle_notification. Qed.

Lemma idle_show_warning w st : idle_pair (show_warning_message w st) = idle_pair st.
Proof. unfold show_warning_message, showWarning. cbv zeta. apply idle_notification. Qed.

Lemma idle_display_results data st :
  idle_pair (display_results data st) = idle_pair st.
Proof.
  unfold display_results. cbv zeta.
  assert (H : forall s, idle_pair s = idle_pair st ->
              idle_pair match j_results data, j_total data with
                        | None, _ => show_no_results s
                        | Some _, Some 0 => show_no_results s
                        | Some items, _ => display_normal_results items s
                        end = idle_pair st).
  { intros s Hs. destruct (j_results data), (j_total data) as [[|n]|];
      now rewrite ?idle_show_no_results, ?idle_display_normal. }
  apply H. destruct (j_warning data);
    now rewrite ?idle_show_warning, idle_emit_plain.
Qed.

Lemma idle_update_message m st :
  loading_id st = None ->
  idle_pair (update_model_loading_message m st) = idle_pair st.
Proof.
  intros H. unfold update_model_loading_message. cbv zeta.
  change (loadingNotificationId (ui (set_ui ?f st))) with (loading_id st).
  now rewrite H.
Qed.

(** [hide_loading] deletes the entry of the dataset. *)
Lemma idle_hide_loading st :
  idle_pair (hide_loading st) = (None, deferrals (log st)).
Proof.
  unfold hide_loading, hide_model_loading. cbv zeta.
  destruct (loadingNotificationId _) eqn:E.
  - unfold idle_pair, loading_id, deferrals. cbn [ui log set_ui emit set_loading_id
      loadingNotificationId]. rewrite pick_app. cbn [pick log set_ui set_loading_display].
    now rewrite app_nil_r.
  - unfold idle_pair, loading_id. now rewrite E.
Qed.

Lemma idle_poll_catch pid msg st :
  idle_pair (poll_catch pid msg st) = (None, deferrals (log st)).
Proof.
  unfold poll_catch. cbv zeta.
  rewrite idle_hide_loading.
  change (deferrals (log (show_error_message ?m ?s))) with (snd (idle_pair (show_error_message m s))).
  rewrite idle_show_error.
  destruct (loadingNotificationId _); unfold idle_pair, deferrals, clearInterval;
    cbn [snd log set_ui emit set_pollers]; rewrite ?pick_app; cbn [pick];
    now rewrite ?app_nil_r.
Qed.

Lemma idle_search_catch msg st :
  idle_pair (search_catch msg st) = (None, deferrals (log st)).
Proof.
  unfold search_catch. rewrite idle_hide_loading.
  change (deferrals (log (show_error_message ?m ?s))) with (snd (idle_pair (show_error_message m s))).
  rewrite idle_show_error, idle_emit_plain; reflexivity.
Qed.

Lemma idle_status_resume pid r st :
  loading_id st = None ->
  idle_pair (poll_status_resume pid r st) = (None, deferrals (log st)).
Proof.
  intros H. unfold poll_status_resume.
  destruct (nth_error (pollers st) pid) as [p|].
  2: { unfold idle_pair. now rewrite H. }
  destruct r as [msg|code msg|code data]; try apply idle_poll_catch.
  destruct (j_ready_for_search data); cbv zeta.
  - change (loadingNotificationId (ui (clearInterval pid st))) with (loading_id st).
    rewrite H, idle_fetch, idle_show_loading.
    change (idle_pair (clearInterval pid st)) with (idle_pair st).
    unfold idle_pair. now rewrite H.
  - match goal with |- context [update_model_loading_message ?m st] =>
      pose proof (idle_update_message m st H) as Hu;
      generalize dependent (update_model_loading_message m st) end.
    intros s Hs. injection Hs as Hs1 Hs2.
    destruct (max_attempts <=? attempts p).
    + change (loadingNotificationId (ui (clearInterval pid s))) with (loading_id s).
      rewrite Hs1, H, idle_poll_catch.
      change (deferrals (log (clearInterval pid s))) with (deferrals (log s)).
      now rewrite Hs2.
    + unfold idle_pair. now rewrite Hs1, Hs2, H.
Qed.

Lemma idle_retry_resume pid r st :
  loading_id st = None ->
  idle_pair (poll_retry_resume pid r st) = (None, deferrals (log st)).
Proof.
  intros H. unfold poll_retry_resume.
  destruct (nth_error (pollers st) pid) as [p|].
  2: { unfold idle_pair. now rewrite H. }
  destruct r as [msg|code msg|code data]; try apply idle_poll_catch.
  destruct (http_ok code); [|apply idle_poll_catch].
  rewrite idle_hide_loading. unfold showSuccess.
  change (deferrals (log (show_notification ?k ?t ?m ?s)))
    with (snd (idle_pair (show_notification k t m s))).
  now rewrite idle_notification, idle_display_results.
Qed.

Lemma idle_show_model_loading m st :
  snd (idle_pair (show_model_loading_message m st)) = deferrals (log st).
Proof.
  unfold show_model_loading_message, showInfo. cbv zeta.
  change (snd (idle_pair (show_notification "info" "Model Loading"
            "The AI model is loading. Please wait while we prepare your search..."
            (hide_all_result_elements st))) = deferrals (log st)).
  now rewrite idle_notification.
Qed.

Lemma idle_search_resume endpoint body r st :
  idle_pair (perform_search_resume endpoint body r st) = (None, deferrals (log st)).
Proof.
  unfold perform_search_resume.
  destruct r as [msg|code msg|code data]; try apply idle_search_catch.
  destruct (_ && _).
  - cbv zeta. destruct (j_message data) as [m|].
    + rewrite idle_hide_loading. unfold poll_for_model_ready_and_search.
      change (deferrals (log (set_pollers ?f ?s))) with (snd (idle_pair s)).
      unfold showInfo.
      destruct (includes _ _); rewrite ?idle_notification;
        now rewrite idle_show_model_loading.
    + rewrite idle_search_catch. f_equal. apply idle_show_model_loading.
  - destruct (negb _); [apply idle_search_catch|].
    rewrite idle_hide_loading.
    change (deferrals (log (display_results data st)))
      with (snd (idle_pair (display_results data st))).
    now rewrite idle_display_results.
Qed.

Lemma settled_down_step st e : settled_down st -> settled_down (step st e).
Proof.
  intros [H1 H2].
  assert (Hst : idle_pair st = (None, [])) by (unfold idle_pair; now rewrite H1, H2).
  enough (He : idle_pair (step st e) = (None, []))
    by (injection He as E1 E2; now split).
  destruct e as [s| | |n|n|pid|rid r]; cbn [step].
  - unfold on_input. cbv zeta. destruct (trim s); [rewrite idle_clear_results|]; exact Hst.
  - unfold perform_search. cbv zeta.
    destruct (trim _); [now rewrite idle_show_error|].
    now rewrite idle_fetch, idle_show_loading.
  - exact Hst.
  - exact Hst.
  - exact Hst.
  - unfold poll_tick. destruct (nth_error _ _) as [p|]; trivial.
    destruct (timer_active p); trivial. now rewrite idle_fetch.
  - destruct (lookup rid (inflight st)) as [[endpoint body|pid|pid]|]; trivial.
    + rewrite idle_search_resume. cbn [log settle]. now rewrite H2.
    + rewrite idle_status_resume by exact H1. cbn [log settle]. now rewrite H2.
    + rewrite idle_retry_resume by exact H1. cbn [log settle]. now rewrite H2.
Qed.

Lemma settled_down_run evs : forall st, settled_down st -> settled_down (run st evs).
Proof.
  induction evs as [|e evs IH]; intros st H; trivial.
  apply IH, settled_down_step, H.
Qed.

Lemma settled_down_init hybrid max func : settled_down (init hybrid max func).
Proof. now split. Qed.

(** Reading a log through a known view. *)
Lemma requests_view st v : view_of st = v -> search_requests (log st) = v_requests v.
Proof. now intros <-. Qed.
Lemma polls_view st v : view_of st = v -> status_polls (log st) = v_polls v.
Proof. now intros <-. Qed.
Lemma displayed_view st v : view_of st = v -> displayed (log st) = v_displayed v.
Proof. now intros <-. Qed.
Lemma errors_view st v : view_of st = v -> errors_shown (log st) = v_errors v.
Proof. now intros <-. Qed.

Ltac read_view H :=
  rewrite ?(requests_view H), ?(polls_view H), ?(displayed_view H), ?(errors_view H);
  cbn [shape v_requests v_polls v_displayed v_errors].

End SearchFacts.

(** ** Facts about the debug panel *)

Module DebugFacts.
Import Debug DebugView.

(** *** What the basic operations leave alone *)

Lemma stop_cases k st :
  (var k st = None /\ stop k st = st) \/
  (exists id, var k st = Some id /\
     stop k st = set_var k None (set_timers (remove_key id) (next_timer st) st)).
Proof.
  unfold stop. destruct (var k st) as [id|]; [right; eauto | left; auto].
Qed.

Lemma log_stop k st : log (stop k st) = log st.
Proof. unfold stop. now destruct (var k st). Qed.

Lemma inflight_stop k st : inflight (stop k st) = inflight st.
Proof. unfold stop. now destruct (var k st). Qed.

Lemma next_rid_stop k st : next_rid (stop k st) = next_rid st.
Proof. unfold stop. now destruct (var k st). Qed.

Lemma next_timer_stop k st : next_timer (stop k st) = next_timer st.
Proof. unfold stop. now destruct (var k st). Qed.

Lemma shown_stop k st : shown (stop k st) = shown st.
Proof. unfold stop. now destruct (var k st). Qed.

Lemma container_stop k st : container (stop k st) = container st.
Proof. unfold stop. now destruct (var k st). Qed.

Lemma timeouts_stop k st : timeouts (stop k st) = timeouts st.
Proof. unfold stop. now destruct (var k st). Qed.


Lemma var_stop_same k st : var k (stop k st) = None.
Proof. unfold stop. destruct (var k st) eqn:E; [now destruct k | exact E]. Qed.

Lemma var_stop_other k k' st : k <> k' -> var k' (stop k st) = var k' st.
Proof. unfold stop. destruct (var k st); trivial. now destruct k, k'. Qed.

Lemma timers_stop k st :
  timers (stop k st) =
  match var k st with
  | Some id => remove_key id (timers st)
  | None => timers st
  end.
Proof. unfold stop. now destruct (var k st). Qed.

(** The tick of an interval that was cleared does nothing. *)
Lemma tick_cleared st id : lookup id (timers st) = None -> step st (Tick id) = st.
Proof. intros H. cbn [step]. now rewrite H. Qed.

Lemma lookup_remove_same {A} id (l : list (nat * A)) : lookup id (remove_key id l) = None.
Proof.
  induction l as [|[k v] l IH]; simpl; trivial.
  destruct (id =? k) eqn:E; trivial. simpl. now rewrite E.
Qed.

Lemma stopped_never_ticks k st id :
  var k st = Some id -> step (stop k st) (Tick id) = stop k st.
Proof.
  intros H. apply tick_cleared. rewrite timers_stop, H. apply lookup_remove_same.
Qed.

(** *** The fast poller's replies *)

Lemma step_reply st rid r k :
  lookup rid (inflight st) = Some k ->
  step st (Reply rid r) =
  let st' := set_inflight (remove_key rid) (next_rid st) st in
  match k with
  | KBackground => background_resume r st'
  | KCheck o => check_resume o r st'
  | KProgress => progress_resume r st'
  | KGenerate => generate_resume r st'
  end.
Proof. intros H. cbn [step]. now rewrite H. Qed.

(** A snapshot that arrives is rendered, whether or not the poller that asked
    for it still exists. *)
Lemma snapshot_applied st rid j :
  lookup rid (inflight st) = Some KProgress -> error j = None ->
  let st' := step st (Reply rid (Http true (Obj j))) in
  shown st' = Rendered j /\
  renders (log st') = renders (log st) ++ [j] /\
  (active j = false ->
     global_progress_interval st' = None /\
     container st' = Completed /\
     completions (log st') = S (completions (log st)) /\
     timers st' = match global_progress_interval st with
                  | Some id => remove_key id (timers st)
                  | None => timers st
                  end) /\
  (active j = true ->
     global_progress_interval st' = global_progress_interval st /\
     container st' = container st /\
     completions (log st') = completions (log st) /\
     timers st' = timers st).
Proof.
  intros Hl He st'. subst st'. rewrite (@step_reply _ _ _ _ Hl). cbv zeta.
  unfold progress_resume. rewrite He.
  destruct (active j) eqn:Ha.
  - unfold renders, completions. cbn. rewrite !pick_app. cbn.
    rewrite !app_nil_r. repeat split; trivial; discriminate.
  - unfold setTimeout, set_container, set_button, stop_progress_polling.
    cbn [shown log global_progress_interval container timers set_timeouts].
    rewrite shown_stop, log_stop, timers_stop.
    change (Debug.var Fast (stop Fast ?s)) with (var Fast (stop Fast s)).
    split; [reflexivity|]. split; [|split; [intros _|discriminate]].
    + unfold renders. cbn. rewrite !pick_app. cbn. now rewrite !app_nil_r.
    + split; [apply (var_stop_same Fast)|]. split; [reflexivity|]. split.
      * unfold completions. cbn. rewrite !pick_app, !length_app. cbn. lia.
      * reflexivity.
Qed.


(** *** At most one interval of each kind *)

Lemma running_in_app k ts1 ts2 :
  running_in k (ts1 ++ ts2) = running_in k ts1 ++ running_in k ts2.
Proof. apply pick_app. Qed.

Lemma kind_eqb_eq k k' : kind_eqb k k' = true <-> k = k'.
Proof. destruct k, k'; simpl; split; congruence. Qed.

Lemma kind_eqb_refl k : kind_eqb k k = true.
Proof. now destruct k. Qed.

Lemma running_in_remove k id ts :
  running_in k (remove_key id ts) =
  filter (fun i => negb (i =? id)) (running_in k ts).
Proof.
  induction ts as [|[i kd] ts IH]; simpl; trivial.
  rewrite (Nat.eqb_sym id i).
  destruct (i =? id) eqn:E; unfold running_in in *; simpl;
    destruct (kind_eqb kd k); simpl; rewrite ?E; simpl; now rewrite ?IH.
Qed.

Lemma in_running k id ts : In id (running_in k ts) -> In (id, k) ts.
Proof.
  induction ts as [|[i kd] ts IH]; simpl; trivial.
  unfold running_in in *. simpl. destruct (kind_eqb kd k) eqn:E; simpl.
  - apply kind_eqb_eq in E. subst. intros [->|H]; auto.
  - auto.
Qed.

Lemma in_remove_key {A} id (x : nat * A) l : In x (remove_key id l) -> In x l.
Proof.
  induction l as [|[k v] l IH]; simpl; trivial.
  destruct (id =? k); simpl; intuition.
Qed.

Lemma consistent_same st st' :
  timers st' = timers st -> (forall k, var k st' = var k st) ->
  next_timer st <= next_timer st' ->
  consistent st -> consistent st'.
Proof.
  intros Ht Hv Hn [H1 H2 H3]. split.
  - intros k. unfold running. rewrite Ht, Hv. apply H1.
  - intros id kd Hin. rewrite Ht in Hin. specialize (H2 _ _ Hin). lia.
  - intros k k' id. rewrite !Hv. apply H3.
Qed.

Ltac same_core :=
  match goal with
  | H : consistent ?s |- consistent _ =>
      apply (@consistent_same s); [reflexivity | intros []; reflexivity | cbn; lia | exact H]
  end.

Lemma consistent_init : consistent init.
Proof. split; [intros []; reflexivity | intros ? ? [] | intros [] []; simpl; congruence]. Qed.

Lemma consistent_emit e st : consistent st -> consistent (emit e st).
Proof. intros H. same_core. Qed.
Lemma consistent_set_open b st : consistent st -> consistent (set_open b st).
Proof. intros H. same_core. Qed.
Lemma consistent_set_container c st : consistent st -> consistent (set_container c st).
Proof. intros H. same_core. Qed.
Lemma consistent_set_shown d st : consistent st -> consistent (set_shown d st).
Proof. intros H. same_core. Qed.
Lemma consistent_set_button d t st : consistent st -> consistent (set_button d t st).
Proof. intros H. same_core. Qed.
Lemma consistent_set_inflight f n st : consistent st -> consistent (set_inflight f n st).
Proof. intros H. same_core. Qed.
Lemma consistent_set_timeouts f st :
  consistent st -> consistent (set_timeouts f (next_timer st) st).
Proof. intros H. same_core. Qed.
Lemma consistent_setTimeout k st : consistent st -> consistent (setTimeout k st).
Proof. intros H. same_core. Qed.
Lemma consistent_fetch u k st : consistent st -> consistent (fetch u k st).
Proof. intros H. same_core. Qed.
Lemma consistent_update j st : consistent st -> consistent (update_progress_display j st).
Proof. intros H. same_core. Qed.
Lemma consistent_reset_idle st : consistent st -> consistent (reset_idle st).
Proof. intros H. same_core. Qed.

Lemma var_set_var k k' v st :
  var k' (set_var k v st) = if kind_eqb k k' then v else var k' st.
Proof. now destruct k, k'. Qed.

Lemma var_set_timers f n st k : var k (set_timers f n st) = var k st.
Proof. now destruct k. Qed.

Lemma consistent_stop k st : consistent st -> consistent (stop k st).
Proof.
  intros [H1 H2 H3]. destruct (stop_cases k st) as [[_ ->]|(id & Hv & ->)].
  { now split. }
  split.
  - intros k'. unfold running. cbn [timers set_var set_timers].
    rewrite running_in_remove, var_set_var, var_set_timers.
    fold (running k' st). rewrite H1.
    destruct (kind_eqb k k') eqn:E.
    + apply kind_eqb_eq in E. subst k'. rewrite Hv. simpl. now rewrite Nat.eqb_refl.
    + destruct (var k' st) as [id'|] eqn:Hv'; simpl; trivial.
      destruct (Nat.eqb_spec id' id); simpl; trivial. subst id'.
      rewrite (H3 _ _ _ Hv Hv'), kind_eqb_refl in E. discriminate.
  - intros i kd Hin. cbn in Hin. apply in_remove_key in Hin. eauto.
  - intros k1 k2 i. rewrite !var_set_var, !var_set_timers.
    destruct (kind_eqb k k1), (kind_eqb k k2); try discriminate. apply H3.
Qed.

Lemma consistent_setInterval k st :
  var k st = None -> consistent st -> consistent (setInterval k st).
Proof.
  intros Hv [H1 H2 H3].
  assert (Hlt : forall k' id, var k' st = Some id -> id < next_timer st).
  { intros k' id H. apply (H2 id k'), in_running. fold (running k' st).
    rewrite H1, H. now left. }
  split.
  - intros k'. unfold running, setInterval. cbn [timers set_var set_timers].
    rewrite running_in_app, var_set_var, var_set_timers.
    fold (running k' st). rewrite H1.
    unfold running_in. simpl. destruct (kind_eqb k k') eqn:E.
    + apply kind_eqb_eq in E. subst k'. now rewrite Hv.
    + now rewrite app_nil_r.
  - intros i kd Hin. cbn in Hin.
    change (next_timer (setInterval k st)) with (S (next_timer st)).
    apply in_app_or in Hin.
    destruct Hin as [Hin|[Heq|[]]].
    + specialize (H2 _ _ Hin). lia.
    + injection Heq as <- _. lia.
  - intros k1 k2 i. unfold setInterval. rewrite !var_set_var, !var_set_timers.
    destruct (kind_eqb k k1) eqn:E1, (kind_eqb k k2) eqn:E2.
    + apply kind_eqb_eq in E1, E2. congruence.
    + intros Hi Hk2. injection Hi as <-. apply Hlt in Hk2. lia.
    + intros Hk1 Hi. injection Hi as <-. apply Hlt in Hk1. lia.
    + apply H3.
Qed.

Lemma consistent_restart k st :
  consistent st -> consistent (setInterval k (stop k st)).
Proof.
  intros H. apply consistent_setInterval; [apply var_stop_same | now apply consistent_stop].
Qed.

Lemma consistent_start_fast o st :
  consistent st -> consistent (start_progress_polling o st).
Proof.
  intros H. unfold start_progress_polling, stop_progress_polling.
  apply consistent_restart, consistent_emit, H.
Qed.

Create HintDb consistent.
#[local] Hint Resolve consistent_emit consistent_set_open consistent_set_container
  consistent_set_shown consistent_set_button consistent_set_inflight
  consistent_set_timeouts consistent_setTimeout consistent_fetch
  consistent_update consistent_reset_idle consistent_stop consistent_restart
  consistent_start_fast : consistent.

Lemma consistent_step st e : consistent st -> consistent (step st e).
Proof.
  intros H. destruct e as [| | |id|id|rid r]; cbn [step].
  - unfold show_debug_panel. destruct (is_debug_open st); trivial.
    unfold check_embedding_progress_on_open, start_background_progress_monitoring,
      start_system_info_polling, start_statistics_polling,
      stop_background_progress_monitoring, stop_system_info_polling,
      stop_statistics_polling.
    auto 10 with consistent.
  - unfold hide_debug_panel. destruct (is_debug_open st); trivial.
    unfold stop_background_progress_monitoring, stop_system_info_polling,
      stop_statistics_polling, stop_progress_polling.
    auto 10 with consistent.
  - unfold trigger_embedding_generation. auto 10 with consistent.
  - destruct (lookup id (timers st)) as [[]|]; trivial.
    + unfold progress_tick. auto with consistent.
    + unfold background_tick. destruct (global_progress_interval st);
        auto with consistent.
  - destruct (lookup id (timeouts st)) as [[]|]; trivial; unfold fire_timeout.
    + auto with consistent.
    + auto with consistent.
    + destruct (container _); auto with consistent.
  - destruct (lookup rid (inflight st)) as [k|]; trivial. cbv zeta.
    assert (H' : consistent (set_inflight (remove_key rid) (next_rid st) st))
      by auto with consistent.
    revert H'. generalize (set_inflight (remove_key rid) (next_rid st) st).
    clear H. intros s H.
    destruct k as [|o| |].
    + unfold background_resume, stop_background_progress_monitoring,
        check_embedding_progress_on_open.
      destruct r as [|[] []]; trivial; auto with consistent.
      destruct (error j), (active j); auto with consistent.
    + unfold check_resume.
      destruct r as [|[] []]; trivial; auto with consistent.
      destruct (error j), (active j); auto 10 with consistent.
    + unfold progress_resume, stop_progress_polling.
      destruct r as [|[] []]; trivial; auto with consistent.
      destruct (error j); trivial. destruct (active j); auto 10 with consistent.
    + unfold generate_resume, generate_finally, generate_catch, stop_progress_polling.
      destruct r as [|[] []]; auto 12 with consistent.
      destruct (success j); auto 12 with consistent.
      destruct (error j); auto 12 with consistent.
Qed.

Lemma consistent_run evs : forall st, consistent st -> consistent (run st evs).
Proof.
  induction evs as [|e evs IH]; intros st H; trivial.
  apply IH, consistent_step, H.
Qed.

Lemma at_most_one k st : consistent st -> List.length (running k st) <= 1.
Proof. intros [H _ _]. rewrite H. destruct (var k st); simpl; lia. Qed.


(** *** Rounds of the fast poller whose replies do not overlap *)

Lemma round_reply id j st :
  lookup id (timers st) = Some Fast -> fresh_rids st ->
  progress_round id j st =
  progress_resume (Http true (Obj j))
    (set_inflight (fun _ => inflight st) (S (next_rid st))
       (emit (Fetch (next_rid st) progress_url) st)).
Proof.
  intros Ht Hf. unfold progress_round.
  assert (E1 : step st (Tick id) = fetch progress_url KProgress st)
    by (cbn [step]; now rewrite Ht).
  rewrite E1.
  rewrite (@step_reply _ _ _ KProgress)
    by (cbn; apply lookup_snoc_fresh, Hf, le_n).
  cbv zeta. f_equal.
  unfold set_inflight, fetch, emit. cbn. f_equal.
  apply remove_key_snoc_fresh, Hf, le_n.
Qed.

Lemma round_active id j st :
  lookup id (timers st) = Some Fast -> fresh_rids st ->
  error j = None -> active j = true ->
  let st' := progress_round id j st in
  timers st' = timers st /\ global_progress_interval st' = global_progress_interval st /\
  inflight st' = inflight st /\ next_rid st' = S (next_rid st) /\
  completions (log st') = completions (log st) /\
  renders (log st') = renders (log st) ++ [j] /\
  progress_fetches (log st') = progress_fetches (log st) ++ [next_rid st].
Proof.
  intros Ht Hf He Ha st'. subst st'. rewrite round_reply by assumption.
  unfold progress_resume. rewrite He, Ha.
  unfold completions, renders, progress_fetches. cbn.
  rewrite !pick_app. cbn. rewrite !app_nil_r. now repeat split.
Qed.

Lemma round_inactive id j st :
  lookup id (timers st) = Some Fast -> fresh_rids st ->
  global_progress_interval st = Some id ->
  error j = None -> active j = false ->
  let st' := progress_round id j st in
  lookup id (timers st') = None /\ global_progress_interval st' = None /\
  inflight st' = inflight st /\ next_rid st' = S (next_rid st) /\
  completions (log st') = S (completions (log st)) /\
  renders (log st') = renders (log st) ++ [j] /\
  progress_fetches (log st') = progress_fetches (log st) ++ [next_rid st] /\
  shown st' = Rendered j /\ container st' = Completed.
Proof.
  intros Ht Hf Hg He Ha st'. subst st'. rewrite round_reply by assumption.
  unfold progress_resume. rewrite He, Ha. cbv zeta.
  unfold stop_progress_polling, stop, update_progress_display.
  cbn [var global_progress_interval set_shown emit set_inflight].
  rewrite Hg.
  unfold completions, renders, progress_fetches. cbn.
  rewrite !pick_app, !length_app. cbn. rewrite !app_nil_r.
  repeat split; trivial; try lia. apply lookup_remove_same.
Qed.

Lemma rounds_stopped id js : forall st,
  lookup id (timers st) = None -> fresh_rids st ->
  progress_rounds id js st = st.
Proof.
  induction js as [|j js IH]; intros st Ht Hf; trivial.
  cbn [progress_rounds]. unfold progress_round.
  rewrite tick_cleared by assumption.
  cbn [step]. rewrite (Hf _ (le_n _)). now apply IH.
Qed.

Lemma progress_rounds_app id js1 js2 st :
  progress_rounds id (js1 ++ js2) st = progress_rounds id js2 (progress_rounds id js1 st).
Proof. revert st; induction js1; intros st; simpl; auto. Qed.

Lemma rounds_active id js : forall st,
  lookup id (timers st) = Some Fast -> fresh_rids st ->
  Forall running_snapshot js ->
  let st' := progress_rounds id js st in
  timers st' = timers st /\ global_progress_interval st' = global_progress_interval st /\
  inflight st' = inflight st /\ next_rid st' = next_rid st + List.length js /\
  completions (log st') = completions (log st) /\
  renders (log st') = renders (log st) ++ js /\
  progress_fetches (log st') =
    progress_fetches (log st) ++ seq (next_rid st) (List.length js).
Proof.
  induction js as [|j js IH]; intros st Ht Hf Hjs; cbn [progress_rounds].
  - cbn. rewrite Nat.add_0_r, !app_nil_r. now repeat split.
  - inversion Hjs as [|? ? [He Ha] Hjs']; subst.
    destruct (@round_active id j st Ht Hf He Ha) as (E1 & E2 & E3 & E4 & E5 & E6 & E7).
    assert (Ht' : lookup id (timers (progress_round id j st)) = Some Fast)
      by now rewrite E1.
    assert (Hf' : fresh_rids (progress_round id j st)).
    { intros r Hr. rewrite E3. apply Hf. lia. }
    destruct (IH _ Ht' Hf' Hjs') as (F1 & F2 & F3 & F4 & F5 & F6 & F7).
    cbv zeta. rewrite F1, F2, F3, F4, F5, F6, F7, E1, E2, E3, E4, E5, E6, E7.
    cbn [List.length seq]. rewrite <- !app_assoc. cbn [app].
    repeat split; trivial. lia.
Qed.

End DebugFacts.

(** ** Facts about the React hook *)

Module UseSearchFacts.
Import Search UseSearch.

Lemma blank_query dmr q hybrid max func st :
  trim q = "" ->
  performSearch dmr q hybrid max func st = emit (OnError "Please enter a search query") st.
Proof. intros H. unfold performSearch. now rewrite H. Qed.

Lemma hook_step_reply dmr st rid r k :
  lookup rid (inflight st) = Some k ->
  step dmr st (Reply rid r) =
  match k with
  | KStatusPoll c => status_resume c r (settle rid st)
  | KSearch c => search_resume c r (settle rid st)
  | KReadyPoll c => ready_resume dmr c r (settle rid st)
  end.
Proof. intros H. cbn [step]. now rewrite H. Qed.

(** A failed status poll of the hook is only logged. *)
Lemma ready_poll_failure dmr st rid c cl msg :
  lookup rid (inflight st) = Some (KReadyPoll c) ->
  nth_error (calls st) c = Some cl ->
  step dmr st (Reply rid (NetError msg)) =
  emit (Console ("Model status polling failed: " +++ msg)) (settle rid st).
Proof.
  intros Hl Hc. rewrite (@hook_step_reply _ _ _ _ _ Hl). unfold ready_resume.
  cbn [calls settle]. now rewrite Hc.
Qed.

Lemma log_clearInterval i st : log (clearInterval i st) = log st.
Proof. now destruct i. Qed.

(** A reply that reports readiness calls [performSearch] again with the
    arguments of the call that was waiting. *)
Lemma ready_reply_retries dmr st rid c cl code data a q :
  lookup rid (inflight st) = Some (KReadyPoll c) ->
  nth_error (calls st) c = Some cl ->
  http_ok code = true -> j_ready_for_search data = true ->
  trim (c_query cl) = String a q ->
  search_requests (log (step dmr st (Reply rid (Http code data)))) =
  search_requests (log st) ++ [(endpoint_of cl, bodyData_of cl)].
Proof.
  intros Hl Hc Hok Hr Hq. rewrite (@hook_step_reply _ _ _ _ _ Hl). unfold ready_resume.
  cbn [calls settle]. rewrite Hc, Hok, Hr. unfold performSearch. rewrite Hq.
  unfold search_requests. cbn [log fetch]. rewrite pick_app. f_equal.
  cbn [log set_timers set_calls setLoading setCurrentQuery].
  now rewrite log_clearInterval.
Qed.

Lemma lookup_snoc_other {A} (i n : nat) (v : A) l :
  i <> n -> lookup i l = None -> lookup i (l ++ [(n, v)]) = None.
Proof.
  intros Hne. induction l as [|[k w] l IH]; simpl.
  - destruct (Nat.eqb_spec i n); [contradiction | reflexivity].
  - destruct (i =? k); [discriminate | exact IH].
Qed.

Lemma lookup_removed {A} (i : nat) (l : list (nat * A)) :
  lookup i (remove_key i l) = None.
Proof.
  induction l as [|[k v] l IH]; simpl; trivial.
  destruct (i =? k) eqn:E; trivial. simpl. now rewrite E.
Qed.

(** ... and clears the interval that polled. *)
Lemma ready_reply_stops dmr st rid c cl code data a q i :
  lookup rid (inflight st) = Some (KReadyPoll c) ->
  nth_error (calls st) c = Some cl ->
  http_ok code = true -> j_ready_for_search data = true ->
  trim (c_query cl) = String a q ->
  pollInterval cl = Some i -> i < next_timer st ->
  lookup i (timers (step dmr st (Reply rid (Http code data)))) = None.
Proof.
  intros Hl Hc Hok Hr Hq Hi Hlt. rewrite (@hook_step_reply _ _ _ _ _ Hl).
  unfold ready_resume. cbn [calls settle]. rewrite Hc, Hok, Hr, Hi.
  unfold performSearch. rewrite Hq.
  cbn [timers fetch set_timers set_calls setLoading setCurrentQuery clearInterval
       next_timer].
  apply lookup_snoc_other; [cbn [settle next_timer]; lia | apply lookup_removed].
Qed.

End UseSearchFacts.

(** ** Facts about the readiness poller of the hook *)

Module UseSearchRounds.
Import Search UseSearch UseSearchView UseSearchFacts.
#[local] Unset Implicit Arguments.

Section Config.
Variable dmr : nat.

Lemma requests_emit e st :
  (forall rid u b, e <> Fetch rid u (Some b)) ->
  search_requests (log (emit e st)) = search_requests (log st).
Proof.
  intros H. unfold search_requests. cbn [log emit]. rewrite pick_app. cbn [pick].
  destruct e as [rid u [b|]| | |]; try now rewrite app_nil_r.
  now contradiction (H rid u b).
Qed.

Lemma requests_poll k st :
  search_requests (log (fetch status_url None k st)) = search_requests (log st).
Proof. unfold search_requests. cbn [log fetch]. rewrite pick_app. cbn. apply app_nil_r. Qed.

Lemma requests_search_catch cid c msg st :
  search_requests (log (search_catch cid c msg st)) = search_requests (log st).
Proof.
  unfold search_catch. cbn [log setLoading].
  rewrite !requests_emit by discriminate.
  now rewrite log_clearInterval.
Qed.

Lemma requests_search_resume cid r st :
  search_requests (log (search_resume cid r st)) = search_requests (log st).
Proof.
  unfold search_resume. destruct (nth_error (calls st) cid) as [c|]; trivial.
  destruct r as [msg|code msg|code data]; try apply requests_search_catch.
  cbv zeta. destruct (_ && _).
  - cbn [log setLoading set_timers set_calls setResults setLoadingMessage].
    now rewrite log_clearInterval.
  - destruct (negb _).
    + rewrite requests_search_catch. now rewrite log_clearInterval.
    + cbn [log setLoading setResults].
      destruct (j_warning data) as [[m [[|a r]|]]|];
        rewrite ?requests_emit by discriminate; now rewrite log_clearInterval.
Qed.

Lemma requests_status_resume cid r st :
  search_requests (log (status_resume cid r st)) = search_requests (log st).
Proof.
  unfold status_resume. destruct (nth_error (calls st) cid) as [c|]; trivial.
  destruct r as [msg|code msg|code data].
  - now apply requests_emit.
  - destruct (http_ok code); [now apply requests_emit | reflexivity].
  - now destruct (_ && _).
Qed.

Lemma requests_ready_resume cid r st :
  calm (Reply 0 r) ->
  search_requests (log (ready_resume dmr cid r st)) = search_requests (log st).
Proof.
  intros Hc. unfold ready_resume. destruct (nth_error (calls st) cid) as [c|]; trivial.
  destruct r as [msg|code msg|code data].
  - now apply requests_emit.
  - destruct (http_ok code); [now apply requests_emit | reflexivity].
  - cbn in Hc. rewrite Hc. destruct (http_ok code); trivial.
    now destruct (match j_model_status data with Some _ => _ | None => _ end).
Qed.

(** Without a new call of [performSearch] and without a reply that reports
    readiness the hook sends no search request. *)
Lemma hook_requests_step_calm st e :
  calm e -> search_requests (log (step dmr st e)) = search_requests (log st).
Proof.
  intros Hc. destruct e as [q|id|id|rid r]; cbn [step].
  - contradiction.
  - destruct (lookup id (timers st)) as [[c|c]|]; trivial; apply requests_poll.
  - destruct (lookup id (timeouts st)) as [c|]; trivial.
    unfold deadline. cbn [calls set_timers].
    destruct (nth_error (calls st) c) as [cl|]; trivial.
    rewrite requests_emit by discriminate. cbn [log setLoading].
    now rewrite log_clearInterval.
  - destruct (lookup rid (inflight st)) as [[c|c|c]|]; trivial; cbv zeta.
    + now rewrite requests_status_resume.
    + now rewrite requests_search_resume.
    + now rewrite requests_ready_resume.
Qed.

Lemma hook_requests_run_calm evs : forall st,
  Forall calm evs ->
  search_requests (log (run dmr st evs)) = search_requests (log st).
Proof.
  induction evs as [|e evs IH]; intros st H; trivial.
  inversion H; subst. cbn [run fold_left].
  change (fold_left (step dmr) evs (step dmr st e)) with (run dmr (step dmr st e) evs).
  now rewrite IH, hook_requests_step_calm.
Qed.

(** The tick of an interval that was cleared does nothing. *)
Lemma hook_tick_cleared st i : lookup i (timers st) = None -> step dmr st (Tick i) = st.
Proof. intros H. cbn [step]. now rewrite H. Qed.

Lemma clearInterval_twice i st :
  clearInterval i (clearInterval i st) = clearInterval i st.
Proof.
  destruct i as [i|]; [|reflexivity]. unfold clearInterval, set_timers.
  cbn [timers timeouts next_timer isLoading loadingMessage results currentQuery
       isHybridSearch maxResults hybridFunction location calls inflight next_rid log].
  f_equal. induction (timers st) as [|[k v] l IH]; [reflexivity|].
  cbn [remove_key]. destruct (i =? k) eqn:E; [exact IH|].
  cbn [remove_key]. now rewrite E, IH.
Qed.

(** *** Rounds of the readiness poller *)

Lemma round_eq c i cl r st :
  ready_polling c i cl st ->
  round dmr i r st =
  ready_resume dmr c r
    (settle (next_rid st) (fetch status_url None (KReadyPoll c) st)).
Proof.
  intros (Hc & Hi & Ht & Hlt & Hf). unfold round.
  cbn [step]. rewrite Ht. unfold ready_tick.
  change (step dmr ?s (Reply ?rid r)) with
    (match lookup rid (inflight s) with
     | None => s
     | Some k =>
         match k with
         | KStatusPoll c0 => status_resume c0 r (settle rid s)
         | KSearch c0 => search_resume c0 r (settle rid s)
         | KReadyPoll c0 => ready_resume dmr c0 r (settle rid s)
         end
     end).
  cbn [inflight fetch]. rewrite lookup_snoc_fresh by (apply Hf; lia). reflexivity.
Qed.

Lemma settled_poll c st :
  (forall r, next_rid st <= r -> lookup r (inflight st) = None) ->
  inflight (settle (next_rid st) (fetch status_url None (KReadyPoll c) st)) =
  inflight st.
Proof.
  intros Hf. cbn [inflight settle fetch]. apply remove_key_snoc_fresh, Hf. lia.
Qed.

(** A round whose reply does not report readiness leaves the interval
    running and sends no search request. *)
Lemma hook_round_waiting c i cl r st :
  ready_polling c i cl st -> waiting r ->
  ready_polling c i cl (round dmr i r st) /\
  search_requests (log (round dmr i r st)) = search_requests (log st).
Proof.
  intros Hp Hw. rewrite (round_eq c i cl r st Hp).
  destruct Hp as (Hc & Hi & Ht & Hlt & Hf).
  pose proof (settled_poll c st Hf) as Hs.
  set (s := settle (next_rid st) (fetch status_url None (KReadyPoll c) st)) in *.
  assert (Hs0 : ready_polling c i cl s /\
                search_requests (log s) = search_requests (log st)).
  { split; [|apply requests_poll].
    repeat split; trivial. intros r0 Hr0. rewrite Hs. apply Hf.
    cbn [s next_rid settle fetch] in Hr0. lia. }
  assert (Hkeep : forall s', calls s' = calls s -> timers s' = timers s ->
            next_timer s' = next_timer s -> inflight s' = inflight s ->
            next_rid s' = next_rid s ->
            search_requests (log s') = search_requests (log s) ->
            ready_polling c i cl s' /\
            search_requests (log s') = search_requests (log st)).
  { intros s' E1 E2 E3 E4 E5 E6. destruct Hs0 as [(A1 & A2 & A3 & A4 & A5) A6].
    unfold ready_polling. rewrite E1, E2, E3, E4, E5, E6. repeat split; trivial. }
  unfold ready_resume.
  assert (Hcs : nth_error (calls s) c = Some cl) by exact Hc. rewrite Hcs.
  destruct r as [msg|code msg|code data].
  - apply Hkeep; trivial. now apply requests_emit.
  - destruct (http_ok code); [|exact Hs0].
    apply Hkeep; trivial. now apply requests_emit.
  - cbn in Hw. destruct (http_ok code); [|exact Hs0].
    cbn in Hw. rewrite Hw.
    destruct (match j_model_status data with Some _ => _ | None => _ end);
      [|exact Hs0].
    now apply Hkeep.
Qed.

(** The round whose reply reports readiness: the retry goes out and the
    interval is cleared. *)
Lemma hook_round_ready c i cl code data a q st :
  ready_polling c i cl st ->
  http_ok code = true -> j_ready_for_search data = true ->
  trim (c_query cl) = String a q ->
  let st' := round dmr i (Http code data) st in
  search_requests (log st') =
    search_requests (log st) ++ [(endpoint_of cl, bodyData_of cl)] /\
  lookup i (timers st') = None /\
  (forall r, next_rid st' <= r -> lookup r (inflight st') = None).
Proof.
  intros (Hc & Hi & Ht & Hlt & Hf) Hok Hr Hq st'. subst st'.
  set (st_t := fetch status_url None (KReadyPoll c) st).
  assert (Hl : lookup (next_rid st) (inflight st_t) = Some (KReadyPoll c)).
  { cbn [st_t inflight fetch]. apply lookup_snoc_fresh, Hf. lia. }
  assert (Hround : round dmr i (Http code data) st =
                   step dmr st_t (Reply (next_rid st) (Http code data))).
  { unfold round. cbn [step]. now rewrite Ht. }
  rewrite Hround. split; [|split].
  - rewrite (@ready_reply_retries dmr st_t (next_rid st) c cl code data a q);
      trivial. unfold st_t. now rewrite requests_poll.
  - now apply (@ready_reply_stops dmr st_t (next_rid st) c cl code data a q i).
  - rewrite (@hook_step_reply _ _ _ _ _ Hl). unfold ready_resume.
    cbn [calls settle st_t fetch]. rewrite Hc, Hok, Hr. unfold performSearch.
    rewrite Hq.
    cbn [inflight next_rid fetch set_timers set_calls setLoading setCurrentQuery].
    rewrite !(fun x s => match x as o return inflight (clearInterval o s) = inflight s
                         with Some _ => eq_refl | None => eq_refl end).
    rewrite !(fun x s => match x as o return next_rid (clearInterval o s) = next_rid s
                         with Some _ => eq_refl | None => eq_refl end).
    cbn [inflight next_rid settle].
    intros r0 Hr0. cbn [st_t next_rid inflight fetch] in Hr0 |- *.
    apply lookup_snoc_other; [lia|].
    rewrite remove_key_snoc_fresh by (apply Hf; lia). apply Hf. lia.
Qed.

(** Once the interval is cleared its rounds do nothing. *)
Lemma hook_round_cleared i r st :
  lookup i (timers st) = None ->
  (forall r, next_rid st <= r -> lookup r (inflight st) = None) ->
  round dmr i r st = st.
Proof.
  intros Ht Hf. unfold round. rewrite hook_tick_cleared by exact Ht.
  cbn [step]. now rewrite Hf by lia.
Qed.

Lemma hook_sequential_polls_app i rs1 rs2 st :
  sequential_polls dmr i (rs1 ++ rs2) st =
  sequential_polls dmr i rs2 (sequential_polls dmr i rs1 st).
Proof. revert st. induction rs1 as [|r rs1 IH]; intros st; cbn; auto. Qed.

Lemma hook_seq_waiting c i cl rs : forall st,
  ready_polling c i cl st -> Forall waiting rs ->
  ready_polling c i cl (sequential_polls dmr i rs st) /\
  search_requests (log (sequential_polls dmr i rs st)) = search_requests (log st).
Proof.
  induction rs as [|r rs IH]; intros st Hp Hw; [now split|].
  inversion Hw as [|? ? Hr Hrs]; subst. cbn [sequential_polls].
  destruct (hook_round_waiting c i cl r st Hp Hr) as [Hp' Hr'].
  destruct (IH _ Hp' Hrs) as [E1 E2]. split; [exact E1|]. now rewrite E2.
Qed.

Lemma hook_seq_cleared i rs : forall st,
  lookup i (timers st) = None ->
  (forall r, next_rid st <= r -> lookup r (inflight st) = None) ->
  sequential_polls dmr i rs st = st.
Proof.
  induction rs as [|r rs IH]; intros st Ht Hf; [reflexivity|].
  cbn [sequential_polls]. rewrite hook_round_cleared by assumption. now apply IH.
Qed.

(** When every reply arrives before the next tick, the hook retries exactly
    once, at the first reply that reports readiness. *)
Lemma retry_once c i cl rs code data more a q st :
  ready_polling c i cl st -> Forall waiting rs ->
  http_ok code = true -> j_ready_for_search data = true ->
  trim (c_query cl) = String a q ->
  let st1 := sequential_polls dmr i (rs ++ Http code data :: more) st in
  search_requests (log (sequential_polls dmr i rs st)) = search_requests (log st) /\
  lookup i (timers (sequential_polls dmr i rs st)) = Some (ReadyPoll c) /\
  search_requests (log st1) =
    search_requests (log st) ++ [(endpoint_of cl, bodyData_of cl)] /\
  lookup i (timers st1) = None.
Proof.
  intros Hp Hw Hok Hr Hq st1. subst st1.
  destruct (hook_seq_waiting c i cl rs st Hp Hw) as [Hp' Hreq].
  pose proof (hook_round_ready c i cl code data a q _ Hp' Hok Hr Hq) as H.
  cbv zeta in H. destruct H as (H1 & H2 & H3).
  rewrite hook_sequential_polls_app. cbn [sequential_polls].
  rewrite (hook_seq_cleared i more _ H2 H3).
  split; [exact Hreq|]. split; [apply Hp'|]. split; [|exact H2].
  now rewrite H1, Hreq.
Qed.

End Config.
End UseSearchRounds.

(** ** Facts about the fetch wrapper *)

Module FetchWrapFacts.
Import FetchWrap.

Section Wrapper.
Variable error_message_of : string -> option string.

(** One toast exactly when the request failed and the flag is not set. *)
Lemma toast_iff orig skip :
  List.length (fst (wrapped_fetch error_message_of orig skip)) =
  if failed orig && negb skip then 1 else 0.
Proof.
  destruct orig as [r|msg], skip; simpl; trivial.
  - now destruct (ok r).
  - destruct (ok r); simpl; trivial.
    unfold read_text. destruct (bodyUsed r); simpl; trivial.
    now destruct (text_result r).
Qed.

(** Without a toast the caller gets what the original fetch gave. *)
Lemma untouched_without_toast orig skip :
  failed orig && negb skip = false ->
  snd (wrapped_fetch error_message_of orig skip) = orig.
Proof.
  destruct orig as [r|msg], skip; simpl; trivial; try discriminate.
  - now destruct (ok r).
  - now destruct (ok r).
Qed.

(** A thrown error is rethrown as it is. *)
Lemma rethrown msg skip :
  snd (wrapped_fetch error_message_of (Rejected msg) skip) = Rejected msg.
Proof. reflexivity. Qed.

End Wrapper.
End FetchWrapFacts.

(** ** Facts about the React notification list *)

Module UseNotificationsFacts.
Import UseNotifications.

Lemma slice_last_length {A} n (a : list A) :
  0 < n -> List.length (slice_last n a) <= n.
Proof.
  intros Hn. unfold slice_last. destruct n; [lia|].
  rewrite length_skipn. lia.
Qed.

(** With a positive cap the list never exceeds it, the newest entry is kept
    and the oldest goes first. *)
Lemma addNotification_cap maxN n prev :
  0 < maxN ->
  List.length (addNotification maxN n prev) <= maxN /\
  last (addNotification maxN n prev) n = n /\
  (List.length prev = maxN -> addNotification maxN n prev = tl prev ++ [n]).
Proof.
  intros Hm. unfold addNotification. cbv zeta.
  destruct (Nat.ltb_spec maxN (List.length (prev ++ [n]))) as [Hlt|Hle].
  - split; [now apply slice_last_length|]. split.
    + unfold slice_last. destruct maxN; [lia|].
      rewrite length_app in *. cbn [List.length] in *.
      rewrite skipn_app.
      replace (List.length prev + 1 - S maxN - List.length prev) with 0 by lia.
      cbn [skipn]. apply last_last.
    + intros Hp. unfold slice_last. destruct maxN; [lia|].
      rewrite length_app, Hp. cbn [List.length].
      replace (S maxN + 1 - S maxN) with 1 by lia.
      destruct prev; [discriminate | reflexivity].
  - split; [exact Hle|]. split; [apply last_last|].
    intros Hp. rewrite length_app, Hp in Hle. cbn in Hle. lia.
Qed.

End UseNotificationsFacts.

(** ** The claims *)

Module Claims.
Import Search SearchView SearchFacts Scenario.

(** *** C1 *)

(** C1, as stated, fails: after a 202 model_loading reply, two status polls
    are in flight when the backend becomes ready; both replies report
    readiness and each one re-issues the search, so the payload goes out
    three times (once and two retries) and two replies are displayed. *)
Lemma overlapping_polls_retry_twice :
  let st := run waiting [Tick 0; Tick 0; Response 1 ready; Response 2 ready;
                         Response 3 found; Response 4 found] in
  search_requests (log st) = [dogs; dogs; dogs] /\
  List.length (displayed (log st)) = 2.
Proof. vm_compute. split; reflexivity. Qed.

(** C1 (amended): a dispatch answered with 202 model_loading whose status
    polls do not overlap and first report readiness at poll [length rs + 1]
    (at most the 60th) sends the original endpoint and body once more, exactly
    once, and what reaches the user is the reply to that retry: its results
    when it is 2xx, its error otherwise.  The 202 reply is never displayed. *)
Theorem retry_once_without_overlap st c q code data m rs scode sdata retry :
  well_formed st ->
  trim (input_value (frm (ui st))) = String c q ->
  is_loading_reply code data = true -> j_message data = Some m ->
  Forall not_ready rs -> List.length rs < max_attempts ->
  j_ready_for_search sdata = true ->
  let pid := List.length (pollers st) in
  let sent := (endpoint_of (frm (ui st)), body_data_of (frm (ui st))) in
  let st1 := run st [Submit; Response (next_rid st) (Http code data)] in
  let st2 := sequential_polls pid (rs ++ [Http scode sdata]) st1 in
  let st3 := step st2 (Response (next_rid st + 2 + List.length rs) retry) in
  search_requests (log st1) = search_requests (log st) ++ [sent] /\
  search_requests (log st2) = search_requests (log st) ++ [sent; sent] /\
  search_requests (log st3) = search_requests (log st) ++ [sent; sent] /\
  polling pid st2 = false /\
  displayed (log st2) = displayed (log st) /\
  match outcome_of retry with
  | Results result =>
      displayed (log st3) = displayed (log st) ++ [result] /\
      errors_shown (log st3) = errors_shown (log st)
  | Failure msg =>
      displayed (log st3) = displayed (log st) /\
      errors_shown (log st3) = errors_shown (log st) ++ ["Search failed: " +++ msg]
  end.
Proof.
  intros Hwf Hq Hl Hm Hrs Hk Hready pid sent st1 st2 st3.
  pose proof (view_dispatch code data Hwf Hq Hl Hm) as H1. fold st1 in H1.
  assert (Hf1 : fresh_from (inflight st) (S (next_rid st)))
    by (apply well_formed_fresh; auto).
  pose proof (seq_waiting (a := 0) Hf1 Hrs Hk H1) as Hw. fold pid in Hw.
  assert (Hf2 : fresh_from (inflight st) (S (next_rid st) + List.length rs))
    by (apply (@fresh_from_le _ (S (next_rid st))); [lia | exact Hf1]).
  pose proof (round_ready scode sdata Hf2 Hready Hw) as H2.
  assert (E2 : st2 = round pid (Http scode sdata) (sequential_polls pid rs st1))
    by (unfold st2; now rewrite sequential_polls_app).
  fold pid in H2. rewrite <- E2 in H2.
  assert (Hf3 : fresh_from (inflight st) (S (S (next_rid st) + List.length rs)))
    by (apply (@fresh_from_le _ (S (next_rid st))); [lia | exact Hf1]).
  pose proof (view_retry_reply Hf3 H2 retry) as H3.
  replace (S (S (next_rid st) + List.length rs))
    with (next_rid st + 2 + List.length rs) in H3 by lia.
  fold st3 in H3.
  repeat split.
  - now read_view H1.
  - read_view H2. now rewrite <- app_assoc.
  - destruct (outcome_of retry); read_view H3; now rewrite <- app_assoc.
  - exact (polling_shape H2).
  - now read_view H2.
  - destruct (outcome_of retry); read_view H3; auto.
Qed.

(** The scenario of the specification: three polls report loading, the
    fourth reports ready, the retry finds three results. *)
Lemma retry_once_witness :
  let st3 := step (sequential_polls 0 [not_yet; not_yet; not_yet; ready]
                     (run typed [Submit; Response 0 loading]))
                  (Response 5 found) in
  search_requests (log st3) = [dogs; dogs] /\
  displayed (log st3) = [results_reply ["a"; "b"; "c"]].
Proof.
  destruct (@retry_once_without_overlap typed "d" "ogs" 202
              (loading_reply "Model is now loading") "Model is now loading"
              [not_yet; not_yet; not_yet] 200 (status_reply true "loaded") found)
    as (_ & _ & H3 & _ & _ & H6 & _).
  - intros r _. reflexivity.
  - reflexivity.
  - reflexivity.
  - reflexivity.
  - repeat constructor.
  - unfold max_attempts. simpl. lia.
  - reflexivity.
  - exact (conj H3 H6).
Defined.

(** *** C2 *)

(** C2, as stated, fails: the first 59 status replies arrive in time, the
    reply to the 60th poll takes longer than a second.  The interval fires
    again before that reply is handled and a 61st poll goes out; then the
    replies to polls 60 and 61 each report the timeout. *)
Lemma lagging_reply_passes_sixty_polls :
  let st := run (sequential_polls 0 (repeat not_yet 59) waiting)
              [Tick 0; Tick 0; Response 60 not_yet; Response 61 not_yet] in
  status_polls (log st) = seq 1 61 /\
  errors_shown (log st) =
    ["Search failed: Model loading timeout - please try again later";
     "Search failed: Model loading timeout - please try again later"].
Proof. vm_compute. split; reflexivity. Qed.

(** C2 (amended): against a backend whose status replies all report not
    ready and arrive before the next tick, the poller is still armed and
    silent after each of the first 59 polls; the 60th poll clears the
    interval and reports the timeout; exactly 60 polls and one search request
    (no retry) were sent, nothing was displayed, and further ticks do
    nothing. *)
Theorem timeout_at_sixtieth_poll st c q code data m rs extra :
  well_formed st ->
  trim (input_value (frm (ui st))) = String c q ->
  is_loading_reply code data = true -> j_message data = Some m ->
  Forall not_ready rs -> List.length rs = max_attempts ->
  let pid := List.length (pollers st) in
  let sent := (endpoint_of (frm (ui st)), body_data_of (frm (ui st))) in
  let st1 := run st [Submit; Response (next_rid st) (Http code data)] in
  let st2 := sequential_polls pid rs st1 in
  (forall k, k < max_attempts ->
     polling pid (sequential_polls pid (firstn k rs) st1) = true /\
     errors_shown (log (sequential_polls pid (firstn k rs) st1))
       = errors_shown (log st)) /\
  status_polls (log st2) = status_polls (log st) ++ seq (S (next_rid st)) max_attempts /\
  polling pid st2 = false /\
  errors_shown (log st2) =
    errors_shown (log st) ++ ["Search failed: " +++ timeout_message] /\
  search_requests (log st2) = search_requests (log st) ++ [sent] /\
  displayed (log st2) = displayed (log st) /\
  sequential_polls pid extra st2 = st2.
Proof.
  intros Hwf Hq Hl Hm Hrs Hk pid sent st1 st2.
  pose proof (view_dispatch code data Hwf Hq Hl Hm) as H1. fold st1 in H1.
  assert (Hf1 : fresh_from (inflight st) (S (next_rid st)))
    by (apply well_formed_fresh; auto).
  assert (Hpre : forall k, k < max_attempts ->
            view_of (sequential_polls pid (firstn k rs) st1) =
            shape (pollers st) (inflight st) (search_requests (log st) ++ [sent])
              (displayed (log st))
              (armed k (body_data_of (frm (ui st))) (endpoint_of (frm (ui st))))
              (S (next_rid st) + k)
              (status_polls (log st) ++ seq (S (next_rid st)) k)
              (errors_shown (log st))).
  { intros k Hlt.
    assert (Hlen : List.length (firstn k rs) = k) by (rewrite length_firstn; lia).
    assert (Hfk : Forall not_ready (firstn k rs)).
    { rewrite <- (firstn_skipn k rs) in Hrs. now apply Forall_app in Hrs. }
    assert (Hk0 : 0 + List.length (firstn k rs) < max_attempts) by lia.
    pose proof (seq_waiting (a := 0) Hf1 Hfk Hk0 H1) as Hw.
    now rewrite Hlen in Hw. }
  split; [|assert (H2 : view_of st2 =
            shape (pollers st) (inflight st) (search_requests (log st) ++ [sent])
              (displayed (log st))
              (stopped (armed 60 (body_data_of (frm (ui st)))
                          (endpoint_of (frm (ui st)))))
              (S (next_rid st) + 60)
              (status_polls (log st) ++ seq (S (next_rid st)) 60)
              (errors_shown (log st) ++ ["Search failed: " +++ timeout_message]))].
  - intros k Hlt. specialize (Hpre k Hlt). split.
    + exact (polling_shape Hpre).
    + now read_view Hpre.
  - assert (H59 : 59 < max_attempts) by (unfold max_attempts; lia).
    specialize (Hpre 59 H59).
    unfold st2. rewrite <- (firstn_skipn 59 rs), sequential_polls_app.
    destruct (skipn 59 rs) as [|r [|r' tl]] eqn:Hsk.
    1, 3: apply (f_equal (@List.length _)) in Hsk; rewrite length_skipn, Hk in Hsk;
          unfold max_attempts in Hsk; simpl in Hsk; lia.
    assert (Hr : not_ready r).
    { rewrite <- (firstn_skipn 59 rs), Hsk in Hrs. apply Forall_app in Hrs.
      destruct Hrs as [_ Hr]. now inversion Hr. }
    assert (Hf59 : fresh_from (inflight st) (S (next_rid st) + 59))
      by (apply (@fresh_from_le _ (S (next_rid st))); [lia | exact Hf1]).
    etransitivity; [exact (round_timeout r Hf59 Hr (le_n 60) Hpre)|].
    unfold shape. f_equal; [lia|].
    rewrite <- app_assoc. f_equal.
    change 60 with (59 + 1). now rewrite seq_app.
  - repeat split.
    + now read_view H2.
    + exact (polling_shape H2).
    + now read_view H2.
    + now read_view H2.
    + now read_view H2.
    + refine (seq_cleared extra _ _ H2); [|reflexivity].
      apply (@fresh_from_le _ (S (next_rid st))); [lia | exact Hf1].
Qed.

(** Sixty replies that report loading. *)
Lemma timeout_witness :
  let st2 := sequential_polls 0 (repeat not_yet 60)
               (run typed [Submit; Response 0 loading]) in
  status_polls (log st2) = seq 1 60 /\
  polling 0 st2 = false /\
  errors_shown (log st2) =
    ["Search failed: Model loading timeout - please try again later"] /\
  search_requests (log st2) = [dogs].
Proof.
  destruct (@timeout_at_sixtieth_poll typed "d" "ogs" 202
              (loading_reply "Model is now loading") "Model is now loading"
              (repeat not_yet 60) [])
    as (_ & H2 & H3 & H4 & H5 & _).
  - intros r _. reflexivity.
  - reflexivity.
  - reflexivity.
  - reflexivity.
  - apply Forall_forall. intros r Hr. apply repeat_spec in Hr. now subst.
  - reflexivity.
  - exact (conj H2 (conj H3 (conj H4 H5))).
Defined.


(** *** C3 *)

(** C3, as stated, fails where it says that the ready continuation runs
    exactly once even when replies overlap: poll 1 reports loading, polls 2
    and 3 are both in flight when the backend becomes ready, both replies
    report readiness and the search is re-issued twice. *)
Lemma ready_continuation_runs_twice :
  let st := run waiting [Tick 0; Response 1 not_yet; Tick 0; Tick 0;
                         Response 2 ready; Response 3 ready] in
  search_requests (log st) = [dogs; dogs; dogs] /\ polling 0 st = false.
Proof. vm_compute. split; reflexivity. Qed.

(** C3 (amended).  For poll_for_model_ready_and_search and for the readiness
    poller of the React hook, in any state and under any interleaving: a run
    without a submission and without a reply that reports readiness sends no
    search request (never earlier); a reply that reports readiness re-issues
    the waiting endpoint and body once and clears the interval, after which
    its tick does nothing; clearing a cleared interval changes nothing.  When
    every reply arrives before the next tick, the retry is sent exactly once,
    at the first poll that reports readiness, whatever polls are attempted
    afterwards. *)
Theorem ready_continuation_once_per_ready_reply
    st rid pid p code data evs ps fl d ep R D a n P E st0 rs scode sdata more
    dmr (ust : UseSearch.state) urid c cl ucode udata ua uq i
    uevs (ust0 : UseSearch.state) urs umore :
  lookup rid (inflight st) = Some (KStatus pid) ->
  nth_error (pollers st) pid = Some p ->
  j_ready_for_search data = true ->
  Forall calm evs ->
  fresh_from fl n ->
  view_of st0 = shape ps fl R D (armed a d ep) n P E ->
  Forall not_ready rs -> a + List.length rs < max_attempts ->
  j_ready_for_search sdata = true ->
  lookup urid (UseSearch.inflight ust) = Some (UseSearch.KReadyPoll c) ->
  nth_error (UseSearch.calls ust) c = Some cl ->
  http_ok ucode = true -> j_ready_for_search udata = true ->
  trim (UseSearch.c_query cl) = String ua uq ->
  UseSearch.pollInterval cl = Some i -> i < UseSearch.next_timer ust ->
  Forall UseSearchView.calm uevs ->
  UseSearchView.ready_polling c i cl ust0 ->
  Forall UseSearchView.waiting urs ->
  let st' := step st (Response rid (Http code data)) in
  let k := List.length ps in
  let st1 := sequential_polls k (rs ++ Http scode sdata :: more) st0 in
  let ust' := UseSearch.step dmr ust (UseSearch.Reply urid (Http ucode udata)) in
  let ust1 :=
    UseSearchView.sequential_polls dmr i (urs ++ Http ucode udata :: umore) ust0 in
  search_requests (log (run st evs)) = search_requests (log st) /\
  search_requests (log st') =
    search_requests (log st) ++ [(p_endpoint p, search_data p)] /\
  polling pid st' = false /\
  step st' (Tick pid) = st' /\
  clearInterval pid (clearInterval pid st') = clearInterval pid st' /\
  search_requests (log (sequential_polls k rs st0)) = R /\
  polling k (sequential_polls k rs st0) = true /\
  search_requests (log st1) = R ++ [(ep, d)] /\
  polling k st1 = false /\
  UseSearch.search_requests (UseSearch.log (UseSearch.run dmr ust uevs)) =
    UseSearch.search_requests (UseSearch.log ust) /\
  UseSearch.search_requests (UseSearch.log ust') =
    UseSearch.search_requests (UseSearch.log ust)
      ++ [(UseSearch.endpoint_of cl, UseSearch.bodyData_of cl)] /\
  lookup i (UseSearch.timers ust') = None /\
  UseSearch.step dmr ust' (UseSearch.Tick i) = ust' /\
  UseSearch.clearInterval (Some i) (UseSearch.clearInterval (Some i) ust') =
    UseSearch.clearInterval (Some i) ust' /\
  UseSearch.search_requests
    (UseSearch.log (UseSearchView.sequential_polls dmr i urs ust0)) =
    UseSearch.search_requests (UseSearch.log ust0) /\
  lookup i (UseSearch.timers (UseSearchView.sequential_polls dmr i urs ust0)) =
    Some (UseSearch.ReadyPoll c) /\
  UseSearch.search_requests (UseSearch.log ust1) =
    UseSearch.search_requests (UseSearch.log ust0)
      ++ [(UseSearch.endpoint_of cl, UseSearch.bodyData_of cl)] /\
  lookup i (UseSearch.timers ust1) = None.
Proof.
  intros Hl Hp Hr Hevs Hf Hv Hrs Ha Hs Hul Huc Huok Hur Huq Hui Hult
    Huevs Hup Hurs st' k st1 ust' ust1.
  pose proof (@view_step_ready st rid pid p code data Hl Hp Hr) as Hv'. fold st' in Hv'.
  assert (Hpoll : polling pid st' = false).
  { apply (@polling_stopped pid p (settle rid st) st'); trivial.
    now apply (f_equal v_pollers) in Hv'. }
  pose proof (seq_waiting Hf Hrs Ha Hv) as Hw. fold k in Hw.
  assert (Hf2 : fresh_from fl (n + List.length rs))
    by (apply (@fresh_from_le _ n); [lia | exact Hf]).
  pose proof (round_ready scode sdata Hf2 Hs Hw) as H2. fold k in H2.
  assert (E1 : st1 = sequential_polls k more
                       (round k (Http scode sdata) (sequential_polls k rs st0))).
  { unfold st1. now rewrite sequential_polls_app. }
  assert (E2 : sequential_polls k more
                 (round k (Http scode sdata) (sequential_polls k rs st0)) =
               round k (Http scode sdata) (sequential_polls k rs st0)).
  { refine (seq_cleared more _ _ H2); [|reflexivity].
    apply fresh_from_snoc, (@fresh_from_le _ n); [lia | exact Hf]. }
  rewrite E2 in E1. rewrite <- E1 in H2.
  assert (Hstop : lookup i (UseSearch.timers ust') = None)
    by exact (@UseSearchFacts.ready_reply_stops dmr ust urid c cl ucode udata ua uq i
                Hul Huc Huok Hur Huq Hui Hult).
  pose proof (UseSearchRounds.retry_once dmr c i cl urs ucode udata umore ua uq ust0
                Hup Hurs Huok Hur Huq) as (U1 & U2 & U3 & U4).
  split; [now apply requests_run_calm|].
  split; [now read_view Hv'|].
  split; [exact Hpoll|].
  split; [now apply poll_tick_cleared|].
  split; [apply clearInterval_idempotent|].
  split; [now read_view Hw|].
  split; [exact (polling_shape Hw)|].
  split; [now read_view H2|]. split; [exact (polling_shape H2)|].
  split; [now apply UseSearchRounds.hook_requests_run_calm|].
  split.
  { exact (@UseSearchFacts.ready_reply_retries dmr ust urid c cl ucode udata ua uq
             Hul Huc Huok Hur Huq). }
  split; [exact Hstop|].
  split; [now apply UseSearchRounds.hook_tick_cleared|].
  split; [apply UseSearchRounds.clearInterval_twice|].
  split; [exact U1|]. split; [exact U2|]. split; [exact U3 | exact U4].
Qed.

(** Two polls in flight, the first reply ready; and a run without overlap,
    for the page and for the hook. *)
Lemma ready_continuation_witness :
  let st := run waiting [Tick 0; Tick 0] in
  search_requests (log (step st (Response 1 ready))) = [dogs; dogs] /\
  search_requests (log (sequential_polls 0 [not_yet; not_yet] waiting)) = [dogs] /\
  search_requests (log (sequential_polls 0 [not_yet; not_yet; ready; ready] waiting))
    = [dogs; dogs] /\
  UseSearch.search_requests
    (UseSearch.log
       (UseSearchView.sequential_polls 8 2
          ([not_yet; NetError "Failed to fetch"] ++ ready :: [ready; not_yet])
          hook_polling)) = [dogs; dogs].
Proof.
  destruct (@ready_continuation_once_per_ready_reply
              (run waiting [Tick 0; Tick 0]) 1 0
              (armed 2 (snd dogs) "/search") 200 (status_reply true "loaded")
              [Tick 0; Response 2 not_yet]
              [] [] (snd dogs) "/search" [dogs] [] 0 1 [] [] waiting
              [not_yet; not_yet] 200 (status_reply true "loaded") [ready]
              8 hook_polling 1 0 hook_call 200 (status_reply true "loaded")
              "d" "ogs" 2
              [UseSearch.Tick 2; UseSearch.Reply 1 not_yet] hook_polling
              [not_yet; NetError "Failed to fetch"] [ready; not_yet])
    as (_ & H2 & _ & _ & _ & H6 & _ & H8 & _ & _ & _ & _ & _ & _ & _ & _ & U3 & _).
  - reflexivity.
  - reflexivity.
  - reflexivity.
  - repeat constructor.
  - intros r _. reflexivity.
  - reflexivity.
  - repeat constructor.
  - unfold max_attempts. simpl. lia.
  - reflexivity.
  - reflexivity.
  - reflexivity.
  - reflexivity.
  - reflexivity.
  - reflexivity.
  - reflexivity.
  - simpl. lia.
  - repeat constructor.
  - repeat split; [vm_compute; lia|].
    intros [|[|r]] Hr; [vm_compute in Hr; lia | vm_compute in Hr; lia | reflexivity].
  - repeat constructor.
  - exact (conj H2 (conj H6 (conj H8 U3))).
Defined.

(** *** C4 *)

(** C4, as stated, fails: nothing compares a token when a reply is applied.
    The panel is closed (the fast poller 4 is stopped) and opened again (the
    fast poller 9 starts and shows 50 percent) while request 1 of the old
    poller is in flight.  When its reply arrives it is rendered over the newer
    snapshot; if it says the job is not active it also stops the new poller
    and marks the widget completed. *)
Lemma stale_reply_overwrites_and_stops :
  Debug.global_progress_interval reopened = Some 9 /\
  lookup 1 (Debug.inflight reopened) = Some Debug.KProgress /\
  Debug.shown (Debug.step reopened (Debug.Reply 1 (at_percent 10)))
    = Debug.Rendered (Debug.snapshot true "Embedding" 10) /\
  let st := Debug.step reopened (Debug.Reply 1 finished) in
  Debug.global_progress_interval st = None /\
  Debug.running Debug.Fast st = [] /\
  Debug.container st = Debug.Completed.
Proof. vm_compute. repeat split; reflexivity. Qed.

(** C4 (amended), for the progress poller.  Stopping a poller cancels its
    interval at once: the stopped interval never ticks again, also after a
    new poller was started.  A reply to a request that was already in flight
    is still applied when it arrives: the snapshot is rendered, and a snapshot
    that is not active stops the poller that is current then, here the new
    one.  There is no token that is compared. *)
Theorem stale_reply_still_applied (st : Debug.state) rid j o id :
  lookup rid (Debug.inflight st) = Some Debug.KProgress ->
  Debug.error j = None ->
  Debug.global_progress_interval st = Some id ->
  id < Debug.next_timer st ->
  let stopped := Debug.stop_progress_polling st in
  let st1 := Debug.start_progress_polling o stopped in
  let st2 := Debug.step st1 (Debug.Reply rid (Debug.Http true (Debug.Obj j))) in
  Debug.step stopped (Debug.Tick id) = stopped /\
  Debug.step st1 (Debug.Tick id) = st1 /\
  Debug.global_progress_interval st1 = Some (Debug.next_timer st) /\
  Debug.shown st2 = Debug.Rendered j /\
  Debug.renders (Debug.log st2) = Debug.renders (Debug.log st) ++ [j] /\
  (if Debug.active j then Debug.global_progress_interval st2 = Some (Debug.next_timer st)
   else Debug.global_progress_interval st2 = None /\
        lookup (Debug.next_timer st) (Debug.timers st2) = None /\
        Debug.container st2 = Debug.Completed).
Proof.
  intros Hl He Hg Hid stopped st1 st2.
  assert (Hstop : stopped =
            Debug.set_var Debug.Fast None
              (Debug.set_timers (remove_key id) (Debug.next_timer st) st)).
  { unfold stopped, Debug.stop_progress_polling, Debug.stop.
    cbn [Debug.var]. now rewrite Hg. }
  assert (Hnone : Debug.global_progress_interval stopped = None)
    by (rewrite Hstop; reflexivity).
  assert (Hst1 : st1 =
            Debug.setInterval Debug.Fast (Debug.emit (Debug.StartFast o None) stopped)).
  { unfold st1, Debug.start_progress_polling, Debug.stop_progress_polling, Debug.stop.
    cbn [Debug.var Debug.emit Debug.global_progress_interval].
    rewrite Hnone. reflexivity. }
  assert (Hl1 : lookup rid (Debug.inflight st1) = Some Debug.KProgress).
  { rewrite Hst1, Hstop. exact Hl. }
  destruct (@DebugFacts.snapshot_applied st1 rid j Hl1 He) as (S1 & S2 & S3 & S4).
  fold st2 in S1, S2, S3, S4.
  split; [apply (DebugFacts.stopped_never_ticks Debug.Fast st Hg)|].
  split.
  { apply DebugFacts.tick_cleared. rewrite Hst1, Hstop.
    cbn [Debug.timers Debug.setInterval Debug.set_var Debug.set_timers Debug.emit
         Debug.next_timer].
    generalize (DebugFacts.lookup_remove_same id (Debug.timers st)).
    generalize (remove_key id (Debug.timers st)). intros l H.
    induction l as [|[i kd] l IH]; simpl in *.
    - destruct (Nat.eqb_spec id (Debug.next_timer st)); [lia | reflexivity].
    - destruct (id =? i); [discriminate | auto]. }
  assert (G1 : Debug.global_progress_interval st1 = Some (Debug.next_timer st))
    by (rewrite Hst1, Hstop; reflexivity).
  split; [exact G1|]. split; [exact S1|]. split.
  { rewrite S2, Hst1, Hstop. unfold Debug.renders.
    cbn [Debug.log Debug.setInterval Debug.set_var Debug.set_timers Debug.emit].
    rewrite pick_app. cbn [pick]. now rewrite app_nil_r. }
  destruct (Debug.active j).
  - destruct (S4 eq_refl) as (A1 & _). now rewrite A1.
  - destruct (S3 eq_refl) as (A1 & A2 & _ & A4). split; [exact A1|]. split; [|exact A2].
    rewrite A4, G1. apply DebugFacts.lookup_remove_same.
Qed.

(** The fast poller 4 is replaced by 5 while its request 1 is in flight. *)
Lemma stale_reply_witness :
  let st := Debug.run watching [Debug.Tick 4] in
  let st1 := Debug.start_progress_polling None (Debug.stop_progress_polling st) in
  Debug.step st1 (Debug.Tick 4) = st1 /\
  Debug.global_progress_interval st1 = Some 5 /\
  Debug.global_progress_interval (Debug.step st1 (Debug.Reply 1 finished)) = None.
Proof.
  destruct (@stale_reply_still_applied (Debug.run watching [Debug.Tick 4]) 1 done None 4)
    as (_ & H2 & H3 & _ & _ & H6 & _).
  - reflexivity.
  - reflexivity.
  - reflexivity.
  - simpl. lia.
  - exact (conj H2 (conj H3 H6)).
Defined.

(** *** C5 *)

(** C5, as stated, fails when replies overlap: two requests of the fast
    poller are in flight when the job ends, both replies say that it is not
    active, and the completion update runs twice (the final snapshot is
    rendered twice, the container is set to completed twice and two resets
    are scheduled). *)
Lemma completion_runs_twice_when_replies_overlap :
  let st := Debug.run watching
              [Debug.Tick 4; Debug.Reply 1 (at_percent 20); Debug.Tick 4; Debug.Tick 4;
               Debug.Reply 2 finished; Debug.Reply 3 finished] in
  Debug.completions (Debug.log st) = 2 /\
  List.length (Debug.timeouts st) = 2 /\
  Debug.renders (Debug.log st) =
    [Debug.snapshot true "Embedding" 10; Debug.snapshot true "Embedding" 20; done; done].
Proof. vm_compute. repeat split; reflexivity. Qed.

(** C5 (amended), for start_progress_polling.  Every snapshot without error
    that arrives with active false is rendered, sets the container to
    completed once and stops the fast poller.  When every reply arrives
    before the next tick, a run of snapshots with active true followed by one
    with active false performs exactly one completion update, renders that
    last snapshot and stops the poller; whatever ticks are attempted
    afterwards fetch nothing and change nothing. *)
Theorem completion_once_without_overlap
    (st : Debug.state) id js j more (st0 : Debug.state) rid0 j0 :
  Debug.global_progress_interval st = Some id ->
  lookup id (Debug.timers st) = Some Debug.Fast ->
  DebugView.fresh_rids st ->
  Forall DebugView.running_snapshot js ->
  Debug.error j = None -> Debug.active j = false ->
  lookup rid0 (Debug.inflight st0) = Some Debug.KProgress ->
  Debug.error j0 = None -> Debug.active j0 = false ->
  let st' := Debug.progress_rounds id (js ++ [j]) st in
  let st0' := Debug.step st0 (Debug.Reply rid0 (Debug.Http true (Debug.Obj j0))) in
  Debug.completions (Debug.log st') = S (Debug.completions (Debug.log st)) /\
  Debug.renders (Debug.log st') = Debug.renders (Debug.log st) ++ js ++ [j] /\
  Debug.shown st' = Debug.Rendered j /\
  Debug.container st' = Debug.Completed /\
  Debug.global_progress_interval st' = None /\
  lookup id (Debug.timers st') = None /\
  Debug.progress_fetches (Debug.log st') =
    Debug.progress_fetches (Debug.log st) ++ seq (Debug.next_rid st) (S (List.length js)) /\
  Debug.progress_rounds id more st' = st' /\
  Debug.completions (Debug.log st0') = S (Debug.completions (Debug.log st0)) /\
  Debug.shown st0' = Debug.Rendered j0 /\
  Debug.global_progress_interval st0' = None.
Proof.
  intros Hg Ht Hf Hjs He Ha Hl0 He0 Ha0 st' st0'.
  destruct (@DebugFacts.rounds_active id js st Ht Hf Hjs) as (E1 & E2 & E3 & E4 & E5 & E6 & E7).
  assert (Ht' : lookup id (Debug.timers (Debug.progress_rounds id js st)) = Some Debug.Fast)
    by now rewrite E1.
  assert (Hf' : DebugView.fresh_rids (Debug.progress_rounds id js st)).
  { intros r Hr. rewrite E3. apply Hf. lia. }
  assert (Hg' : Debug.global_progress_interval (Debug.progress_rounds id js st) = Some id)
    by now rewrite E2.
  destruct (@DebugFacts.round_inactive id j _ Ht' Hf' Hg' He Ha)
    as (F1 & F2 & F3 & F4 & F5 & F6 & F7 & F8 & F9).
  assert (Est : st' = Debug.progress_round id j (Debug.progress_rounds id js st)).
  { unfold st'. now rewrite DebugFacts.progress_rounds_app. }
  rewrite <- Est in F1, F2, F3, F4, F5, F6, F7, F8, F9.
  destruct (@DebugFacts.snapshot_applied st0 rid0 j0 Hl0 He0) as (S1 & _ & S3 & _).
  destruct (S3 Ha0) as (A1 & _ & A3 & _). fold st0' in S1, A1, A3.
  split; [now rewrite F5, E5|].
  split; [now rewrite F6, E6, <- app_assoc|].
  split; [exact F8|]. split; [exact F9|]. split; [exact F2|]. split; [exact F1|].
  split.
  { rewrite F7, E7, E4, <- app_assoc. f_equal.
    replace (S (List.length js)) with (List.length js + 1) by lia.
    now rewrite seq_app. }
  split.
  { apply DebugFacts.rounds_stopped; trivial.
    intros r Hr. rewrite F3, E3. apply Hf. rewrite F4, E4 in Hr. lia. }
  split; [exact A3|]. split; [exact S1 | exact A1].
Qed.

(** 20 percent, 60 percent, done. *)
Lemma completion_once_witness :
  let st' := Debug.progress_rounds 4
               [Debug.snapshot true "Embedding" 20; Debug.snapshot true "Embedding" 60; done]
               watching in
  Debug.completions (Debug.log st') = 1 /\
  Debug.container st' = Debug.Completed /\
  Debug.progress_rounds 4 [done; done] st' = st'.
Proof.
  destruct (@completion_once_without_overlap watching 4
              [Debug.snapshot true "Embedding" 20; Debug.snapshot true "Embedding" 60]
              done [done; done] (Debug.run watching [Debug.Tick 4]) 1 done)
    as (H1 & _ & _ & H4 & _ & _ & _ & H8 & _).
  - reflexivity.
  - reflexivity.
  - intros r _. reflexivity.
  - repeat constructor.
  - reflexivity.
  - reflexivity.
  - reflexivity.
  - reflexivity.
  - reflexivity.
  - exact (conj H1 (conj H4 H8)).
Defined.

(** *** C6 *)

(** C6, as stated, fails for poll_for_model_ready_and_search: one status
    poll whose fetch rejects lands in the catch block, which clears the
    interval and reports the failure as the outcome of the search; the next
    tick never happens, long before the deadline. *)
Lemma failed_status_poll_ends_search :
  let st := run waiting [Tick 0; Response 1 (NetError "Failed to fetch"); Tick 0] in
  polling 0 st = false /\
  status_polls (log st) = [1] /\
  errors_shown (log st) = ["Search failed: Failed to fetch"].
Proof. vm_compute. repeat split; reflexivity. Qed.

(** C6 (amended).  In poll_for_model_ready_and_search a status poll that
    fails (the fetch rejects or the body cannot be parsed) clears the
    interval and shows the failure as a search error; no further tick
    polls.  In the progress poller of the debug panel and in the status
    poller of the React hook a failed poll, whether the fetch rejects or the
    body cannot be parsed, is only logged: the state is the same but for the
    console line, so the interval keeps running.  (The hook reads the body of
    a reply that is ok only; any other reply changes nothing at all.) *)
Theorem failed_poll_outcomes
    st rid pid p r msg (dst : Debug.state) drid dmsg
    dmr (ust : UseSearch.state) urid c cl umsg ucode :
  lookup rid (inflight st) = Some (KStatus pid) ->
  nth_error (pollers st) pid = Some p ->
  poll_failure r = Some msg ->
  lookup drid (Debug.inflight dst) = Some Debug.KProgress ->
  lookup urid (UseSearch.inflight ust) = Some (UseSearch.KReadyPoll c) ->
  nth_error (UseSearch.calls ust) c = Some cl ->
  let st' := step st (Response rid r) in
  polling pid st' = false /\
  errors_shown (log st') = errors_shown (log st) ++ ["Search failed: " +++ msg] /\
  step st' (Tick pid) = st' /\
  Debug.step dst (Debug.Reply drid (Debug.NetFail dmsg)) =
    Debug.emit (Debug.ConsoleError ("Failed to fetch progress: " +++ dmsg))
      (Debug.set_inflight (remove_key drid) (Debug.next_rid dst) dst) /\
  Debug.step dst (Debug.Reply drid (Debug.Http true (Debug.Unparsable dmsg))) =
    Debug.emit (Debug.ConsoleError ("Failed to fetch progress: " +++ dmsg))
      (Debug.set_inflight (remove_key drid) (Debug.next_rid dst) dst) /\
  UseSearch.step dmr ust (UseSearch.Reply urid (NetError umsg)) =
    UseSearch.emit (UseSearch.Console ("Model status polling failed: " +++ umsg))
      (UseSearch.settle urid ust) /\
  UseSearch.step dmr ust (UseSearch.Reply urid (Unparsable ucode umsg)) =
    if http_ok ucode
    then UseSearch.emit
           (UseSearch.Console ("Model status polling failed: " +++ umsg))
           (UseSearch.settle urid ust)
    else UseSearch.settle urid ust.
Proof.
  intros Hl Hp Hr Hdl Hul Hc st'.
  pose proof (@view_step_failed st rid pid p r msg Hl Hp Hr) as Hv. fold st' in Hv.
  assert (Hpoll : polling pid st' = false).
  { apply (@polling_stopped pid p (settle rid st) st'); trivial.
    now apply (f_equal v_pollers) in Hv. }
  split; [exact Hpoll|]. split; [now read_view Hv|].
  split; [now apply poll_tick_cleared|].
  split; [now rewrite (@DebugFacts.step_reply _ _ _ _ Hdl)|].
  split; [now rewrite (@DebugFacts.step_reply _ _ _ _ Hdl)|].
  split.
  - exact (@UseSearchFacts.ready_poll_failure dmr ust urid c cl umsg Hul Hc).
  - rewrite (@UseSearchFacts.hook_step_reply _ _ _ _ _ Hul).
    unfold UseSearch.ready_resume. cbn [UseSearch.calls UseSearch.settle].
    now rewrite Hc.
Qed.

(** The first status poll of each poller fails. *)
Lemma failed_poll_witness :
  let st' := step (run waiting [Tick 0]) (Response 1 (NetError "Failed to fetch")) in
  polling 0 st' = false /\
  errors_shown (log st') = ["Search failed: Failed to fetch"] /\
  Debug.step (Debug.run watching [Debug.Tick 4])
    (Debug.Reply 1 (Debug.NetFail "Failed to fetch")) =
  Debug.emit (Debug.ConsoleError "Failed to fetch progress: Failed to fetch")
    (Debug.set_inflight (remove_key 1) 2 (Debug.run watching [Debug.Tick 4])).
Proof.
  destruct (@failed_poll_outcomes (run waiting [Tick 0]) 1 0
              (armed 1 (snd dogs) "/search") (NetError "Failed to fetch")
              "Failed to fetch"
              (Debug.run watching [Debug.Tick 4]) 1 "Failed to fetch"
              8 hook_polling 1 0 hook_call "Failed to fetch" 200)
    as (H1 & H2 & _ & H4 & _).
  - reflexivity.
  - reflexivity.
  - reflexivity.
  - reflexivity.
  - reflexivity.
  - reflexivity.
  - exact (conj H1 (conj H2 H4)).
Defined.

(** *** C7 *)

(** C7, as stated, fails where it says that the background checker never
    starts the fast poller while one is active: the checker tests
    global_progress_interval when its tick fires, two replies before it calls
    start_progress_polling.  Here the user starts a generation (fast poller
    4) between the background tick and its hand-off, and the hand-off starts
    a fast poller over the running one. *)
Lemma background_handoff_over_running_poller :
  let st := Debug.run Debug.init
              [Debug.OpenPanel; Debug.Reply 0 idle_reply; Debug.Tick 3;
               Debug.ClickGenerate; Debug.Reply 1 (at_percent 1);
               Debug.Reply 3 (at_percent 2)] in
  Debug.handoffs_over_running (Debug.log st) = [4] /\
  Debug.running Debug.Fast st = [5].
Proof. vm_compute. split; reflexivity. Qed.

(** C7 (amended).  In every state a session can reach, at most one fast
    progress poller and at most one background checker run, and each is the
    one its module variable names; every start operation first cancels the
    instance its variable names, so that only the new interval of that kind
    runs; the background checker does nothing on a tick that finds a fast
    poller running.  (A fast poller started between that tick and the
    hand-off is replaced by the hand-off.) *)
Theorem one_loop_per_kind evs o :
  let st := Debug.run Debug.init evs in
  List.length (Debug.running Debug.Fast st) <= 1 /\
  List.length (Debug.running Debug.Background st) <= 1 /\
  Debug.running Debug.Fast st = DebugView.opt_list (Debug.global_progress_interval st) /\
  Debug.running Debug.Background st = DebugView.opt_list (Debug.background_progress_check st) /\
  Debug.running Debug.Fast (Debug.start_progress_polling o st) = [Debug.next_timer st] /\
  Debug.running Debug.Background (Debug.start_background_progress_monitoring st)
    = [Debug.next_timer st] /\
  (Debug.global_progress_interval st = None \/ Debug.background_tick st = st).
Proof.
  intros st.
  assert (Hc : DebugView.consistent st)
    by apply DebugFacts.consistent_run, DebugFacts.consistent_init.
  split; [now apply DebugFacts.at_most_one|].
  split; [now apply DebugFacts.at_most_one|].
  split; [apply (DebugView.holds Hc Debug.Fast)|].
  split; [apply (DebugView.holds Hc Debug.Background)|].
  split; [|split].
  - pose proof (DebugFacts.consistent_start_fast o Hc) as Hs.
    rewrite (DebugView.holds Hs Debug.Fast).
    unfold Debug.start_progress_polling, Debug.stop_progress_polling, Debug.setInterval.
    rewrite DebugFacts.var_set_var, DebugFacts.next_timer_stop. reflexivity.
  - assert (Hs : DebugView.consistent (Debug.start_background_progress_monitoring st))
      by now apply DebugFacts.consistent_restart.
    rewrite (DebugView.holds Hs Debug.Background).
    unfold Debug.start_background_progress_monitoring,
      Debug.stop_background_progress_monitoring, Debug.setInterval.
    rewrite DebugFacts.var_set_var, DebugFacts.next_timer_stop. reflexivity.
  - unfold Debug.background_tick.
    destruct (Debug.global_progress_interval st); [now right | now left].
Qed.

(** *** C8 *)

(** C8: the wrapper shows one toast exactly when the request failed and
    skipNotification is not set, returns the response as it got it whenever it
    shows no toast, and rethrows a thrown error as it is.  But to word the
    toast of a response that is not 2xx it reads the body of the very
    response it returns: the caller of a request without skipNotification
    gets a response whose body is used up, so that reading it fails where the
    same request with skipNotification reads the text; and when reading the
    body fails the caller gets that error instead of the response. *)
Theorem wrapper_uses_up_failed_body (error_message_of : string -> option string) :
  (forall orig skip,
     List.length (fst (FetchWrap.wrapped_fetch error_message_of orig skip)) =
     if FetchWrap.failed orig && negb skip then 1 else 0) /\
  (forall msg skip,
     snd (FetchWrap.wrapped_fetch error_message_of (FetchWrap.Rejected msg) skip)
     = FetchWrap.Rejected msg) /\
  snd (FetchWrap.wrapped_fetch error_message_of (FetchWrap.Resolved server_error) true)
    = FetchWrap.Resolved server_error /\
  snd (FetchWrap.wrapped_fetch error_message_of (FetchWrap.Resolved server_error) false)
    <> FetchWrap.Resolved server_error /\
  FetchWrap.caller_reads
    (snd (FetchWrap.wrapped_fetch error_message_of (FetchWrap.Resolved server_error) true))
    = inl "{}" /\
  FetchWrap.caller_reads
    (snd (FetchWrap.wrapped_fetch error_message_of (FetchWrap.Resolved server_error) false))
    = inr "body stream already read" /\
  snd (FetchWrap.wrapped_fetch error_message_of (FetchWrap.Resolved broken_body) false)
    = FetchWrap.Rejected "network error".
Proof.
  split; [apply FetchWrapFacts.toast_iff|].
  split; [reflexivity|].
  repeat split; try reflexivity. discriminate.
Qed.

(** *** C9 *)

(** C9: show_notification lets the list grow past max_notifications.  The
    entry it evicts stays in the map until a timeout 300 ms later, so six
    entries are in the map right after the sixth call; and because the next
    call finds the same oldest entry still there and evicts it again, seven
    calls in a row leave six entries for good, after every timeout has run.
    The newest entry is kept. *)
Theorem show_notification_exceeds_cap :
  Notify.size (Notify.run Notify.init (burst 6)) = 6 /\
  (let st := Notify.run Notify.init (burst 7 ++ repeat (Notify.Fire 0) 9) in
   Notify.scheduled st = [] /\
   map fst (Notify.notification_list st) = [2; 3; 4; 5; 6; 7] /\
   Notify.max_notifications < Notify.size st).
Proof.
  split; [reflexivity|]. cbv zeta.
  split; [reflexivity|]. split; [reflexivity|].
  vm_compute. lia.
Qed.

(** *** C10 *)

(** C10, as stated, fails for perform_search: results that are on display
    are hidden.  The user searches for dogs, empties the box while the request
    is on its way, the results arrive and are displayed; pressing Enter on the
    empty box then hides them. *)
Lemma blank_search_hides_results :
  let st := run (init false 8 1)
              [Input "dogs"; Submit; Input "";
               Response 0 (Http 200 (results_reply ["a"; "b"]))] in
  trim (input_value (frm (ui st))) = "" /\
  results_display (pan (ui st)) = true /\
  results_display (pan (ui (step st Submit))) = false.
Proof. vm_compute. repeat split; reflexivity. Qed.

(** C10 (amended).  A search whose query is empty or only white space, as
    String.prototype.trim strips it (Unicode white space included), sends no
    request and reports 'Please enter a search query'.  In the React hook
    nothing else changes.  In perform_search the error is shown through
    show_error_message, which hides the loading, no-results, results and
    model-loading panels (the model-loading panel keeps its text); the
    content of the results list, the form, the button, the welcome section,
    the pollers and the requests in flight are unchanged. *)
Theorem blank_query_sends_nothing st dmr (ust : UseSearch.state) q :
  trim (input_value (frm (ui st))) = "" ->
  trim q = "" ->
  let st' := step st Submit in
  log st' = log st ++ [Notify "error" "Search Error" "Please enter a search query"] /\
  inflight st' = inflight st /\ next_rid st' = next_rid st /\
  pollers st' = pollers st /\
  frm (ui st') = frm (ui st) /\
  results_items (ui st') = results_items (ui st) /\
  btn (ui st') = btn (ui st) /\
  loadingNotificationId (ui st') = loadingNotificationId (ui st) /\
  welcome_display (pan (ui st')) = welcome_display (pan (ui st)) /\
  loading_display (pan (ui st')) = false /\
  no_results_display (pan (ui st')) = false /\
  results_display (pan (ui st')) = false /\
  model_loading (pan (ui st')) =
    match model_loading (pan (ui st)) with
    | Some (_, t) => Some (false, t)
    | None => None
    end /\
  UseSearch.step dmr ust (UseSearch.Invoke q) =
    UseSearch.emit (UseSearch.OnError "Please enter a search query") ust.
Proof.
  intros Hq Hu st'. subst st'. cbn [step].
  rewrite (view_perform_search_blank st Hq).
  repeat split. now apply UseSearchFacts.blank_query.
Qed.

(** A space, a no-break space and a tab in the box; an ideographic space for
    the hook. *)
Lemma blank_query_witness :
  let st := run (init false 8 1)
              [Input "dogs"; Submit; Input (" " +++ nbsp +++ tab)] in
  log (step st Submit) =
    log st ++ [Notify "error" "Search Error" "Please enter a search query"] /\
  inflight (step st Submit) = inflight st /\
  UseSearch.step 8 (UseSearch.init false 8 1) (UseSearch.Invoke ideographic_space) =
    UseSearch.emit (UseSearch.OnError "Please enter a search query")
      (UseSearch.init false 8 1).
Proof.
  destruct (@blank_query_sends_nothing
              (run (init false 8 1)
                 [Input "dogs"; Submit; Input (" " +++ nbsp +++ tab)])
              8 (UseSearch.init false 8 1) ideographic_space)
    as (H1 & H2 & _ & _ & _ & _ & _ & _ & _ & _ & _ & _ & _ & H14).
  - reflexivity.
  - reflexivity.
  - exact (conj H1 (conj H2 H14)).
Defined.

End Claims.

(** * Properties of the rest of the code *)

Unset Implicit Arguments.

(** ** Strings *)

Module StringFacts.

Lemma append_assoc (a b c : string) : (a +++ b) +++ c = a +++ b +++ c.
Proof. induction a as [|x a IH]; cbn; [reflexivity | now rewrite IH]. Qed.

Lemma append_nil_r (a : string) : a +++ "" = a.
Proof. induction a as [|x a IH]; cbn; [reflexivity | now rewrite IH]. Qed.

Lemma chars_append (a b : string) :
  list_ascii_of_string (a +++ b) = list_ascii_of_string a ++ list_ascii_of_string b.
Proof. induction a as [|x a IH]; cbn; [reflexivity | now rewrite IH]. Qed.

Lemma trim_start_eq s :
  trim_start s = match white_space s with Some r => trim_start r | None => s end.
Proof.
  destruct s as [|a [|b [|c s]]]; cbn [trim_start white_space]; trivial.
  - now destruct (is_space a).
  - destruct (is_space a); trivial. now destruct (is_space2 a b).
  - destruct (is_space a); trivial. destruct (is_space2 a b); trivial.
    now destruct (is_space3 a b c).
Qed.

Lemma white_space_shorter s r : white_space s = Some r -> String.length r < String.length s.
Proof.
  destruct s as [|a [|b [|c s]]]; cbn [white_space]; try discriminate.
  - destruct (is_space a); [|discriminate]. intros [= <-]. cbn. lia.
  - destruct (is_space a); [intros [= <-]; cbn; lia|].
    destruct (is_space2 a b); [|discriminate]. intros [= <-]. cbn. lia.
  - destruct (is_space a); [intros [= <-]; cbn; lia|].
    destruct (is_space2 a b); [intros [= <-]; cbn; lia|].
    destruct (is_space3 a b c); [|discriminate]. intros [= <-]. cbn. lia.
Qed.

Lemma trim_start_clean s : starts_clean (trim_start s).
Proof.
  remember (String.length s) as n eqn:Hn. revert s Hn.
  induction n as [n IH] using lt_wf_ind. intros s Hn.
  rewrite trim_start_eq. destruct (white_space s) as [r|] eqn:E; [|exact E].
  apply (IH (String.length r)); [|reflexivity].
  subst n. now apply white_space_shorter.
Qed.

Lemma trim_start_fixed s : starts_clean s -> trim_start s = s.
Proof. intros H. rewrite trim_start_eq. now rewrite H. Qed.

Lemma white_space_append s r t :
  white_space s = Some r -> white_space (s +++ t) = Some (r +++ t).
Proof.
  destruct s as [|a [|b [|c s]]]; cbn [white_space append]; try discriminate.
  - destruct (is_space a); [|discriminate]. now intros [= <-].
  - destruct (is_space a); [now intros [= <-]|].
    destruct (is_space2 a b); [|discriminate]. now intros [= <-].
  - destruct (is_space a); [now intros [= <-]|].
    destruct (is_space2 a b); [now intros [= <-]|].
    destruct (is_space3 a b c); [|discriminate]. now intros [= <-].
Qed.

Lemma trim_end_cases c s :
  trim_end (String c s) = "" \/ trim_end (String c s) = String c (trim_end s).
Proof. cbn [trim_end]. cbv zeta. destruct (blank _); auto. Qed.

Lemma trim_end_prefix s : exists t, s = trim_end s +++ t.
Proof.
  induction s as [|c s [t IH]]; [now exists ""|].
  destruct (trim_end_cases c s) as [-> | ->].
  - now exists (String c s).
  - exists t. cbn. now rewrite <- IH.
Qed.

Lemma trim_end_starts s : starts_clean s -> starts_clean (trim_end s).
Proof.
  unfold starts_clean. intros H.
  destruct (white_space (trim_end s)) as [r|] eqn:E; [|reflexivity].
  destruct (trim_end_prefix s) as [t Ht].
  apply (white_space_append _ _ t) in E. rewrite <- Ht in E. congruence.
Qed.

Lemma trim_end_idem s : trim_end (trim_end s) = trim_end s.
Proof.
  induction s as [|c s IH]; [reflexivity|].
  cbn [trim_end]. cbv zeta.
  destruct (blank (String c (trim_end s))) eqn:Hb; [reflexivity|].
  cbn [trim_end]. cbv zeta. now rewrite IH, Hb.
Qed.

Lemma trim_idem s : trim (trim s) = trim s.
Proof.
  unfold trim.
  rewrite (trim_start_fixed _ (trim_end_starts _ (trim_start_clean s))).
  apply trim_end_idem.
Qed.

(** A string that does not start with white space and is not empty keeps its
    start when trimmed. *)
Lemma trim_keeps c s :
  white_space (String c s) = None -> exists r, trim (String c s) = String c r.
Proof.
  intros H. unfold trim. rewrite trim_start_fixed by exact H.
  cbn [trim_end]. cbv zeta.
  destruct (blank (String c (trim_end s))) eqn:Hb; [|eauto].
  exfalso. unfold blank in Hb.
  assert (Hs : starts_clean (String c (trim_end s))).
  { unfold starts_clean.
    destruct (white_space (String c (trim_end s))) as [r|] eqn:E; [|reflexivity].
    destruct (trim_end_prefix s) as [t Ht].
    apply (white_space_append _ _ t) in E. cbn [append] in E.
    rewrite <- Ht in E. congruence. }
  rewrite trim_start_fixed in Hb by exact Hs. discriminate.
Qed.

(** A character of one byte that is no white space starts no white space. *)
Lemma white_space_ascii c s :
  is_space c = false -> nat_of_ascii c < 128 -> white_space (String c s) = None.
Proof.
  intros Hc Hn.
  assert (H : forall k, 128 <= k -> (nat_of_ascii c =? k) = false)
    by (intros k Hk; apply Nat.eqb_neq; lia).
  assert (H2 : forall b, is_space2 c b = false).
  { intros b. unfold is_space2. now rewrite H by lia. }
  assert (H3 : forall b d, is_space3 c b d = false).
  { intros b d. unfold is_space3. cbv zeta.
    now rewrite (H 225), (H 226), (H 227), (H 239) by lia. }
  destruct s as [|b [|d s]]; cbn [white_space]; now rewrite Hc, ?H2, ?H3.
Qed.

Lemma append_cancel_l (a b c : string) : a +++ b = a +++ c -> b = c.
Proof.
  induction a as [|x a IH]; cbn; [trivial|]. intros H. injection H as H. auto.
Qed.

Lemma forallb_chars_append f (a b : string) :
  forallb f (list_ascii_of_string (a +++ b)) =
  forallb f (list_ascii_of_string a) && forallb f (list_ascii_of_string b).
Proof. now rewrite chars_append, forallb_app. Qed.

(** *** encodeURIComponent *)









(** *** The image path pattern *)

Lemma take_hex_fixed s :
  forallb is_hex (list_ascii_of_string s) = true -> take_hex s = s.
Proof.
  induction s as [|c s IH]; cbn; [reflexivity|].
  intros H. apply andb_true_iff in H as [Hc Hs]. now rewrite Hc, IH.
Qed.

(** Before the first occurrence of /image the pattern does not match. *)
Lemma no_match_before (o x : string) :
  o <> "" -> prefix "/image" o = false ->
  prefix "/image/" (o +++ "/image/" +++ x) = false.
Proof.
  intros Ho Hp.
  destruct (prefix "/image/" (o +++ "/image/" +++ x)) eqn:H; [|reflexivity].
  exfalso. revert Hp H.
  destruct o as [|c1 o]; [contradiction|]. cbn [append prefix].
  destruct (ascii_dec "/" c1); [|discriminate].
  destruct o as [|c2 o]; [cbn; discriminate|]. cbn [append prefix].
  destruct (ascii_dec "i" c2); [|discriminate].
  destruct o as [|c3 o]; [cbn; discriminate|]. cbn [append prefix].
  destruct (ascii_dec "m" c3); [|discriminate].
  destruct o as [|c4 o]; [cbn; discriminate|]. cbn [append prefix].
  destruct (ascii_dec "a" c4); [|discriminate].
  destruct o as [|c5 o]; [cbn; discriminate|]. cbn [append prefix].
  destruct (ascii_dec "g" c5); [|discriminate].
  destruct o as [|c6 o]; [cbn; discriminate|]. cbn [append prefix].
  destruct (ascii_dec "e" c6); [|discriminate].
  destruct o; discriminate.
Qed.

Lemma match_image_hash_eq s :
  match_image_hash s =
  match (if prefix "/image/" s then take_hex (drop 7 s) else EmptyString) with
  | String c h => Some (String c h)
  | EmptyString =>
      match s with
      | String _ s' => match_image_hash s'
      | EmptyString => None
      end
  end.
Proof. destruct s; reflexivity. Qed.

Lemma match_image_hash_skip c s :
  prefix "/image/" (String c s) = false ->
  match_image_hash (String c s) = match_image_hash s.
Proof. intros H. rewrite match_image_hash_eq, H. reflexivity. Qed.

(** The pattern applied to an address that ends in /image/ and [h]. *)
Lemma match_image_path (o h : string) :
  includes "/image" o = false ->
  match_image_hash (o +++ "/image/" +++ h) =
  match take_hex h with
  | EmptyString => match_image_hash (String "/" h)
  | t => Some t
  end.
Proof.
  induction o as [|c o IH]; intros Ho.
  - cbn [append]. rewrite match_image_hash_eq.
    replace (prefix "/image/" _) with true by (destruct h; reflexivity).
    cbn [drop].
    destruct (take_hex h); [|reflexivity].
    now rewrite !match_image_hash_skip by reflexivity.
  - cbn [includes] in Ho. apply orb_false_iff in Ho as [Hp Ho].
    change (String c o +++ "/image/" +++ h)
      with (String c (o +++ "/image/" +++ h)).
    rewrite match_image_hash_skip; [now apply IH|].
    apply (no_match_before (String c o) h); [discriminate | exact Hp].
Qed.

(** A match cannot begin before /image/ and end after it. *)
Lemma no_match_across (o x : string) :
  o <> "" ->
  (if prefix "/image/" o then take_hex (drop 7 o) else "") = "" ->
  (if prefix "/image/" (o +++ "/image/" +++ x)
   then take_hex (drop 7 (o +++ "/image/" +++ x)) else "") = "".
Proof.
  intros Ho.
  destruct o as [|c1 o]; [contradiction|]. clear Ho. cbn [append prefix].
  destruct (ascii_dec "/" c1); [|reflexivity].
  destruct o as [|c2 o]; [reflexivity|]. cbn [append prefix].
  destruct (ascii_dec "i" c2); [|reflexivity].
  destruct o as [|c3 o]; [reflexivity|]. cbn [append prefix].
  destruct (ascii_dec "m" c3); [|reflexivity].
  destruct o as [|c4 o]; [reflexivity|]. cbn [append prefix].
  destruct (ascii_dec "a" c4); [|reflexivity].
  destruct o as [|c5 o]; [reflexivity|]. cbn [append prefix].
  destruct (ascii_dec "g" c5); [|reflexivity].
  destruct o as [|c6 o]; [reflexivity|]. cbn [append prefix].
  destruct (ascii_dec "e" c6); [|reflexivity].
  destruct o as [|c7 o]; [reflexivity|]. cbn [append prefix].
  destruct (ascii_dec "/" c7); [|reflexivity].
  cbn [drop].
  destruct o as [|c8 o]; [reflexivity|]. cbn [append take_hex].
  destruct (is_hex c8); [discriminate | reflexivity].
Qed.

Lemma match_image_path_clean (o h : string) :
  match_image_hash o = None ->
  match_image_hash (o +++ "/image/" +++ h) =
  match take_hex h with
  | EmptyString => match_image_hash (String "/" h)
  | t => Some t
  end.
Proof.
  induction o as [|c o IH]; intros Ho.
  - now apply match_image_path.
  - rewrite match_image_hash_eq in Ho.
    destruct (if prefix "/image/" (String c o) then take_hex (drop 7 (String c o)) else "")
      eqn:Hhead; [|discriminate].
    change (String c o +++ "/image/" +++ h)
      with (String c (o +++ "/image/" +++ h)).
    rewrite match_image_hash_eq.
    change (String c (o +++ "/image/" +++ h))
      with (String c o +++ "/image/" +++ h).
    rewrite (no_match_across (String c o) h) by (discriminate || exact Hhead).
    now apply IH.
Qed.

Lemma no_slash_no_match s : no_slash s = true -> match_image_hash s = None.
Proof.
  induction s as [|c s IH]; [reflexivity|]. unfold no_slash. cbn [list_ascii_of_string forallb].
  intros H. apply andb_true_iff in H as [Hc Hs].
  rewrite match_image_hash_skip; [now apply IH|].
  cbn [prefix]. destruct (ascii_dec "/" c) as [<-|]; [discriminate | reflexivity].
Qed.

Lemma no_slash_no_path s : no_slash s = true -> prefix "image/" s = false.
Proof.
  unfold no_slash.
  destruct s as [|c1 s]; [reflexivity|]. cbn [prefix].
  destruct (ascii_dec "i" c1); [|reflexivity].
  destruct s as [|c2 s]; [reflexivity|]. cbn [prefix].
  destruct (ascii_dec "m" c2); [|reflexivity].
  destruct s as [|c3 s]; [reflexivity|]. cbn [prefix].
  destruct (ascii_dec "a" c3); [|reflexivity].
  destruct s as [|c4 s]; [reflexivity|]. cbn [prefix].
  destruct (ascii_dec "g" c4); [|reflexivity].
  destruct s as [|c5 s]; [reflexivity|]. cbn [prefix].
  destruct (ascii_dec "e" c5); [|reflexivity].
  destruct s as [|c6 s]; [reflexivity|]. cbn [prefix].
  destruct (ascii_dec "/" c6) as [<-|]; [|reflexivity].
  cbn. rewrite !andb_false_r. discriminate.
Qed.

Lemma origin_has_no_image_path scheme host :
  no_slash scheme = true -> no_slash host = true ->
  match_image_hash (scheme +++ "://" +++ host) = None.
Proof.
  intros Hs Hh. induction scheme as [|c s IH].
  - cbn [append]. rewrite match_image_hash_skip by reflexivity.
    rewrite match_image_hash_skip by reflexivity.
    rewrite match_image_hash_skip; [now apply no_slash_no_match|].
    cbn [prefix]. destruct (ascii_dec "/" "/"); [|reflexivity].
    now apply no_slash_no_path.
  - unfold no_slash in Hs. cbn [list_ascii_of_string forallb] in Hs.
    apply andb_true_iff in Hs as [Hc Hs].
    change (String c s +++ "://" +++ host) with (String c (s +++ "://" +++ host)).
    rewrite match_image_hash_skip; [now apply IH|].
    cbn [prefix]. destruct (ascii_dec "/" c) as [<-|]; [discriminate | reflexivity].
Qed.

(** *** parseInt *)

Lemma read_digits_uint d acc :
  read_digits digit_of 10 (Some acc) (NilEmpty.string_of_uint d) =
  Some (Nat.of_uint_acc d acc).
Proof.
  revert acc.
  induction d; intros acc;
    cbn [NilEmpty.string_of_uint Nat.of_uint_acc read_digits];
    [reflexivity|..];
    rewrite Nat.tail_mul_spec;
    match goal with
    | |- context [digit_of ?c] =>
        let v := eval vm_compute in (digit_of c) in change (digit_of c) with v
    end;
    cbv beta iota; apply IHd.
Qed.

Lemma to_uint_not_nil n : Nat.to_uint n <> Decimal.Nil.
Proof.
  intros H. pose proof (Unsigned.of_to n) as Hn. rewrite H in Hn.
  cbn in Hn. subst n. discriminate.
Qed.

Lemma read_digits_start d :
  d <> Decimal.Nil ->
  read_digits digit_of 10 None (NilEmpty.string_of_uint d) =
  Some (Nat.of_uint_acc d 0).
Proof.
  destruct d; [contradiction|..]; intros _;
    cbn [NilEmpty.string_of_uint Nat.of_uint_acc read_digits];
    rewrite Nat.tail_mul_spec;
    match goal with
    | |- context [digit_of ?c] =>
        let v := eval vm_compute in (digit_of c) in change (digit_of c) with v
    end;
    cbv beta iota; apply read_digits_uint.
Qed.

(** A string of decimal digits is read in base ten. *)
Lemma parseInt_digits d :
  d <> Decimal.Nil ->
  parseInt (NilEmpty.string_of_uint d) =
  match read_digits digit_of 10 None (NilEmpty.string_of_uint d) with
  | Some n => Some (Z.of_nat n)
  | None => None
  end.
Proof.
  destruct d as [|d|d|d|d|d|d|d|d|d|d]; [contradiction|..]; intros _;
    unfold parseInt; cbn [NilEmpty.string_of_uint];
    rewrite trim_start_fixed
      by (apply white_space_ascii; [reflexivity | apply Nat.ltb_lt; reflexivity]);
    cbv beta iota zeta; cbn [fst snd]; try reflexivity.
  destruct d; reflexivity.
Qed.

Lemma parseInt_nat n : parseInt (nat_to_string n) = Some (Z.of_nat n).
Proof.
  unfold nat_to_string.
  rewrite parseInt_digits, read_digits_start by apply to_uint_not_nil.
  change (Nat.of_uint_acc (Nat.to_uint n) 0) with (Nat.of_uint (Nat.to_uint n)).
  now rewrite Unsigned.of_to.
Qed.

(** A minus sign in front of decimal digits. *)
Lemma parseInt_minus d :
  d <> Decimal.Nil ->
  parseInt ("-" +++ NilEmpty.string_of_uint d) =
  match read_digits digit_of 10 None (NilEmpty.string_of_uint d) with
  | Some n => Some (- Z.of_nat n)%Z
  | None => None
  end.
Proof.
  destruct d as [|d|d|d|d|d|d|d|d|d|d]; [contradiction|..]; intros _;
    unfold parseInt; cbn [NilEmpty.string_of_uint append];
    rewrite trim_start_fixed
      by (apply white_space_ascii; [reflexivity | apply Nat.ltb_lt; reflexivity]);
    cbv beta iota zeta; cbn [fst snd]; try reflexivity.
  destruct d; reflexivity.
Qed.

Lemma parseInt_number (z : Z) : parseInt (number_to_string (Some z)) = Some z.
Proof.
  destruct z as [|p|p]; [reflexivity|..]; cbn [number_to_string].
  - rewrite parseInt_nat. now rewrite positive_nat_Z.
  - unfold nat_to_string.
    rewrite parseInt_minus, read_digits_start by apply to_uint_not_nil.
    change (Nat.of_uint_acc (Nat.to_uint (Pos.to_nat p)) 0)
      with (Nat.of_uint (Nat.to_uint (Pos.to_nat p))).
    now rewrite Unsigned.of_to, positive_nat_Z.
Qed.

Lemma parseInt_nan : parseInt (number_to_string None) = None.
Proof. reflexivity. Qed.

Lemma parseInt_to_string (n : number) : parseInt (number_to_string n) = n.
Proof. destruct n; [apply parseInt_number | apply parseInt_nan]. Qed.

End StringFacts.

(** ** The address of the page *)

Module UseSearchUrlFacts.
Import UseSearchUrl StringFacts.

Lemma get_delete_same k m : get k (delete k m) = None.
Proof.
  induction m as [|[k' v] m IH]; [reflexivity|]. cbn [delete].
  destruct (String.eqb k' k) eqn:E; [exact IH|]. cbn [get]. now rewrite E.
Qed.

Lemma get_delete_other k k' m : k <> k' -> get k' (delete k m) = get k' m.
Proof.
  intros Hk. induction m as [|[k0 v] m IH]; [reflexivity|]. cbn [delete get].
  destruct (String.eqb k0 k) eqn:E.
  - apply String.eqb_eq in E. subst k0.
    apply String.eqb_neq in Hk. now rewrite Hk.
  - cbn [get]. now rewrite IH.
Qed.

Lemma get_set_same k v m : get k (set k v m) = Some v.
Proof.
  induction m as [|[k' v'] m IH]; cbn [set get].
  - now rewrite String.eqb_refl.
  - destruct (String.eqb k' k) eqn:E; cbn [get].
    + now rewrite String.eqb_refl.
    + now rewrite E.
Qed.

Lemma get_set_other k k' v m : k <> k' -> get k' (set k v m) = get k' m.
Proof.
  intros Hk. pose proof Hk as Hk'. apply String.eqb_neq in Hk'.
  induction m as [|[k0 v0] m IH]; cbn [set get].
  - now rewrite Hk'.
  - destruct (String.eqb k0 k) eqn:E; cbn [get].
    + apply String.eqb_eq in E. subst k0. rewrite Hk'.
      now apply get_delete_other.
    + now rewrite IH.
Qed.

Lemma number_to_string_truthy n d :
  or_else (Some (number_to_string n)) d = number_to_string n.
Proof.
  destruct n as [[|p|p]|]; try reflexivity. cbn [number_to_string].
  unfold nat_to_string. pose proof (to_uint_not_nil (Pos.to_nat p)) as H.
  destruct (Nat.to_uint (Pos.to_nat p)); [contradiction|..]; reflexivity.
Qed.

Lemma number_same a b : number_differs a b = false -> a = b.
Proof.
  destruct a as [x|], b as [y|]; try discriminate. cbn.
  intros H. apply negb_false_iff, Z.eqb_eq in H. now subst.
Qed.

Section Config.
Variable defaultMaxResults : number.

#[local] Abbreviation update := (updateUrlParams defaultMaxResults).
#[local] Abbreviation read := (getUrlParams defaultMaxResults).

(** What [updateUrlParams] leaves under each of the four names. *)
Lemma get_q_update q mx h f m :
  get "q" (update q mx h f m) =
  match q with
  | Some s => match trim s with EmptyString => None | t => Some t end
  | None => get "q" m
  end.
Proof.
  unfold updateUrlParams. cbv zeta.
  destruct f as [f|]; [destruct (number_differs f _)|];
    rewrite ?get_set_other, ?get_delete_other by discriminate;
    (destruct h as [[]|];
     rewrite ?get_set_other, ?get_delete_other by discriminate;
     (destruct mx as [mx|]; [destruct (number_differs mx _)|];
      rewrite ?get_set_other, ?get_delete_other by discriminate;
      (destruct q as [s|]; [|reflexivity];
       destruct (trim s); [apply get_delete_same | apply get_set_same]))).
Qed.

Lemma get_max_update q mx h f m :
  get "max" (update q mx h f m) =
  match mx with
  | Some n =>
      if number_differs n defaultMaxResults then Some (number_to_string n) else None
  | None => get "max" m
  end.
Proof.
  unfold updateUrlParams. cbv zeta.
  destruct f as [f|]; [destruct (number_differs f _)|];
    rewrite ?get_set_other, ?get_delete_other by discriminate;
    (destruct h as [[]|];
     rewrite ?get_set_other, ?get_delete_other by discriminate;
     (destruct mx as [mx|]; [destruct (number_differs mx _)|];
      rewrite ?get_set_same, ?get_delete_same; try reflexivity;
      (destruct q as [s|]; [|reflexivity];
       destruct (trim s);
       now rewrite ?get_set_other, ?get_delete_other by discriminate))).
Qed.

Lemma get_mode_update q mx h f m :
  get "mode" (update q mx h f m) =
  match h with
  | Some true => Some "hybrid"
  | Some false => None
  | None => get "mode" m
  end.
Proof.
  unfold updateUrlParams. cbv zeta.
  destruct f as [f|]; [destruct (number_differs f _)|];
    rewrite ?get_set_other, ?get_delete_other by discriminate;
    (destruct h as [[]|];
     rewrite ?get_set_same, ?get_delete_same; try reflexivity;
     (destruct mx as [mx|]; [destruct (number_differs mx _)|];
      rewrite ?get_set_other, ?get_delete_other by discriminate;
      (destruct q as [s|]; [|reflexivity];
       destruct (trim s);
       now rewrite ?get_set_other, ?get_delete_other by discriminate))).
Qed.

Lemma get_func_update q mx h f m :
  get "func" (update q mx h f m) =
  match f with
  | Some n =>
      if number_differs n (Some 1%Z) then Some (number_to_string n) else None
  | None => get "func" m
  end.
Proof.
  unfold updateUrlParams. cbv zeta.
  destruct f as [f|]; [destruct (number_differs f _)|];
    rewrite ?get_set_same, ?get_delete_same; try reflexivity;
    (destruct h as [[]|];
     rewrite ?get_set_other, ?get_delete_other by discriminate;
     (destruct mx as [mx|]; [destruct (number_differs mx _)|];
      rewrite ?get_set_other, ?get_delete_other by discriminate;
      (destruct q as [s|]; [|reflexivity];
       destruct (trim s);
       now rewrite ?get_set_other, ?get_delete_other by discriminate))).
Qed.

(** The four fields [getUrlParams] reads after an update. *)
Lemma read_query q mx h f m :
  s_query (read (update q mx h f m)) =
  match q with
  | Some s => trim s
  | None => s_query (read m)
  end.
Proof.
  unfold getUrlParams. cbn [s_query]. rewrite get_q_update.
  destruct q as [s|]; [|reflexivity]. now destruct (trim s).
Qed.

Lemma read_max q mx h f m :
  s_maxResults (read (update q mx h f m)) =
  match mx with
  | Some n => n
  | None => s_maxResults (read m)
  end.
Proof.
  unfold getUrlParams. cbn [s_maxResults]. rewrite get_max_update.
  destruct mx as [n|]; [|reflexivity].
  destruct (number_differs n defaultMaxResults) eqn:E.
  - now rewrite number_to_string_truthy, parseInt_to_string.
  - apply number_same in E. subst. cbn [or_else]. apply parseInt_to_string.
Qed.

Lemma read_mode q mx h f m :
  s_isHybridSearch (read (update q mx h f m)) =
  match h with
  | Some b => b
  | None => s_isHybridSearch (read m)
  end.
Proof.
  unfold getUrlParams. cbn [s_isHybridSearch]. rewrite get_mode_update.
  now destruct h as [[]|].
Qed.

Lemma read_func q mx h f m :
  s_hybridFunction (read (update q mx h f m)) =
  match f with
  | Some n => n
  | None => s_hybridFunction (read m)
  end.
Proof.
  unfold getUrlParams. cbn [s_hybridFunction]. rewrite get_func_update.
  destruct f as [n|]; [|reflexivity].
  destruct (number_differs n (Some 1%Z)) eqn:E.
  - now rewrite number_to_string_truthy, parseInt_to_string.
  - apply number_same in E. now subst.
Qed.

Lemma in_step_step st e : steady e -> in_step defaultMaxResults st ->
  in_step defaultMaxResults (step defaultMaxResults st e).
Proof.
  intros He (H1 & H2 & H3).
  destruct e; try contradiction; clear He; unfold in_step;
    cbn [step];
    unfold handleMaxResultsChange, handleHybridFunctionChange,
      toggleSearchModeWithSearch, handlePopState, search_address, retry_address;
    try destruct (trim query);
    cbn [search maxResults isHybridSearch hybridFunction];
    rewrite ?read_max, ?read_mode, ?read_func; auto.
Qed.

Lemma in_step_run st evs : Forall steady evs -> in_step defaultMaxResults st ->
  in_step defaultMaxResults (run defaultMaxResults st evs).
Proof.
  unfold run. revert st.
  induction evs as [|e evs IH]; intros st Hu H; [exact H|].
  inversion Hu; subst. cbn [fold_left]. apply IH; [assumption|].
  now apply in_step_step.
Qed.

Lemma in_step_resync st e : resyncs e ->
  in_step defaultMaxResults (step defaultMaxResults st e).
Proof.
  destruct e; try contradiction; cbn [resyncs step]; intros He.
  - repeat split.
  - unfold search_address, retry_address, in_step.
    destruct (trim query); [contradiction|].
    cbn [search maxResults isHybridSearch hybridFunction].
    now rewrite read_max, read_mode, read_func.
Qed.

Lemma address_run_app st evs evs' :
  run defaultMaxResults st (evs ++ evs') =
  run defaultMaxResults (run defaultMaxResults st evs) evs'.
Proof. apply fold_left_app. Qed.

(** After [clearResults] the address reads as the defaults. *)
Lemma in_step_clear st :
  in_step defaultMaxResults (clearResults st) <->
  maxResults st = defaultMaxResults /\ isHybridSearch st = false /\
  hybridFunction st = Some 1%Z.
Proof.
  unfold in_step, clearResults, getUrlParams.
  cbn [search maxResults isHybridSearch hybridFunction s_maxResults
       s_isHybridSearch s_hybridFunction get or_else].
  rewrite parseInt_to_string.
  replace (parseInt "1") with (Some 1%Z) by reflexivity.
  intuition congruence.
Qed.

End Config.

End UseSearchUrlFacts.

Module SmallProperties.
Import StringFacts.

(** X1: The address bar and the settings of the hook agree from the opening of
    the page, whatever its query string, as long as neither the Back button
    ([clearResults]) nor the retry after a 202 reply comes in between: a
    change of a setting, a search (sent or refused as blank) and a step in
    the history keep them together.  [clearResults] empties the query string
    and keeps the three settings, so that after it the two agree exactly when
    the settings are the defaults; a search that is sent or a step in the
    history brings them together again, whatever happened before.  All of it
    for numbers in the range JavaScript holds precisely. *)
Theorem address_follows_settings (defaultMaxResults : number)
    (m : UseSearchUrl.params) (pre : list UseSearchUrl.event)
    (e : UseSearchUrl.event) (evs : list UseSearchUrl.event) :
  UseSearchUrl.precise_address defaultMaxResults m ->
  Forall UseSearchUrl.by_user pre ->
  UseSearchUrl.resyncs e ->
  Forall UseSearchUrl.steady evs ->
  UseSearchUrl.in_step defaultMaxResults
    (UseSearchUrl.run defaultMaxResults (UseSearchUrl.init defaultMaxResults m) evs) /\
  UseSearchUrl.in_step defaultMaxResults
    (UseSearchUrl.run defaultMaxResults (UseSearchUrl.init defaultMaxResults m)
       (pre ++ e :: evs)) /\
  (forall st,
     UseSearchUrl.search (UseSearchUrl.clearResults st) = [] /\
     UseSearchUrl.maxResults (UseSearchUrl.clearResults st) =
       UseSearchUrl.maxResults st /\
     UseSearchUrl.isHybridSearch (UseSearchUrl.clearResults st) =
       UseSearchUrl.isHybridSearch st /\
     UseSearchUrl.hybridFunction (UseSearchUrl.clearResults st) =
       UseSearchUrl.hybridFunction st /\
     (UseSearchUrl.in_step defaultMaxResults (UseSearchUrl.clearResults st) <->
      UseSearchUrl.maxResults st = defaultMaxResults /\
      UseSearchUrl.isHybridSearch st = false /\
      UseSearchUrl.hybridFunction st = Some 1%Z)).
Proof.
  intros _ _ He Hevs.
  assert (H : UseSearchUrl.in_step defaultMaxResults
                (UseSearchUrl.init defaultMaxResults m)) by (repeat split).
  split; [now apply UseSearchUrlFacts.in_step_run|].
  split.
  { rewrite UseSearchUrlFacts.address_run_app. unfold UseSearchUrl.run at 1.
    cbn [fold_left]. apply UseSearchUrlFacts.in_step_run; [assumption|].
    now apply UseSearchUrlFacts.in_step_resync. }
  intros st. repeat (split; [reflexivity|]).
  apply UseSearchUrlFacts.in_step_clear.
Qed.

Lemma address_follows_settings_witness :
  UseSearchUrl.in_step (Some 8%Z)
    (UseSearchUrl.run (Some 8%Z)
       (UseSearchUrl.init (Some 8%Z) [("max", "16"); ("utm", "x")])
       [UseSearchUrl.ToggleMode; UseSearchUrl.ClearResults;
        UseSearchUrl.Retried "cats" false (Some 16%Z) (Some 1%Z);
        UseSearchUrl.Searched (" dogs" +++ nbsp);
        UseSearchUrl.SelectMax (Some 8%Z); UseSearchUrl.Searched nbsp;
        UseSearchUrl.PopState]) /\
  ~ UseSearchUrl.in_step (Some 8%Z)
      (UseSearchUrl.run (Some 8%Z)
         (UseSearchUrl.init (Some 8%Z) [("max", "16"); ("utm", "x")])
         [UseSearchUrl.ToggleMode; UseSearchUrl.ClearResults]).
Proof.
  pose proof (address_follows_settings (Some 8%Z) [("max", "16"); ("utm", "x")]
                [UseSearchUrl.ToggleMode; UseSearchUrl.ClearResults;
                 UseSearchUrl.Retried "cats" false (Some 16%Z) (Some 1%Z)]
                (UseSearchUrl.Searched (" dogs" +++ nbsp))
                [UseSearchUrl.SelectMax (Some 8%Z); UseSearchUrl.Searched nbsp;
                 UseSearchUrl.PopState]) as H.
  destruct H as (_ & H2 & H4).
  - vm_compute. repeat split.
  - repeat constructor.
  - vm_compute. discriminate.
  - repeat constructor.
  - split; [exact H2|].
    intros Hin.
    apply (H4 (UseSearchUrl.run (Some 8%Z)
                 (UseSearchUrl.init (Some 8%Z) [("max", "16"); ("utm", "x")])
                 [UseSearchUrl.ToggleMode])) in Hin.
    vm_compute in Hin. destruct Hin as (Hmax & _). discriminate Hmax.
Defined.

(** X2: What [updateUrlParams] writes, [getUrlParams] reads back: the trimmed
    query and the three settings, NaN included, for numbers in the range
    JavaScript holds precisely. *)
Theorem url_params_round_trip (defaultMaxResults : number)
    (m : UseSearchUrl.params) (query : string) (maxResults : number)
    (isHybridSearch : bool) (hybridFunction : number) :
  precise defaultMaxResults -> precise maxResults -> precise hybridFunction ->
  UseSearchUrl.getUrlParams defaultMaxResults
    (UseSearchUrl.updateUrlParams defaultMaxResults (Some query) (Some maxResults)
       (Some isHybridSearch) (Some hybridFunction) m) =
  {| UseSearchUrl.s_query := trim query;
     UseSearchUrl.s_maxResults := maxResults;
     UseSearchUrl.s_isHybridSearch := isHybridSearch;
     UseSearchUrl.s_hybridFunction := hybridFunction |}.
Proof.
  intros _ _ _.
  pose proof (UseSearchUrlFacts.read_query defaultMaxResults (Some query)
                (Some maxResults) (Some isHybridSearch) (Some hybridFunction) m) as Hq.
  pose proof (UseSearchUrlFacts.read_max defaultMaxResults (Some query)
                (Some maxResults) (Some isHybridSearch) (Some hybridFunction) m) as Hm.
  pose proof (UseSearchUrlFacts.read_mode defaultMaxResults (Some query)
                (Some maxResults) (Some isHybridSearch) (Some hybridFunction) m) as Hh.
  pose proof (UseSearchUrlFacts.read_func defaultMaxResults (Some query)
                (Some maxResults) (Some isHybridSearch) (Some hybridFunction) m) as Hf.
  cbv beta iota in Hq, Hm, Hh, Hf.
  destruct (UseSearchUrl.getUrlParams _ _). cbn in *. now subst.
Qed.

Lemma url_params_round_trip_witness :
  UseSearchUrl.getUrlParams (Some 8%Z)
    (UseSearchUrl.updateUrlParams (Some 8%Z) (Some " two dogs ") (Some (Some 8%Z))
       (Some true) (Some None) [("q", "cats"); ("max", "16")]) =
  {| UseSearchUrl.s_query := "two dogs";
     UseSearchUrl.s_maxResults := Some 8%Z;
     UseSearchUrl.s_isHybridSearch := true;
     UseSearchUrl.s_hybridFunction := None |}.
Proof.
  apply (url_params_round_trip (Some 8%Z) [("q", "cats"); ("max", "16")] " two dogs "
           (Some 8%Z) true None).
  - vm_compute. reflexivity.
  - vm_compute. reflexivity.
  - exact I.
Defined.


(** *** The theme *)

(** X4: Once the user has clicked the theme toggle, changes of the system's
    preference no longer change the theme, the stored choice or the icon; and
    the icon always goes with the theme. *)
Theorem theme_choice_sticks :
  (forall st ds,
     Theme.run (Theme.step st Theme.Click) (map Theme.PreferenceChange ds) =
     Theme.step st Theme.Click) /\
  (forall saved prefers evs,
     let st := Theme.run (Theme.init saved prefers) evs in
     Theme.theme_icon st = Theme.update_theme_icon (Theme.data_theme st)).
Proof.
  split.
  - intros st ds. unfold Theme.run.
    assert (H : truthy (Theme.stored (Theme.step st Theme.Click)) <> None).
    { cbn. now destruct (String.eqb _ _). }
    revert H. generalize (Theme.step st Theme.Click). clear st.
    induction ds as [|d ds IH]; intros st H; [reflexivity|].
    cbn [map fold_left Theme.step].
    destruct (truthy (Theme.stored st)) eqn:E; [|contradiction].
    apply IH. now rewrite E.
  - intros saved prefers evs st. subst st. unfold Theme.run.
    assert (H : Theme.theme_icon (Theme.init saved prefers) =
                Theme.update_theme_icon (Theme.data_theme (Theme.init saved prefers)))
      by reflexivity.
    revert H. generalize (Theme.init saved prefers).
    induction evs as [|e evs IH]; intros st H; [exact H|].
    cbn [fold_left]. apply IH.
    destruct e as [d|]; cbn [Theme.step]; [|reflexivity].
    now destruct (truthy (Theme.stored st)).
Qed.

Lemma dark_class_step st e :
  UseTheme.dark_class st = UseTheme.wants_dark st ->
  UseTheme.dark_class (UseTheme.step st e) = UseTheme.wants_dark (UseTheme.step st e).
Proof.
  intros H. destruct e as [| | |d]; try reflexivity.
  cbn [UseTheme.step]. unfold UseTheme.handleChange. cbv zeta.
  cbn [UseTheme.stored]. destruct (UseTheme.stored st) eqn:E; [|reflexivity].
  unfold UseTheme.wants_dark in *. cbn. now rewrite E in *.
Qed.

(** X5: The class dark of the document always follows the stored choice, and the
    system's preference when nothing is stored: a preference change moves it
    only in system mode. *)
Theorem dark_class_follows_choice (saved : option string) (prefers class : bool)
    (evs : list UseTheme.event) :
  let st := UseTheme.run (UseTheme.init saved prefers class) evs in
  UseTheme.dark_class st = UseTheme.wants_dark st.
Proof.
  intros st. subst st. unfold UseTheme.run.
  assert (H : UseTheme.dark_class (UseTheme.init saved prefers class) =
              UseTheme.wants_dark (UseTheme.init saved prefers class)) by reflexivity.
  revert H. generalize (UseTheme.init saved prefers class).
  induction evs as [|e evs IH]; intros st H; [exact H|].
  cbn [fold_left]. apply IH. now apply dark_class_step.
Qed.

(** *** The hook useModelStatus *)



(** *** The statistics of the debug panel *)

(** X7: Every reply rewrites all twelve fields of the statistics, so that nothing
    of an earlier reply stays; and when the reply lacks the embedding schedule
    the statistics it carries are overwritten as well: every field shows its
    default. *)
Theorem statistics_reply_rewrites_every_field :
  (forall r f g,
     Statistics.fetch_server_statistics r f = Statistics.fetch_server_statistics r g) /\
  (forall s f,
     Statistics.fetch_server_statistics
       (Statistics.Data {| Statistics.d_statistics := s;
                           Statistics.d_embedding_schedule := None |}) f
     = Statistics.set_default_values f).
Proof.
  split; [|reflexivity].
  intros [msg| | |[[s|] [e|]]] f g; reflexivity.
Qed.

(** *** escape_html *)

Lemma escape_char_plain c :
  forallb (fun x => negb (NotifyOps.markup x))
    (list_ascii_of_string (NotifyOps.escape_char c)) = true.
Proof. destruct c as [[] [] [] [] [] [] [] []]; reflexivity. Qed.

Lemma escape_char_fixed c :
  NotifyOps.markup c = false -> Ascii.eqb c "&" = false ->
  NotifyOps.escape_char c = String c EmptyString.
Proof. destruct c as [[] [] [] [] [] [] [] []]; try reflexivity; discriminate. Qed.

(** X8: What [escape_html] returns holds no angle bracket and no quote, so that a
    title or a message cannot open a tag or leave an attribute; a text without
    those characters and without an ampersand is returned as it is. *)
Theorem escape_html_leaves_no_markup (text : string) :
  forallb (fun c => negb (NotifyOps.markup c))
    (list_ascii_of_string (NotifyOps.escape_html text)) = true /\
  (forallb (fun c => negb (NotifyOps.markup c) && negb (Ascii.eqb c "&"))
     (list_ascii_of_string text) = true ->
   NotifyOps.escape_html text = text).
Proof.
  split.
  - induction text as [|c s IH]; [reflexivity|]. cbn [NotifyOps.escape_html].
    now rewrite forallb_chars_append, escape_char_plain, IH.
  - induction text as [|c s IH]; [reflexivity|]. cbn [list_ascii_of_string forallb].
    intros H. apply andb_true_iff in H as [Hc Hs].
    apply andb_true_iff in Hc as [Hm Ha].
    apply negb_true_iff in Hm, Ha.
    cbn [NotifyOps.escape_html]. rewrite escape_char_fixed, IH by assumption.
    reflexivity.
Qed.

(** *** The columns of the results *)

Lemma length_update_nth {A} n (f : A -> A) l :
  List.length (update_nth n f l) = List.length l.
Proof.
  revert n. induction l as [|x l IH]; intros [|n]; cbn; try reflexivity.
  now rewrite IH.
Qed.

Lemma nth_update_nth {A} n c (f : A -> A) l d :
  n < List.length l ->
  nth c (update_nth n f l) d = if c =? n then f (nth c l d) else nth c l d.
Proof.
  revert n c. induction l as [|x l IH]; intros n c Hn; [cbn in Hn; lia|].
  destruct n as [|n], c as [|c]; cbn [update_nth nth Nat.eqb]; try reflexivity.
  apply IH. cbn in Hn. lia.
Qed.

Lemma deal_columns {A} (columns : nat) (l : list A) :
  forall cols k c,
    List.length cols = columns -> c < columns ->
    nth c (fst (fold_left
                  (fun (acc : list (list (A * nat)) * nat) item =>
                     (update_nth (snd acc mod columns)
                        (fun col => col ++ [(item, snd acc)]) (fst acc),
                      S (snd acc)))
                  l (cols, k))) [] =
    nth c cols [] ++
    filter (fun p => snd p mod columns =? c) (combine l (seq k (List.length l))).
Proof.
  induction l as [|x l IH]; intros cols k c Hl Hc.
  - cbn. now rewrite app_nil_r.
  - cbn [fold_left fst snd List.length seq combine filter].
    rewrite IH by (rewrite ?length_update_nth; assumption).
    rewrite nth_update_nth
      by (rewrite Hl; apply Nat.mod_upper_bound; lia).
    rewrite (Nat.eqb_sym c).
    destruct (k mod columns =? c); [|reflexivity].
    now rewrite <- app_assoc.
Qed.

Lemma nth_repeat_nil {A} c n : nth c (repeat (@nil A) n) [] = [].
Proof. revert c. induction n as [|n IH]; intros [|c]; cbn; auto. Qed.

Lemma in_indexed {A} (l : list A) : forall k i x,
  nth_error l i = Some x -> In (x, k + i) (combine l (seq k (List.length l))).
Proof.
  induction l as [|y l IH]; intros k [|i] x H; cbn in H; try discriminate.
  - injection H as ->. left. now rewrite Nat.add_0_r.
  - right. cbn [List.length seq combine].
    replace (k + S i) with (S k + i) by lia. now apply IH.
Qed.

(** X9: [distributeItems] deals the results out in reading order: column [c]
    holds, in their order, the results whose index is congruent to [c], so
    that result [i] is in column [i mod columns] and in no other. *)
Theorem columns_partition_results (A : Type) (columns c : nat) (results : list A) :
  c < columns ->
  nth c (ResultsList.distributeItems columns results) [] =
    ResultsList.column_of columns c results /\
  (forall i x, nth_error results i = Some x ->
     In (x, i) (nth (i mod columns) (ResultsList.distributeItems columns results) [])) /\
  (forall i x, In (x, i) (nth c (ResultsList.distributeItems columns results) []) ->
     i mod columns = c).
Proof.
  intros Hc.
  assert (H : forall c', c' < columns ->
            nth c' (ResultsList.distributeItems columns results) [] =
            ResultsList.column_of columns c' results).
  { intros c' Hc'. unfold ResultsList.distributeItems.
    rewrite deal_columns by (rewrite ?repeat_length; trivial).
    now rewrite nth_repeat_nil. }
  split; [now apply H|]. split.
  - intros i x Hx. rewrite H by (apply Nat.mod_upper_bound; lia).
    unfold ResultsList.column_of, ResultsList.indexed.
    apply filter_In. split; [|cbn; apply Nat.eqb_refl].
    apply (in_indexed results 0 i x Hx).
  - intros i x Hin. rewrite H in Hin by assumption.
    unfold ResultsList.column_of in Hin. apply filter_In in Hin as [_ Hm].
    cbn in Hm. now apply Nat.eqb_eq in Hm.
Qed.

Lemma columns_partition_witness :
  nth 1 (ResultsList.distributeItems 3 ["a"; "b"; "c"; "d"; "e"]) [] =
    [("b", 1); ("e", 4)].
Proof.
  destruct (columns_partition_results string 3 1 ["a"; "b"; "c"; "d"; "e"])
    as (H & _); [lia|].
  rewrite H. reflexivity.
Defined.

End SmallProperties.

Module ViewerProperties.
Import StringFacts SearchPage.

Lemma hex_not_space c : is_hex c = true -> is_space c = false.
Proof. destruct c as [[] [] [] [] [] [] [] []]; try reflexivity; discriminate. Qed.

Lemma hex_one_byte c : is_hex c = true -> nat_of_ascii c < 128.
Proof.
  destruct c as [[] [] [] [] [] [] [] []]; try discriminate;
    intros _; apply Nat.ltb_lt; reflexivity.
Qed.

Lemma hex_starts_clean c s : is_hex c = true -> white_space (String c s) = None.
Proof.
  intros Hc. apply white_space_ascii; [now apply hex_not_space | now apply hex_one_byte].
Qed.

(** A string that starts with a hexadecimal digit keeps it when trimmed. *)
Lemma trim_keeps_start c s :
  is_hex c = true -> exists r, trim (String c s) = String c r.
Proof. intros Hc. apply trim_keeps. now apply hex_starts_clean. Qed.

(** A string of hexadecimal digits has no white space to trim. *)
Lemma trim_hex s : forallb is_hex (list_ascii_of_string s) = true -> trim s = s.
Proof.
  intros Hs. unfold trim.
  assert (Hstart : trim_start s = s).
  { destruct s as [|c s]; [reflexivity|].
    cbn in Hs. apply andb_true_iff in Hs as [Hc _].
    apply trim_start_fixed. now apply hex_starts_clean. }
  rewrite Hstart. induction s as [|c s IH]; [reflexivity|].
  cbn in Hs. apply andb_true_iff in Hs as [Hc Hs].
  assert (Hs' : trim_start s = s).
  { destruct s as [|d s]; [reflexivity|].
    cbn in Hs. apply andb_true_iff in Hs as [Hd _].
    apply trim_start_fixed. now apply hex_starts_clean. }
  cbn [trim_end]. cbv zeta. rewrite (IH Hs Hs').
  unfold blank. now rewrite Hstart.
Qed.

Lemma take_hex_starts h c t :
  take_hex h = String c t -> exists r, h = String c r /\ is_hex c = true.
Proof.
  destruct h as [|x h]; cbn; [discriminate|].
  destruct (is_hex x) eqn:Hx; [|discriminate].
  intros H. injection H as -> _. eauto.
Qed.

Section Items.
Variable resolve : string -> string.
Variable score_text : result -> string.

(** What a click on such an item amounts to, when the browser makes the path
    /image/[h'] of the path /image/[h] the page wrote. *)
Lemma click_on_hash_item (origin h h' : string) (c : ascii) (t : string)
    (r : result) (index : nat) (st : ImageViewer.state) :
  truthy (r_url r) = None ->
  r_hash r = Some h ->
  h <> "" ->
  resolve ("/image/" +++ h) = origin +++ "/image/" +++ h' ->
  take_hex h' = String c t ->
  match_image_hash origin = None ->
  let item := create_normal_result_item resolve score_text r index in
  ImageViewer.extract_image_hash item (origin +++ "/image/" +++ h') = Some (take_hex h') /\
  ImageViewer.extract_image_title item = trim h /\
  ImageViewer.step st (ImageViewer.ClickItem item) =
    ImageViewer.open_image_viewer (origin +++ "/image/" +++ h') (trim h)
      (Some (take_hex h')) st.
Proof.
  intros Hu Hh Hne Hr Ht Ho item. subst item.
  destruct h as [|x h]; [contradiction|]. clear Hne.
  assert (Hsrc : or_else (r_url r)
                   ("/image/" +++ match truthy (r_hash r) with
                                  | Some h => h
                                  | None => show_js (r_id r)
                                  end) = "/image/" +++ String x h).
  { rewrite Hh. cbn [truthy].
    destruct (r_url r) as [[|y u]|]; try discriminate; reflexivity. }
  assert (H1 : ImageViewer.extract_image_hash
                 (create_normal_result_item resolve score_text r index)
                 (origin +++ "/image/" +++ h') = Some (take_hex h')).
  { unfold ImageViewer.extract_image_hash.
    cbn [create_normal_result_item data_hash truthy].
    rewrite match_image_path_clean by assumption. now rewrite Ht. }
  assert (H2 : ImageViewer.extract_image_title
                 (create_normal_result_item resolve score_text r index) =
               trim (String x h)).
  { unfold ImageViewer.extract_image_title.
    cbn [create_normal_result_item result_title]. rewrite Hh. reflexivity. }
  split; [exact H1 | split; [exact H2|]].
  cbn [ImageViewer.step].
  replace (img_src (create_normal_result_item resolve score_text r index))
    with (Some (origin +++ "/image/" +++ h'))
    by (cbn [create_normal_result_item img_src]; now rewrite Hsrc, Hr).
  now rewrite H1, H2.
Qed.

(** X10: A click on a result item that [create_normal_result_item] built from a
    result with a hash [h] and no address of its own, on a page whose origin
    holds no match of the pattern /image/ and hexadecimal digits and where
    the browser resolves the path /image/[h] to the origin followed by
    /image/[h'], with [h'] beginning with a hexadecimal digit ([h'] is [h]
    where the browser leaves the path as it is; it differs for a hash with a
    tab or a newline, which the browser strips): the viewer opens on that
    address, with the trimmed hash [h] as title, or Image if that is empty,
    and requests the details of the hexadecimal prefix of [h'], so that a
    hash with another character in it is cut there. *)
Theorem clicked_result_requests_hash_prefix
    (origin h h' : string) (c : ascii) (t : string) (r : result) (index : nat)
    (st : ImageViewer.state) :
  truthy (r_url r) = None ->
  r_hash r = Some h ->
  h <> "" ->
  resolve ("/image/" +++ h) = origin +++ "/image/" +++ h' ->
  take_hex h' = String c t ->
  match_image_hash origin = None ->
  let st' := ImageViewer.step st
               (ImageViewer.ClickItem (create_normal_result_item resolve score_text r index)) in
  ImageViewer.fetched st' =
    ImageViewer.fetched st ++ ["/api/image/" +++ take_hex h' +++ "/details"] /\
  ImageViewer.title_text st' =
    match trim h with EmptyString => "Image" | title => title end /\
  ImageViewer.image_alt st' =
    match trim h with EmptyString => "Image" | title => title end /\
  ImageViewer.image_src st' = origin +++ "/image/" +++ h' /\
  ImageViewer.is_image_viewer_open st' = true.
Proof.
  intros Hu Hh Hne Hr Ht Ho st'. subst st'.
  destruct (click_on_hash_item origin h h' c t r index st Hu Hh Hne Hr Ht Ho)
    as (_ & _ & ->).
  unfold ImageViewer.open_image_viewer. cbv zeta. rewrite Ht.
  cbn [truthy ImageViewer.fetched ImageViewer.title_text ImageViewer.image_src
       ImageViewer.image_alt ImageViewer.is_image_viewer_open].
  destruct (trim h); repeat split.
Qed.

(** X11: On a page whose origin holds no match of the pattern /image/ and
    hexadecimal digits, as is the case of every origin scheme://host:port,
    and where the browser resolves the path /image/[h] to the origin followed
    by that same path: a result whose hash [h] is made of the digits and the
    letters a to f only, and has no address of its own, is requested under
    exactly that hash, which is its title as well. *)
Theorem hex_hash_is_requested_whole
    (origin h : string) (r : result) (index : nat) (st : ImageViewer.state) :
  truthy (r_url r) = None ->
  r_hash r = Some h ->
  h <> "" ->
  forallb is_hex (list_ascii_of_string h) = true ->
  resolve ("/image/" +++ h) = origin +++ "/image/" +++ h ->
  match_image_hash origin = None ->
  let item := create_normal_result_item resolve score_text r index in
  ImageViewer.extract_image_hash item (origin +++ "/image/" +++ h) = Some h /\
  ImageViewer.extract_image_title item = h /\
  ImageViewer.fetched (ImageViewer.step st (ImageViewer.ClickItem item)) =
    ImageViewer.fetched st ++ ["/api/image/" +++ h +++ "/details"] /\
  ImageViewer.title_text (ImageViewer.step st (ImageViewer.ClickItem item)) = h.
Proof.
  intros Hu Hh Hne Hx Hr Ho item. subst item.
  pose proof (take_hex_fixed h Hx) as Ht.
  destruct h as [|c t]; [contradiction|].
  destruct (click_on_hash_item origin (String c t) (String c t) c t r index st
              Hu Hh Hne Hr Ht Ho) as (H1 & H2 & H3).
  assert (Htrim : trim (String c t) = String c t) by now apply trim_hex.
  rewrite Ht in H1, H3. rewrite Htrim in H2, H3.
  split; [exact H1 | split; [exact H2|]].
  rewrite H3. split; reflexivity.
Qed.

End Items.

(** On a page at http://localhost:5000, for the hash abc-123 and for a hash
    with a tab in it. *)
Lemma clicked_result_witness :
  ImageViewer.fetched
    (ImageViewer.step ImageViewer.init
       (ImageViewer.ClickItem
          (create_normal_result_item (fun s => "http://localhost:5000" +++ s)
             (fun _ => "Score: 0.000")
             {| r_id := None; r_hash := Some "abc-123"; r_url := None |} 0)))
  = ["/api/image/abc/details"] /\
  ImageViewer.fetched
    (ImageViewer.step ImageViewer.init
       (ImageViewer.ClickItem
          (create_normal_result_item (fun _ => "http://localhost:5000/image/abcd")
             (fun _ => "Score: 0.000")
             {| r_id := None; r_hash := Some ("ab" +++ tab +++ "cd"); r_url := None |} 0)))
  = ["/api/image/abcd/details"].
Proof.
  split.
  - destruct (clicked_result_requests_hash_prefix
                (fun s => "http://localhost:5000" +++ s) (fun _ => "Score: 0.000")
                "http://localhost:5000" "abc-123" "abc-123" "a" "bc"
                {| r_id := None; r_hash := Some "abc-123"; r_url := None |} 0
                ImageViewer.init) as (H & _);
      [reflexivity | reflexivity | discriminate | reflexivity | reflexivity
      | apply (origin_has_no_image_path "http" "localhost:5000"); reflexivity
      | exact H].
  - destruct (clicked_result_requests_hash_prefix
                (fun _ => "http://localhost:5000/image/abcd") (fun _ => "Score: 0.000")
                "http://localhost:5000" ("ab" +++ tab +++ "cd") "abcd" "a" "bcd"
                {| r_id := None; r_hash := Some ("ab" +++ tab +++ "cd"); r_url := None |} 0
                ImageViewer.init) as (H & _);
      [reflexivity | reflexivity | discriminate | reflexivity | reflexivity
      | apply (origin_has_no_image_path "http" "localhost:5000"); reflexivity
      | exact H].
Defined.

(** On a page at http://imageseek.inesctec.pt, whose origin holds //image. *)
Lemma hex_hash_witness :
  ImageViewer.fetched
    (ImageViewer.step ImageViewer.init
       (ImageViewer.ClickItem
          (create_normal_result_item (fun s => "http://imageseek.inesctec.pt" +++ s)
             (fun _ => "Score: 0.000")
             {| r_id := Some "7"; r_hash := Some "0a1b2c"; r_url := None |} 3)))
  = ["/api/image/0a1b2c/details"].
Proof.
  destruct (hex_hash_is_requested_whole
              (fun s => "http://imageseek.inesctec.pt" +++ s) (fun _ => "Score: 0.000")
              "http://imageseek.inesctec.pt" "0a1b2c"
              {| r_id := Some "7"; r_hash := Some "0a1b2c"; r_url := None |} 3
              ImageViewer.init) as (_ & _ & H & _);
    [reflexivity | reflexivity | discriminate | reflexivity | reflexivity
    | apply (origin_has_no_image_path "http" "imageseek.inesctec.pt"); reflexivity
    | exact H].
Defined.

(** X12: In the React list a result without a hash and without an address of its
    own is looked up by the hexadecimal prefix of its id, while its title is
    the whole id. *)
Theorem id_only_result_uses_hex_prefix
    (apiBaseUrl i : string) (c : ascii) (t : string) (r : result) :
  truthy (r_hash r) = None ->
  truthy (r_url r) = None ->
  r_id r = Some i ->
  take_hex i = String c t ->
  includes "/image" apiBaseUrl = false ->
  ResultsList.extractImageHash r (ResultsList.imgSrc apiBaseUrl r) = Some (take_hex i) /\
  ResultsList.extractTitle r = i.
Proof.
  intros Hh Hu Hi Ht Ho.
  destruct (take_hex_starts i c t Ht) as (rest & -> & Hc).
  unfold ResultsList.extractImageHash, ResultsList.imgSrc, ResultsList.extractTitle.
  rewrite Hh, Hi. cbn [or_else].
  assert (Hsrc : forall x, or_else (r_url r) x = x).
  { intros x. destruct (r_url r) as [[|a u]|]; try discriminate; reflexivity. }
  rewrite Hsrc, match_image_path, Ht by assumption. now split.
Qed.

Lemma id_only_result_witness :
  ResultsList.extractImageHash
    {| r_id := Some "abc-123"; r_hash := None; r_url := None |}
    (ResultsList.imgSrc "http://localhost:5000"
       {| r_id := Some "abc-123"; r_hash := None; r_url := None |}) = Some "abc".
Proof.
  destruct (id_only_result_uses_hex_prefix "http://localhost:5000" "abc-123" "a" "bc"
              {| r_id := Some "abc-123"; r_hash := None; r_url := None |})
    as (H & _);
    [reflexivity | reflexivity | reflexivity | reflexivity | reflexivity | exact H].
Defined.

(** *** The viewer *)

Lemma coherent_step st e : ImageViewer.coherent st -> ImageViewer.coherent (ImageViewer.step st e).
Proof.
  intros H. pose proof H as (Ha & Hb & Hu).
  destruct e as [item| | |rid r]; cbn [ImageViewer.step].
  - destruct (img_src item); [|exact H].
    unfold ImageViewer.open_image_viewer. cbv zeta. repeat split. discriminate.
  - repeat split. discriminate.
  - destruct (ImageViewer.is_image_viewer_open st); [|exact H].
    repeat split. discriminate.
  - destruct (existsb _ _); [|exact H].
    destruct r as [msg| | |docs]; cbn [ImageViewer.open_image_viewer_resume];
      try exact (conj Ha (conj Hb Hu)).
    unfold ImageViewer.display_document_details.
    destruct docs as [[|d ds]|]; try exact (conj Ha (conj Hb Hu)).
    split; [exact Ha|]. split; [exact Hb|].
    cbn [ImageViewer.url_btn_display ImageViewer.url_btn_onclick].
    destruct (truthy (ImageViewer.doc_url d)); discriminate.
Qed.

(** X13: Whatever is clicked and whatever replies arrive, in whatever order, the
    viewer is shown and the page is kept from scrolling exactly while the
    viewer is open, and the link to the document is never shown without an
    address to open. *)
Theorem viewer_stays_coherent (evs : list ImageViewer.event) :
  ImageViewer.coherent (ImageViewer.run ImageViewer.init evs).
Proof.
  unfold ImageViewer.run.
  assert (H : ImageViewer.coherent ImageViewer.init)
    by (repeat split; discriminate).
  revert H. generalize ImageViewer.init.
  induction evs as [|e evs IH]; intros st H; [exact H|].
  cbn [fold_left]. apply IH. now apply coherent_step.
Qed.

End ViewerProperties.

(** ** The hooks of the React page *)

Module HookProperties.


(** X15: Closing a notification that was just added gives the old list back, when
    its id was not in use and nothing had to be dropped. *)
Theorem remove_undoes_add (maxNotifications : nat)
    (n : UseNotifications.notification) (prev : list UseNotifications.notification) :
  (forall m, In m prev -> UseNotifications.id m <> UseNotifications.id n) ->
  List.length prev < maxNotifications ->
  UseNotifications.removeNotification (UseNotifications.id n)
    (UseNotifications.addNotification maxNotifications n prev) = prev.
Proof.
  intros Hid Hlen. unfold UseNotifications.addNotification. cbv zeta.
  destruct (Nat.ltb_spec maxNotifications (List.length (prev ++ [n]))) as [Hlt|_].
  { rewrite length_app in Hlt. cbn in Hlt. lia. }
  unfold UseNotifications.removeNotification. rewrite filter_app.
  cbn [filter]. rewrite Nat.eqb_refl. cbn [negb]. rewrite app_nil_r.
  clear Hlen. induction prev as [|m prev IH]; [reflexivity|].
  cbn [filter]. destruct (Nat.eqb_spec (UseNotifications.id m) (UseNotifications.id n))
    as [E|_].
  - exfalso. apply (Hid m); [now left | exact E].
  - cbn [negb]. f_equal. apply IH. intros m' Hin. apply Hid. now right.
Qed.

Lemma remove_undoes_add_witness :
  let a := {| UseNotifications.id := 1; UseNotifications.type := "info";
              UseNotifications.title := "t"; UseNotifications.message := "m" |} in
  let b := {| UseNotifications.id := 2; UseNotifications.type := "error";
              UseNotifications.title := "t"; UseNotifications.message := "m" |} in
  UseNotifications.removeNotification 2 (UseNotifications.addNotification 5 b [a]) = [a].
Proof.
  cbv zeta.
  apply (remove_undoes_add 5
           {| UseNotifications.id := 2; UseNotifications.type := "error";
              UseNotifications.title := "t"; UseNotifications.message := "m" |}).
  - intros m [<-|[]]. discriminate.
  - cbn. lia.
Defined.

(** X16: Whatever the reply to a search request of the hook is, results, an error
    or the 202 that says the model is loading, the hook stops showing that it
    is loading, its message is empty, and the call's 500 ms status poll is
    cleared. *)
Theorem search_reply_ends_loading (defaultMaxResults : nat)
    (st : UseSearch.state) (rid cid : nat) (c : UseSearch.call) (r : Search.net) :
  lookup rid (UseSearch.inflight st) = Some (UseSearch.KSearch cid) ->
  nth_error (UseSearch.calls st) cid = Some c ->
  let st' := UseSearch.step defaultMaxResults st (UseSearch.Reply rid r) in
  UseSearch.isLoading st' = false /\
  UseSearch.loadingMessage st' = "" /\
  (forall i, UseSearch.statusPollInterval c = Some i -> i < UseSearch.next_timer st ->
     lookup i (UseSearch.timers st') = None).
Proof.
  intros Hl Hc st'. subst st'.
  rewrite (@UseSearchFacts.hook_step_reply defaultMaxResults _ _ r _ Hl).
  unfold UseSearch.search_resume. cbn [UseSearch.calls UseSearch.settle]. rewrite Hc.
  assert (Hgone : forall i, UseSearch.statusPollInterval c = Some i ->
            lookup i (UseSearch.timers
                        (UseSearch.clearInterval (UseSearch.statusPollInterval c)
                           (UseSearch.complete cid (UseSearch.settle rid st)))) = None).
  { intros i Hi. rewrite Hi. cbn. apply UseSearchFacts.lookup_removed. }
  assert (Hcatch : forall msg s,
            let s' := UseSearch.search_catch cid c msg s in
            UseSearch.isLoading s' = false /\ UseSearch.loadingMessage s' = "" /\
            (forall i, UseSearch.statusPollInterval c = Some i ->
               lookup i (UseSearch.timers s') = None)).
  { intros msg s. cbv zeta. unfold UseSearch.search_catch.
    cbn [UseSearch.isLoading UseSearch.loadingMessage UseSearch.setLoading
         UseSearch.timers UseSearch.emit].
    repeat split. intros i Hi. rewrite Hi. cbn. apply UseSearchFacts.lookup_removed. }
  destruct r as [msg|code msg|code data].
  - destruct (Hcatch msg (UseSearch.settle rid st)) as (H1 & H2 & H3). eauto.
  - destruct (Hcatch msg (UseSearch.settle rid st)) as (H1 & H2 & H3). eauto.
  - cbv zeta. destruct (_ && _).
    + cbn [UseSearch.isLoading UseSearch.loadingMessage UseSearch.setLoading
           UseSearch.timers UseSearch.set_timers].
      repeat split. intros i Hi Hlt.
      apply UseSearchFacts.lookup_snoc_other.
      * cbn [UseSearch.next_timer UseSearch.settle]. lia.
      * cbn [UseSearch.timers UseSearch.set_calls UseSearch.setResults
             UseSearch.setLoadingMessage UseSearch.setLoading].
        now apply Hgone.
    + destruct (negb (http_ok code)).
      * match goal with
        | |- context [UseSearch.search_catch cid c ?m ?s] =>
            destruct (Hcatch m s) as (H1 & H2 & H3)
        end. eauto.
      * destruct (Search.j_warning data) as [[m [[|a w]|]]|];
          cbn [UseSearch.isLoading UseSearch.loadingMessage UseSearch.setLoading
               UseSearch.timers UseSearch.setResults UseSearch.emit];
          repeat split; intros i Hi _; now apply Hgone.
Qed.

Lemma search_reply_ends_loading_witness :
  UseSearch.isLoading
    (UseSearch.step 8
       (UseSearch.run 8 (UseSearch.init false 8 1) [UseSearch.Invoke "dogs"])
       (UseSearch.Reply 0 Scenario.loading)) = false.
Proof.
  destruct (search_reply_ends_loading 8
              (UseSearch.run 8 (UseSearch.init false 8 1) [UseSearch.Invoke "dogs"])
              0 0
              {| UseSearch.c_query := "dogs"; UseSearch.c_hybrid := false;
                 UseSearch.c_max := 8; UseSearch.c_func := 1;
                 UseSearch.statusPollInterval := Some 1;
                 UseSearch.searchCompleted := false;
                 UseSearch.pollInterval := None |} Scenario.loading)
    as (H & _); [reflexivity | reflexivity | exact H].
Defined.

End HookProperties.

(** ** The debug panel *)

Module PanelProperties.
Import Debug DebugView DebugFacts DebugPanel.

Lemma no_kind_no_timer ts :
  (forall k, running_in k ts = []) -> ts = [].
Proof.
  destruct ts as [|[id k] ts]; [reflexivity|]. intros H. specialize (H k).
  unfold running_in in H. cbn [pick snd fst] in H.
  rewrite kind_eqb_refl in H. discriminate.
Qed.

Lemma all_stopped st :
  let st' := st |> stop_progress_polling |> stop_statistics_polling
                |> stop_system_info_polling |> stop_background_progress_monitoring in
  forall k, var k st' = None.
Proof.
  cbv zeta. unfold stop_progress_polling, stop_statistics_polling,
    stop_system_info_polling, stop_background_progress_monitoring.
  intros [| | |].
  - rewrite !var_stop_other by discriminate. apply var_stop_same.
  - apply var_stop_same.
  - rewrite !var_stop_other by discriminate. apply var_stop_same.
  - rewrite var_stop_other by discriminate. apply var_stop_same.
Qed.

(** X17: Closing the panel stops every interval the panel runs: after
    [hide_debug_panel] the browser runs none of them and the four variables
    are empty, in whatever state of the session the panel is closed. *)
Theorem closing_stops_every_interval (evs : list event) :
  let st := run init evs in
  is_debug_open st = true ->
  timers (step st ClosePanel) = [] /\
  (forall k, var k (step st ClosePanel) = None).
Proof.
  intros st Hopen. cbn [step]. unfold hide_debug_panel. rewrite Hopen.
  assert (Hc : consistent st) by apply consistent_run, consistent_init.
  set (st' := st |> stop_progress_polling |> stop_statistics_polling
                 |> stop_system_info_polling |> stop_background_progress_monitoring).
  assert (Hc' : consistent st').
  { subst st'. unfold stop_progress_polling, stop_statistics_polling,
      stop_system_info_polling, stop_background_progress_monitoring.
    now repeat apply consistent_stop. }
  pose proof (all_stopped st) as Hv. cbv zeta in Hv. fold st' in Hv.
  split; [|exact Hv].
  change (timers (setTimeout CloseDone st')) with (timers st').
  apply no_kind_no_timer. intros k.
  change (running_in k (timers st')) with (running k st').
  now rewrite (holds Hc' k), Hv.
Qed.

Lemma closing_stops_witness :
  timers (step Scenario.watching ClosePanel) = [].
Proof.
  destruct (closing_stops_every_interval
              [OpenPanel; Reply 0 (Scenario.at_percent 10)]) as (H & _);
    [reflexivity | exact H].
Defined.




(** X19: Whatever the reply to the request that starts the generation is, a
    result, a refusal, a body that cannot be read or no reply at all, the fast
    progress poller is stopped, the button is enabled again and reads Generate
    Embeddings, and the reset of the progress bar is scheduled. *)
Theorem generation_reply_ends_polling (st : state) (rid : nat) (r : reply) :
  lookup rid (inflight st) = Some KGenerate ->
  let st' := step st (Reply rid r) in
  global_progress_interval st' = None /\
  button_disabled st' = false /\
  button_text st' = "Generate Embeddings" /\
  timeouts st' = timeouts st ++ [(next_timer st, ResetUnlessCompleted)].
Proof.
  intros Hl st'. subst st'. rewrite (@step_reply _ _ r _ Hl). cbv zeta.
  set (s := set_inflight (remove_key rid) (next_rid st) st).
  assert (Hs : timeouts s = timeouts st /\ next_timer s = next_timer st)
    by (split; reflexivity).
  destruct Hs as [Hto Hnt]. rewrite <- Hto, <- Hnt. clearbody s.
  assert (Hfin : forall x,
            global_progress_interval x = None ->
            timeouts x = timeouts s -> next_timer x = next_timer s ->
            global_progress_interval (generate_finally x) = None /\
            button_disabled (generate_finally x) = false /\
            button_text (generate_finally x) = "Generate Embeddings" /\
            timeouts (generate_finally x) =
              timeouts s ++ [(next_timer s, ResetUnlessCompleted)]).
  { intros x Hg Ht Hn. unfold generate_finally, setTimeout.
    cbn [global_progress_interval button_disabled button_text timeouts
         set_timeouts set_button next_timer].
    now rewrite Hg, Ht, Hn. }
  assert (Hstop : forall x, global_progress_interval (stop_progress_polling x) = None).
  { intros x. apply (var_stop_same Fast). }
  assert (Hcatch : forall msg x,
            timeouts x = timeouts s -> next_timer x = next_timer s ->
            global_progress_interval (generate_catch msg x) = None /\
            timeouts (generate_catch msg x) = timeouts s /\
            next_timer (generate_catch msg x) = next_timer s).
  { intros msg x Ht Hn. unfold generate_catch.
    change (global_progress_interval (set_container Idle ?y))
      with (global_progress_interval y).
    change (timeouts (set_container Idle ?y)) with (timeouts y).
    change (next_timer (set_container Idle ?y)) with (next_timer y).
    unfold stop_progress_polling.
    rewrite timeouts_stop, next_timer_stop.
    split; [apply (var_stop_same Fast)|]. now split. }
  unfold generate_resume.
  destruct r as [msg|[] [msg| |result]].
  - destruct (Hcatch msg s eq_refl eq_refl) as (H1 & H2 & H3). now apply Hfin.
  - destruct (Hcatch msg s eq_refl eq_refl) as (H1 & H2 & H3). now apply Hfin.
  - destruct (Hcatch "Cannot read properties of null (reading 'success')"
                (stop_progress_polling s)) as (H1 & H2 & H3).
    + apply timeouts_stop.
    + apply next_timer_stop.
    + now apply Hfin.
  - cbv zeta. destruct (success result).
    + apply Hfin.
      * apply Hstop.
      * unfold update_progress_display, stop_progress_polling.
        cbn [timeouts set_shown emit]. apply timeouts_stop.
      * unfold update_progress_display, stop_progress_polling.
        cbn [next_timer set_shown emit]. apply next_timer_stop.
    + destruct (error result) as [e|].
      * apply Hfin.
        -- apply Hstop.
        -- unfold stop_progress_polling. cbn [timeouts set_container emit].
           apply timeouts_stop.
        -- unfold stop_progress_polling. cbn [next_timer set_container emit].
           apply next_timer_stop.
      * destruct (Hcatch "Cannot read properties of undefined (reading 'replace')"
                    (stop_progress_polling s)) as (H1 & H2 & H3).
        -- apply timeouts_stop.
        -- apply next_timer_stop.
        -- now apply Hfin.
  - apply Hfin.
    + apply Hstop.
    + unfold stop_progress_polling. cbn [timeouts emit]. apply timeouts_stop.
    + unfold stop_progress_polling. cbn [next_timer emit]. apply next_timer_stop.
  - apply Hfin.
    + apply Hstop.
    + unfold stop_progress_polling. cbn [timeouts emit]. apply timeouts_stop.
    + unfold stop_progress_polling. cbn [next_timer emit]. apply next_timer_stop.
  - apply Hfin.
    + apply Hstop.
    + unfold stop_progress_polling. cbn [timeouts emit]. apply timeouts_stop.
    + unfold stop_progress_polling. cbn [next_timer emit]. apply next_timer_stop.
Qed.

Lemma generation_reply_witness :
  global_progress_interval
    (step (run init [ClickGenerate]) (Reply 0 (Http false Null))) = None.
Proof.
  destruct (generation_reply_ends_polling (run init [ClickGenerate]) 0
              (Http false Null)) as (H & _); [reflexivity | exact H].
Defined.

End PanelProperties.

(** ** The notification list *)

Module NotifyFacts.
Import Notify NotifyOps.

(** *** Keys *)

Lemma keys_map_update k f l : map fst (map_update k f l) = map fst l.
Proof.
  induction l as [|[k' v] l IH]; [reflexivity|]. cbn [map_update].
  destruct (k =? k'); cbn [map fst]; [reflexivity | now rewrite IH].
Qed.

Lemma keys_remove_key {A} k (l : list (nat * A)) :
  map fst (remove_key k l) = filter (fun i => negb (k =? i)) (map fst l).
Proof.
  induction l as [|[k' v] l IH]; [reflexivity|]. cbn [remove_key map fst filter].
  destruct (k =? k'); cbn [negb map fst]; [exact IH | now rewrite IH].
Qed.

Lemma keys_map_set_new k v l :
  ~ In k (map fst l) -> map fst (map_set k v l) = map fst l ++ [k].
Proof.
  induction l as [|[k' v'] l IH]; intros Hk; [reflexivity|]. cbn [map_set].
  destruct (Nat.eqb_spec k k') as [->|Hne].
  - exfalso. apply Hk. now left.
  - cbn [map fst app]. f_equal. apply IH. intros H. apply Hk. now right.
Qed.

Lemma lookup_in_keys {A} k (l : list (nat * A)) :
  lookup k l = None <-> ~ In k (map fst l).
Proof.
  induction l as [|[k' v] l IH]; cbn [lookup map fst In]; [tauto|].
  destruct (Nat.eqb_spec k k') as [->|Hne].
  - split; [discriminate | intros H; exfalso; apply H; now left].
  - rewrite IH. split; [intros H [E|Hin]; [now symmetry in E | auto] | tauto].
Qed.

Lemma lookup_map_update k i f l :
  lookup k (map_update i f l) = None <-> lookup k l = None.
Proof. now rewrite !lookup_in_keys, keys_map_update. Qed.

Lemma length_map_update k f l : List.length (map_update k f l) = List.length l.
Proof. rewrite <- (length_map fst), keys_map_update. apply length_map. Qed.

Lemma length_map_set k v l : List.length (map_set k v l) <= S (List.length l).
Proof.
  induction l as [|[k' v'] l IH]; cbn [map_set List.length]; [lia|].
  destruct (k =? k'); cbn [List.length]; lia.
Qed.

(** *** Entries that stay *)

Lemma count_ext P Q l :
  (forall k, In k (map fst l) -> P k = Q k) -> count P l = count Q l.
Proof.
  intros H. unfold count. f_equal. apply filter_ext_in.
  intros e He. apply H. now apply in_map.
Qed.

Lemma count_map_update P k f l : count P (map_update k f l) = count P l.
Proof.
  unfold count. induction l as [|[k' v] l IH]; [reflexivity|]. cbn [map_update].
  destruct (k =? k'); cbn [filter fst].
  - now destruct (P k').
  - destruct (P k'); cbn [List.length]; now rewrite IH.
Qed.

Lemma count_remove_key P Q i l :
  (forall k, k <> i -> P k = Q k) -> count P (remove_key i l) <= count Q l.
Proof.
  intros H. unfold count. induction l as [|[k v] l IH]; [reflexivity|].
  cbn [remove_key filter fst]. destruct (Nat.eqb_spec i k) as [->|Hne].
  - destruct (Q k); cbn [List.length]; lia.
  - cbn [filter fst]. rewrite (H k) by congruence.
    destruct (Q k); cbn [List.length]; lia.
Qed.

Lemma count_le P l : count P l <= List.length l.
Proof. apply filter_length_le. Qed.

Lemma count_all l : count (fun _ => true) l = List.length l.
Proof.
  unfold count. induction l as [|e l IH]; [reflexivity|]. cbn. now rewrite IH.
Qed.

Lemma count_none l : count (fun _ => false) l = 0.
Proof. unfold count. now induction l. Qed.

Lemma doomed_app k a b : doomed k (a ++ b) = doomed k a || doomed k b.
Proof. apply existsb_app. Qed.

Lemma doomed_drop_nth k n : forall S t,
  nth_error S n = Some t -> doomed k S = targets t k || doomed k (drop_nth n S).
Proof.
  induction n as [|n IH]; intros [|x S] t H; try discriminate.
  - injection H as ->. reflexivity.
  - cbn [nth_error] in H. cbn [drop_nth]. unfold doomed in *. cbn [existsb].
    rewrite (IH S t H). now destruct (targets x k), (targets t k).
Qed.

Lemma staying_count st :
  staying st = count (fun k => negb (doomed k (scheduled st))) (notification_list st).
Proof. reflexivity. Qed.

(** A timeout that runs lets no entry stay that was to go. *)
Lemma staying_fire n st : staying (step st (Fire n)) <= staying st.
Proof.
  cbn [step]. destruct (nth_error (scheduled st) n) as [t|] eqn:Ht; [|lia].
  rewrite !staying_count.
  pose proof (fun k => doomed_drop_nth k n _ _ Ht) as Hd.
  destruct t as [i|i|i]; cbn [fire].
  - cbn [notification_list scheduled]. rewrite count_map_update.
    apply Nat.eq_le_incl, count_ext. intros k _. now rewrite Hd.
  - unfold remove_notification. cbn [notification_list scheduled].
    destruct (lookup i (notification_list st)) eqn:Hl;
      cbn [notification_list scheduled].
    + rewrite count_map_update. apply Nat.eq_le_incl, count_ext. intros k _.
      rewrite Hd, doomed_app. cbn [doomed existsb targets].
      now destruct (doomed k (drop_nth n (scheduled st))), (i =? k).
    + apply Nat.eq_le_incl, count_ext. intros k Hk. rewrite Hd. cbn [targets].
      destruct (Nat.eqb_spec i k) as [->|]; [|reflexivity].
      apply lookup_in_keys in Hl. contradiction.
  - cbn [notification_list scheduled]. apply count_remove_key.
    intros k Hk. rewrite Hd. cbn [targets].
    destruct (Nat.eqb_spec i k); [congruence | reflexivity].
Qed.

Lemma staying_timeouts ns : forall st,
  staying (run st (timeouts_only ns)) <= staying st.
Proof.
  induction ns as [|n ns IH]; intros st; [cbn; lia|].
  cbn [timeouts_only map run fold_left].
  change (fold_left step (map Fire ns) ?s) with (run s (timeouts_only ns)).
  etransitivity; [apply IH | apply staying_fire].
Qed.

Lemma staying_settled st : scheduled st = [] -> staying st = size st.
Proof.
  intros H. rewrite staying_count, H. apply count_all.
Qed.

(** *** Every pending timeout can run *)

Lemma fire_first_weight st t ts :
  scheduled st = t :: ts ->
  list_sum (map weight (scheduled (step st (Fire 0)))) < list_sum (map weight (t :: ts)).
Proof.
  intros H. cbn [step]. rewrite H. cbn [nth_error drop_nth].
  assert (Hc : forall a l, list_sum (a :: l) = a + list_sum l) by reflexivity.
  cbn [map]. rewrite Hc.
  destruct t as [i|i|i]; cbn [fire scheduled weight]; try lia.
  unfold remove_notification. cbn [notification_list scheduled].
  destruct (lookup i (notification_list st)); cbn [scheduled]; [|lia].
  rewrite map_app, list_sum_app. cbn [map]. rewrite Hc. cbn [weight list_sum fold_right].
  lia.
Qed.

Lemma timeouts_can_all_run w : forall st,
  list_sum (map weight (scheduled st)) <= w ->
  exists ns, scheduled (run st (timeouts_only ns)) = [].
Proof.
  induction w as [|w IH]; intros st Hw.
  - exists []. cbn. destruct (scheduled st) as [|t ts]; [reflexivity|].
    cbn in Hw. destruct t; cbn in Hw; lia.
  - destruct (scheduled st) as [|t ts] eqn:Hs.
    + exists []. exact Hs.
    + pose proof (fire_first_weight st t ts Hs) as Hlt.
      destruct (IH (step st (Fire 0))) as [ns Hns]; [lia|].
      exists (0 :: ns). exact Hns.
Qed.

(** *** show_notification *)

Lemma show_staying type title message opts st :
  size st <= max_notifications -> scheduled st = [] ->
  staying (snd (show_notification type title message opts st)) <= max_notifications.
Proof.
  intros Hsize Hs. unfold size in Hsize.
  unfold show_notification. cbv zeta. cbn [notification_list snd].
  set (new := {| n_type := type; n_title := title; n_message := message;
                 show_class := false |}).
  destruct (Nat.leb_spec max_notifications (List.length (notification_list st)))
    as [Hfull|Hroom].
  - destruct (notification_list st) as [|[oldest e] l] eqn:Hl.
    { cbn in Hfull. unfold max_notifications in Hfull. lia. }
    unfold remove_notification. cbn [notification_list lookup].
    rewrite Nat.eqb_refl. cbn [notification_list scheduled notification_id attached].
    rewrite Hs. cbn [map_update app]. rewrite Nat.eqb_refl.
    cbn [List.length] in Hsize, Hfull.
    assert (Hbound : forall S',
              count (fun k => negb (doomed k (Delete oldest :: S')))
                (map_set (notification_id st) new ((oldest, set_show false e) :: l))
              <= max_notifications).
    { intros S'. cbn [map_set].
      destruct (notification_id st =? oldest) eqn:E.
      - unfold count. cbn [filter fst]. apply Nat.eqb_eq in E. rewrite E.
        cbn [doomed existsb targets]. rewrite Nat.eqb_refl. cbn [orb negb].
        etransitivity; [apply filter_length_le | lia].
      - unfold count. cbn [filter fst doomed existsb targets].
        rewrite Nat.eqb_refl. cbn [orb negb].
        etransitivity; [apply filter_length_le|].
        etransitivity; [apply length_map_set | lia]. }
    destruct (negb (persistent opts) && _);
      rewrite staying_count; cbn [notification_list scheduled app]; apply Hbound.
  - assert (Hbound : forall S',
              count (fun k => negb (doomed k S'))
                (map_set (notification_id st) new (notification_list st))
              <= max_notifications).
    { intros S'. etransitivity; [apply count_le|].
      etransitivity; [apply length_map_set | lia]. }
    destruct (negb (persistent opts) && _);
      rewrite staying_count; cbn [notification_list scheduled]; apply Hbound.
Qed.

(** The keys [show_notification] leaves, and what it schedules. *)
Lemma keys_remove_notification id st :
  map fst (notification_list (remove_notification id st)) =
  map fst (notification_list st).
Proof.
  unfold remove_notification. destruct (lookup id (notification_list st)); trivial.
  apply keys_map_update.
Qed.

Lemma in_keys_map_set k k' v l :
  In k (map fst (map_set k' v l)) <-> k = k' \/ In k (map fst l).
Proof.
  induction l as [|[k0 v0] l IH]; cbn [map_set map fst In].
  - intuition.
  - destruct (Nat.eqb_spec k' k0) as [->|Hne]; cbn [map fst In].
    + intuition.
    + rewrite IH. intuition.
Qed.

Lemma show_shape type title message opts st :
  exists l2 more,
    map fst l2 = map fst (notification_list st) /\
    notification_list (snd (show_notification type title message opts st)) =
      map_set (notification_id st)
        {| n_type := type; n_title := title; n_message := message;
           show_class := false |} l2 /\
    scheduled (snd (show_notification type title message opts st)) =
      scheduled st ++ more /\
    notification_id (snd (show_notification type title message opts st)) =
      S (notification_id st) /\
    fst (show_notification type title message opts st) = notification_id st /\
    (expires opts = true -> In (Expire (notification_id st)) more).
Proof.
  unfold show_notification, expires. cbv zeta. cbn [notification_list fst snd].
  set (st1 := {| notification_list := notification_list st;
                 notification_id := S (notification_id st);
                 attached := attached st; scheduled := scheduled st |}).
  set (st2 := if max_notifications <=? List.length (notification_list st)
              then match notification_list st with
                   | (oldest_id, _) :: _ => remove_notification oldest_id st1
                   | [] => st1
                   end
              else st1).
  assert (H2 : map fst (notification_list st2) = map fst (notification_list st) /\
               notification_id st2 = S (notification_id st) /\
               exists more, scheduled st2 = scheduled st ++ more).
  { subst st2. destruct (_ <=? _).
    - destruct (notification_list st) as [|[oldest e] l] eqn:Hl.
      + subst st1. cbn. rewrite ?Hl. repeat split. exists []. now rewrite app_nil_r.
      + rewrite keys_remove_notification. subst st1. cbn [notification_list].
        rewrite ?Hl. split; [reflexivity|].
        unfold remove_notification. cbn [notification_list lookup].
        rewrite ?Hl. cbn [lookup]. rewrite Nat.eqb_refl.
        cbn [notification_id scheduled]. split; [reflexivity|]. now exists [Delete oldest].
    - subst st1. cbn. repeat split. exists []. now rewrite app_nil_r. }
  destruct H2 as (Hk & Hid & more & Hm).
  exists (notification_list st2).
  destruct (negb (persistent opts) && _) eqn:E;
    cbn [notification_list scheduled notification_id].
  - exists (more ++ [AddShow (notification_id st); Expire (notification_id st)]).
    rewrite Hm, <- !app_assoc. repeat split; trivial.
    intros _. apply in_or_app. right. right. now left.
  - exists (more ++ [AddShow (notification_id st)]).
    rewrite Hm, <- !app_assoc. repeat split; trivial. discriminate.
Qed.

Lemma well_keyed_remove id st :
  well_keyed st -> well_keyed (remove_notification id st).
Proof.
  unfold well_keyed. rewrite keys_remove_notification.
  unfold remove_notification. cbn [notification_list].
  now destruct (lookup id (notification_list st)).
Qed.

Lemma well_keyed_update id t m st :
  well_keyed st -> well_keyed (update_notification_message id t m st).
Proof.
  unfold well_keyed, update_notification_message.
  destruct (lookup id (notification_list st)); trivial.
  cbn [notification_list notification_id]. now rewrite keys_map_update.
Qed.

Lemma well_keyed_removals ks : forall st,
  well_keyed st -> well_keyed (fold_left (fun s id => remove_notification id s) ks st).
Proof.
  induction ks as [|k ks IH]; intros st H; [exact H|].
  cbn [fold_left]. now apply IH, well_keyed_remove.
Qed.

Lemma well_keyed_undefined st :
  well_keyed st -> well_keyed (show_notification_undefined st).
Proof.
  intros [Hnd Hlt]. unfold show_notification_undefined. cbv zeta.
  assert (H1 : well_keyed
                 {| notification_list := notification_list st;
                    notification_id := S (notification_id st);
                    attached := attached st; scheduled := scheduled st |}).
  { split; [exact Hnd|]. intros k Hk. apply Hlt in Hk. cbn. lia. }
  destruct (_ <=? _); [|exact H1]. cbn [notification_list].
  destruct (notification_list st) as [|[oldest e] l] eqn:E; [exact H1|].
  now apply well_keyed_remove.
Qed.

Lemma well_keyed_step st e : well_keyed st -> well_keyed (step st e).
Proof.
  intros [Hnd Hlt].
  destruct e as [type title message opts|n|id|id t m| |]; cbn [step];
    [| |now apply well_keyed_remove |now apply well_keyed_update
     |now apply well_keyed_removals |now apply well_keyed_undefined].
  - destruct (show_shape type title message opts st)
      as (l2 & more & Hk & Hl & _ & Hid & _).
    assert (Hnew : ~ In (notification_id st) (map fst l2)).
    { rewrite Hk. intros H. apply Hlt in H. lia. }
    unfold well_keyed. rewrite Hl, Hid, keys_map_set_new, Hk by assumption. split.
    + apply NoDup_app; [exact Hnd | repeat constructor; intros [] |].
      intros k Hin [<-|[]]. apply Hlt in Hin. lia.
    + intros k Hin. apply in_app_or in Hin as [Hin|[<-|[]]]; [|lia].
      apply Hlt in Hin. lia.
  - destruct (nth_error (scheduled st) n) as [t|]; [|now split].
    destruct t as [i|i|i]; cbn [fire].
    + unfold well_keyed. cbn [notification_list notification_id].
      now rewrite keys_map_update.
    + unfold well_keyed. rewrite keys_remove_notification.
      unfold remove_notification. cbn [notification_list].
      now destruct (lookup i (notification_list st)).
    + unfold well_keyed. cbn [notification_list notification_id].
      rewrite keys_remove_key. split.
      * now apply NoDup_filter.
      * intros k Hin. apply filter_In in Hin as [Hin _]. now apply Hlt.
Qed.

Lemma well_keyed_run evs : forall st, well_keyed st -> well_keyed (run st evs).
Proof.
  induction evs as [|e evs IH]; intros st H; [exact H|].
  cbn [run fold_left]. apply (IH (step st e)). now apply well_keyed_step.
Qed.

Lemma well_keyed_init : well_keyed init.
Proof. split; [constructor | intros k []]. Qed.

Lemma doomed_more k S more : doomed k S = true -> doomed k (S ++ more) = true.
Proof. intros H. now rewrite doomed_app, H. Qed.

Lemma leaving_remove id i st :
  leaving id st -> leaving id (remove_notification i st).
Proof.
  intros [Hid H]. unfold remove_notification.
  destruct (lookup i (notification_list st)); [|now split].
  unfold leaving. cbn [notification_list notification_id scheduled].
  split; [exact Hid|]. rewrite lookup_map_update.
  destruct H as [H|H]; [now left | right; now apply doomed_more].
Qed.

Lemma leaving_update id i t m st :
  leaving id st -> leaving id (update_notification_message i t m st).
Proof.
  intros [Hid H]. unfold update_notification_message.
  destruct (lookup i (notification_list st)); [|now split].
  unfold leaving. cbn [notification_list notification_id scheduled].
  split; [exact Hid|]. now rewrite lookup_map_update.
Qed.

Lemma leaving_removals id ks : forall st,
  leaving id st -> leaving id (fold_left (fun s i => remove_notification i s) ks st).
Proof.
  induction ks as [|k ks IH]; intros st H; [exact H|].
  cbn [fold_left]. now apply IH, leaving_remove.
Qed.

Lemma leaving_undefined id st :
  leaving id st -> leaving id (show_notification_undefined st).
Proof.
  intros [Hid H]. unfold show_notification_undefined. cbv zeta.
  assert (H1 : leaving id
                 {| notification_list := notification_list st;
                    notification_id := S (notification_id st);
                    attached := attached st; scheduled := scheduled st |}).
  { split; [cbn; lia | exact H]. }
  destruct (_ <=? _); [|exact H1]. cbn [notification_list].
  destruct (notification_list st) as [|[oldest e] l] eqn:E; [exact H1|].
  now apply leaving_remove.
Qed.

Lemma leaving_step id st e : leaving id st -> leaving id (step st e).
Proof.
  intros [Hid H].
  destruct e as [type title message opts|n|i|i t m| |]; cbn [step];
    [| |now apply leaving_remove |now apply leaving_update
     |now apply leaving_removals |now apply leaving_undefined].
  - destruct (show_shape type title message opts st)
      as (l2 & more & Hk & Hl & Hs & Hn & _).
    unfold leaving. rewrite Hl, Hs, Hn. split; [lia|].
    destruct H as [H|H]; [left | right; now apply doomed_more].
    apply lookup_in_keys. rewrite in_keys_map_set, Hk.
    apply lookup_in_keys in H. intros [E|Hin]; [lia | contradiction].
  - destruct (nth_error (scheduled st) n) as [t|] eqn:Ht; [|now split].
    pose proof (doomed_drop_nth id n _ _ Ht) as Hd.
    destruct t as [i|i|i]; cbn [fire].
    + unfold leaving. cbn [notification_list notification_id scheduled].
      split; [exact Hid|]. rewrite lookup_map_update.
      destruct H as [H|H]; [now left | right]. now rewrite Hd in H.
    + unfold remove_notification. cbn [notification_list scheduled].
      destruct (lookup i (notification_list st)) eqn:Hl; unfold leaving;
        cbn [notification_list notification_id scheduled]; (split; [exact Hid|]).
      * rewrite lookup_map_update. destruct H as [H|H]; [now left | right].
        rewrite doomed_app. cbn [doomed existsb targets].
        rewrite Hd in H. cbn [targets] in H.
        now destruct (doomed id (drop_nth n (scheduled st))), (i =? id).
      * destruct H as [H|H]; [now left|]. rewrite Hd in H. cbn [targets] in H.
        destruct (Nat.eqb_spec i id) as [E|E]; [left; now rewrite <- E | now right].
    + unfold leaving. cbn [notification_list notification_id scheduled].
      split; [exact Hid|].
      destruct (Nat.eqb_spec i id) as [E|Hne].
      * left. apply lookup_in_keys. rewrite keys_remove_key.
        intros Hin. apply filter_In in Hin as [_ Hin].
        now rewrite E, Nat.eqb_refl in Hin.
      * destruct H as [H|H]; [left | right].
        -- apply lookup_in_keys. rewrite keys_remove_key.
           apply lookup_in_keys in H. intros Hin.
           apply filter_In in Hin as [Hin _]. contradiction.
        -- rewrite Hd in H. cbn [targets] in H.
           apply Nat.eqb_neq in Hne. now rewrite Hne in H.
Qed.

Lemma leaving_run id evs : forall st, leaving id st -> leaving id (run st evs).
Proof.
  induction evs as [|e evs IH]; intros st H; [exact H|].
  cbn [run fold_left]. apply (IH (step st e)). now apply leaving_step.
Qed.

(** [clear_all_notifications] schedules the removal of every entry. *)
Lemma clear_marks ks : forall st,
  (forall k, In k ks -> In k (map fst (notification_list st))) ->
  let st' := fold_left (fun s id => remove_notification id s) ks st in
  map fst (notification_list st') = map fst (notification_list st) /\
  (forall k, doomed k (scheduled st) = true \/ In k ks ->
     doomed k (scheduled st') = true).
Proof.
  induction ks as [|i ks IH]; intros st Hin; cbv zeta; cbn [fold_left].
  - split; [reflexivity|]. now intros k [H|[]].
  - destruct (IH (remove_notification i st)) as [Hk Hd].
    { intros k Hk. rewrite keys_remove_notification. apply Hin. now right. }
    rewrite Hk, keys_remove_notification. split; [reflexivity|].
    intros k H. apply Hd.
    assert (Hi : exists e, lookup i (notification_list st) = Some e).
    { destruct (lookup i (notification_list st)) eqn:E; [eauto|].
      apply lookup_in_keys in E. exfalso. apply E, Hin. now left. }
    destruct Hi as [e He]. unfold remove_notification. rewrite He.
    cbn [scheduled]. rewrite doomed_app. cbn [doomed existsb targets].
    destruct H as [H|[<-|H]]; [left; now rewrite H | left | now right].
    rewrite Nat.eqb_refl. apply orb_true_iff. now right.
Qed.

End NotifyFacts.

Module NotifyProperties.
Import Notify NotifyOps NotifyFacts.

(** X20: [show_notification] never overwrites and never removes on the spot: in
    every state the list can reach, by notifications shown (also those that
    fail on an undefined message), closed, removed, updated or cleared and
    by timeouts running in whatever order, the id it returns is not in use,
    the list is one entry longer afterwards, and its keys stay pairwise
    distinct. *)
Theorem every_notification_gets_new_key (evs : list event)
    (type title message : string) (opts : options) :
  let st := run init evs in
  let r := show_notification type title message opts st in
  fst r = notification_id st /\
  lookup (fst r) (notification_list st) = None /\
  size (snd r) = S (size st) /\
  NoDup (map fst (notification_list (snd r))).
Proof.
  intros st r. subst r.
  assert (Hw : well_keyed st) by apply well_keyed_run, well_keyed_init.
  pose proof (well_keyed_step st (Show type title message opts) Hw) as [Hnd _].
  cbn [step] in Hnd.
  destruct (show_shape type title message opts st)
    as (l2 & more & Hk & Hl & _ & _ & Hid & _).
  destruct Hw as [_ Hlt].
  assert (Hnew : ~ In (notification_id st) (map fst (notification_list st))).
  { intros H. apply Hlt in H. lia. }
  split; [exact Hid|]. split; [rewrite Hid; now apply lookup_in_keys|].
  split; [|exact Hnd].
  unfold size. rewrite Hl, <- (length_map fst), keys_map_set_new, Hk
    by (now rewrite Hk).
  rewrite length_app, length_map. cbn. lia.
Qed.

(** X21: When the pending timeouts have all run before [show_notification] is
    called, and have all run again after it, the list holds at most
    max_notifications entries; and the pending timeouts can always all run. *)
Theorem spaced_notifications_respect_cap (st : state)
    (type title message : string) (opts : options) :
  size st <= max_notifications ->
  scheduled st = [] ->
  let st1 := snd (show_notification type title message opts st) in
  (exists ns, scheduled (run st1 (timeouts_only ns)) = []) /\
  (forall ns, scheduled (run st1 (timeouts_only ns)) = [] ->
     size (run st1 (timeouts_only ns)) <= max_notifications).
Proof.
  intros Hsize Hs st1. split.
  - apply (timeouts_can_all_run (list_sum (map weight (scheduled st1)))). lia.
  - intros ns Hns. rewrite <- (staying_settled _ Hns).
    etransitivity; [apply staying_timeouts|].
    now apply show_staying.
Qed.

(** Five notifications whose timeouts have run, then a sixth. *)
Lemma spaced_notifications_witness :
  let st := run (run init (Scenario.burst 5)) (timeouts_only [0; 0; 0; 0; 0]) in
  let st1 := snd (show_notification "info" "t" "m" Scenario.sticky st) in
  size (run st1 (timeouts_only [0; 0])) <= max_notifications.
Proof.
  cbv zeta.
  destruct (spaced_notifications_respect_cap
              (run (run init (Scenario.burst 5)) (timeouts_only [0; 0; 0; 0; 0]))
              "info" "t" "m" Scenario.sticky) as (_ & H).
  - vm_compute. lia.
  - vm_compute. reflexivity.
  - apply H. vm_compute. reflexivity.
Defined.

(** X22: After [clear_all_notifications] the list is empty as soon as the pending
    timeouts have run, in whatever order they run. *)
Theorem clear_all_empties_list (st : state) (ns : list nat) :
  scheduled (run (clear_all_notifications st) (timeouts_only ns)) = [] ->
  notification_list (run (clear_all_notifications st) (timeouts_only ns)) = [].
Proof.
  intros Hns.
  assert (H0 : staying (clear_all_notifications st) = 0).
  { unfold clear_all_notifications.
    destruct (clear_marks (map fst (notification_list st)) st) as [Hk Hd]; [trivial|].
    cbv zeta in Hk, Hd. unfold staying.
    rewrite (count_ext _ (fun _ => false)).
    - apply count_none.
    - intros k Hin. rewrite Hk in Hin. rewrite Hd; [reflexivity | now right]. }
  pose proof (staying_timeouts ns (clear_all_notifications st)) as Hle.
  rewrite (staying_settled _ Hns), H0 in Hle. unfold size in Hle.
  destruct (notification_list _); [reflexivity | cbn in Hle; lia].
Qed.

Lemma clear_all_witness :
  notification_list
    (run (clear_all_notifications (run init (Scenario.burst 3)))
       (timeouts_only [3; 3; 3; 0; 0; 0])) = [].
Proof.
  apply (clear_all_empties_list (run init (Scenario.burst 3)) [3; 3; 3; 0; 0; 0]).
  vm_compute. reflexivity.
Defined.

(** X23: A notification shown without the option persistent and with a positive
    duration is gone once the pending timeouts have run, whatever is shown,
    closed, updated or cleared and whichever timeouts run in between. *)
Theorem expiring_notification_goes_away (st : state)
    (type title message : string) (opts : options) (evs : list event) :
  expires opts = true ->
  let r := show_notification type title message opts st in
  scheduled (run (snd r) evs) = [] ->
  lookup (fst r) (notification_list (run (snd r) evs)) = None.
Proof.
  intros He r Hs. subst r.
  destruct (show_shape type title message opts st)
    as (l2 & more & _ & _ & Hm & Hn & Hid & Hex).
  assert (Hl : leaving (notification_id st)
                 (snd (show_notification type title message opts st))).
  { split; [lia|]. right. rewrite Hm, doomed_app.
    apply orb_true_iff. right. unfold doomed. apply existsb_exists.
    exists (Expire (notification_id st)). split; [now apply Hex|].
    cbn. apply Nat.eqb_refl. }
  apply (leaving_run _ evs) in Hl. destruct Hl as [_ [Hl|Hl]].
  - now rewrite Hid.
  - now rewrite Hs in Hl.
Qed.

Lemma expiring_notification_witness :
  lookup 1
    (notification_list
       (run init
          [Show "info" "t" "m" {| duration := None; persistent := false |};
           Update 1 "Model Ready" "";
           Show "error" "t" "m" Scenario.sticky;
           Remove 2;
           Fire 0; Fire 0; Fire 0; Fire 0; Fire 0])) = None.
Proof.
  apply (expiring_notification_goes_away init "info" "t" "m"
           {| duration := None; persistent := false |}
           [Update 1 "Model Ready" ""; Show "error" "t" "m" Scenario.sticky;
            Remove 2; Fire 0; Fire 0; Fire 0; Fire 0; Fire 0]).
  - reflexivity.
  - vm_compute. reflexivity.
Defined.

End NotifyProperties.

(** ** The search page as the user sees it *)

Module FaceFacts.
Import Search SearchView SearchFacts SearchPage.

Lemma face_emit e st : face_of (emit e st) = face_of st.
Proof. reflexivity. Qed.
Lemma face_notification k t m st : face_of (show_notification k t m st) = face_of st.
Proof. reflexivity. Qed.
Lemma face_set_pollers f st : face_of (set_pollers f st) = face_of st.
Proof. reflexivity. Qed.
Lemma face_fetch url body skip k st : face_of (fetch url body skip k st) = face_of st.
Proof. reflexivity. Qed.
Lemma face_settle rid st : face_of (settle rid st) = face_of st.
Proof. reflexivity. Qed.
Lemma face_set_welcome b st : face_of (set_welcome b st) = face_of st.
Proof. reflexivity. Qed.
Lemma face_set_loading_id id st : face_of (set_ui (set_loading_id id) st) = face_of st.
Proof. reflexivity. Qed.

Lemma face_hide_all st : face_of (hide_all_result_elements st) = wiped (face_of st).
Proof.
  unfold face_of, wiped, hide_all_result_elements, model_loading_hidden.
  cbn [ui set_ui pan set_pan frm btn loading_display no_results_display
       results_display model_loading f_btn f_hybrid].
  now destruct (model_loading (pan (ui st))) as [[[] t]|].
Qed.

Lemma face_show_loading st : face_of (show_loading st) = searching (face_of st).
Proof.
  unfold show_loading, face_of, searching, model_loading_hidden, hide_all_result_elements,
    set_loading_display.
  cbn [ui set_ui pan set_pan frm btn set_btn loading_display no_results_display
       results_display model_loading f_hybrid].
  now destruct (model_loading (pan (ui st))) as [[[] t]|].
Qed.

Lemma face_show_results st :
  face_of (show_results st) =
  {| f_loading := false; f_no_results := false; f_results := true;
     f_model_hidden := true; f_btn := btn (ui st);
     f_hybrid := is_hybrid_search (frm (ui st)) |}.
Proof.
  unfold show_results, face_of, model_loading_hidden, hide_all_result_elements.
  cbn [ui set_ui pan set_pan frm btn loading_display no_results_display
       results_display model_loading].
  now destruct (model_loading (pan (ui st))) as [[[] t]|].
Qed.

Lemma face_show_no_results st :
  face_of (show_no_results st) =
  {| f_loading := false; f_no_results := true; f_results := false;
     f_model_hidden := true; f_btn := btn (ui st);
     f_hybrid := is_hybrid_search (frm (ui st)) |}.
Proof.
  unfold show_no_results, face_of, model_loading_hidden, hide_all_result_elements.
  cbn [ui set_ui pan set_pan frm btn loading_display no_results_display
       results_display model_loading].
  now destruct (model_loading (pan (ui st))) as [[[] t]|].
Qed.

Lemma face_show_error m st : face_of (show_error_message m st) = wiped (face_of st).
Proof.
  unfold show_error_message, showError. now rewrite face_notification, face_hide_all.
Qed.

Lemma face_show_warning w st : face_of (show_warning_message w st) = face_of st.
Proof. unfold show_warning_message, showWarning. cbv zeta. apply face_notification. Qed.

Lemma face_clear_results st : face_of (clear_results st) = wiped (face_of st).
Proof.
  unfold clear_results, show_welcome_section.
  rewrite face_set_welcome.
  change (face_of (set_ui (set_frm ?f) (set_ui (set_items []) ?s))) with (face_of s).
  apply face_hide_all.
Qed.

(** The button and the mode after [display_results]; the panels are those of
    the reply. *)
Lemma face_display_results data st :
  face_of (display_results data st) =
  {| f_loading := false; f_no_results := nothing_found data;
     f_results := negb (nothing_found data);
     f_model_hidden := true; f_btn := btn (ui st);
     f_hybrid := is_hybrid_search (frm (ui st)) |}.
Proof.
  unfold display_results, nothing_found. cbv zeta.
  set (s := match j_warning data with
            | Some w => show_warning_message w (emit (Display data) st)
            | None => emit (Display data) st
            end).
  assert (Hs : btn (ui s) = btn (ui st) /\
               is_hybrid_search (frm (ui s)) = is_hybrid_search (frm (ui st))).
  { subst s. destruct (j_warning data); split; reflexivity. }
  destruct Hs as [Hb Hh]. clearbody s.
  destruct (j_results data) as [items|], (j_total data) as [[|n]|];
    unfold display_normal_results;
    rewrite ?face_show_no_results, ?face_show_results;
    cbn [ui set_ui btn set_items frm negb]; now rewrite ?Hb, ?Hh.
Qed.

Lemma face_update_message m st :
  face_of (update_model_loading_message m st) = face_of st.
Proof.
  unfold update_model_loading_message. cbv zeta.
  destruct (loadingNotificationId _); rewrite ?face_emit;
    unfold face_of, model_loading_hidden;
    cbn [ui set_ui pan set_pan frm btn loading_display no_results_display
         results_display model_loading];
    now destruct (model_loading (pan (ui st))) as [[[] t]|].
Qed.

(** [hide_loading] hides the spinner and the model-loading indicator and
    frees the button. *)
Lemma face_hide_loading st :
  face_of (hide_loading st) =
  {| f_loading := false; f_no_results := no_results_display (pan (ui st));
     f_results := results_display (pan (ui st));
     f_model_hidden := true; f_btn := idle_button;
     f_hybrid := is_hybrid_search (frm (ui st)) |}.
Proof.
  unfold hide_loading, hide_model_loading. cbv zeta.
  destruct (loadingNotificationId _);
    rewrite ?face_set_loading_id, ?face_emit;
    unfold face_of, model_loading_hidden, set_loading_display;
    cbn [ui set_ui pan set_pan frm btn set_btn loading_display no_results_display
         results_display model_loading disabled text loading_class];
    now destruct (model_loading (pan (ui st))) as [[[] t]|].
Qed.

Lemma hide_loading_after f st :
  face_of st = wiped f -> face_of (hide_loading st) = rested f.
Proof.
  intros H. rewrite face_hide_loading. unfold rested.
  apply (f_equal f_no_results) in H as H1. apply (f_equal f_results) in H as H2.
  apply (f_equal f_hybrid) in H as H3. cbn in H1, H2, H3. now rewrite H1, H2, H3.
Qed.

Lemma face_show_model_loading m st :
  exists b,
    face_of (show_model_loading_message m st) =
    {| f_loading := false; f_no_results := false; f_results := false;
       f_model_hidden := false; f_btn := b;
       f_hybrid := is_hybrid_search (frm (ui st)) |}.
Proof. eexists. reflexivity. Qed.

Lemma face_poll_catch pid msg st :
  face_of (poll_catch pid msg st) = rested (face_of st).
Proof.
  unfold poll_catch. cbv zeta. apply hide_loading_after.
  rewrite face_show_error.
  destruct (loadingNotificationId _);
    now rewrite ?face_set_loading_id, ?face_emit.
Qed.

Lemma face_search_catch_wiped msg st f :
  f_hybrid (face_of st) = f_hybrid f ->
  face_of (search_catch msg st) = rested f.
Proof.
  intros H. unfold search_catch. rewrite face_hide_loading.
  change (no_results_display (pan (ui ?s))) with (f_no_results (face_of s)).
  change (results_display (pan (ui ?s))) with (f_results (face_of s)).
  change (is_hybrid_search (frm (ui ?s))) with (f_hybrid (face_of s)).
  rewrite face_show_error, face_emit. unfold rested, wiped. cbn in H |- *. now rewrite H.
Qed.

Lemma face_search_catch msg st : face_of (search_catch msg st) = rested (face_of st).
Proof. now apply face_search_catch_wiped. Qed.

(** *** The handlers *)

Lemma face_perform_search st :
  face_of (perform_search st) =
  match trim (input_value (frm (ui st))) with
  | EmptyString => wiped (face_of st)
  | _ => searching (face_of st)
  end.
Proof.
  unfold perform_search. cbv zeta. destruct (trim _).
  - apply face_show_error.
  - rewrite face_fetch, face_show_loading. unfold hide_welcome_section.
    now rewrite face_set_welcome.
Qed.

Lemma face_resume endpoint body r st :
  face_of (perform_search_resume endpoint body r st) =
  match r with
  | Http code data =>
      if is_loading_reply code data || negb (http_ok code)
      then rested (face_of st)
      else presented data (face_of st)
  | _ => rested (face_of st)
  end.
Proof.
  unfold perform_search_resume, is_loading_reply.
  destruct r as [msg|code msg|code data]; try apply face_search_catch.
  destruct (_ && _); cbn [orb].
  - cbv zeta.
    destruct (face_show_model_loading (j_message data) st) as [b Hb].
    destruct (j_message data) as [m|].
    + rewrite face_hide_loading. unfold poll_for_model_ready_and_search.
      change (no_results_display (pan (ui ?s))) with (f_no_results (face_of s)).
      change (results_display (pan (ui ?s))) with (f_results (face_of s)).
      change (is_hybrid_search (frm (ui ?s))) with (f_hybrid (face_of s)).
      rewrite face_set_pollers. unfold showInfo.
      destruct (includes _ _); rewrite ?face_notification, Hb; reflexivity.
    + apply face_search_catch_wiped. now rewrite Hb.
  - destruct (negb (http_ok code)); [apply face_search_catch|].
    rewrite face_hide_loading.
    change (no_results_display (pan (ui ?s))) with (f_no_results (face_of s)).
    change (results_display (pan (ui ?s))) with (f_results (face_of s)).
    change (is_hybrid_search (frm (ui ?s))) with (f_hybrid (face_of s)).
    now rewrite face_display_results.
Qed.

Lemma face_status_resume pid r st :
  face_of (poll_status_resume pid r st) =
  match nth_error (pollers st) pid with
  | None => face_of st
  | Some p =>
      match r with
      | Http _ data =>
          if j_ready_for_search data then searching (face_of st)
          else if max_attempts <=? attempts p then rested (face_of st)
          else face_of st
      | _ => rested (face_of st)
      end
  end.
Proof.
  unfold poll_status_resume. destruct (nth_error (pollers st) pid) as [p|]; trivial.
  destruct r as [msg|code msg|code data]; try apply face_poll_catch.
  destruct (j_ready_for_search data); cbv zeta.
  - rewrite face_fetch, face_show_loading.
    destruct (loadingNotificationId _); now rewrite ?face_emit.
  - destruct (max_attempts <=? attempts p).
    + rewrite face_poll_catch.
      destruct (loadingNotificationId _);
        now rewrite ?face_emit; unfold clearInterval;
        rewrite face_set_pollers, face_update_message.
    + apply face_update_message.
Qed.

Lemma face_retry_resume pid r st :
  face_of (poll_retry_resume pid r st) =
  match nth_error (pollers st) pid with
  | None => face_of st
  | Some p =>
      match r with
      | Http code data =>
          if http_ok code then presented data (face_of st) else rested (face_of st)
      | _ => rested (face_of st)
      end
  end.
Proof.
  unfold poll_retry_resume. destruct (nth_error (pollers st) pid) as [p|]; trivial.
  destruct r as [msg|code msg|code data]; try apply face_poll_catch.
  destruct (http_ok code); [|apply face_poll_catch].
  rewrite face_hide_loading. unfold showSuccess.
  change (no_results_display (pan (ui ?s))) with (f_no_results (face_of s)).
  change (results_display (pan (ui ?s))) with (f_results (face_of s)).
  change (is_hybrid_search (frm (ui ?s))) with (f_hybrid (face_of s)).
  now rewrite face_notification, face_display_results.
Qed.

Lemma face_poll_tick pid st : face_of (poll_tick pid st) = face_of st.
Proof.
  unfold poll_tick. destruct (nth_error _ _) as [p|]; trivial.
  now destruct (timer_active p).
Qed.

Lemma face_step st e : face_change (face_of st) (face_of (Search.step st e)).
Proof.
  destruct e as [s| | |n|n|pid|rid r]; cbn [Search.step].
  - unfold on_input. cbv zeta. destruct (trim s).
    + rewrite face_clear_results. apply Wiped.
    + apply Unchanged.
  - rewrite face_perform_search. destruct (trim _); constructor.
  - unfold Search.toggle_search_mode. rewrite face_clear_results. apply Switched.
  - unfold on_max_results_change. rewrite face_clear_results. apply Wiped.
  - apply Unchanged.
  - rewrite face_poll_tick. apply Unchanged.
  - destruct (lookup rid (inflight st)) as [[endpoint body|pid|pid]|]; [..|constructor].
    + rewrite face_resume, face_settle. destruct r; try constructor.
      destruct (_ || _); constructor.
    + rewrite face_status_resume, face_settle. cbn [pollers settle].
      destruct (nth_error _ _); [|constructor]. destruct r; try constructor.
      destruct (j_ready_for_search _); [constructor|].
      destruct (_ <=? _); constructor.
    + rewrite face_retry_resume, face_settle. cbn [pollers settle].
      destruct (nth_error _ _); [|constructor]. destruct r; try constructor.
      destruct (http_ok _); constructor.
Qed.

End FaceFacts.

(** ** What the search page keeps between two events *)

Module OrderFacts.
Import Search SearchView SearchFacts SearchPage FaceFacts.

Lemma lookup_app_found {A} r (l l' : list (nat * A)) v :
  lookup r l = Some v -> lookup r (l ++ l') = Some v.
Proof.
  induction l as [|[k w] l IH]; cbn; [discriminate|].
  destruct (r =? k); auto.
Qed.

Lemma lookup_snoc_cases {A} r n (l : list (nat * A)) v w :
  lookup r (l ++ [(n, v)]) = Some w ->
  lookup r l = Some w \/ (r = n /\ w = v).
Proof.
  induction l as [|[k u] l IH]; cbn.
  - destruct (Nat.eqb_spec r n); [|discriminate]. intros [= <-]. now right.
  - destruct (r =? k); auto.
Qed.

Lemma lookup_remove_found {A} r m (l : list (nat * A)) v :
  lookup r (remove_key m l) = Some v -> lookup r l = Some v /\ r <> m.
Proof.
  induction l as [|[k u] l IH]; cbn; [discriminate|].
  destruct (Nat.eqb_spec m k) as [->|Hm].
  - intros H. destruct (IH H) as [H1 H2]. split; trivial.
    destruct (Nat.eqb_spec r k); [contradiction | trivial].
  - cbn. destruct (Nat.eqb_spec r k) as [->|Hr]; [intros H; split; auto|exact IH].
Qed.

Lemma lookup_remove_kept {A} r m (l : list (nat * A)) v :
  lookup r l = Some v -> r <> m -> lookup r (remove_key m l) = Some v.
Proof.
  intros H Hne. induction l as [|[k u] l IH]; cbn in *; [discriminate|].
  destruct (Nat.eqb_spec m k) as [->|Hm].
  - destruct (Nat.eqb_spec r k); [contradiction | auto].
  - cbn. destruct (r =? k); auto.
Qed.

Lemma lookup_in {A} r (l : list (nat * A)) v : lookup r l = Some v -> In (r, v) l.
Proof.
  induction l as [|[k u] l IH]; cbn; [discriminate|].
  destruct (Nat.eqb_spec r k) as [->|]; [intros [= ->]; now left | auto].
Qed.

Lemma forall_update_nth {A} (P : A -> Prop) n f (l : list A) :
  (forall x, P x -> P (f x)) -> Forall P l -> Forall P (update_nth n f l).
Proof.
  intros Hf. revert n. induction l as [|x l IH]; intros [|n] H; cbn; trivial;
    inversion H; subst; constructor; auto.
Qed.

(** *** The invariant under the changes of the view *)

Lemma orderly_reported m v : orderly v -> orderly (reported m v).
Proof. now intros []. Qed.

Lemma orderly_shown d v : orderly v -> orderly (shown d v).
Proof. now intros []. Qed.

Lemma orderly_update pid f v :
  (forall p, poller_request (f p) = poller_request p) ->
  orderly v -> orderly (with_pollers (update_nth pid f) v).
Proof.
  intros Hf [H1 H2 H3 H4 H5]. split; cbn; trivial.
  - intros rid p H. rewrite SmallProperties.length_update_nth. eauto.
  - apply forall_update_nth; trivial. intros p. now rewrite Hf.
Qed.

Lemma orderly_caught pid m v : orderly v -> orderly (caught pid m v).
Proof.
  intros H. rewrite <- caught_eq. now apply orderly_reported, orderly_update.
Qed.

Lemma orderly_armed endpoint body v :
  sound_request (endpoint, body) -> orderly v ->
  orderly (with_pollers (fun ps => ps ++ [armed 0 body endpoint]) v).
Proof.
  intros Hs [H1 H2 H3 H4 H5]. split; cbn; trivial.
  - intros rid p H. rewrite length_app. apply H2 in H. lia.
  - apply Forall_app. split; trivial. now constructor.
Qed.

Lemma orderly_settled rid v : orderly v -> orderly (settled rid v).
Proof.
  intros [H1 H2 H3 H4 H5]. split; cbn; trivial.
  - intros r Hr. now apply lookup_remove_key, H1.
  - intros r p [H|H]; apply lookup_remove_found in H as [H _]; eauto.
  - intros r e b H. apply lookup_remove_found in H as [H _]. eauto.
Qed.

Lemma orderly_sent k v v' :
  orderly v -> may_wait k v ->
  v_pollers v' = v_pollers v ->
  v_inflight v' = v_inflight v ++ [(v_next v, k)] ->
  v_next v' = S (v_next v) ->
  Forall sound_request (v_requests v') ->
  orderly v'.
Proof.
  intros [H1 H2 H3 H4 H5] Hk Hp Hi Hn Hr. split; trivial.
  - rewrite Hi, Hn. now apply fresh_from_snoc.
  - rewrite Hi, Hp. intros rid pid [H|H];
      apply lookup_snoc_cases in H as [H|[_ <-]]; eauto; exact Hk.
  - now rewrite Hp.
  - rewrite Hi. intros rid e b H.
    apply lookup_snoc_cases in H as [H|[_ <-]]; eauto; exact Hk.
Qed.

Lemma orderly_requested endpoint body k v :
  orderly v -> may_wait k v -> sound_request (endpoint, body) ->
  orderly (requested endpoint body k v).
Proof.
  intros H Hk Hs. apply (orderly_sent k v); trivial. cbn.
  apply Forall_app. split; [apply H | now constructor].
Qed.

Lemma orderly_polled k v : orderly v -> may_wait k v -> orderly (polled k v).
Proof. intros H Hk. apply (orderly_sent k v); trivial. apply H. Qed.

Lemma pending_sent k fl n :
  awaits_search k = true -> fresh_from fl n -> pending (fl ++ [(n, k)]).
Proof.
  intros Hk Hf. exists n, k. split; trivial. apply lookup_snoc_fresh, Hf. lia.
Qed.

Lemma pending_more fl l : pending fl -> pending (fl ++ l).
Proof. intros (rid & k & H & Hk). exists rid, k. eauto using lookup_app_found. Qed.

Lemma pending_settled rid k fl :
  lookup rid fl = Some k -> awaits_search k = false ->
  pending fl -> pending (remove_key rid fl).
Proof.
  intros Hl Hk (r & k' & H & Hk'). exists r, k'. split; trivial.
  apply lookup_remove_kept; trivial. intros ->. congruence.
Qed.

(** *** The requests [perform_search] builds *)

Lemma sound_built f c q :
  trim (input_value f) = String c q -> sound_request (endpoint_of f, body_data_of f).
Proof.
  intros H. unfold sound_request, endpoint_of, body_data_of. cbn.
  repeat split.
  - now rewrite H.
  - apply StringFacts.trim_idem.
  - destruct (is_hybrid_search f); [right | left]; eauto.
Qed.

Lemma sound_poller pid p v :
  orderly v -> nth_error (v_pollers v) pid = Some p -> sound_request (poller_request p).
Proof.
  intros H Hp. apply nth_error_In in Hp.
  exact (proj1 (Forall_forall _ _) (pollers_sound H) p Hp).
Qed.

(** *** The handlers keep the invariant *)

Lemma orderly_perform_search st :
  orderly (view_of st) -> orderly (view_of (perform_search st)).
Proof.
  intros H. destruct (trim (input_value (frm (ui st)))) as [|c q] eqn:E.
  - rewrite view_perform_search_blank, view_show_error by trivial.
    now apply orderly_reported.
  - erewrite view_perform_search by eauto.
    apply orderly_requested; trivial; eapply sound_built; eauto.
Qed.

Lemma orderly_resume endpoint body r st :
  sound_request (endpoint, body) -> orderly (view_of st) ->
  orderly (view_of (perform_search_resume endpoint body r st)).
Proof.
  intros Hs H.
  destruct r as [msg|code msg|code data];
    try (unfold perform_search_resume; rewrite view_search_catch;
         now apply orderly_reported).
  destruct (is_loading_reply code data) eqn:El.
  - destruct (j_message data) as [m|] eqn:Em.
    + erewrite view_resume_loading by eauto. now apply orderly_armed.
    + unfold perform_search_resume. unfold is_loading_reply in El. rewrite El, Em.
      rewrite view_search_catch, view_show_model_loading. now apply orderly_reported.
  - unfold perform_search_resume. unfold is_loading_reply in El. rewrite El.
    destruct (negb _).
    + rewrite view_search_catch. now apply orderly_reported.
    + rewrite view_hide_loading, view_display_results. now apply orderly_shown.
Qed.

Lemma stopped_request p : poller_request (stopped p) = poller_request p.
Proof. reflexivity. Qed.

Lemma bumped_request p : poller_request (bumped p) = poller_request p.
Proof. reflexivity. Qed.

Lemma orderly_status_resume pid r st :
  orderly (view_of st) -> orderly (view_of (poll_status_resume pid r st)).
Proof.
  intros H. destruct (nth_error (pollers st) pid) as [p|] eqn:Hp.
  2: { unfold poll_status_resume. now rewrite Hp. }
  destruct r as [msg|code msg|code data].
  1, 2: erewrite view_status_failed by (eauto; reflexivity); now apply orderly_caught.
  destruct (j_ready_for_search data) eqn:Er.
  - erewrite view_status_ready by eauto.
    apply orderly_requested.
    + apply orderly_update; [apply stopped_request | trivial].
    + cbn. rewrite SmallProperties.length_update_nth.
      apply nth_error_Some. congruence.
    + exact (sound_poller pid p _ H Hp).
  - destruct (Nat.lt_ge_cases (attempts p) max_attempts).
    + now erewrite view_status_waiting by eauto.
    + erewrite view_status_timeout by eauto. now apply orderly_caught.
Qed.

Lemma orderly_retry_resume pid r st :
  orderly (view_of st) -> orderly (view_of (poll_retry_resume pid r st)).
Proof.
  intros H. destruct (nth_error (pollers st) pid) as [p|] eqn:Hp.
  2: { unfold poll_retry_resume. now rewrite Hp. }
  erewrite view_retry by eauto.
  destruct (outcome_of r); [now apply orderly_shown | now apply orderly_caught].
Qed.

Lemma orderly_tick pid st :
  orderly (view_of st) -> orderly (view_of (poll_tick pid st)).
Proof.
  intros H. destruct (nth_error (pollers st) pid) as [p|] eqn:Hp.
  2: { unfold poll_tick. now rewrite Hp. }
  destruct (timer_active p) eqn:Ha.
  - erewrite view_poll_tick by eauto. apply orderly_polled.
    + apply orderly_update; [apply bumped_request | trivial].
    + cbn. rewrite SmallProperties.length_update_nth.
      apply nth_error_Some. congruence.
  - unfold poll_tick. now rewrite Hp, Ha.
Qed.

Lemma orderly_step st e :
  orderly (view_of st) -> orderly (view_of (Search.step st e)).
Proof.
  intros H. destruct e as [s| | |n|n|pid|rid r]; cbn [Search.step].
  - unfold on_input. cbv zeta. destruct (trim s); exact H.
  - now apply orderly_perform_search.
  - unfold Search.toggle_search_mode. now rewrite view_clear_results.
  - unfold on_max_results_change. now rewrite view_clear_results.
  - exact H.
  - now apply orderly_tick.
  - destruct (lookup rid (inflight st)) as [[endpoint body|pid|pid]|] eqn:El; trivial.
    + apply orderly_resume.
      * exact (awaited_sound H rid El).
      * rewrite view_settle. now apply orderly_settled.
    + apply orderly_status_resume. rewrite view_settle. now apply orderly_settled.
    + apply orderly_retry_resume. rewrite view_settle. now apply orderly_settled.
Qed.

(** *** The button *)

Lemma poller_of_reply st rid pid :
  orderly (view_of st) ->
  lookup rid (inflight st) = Some (KStatus pid) \/
  lookup rid (inflight st) = Some (KRetry pid) ->
  exists p, nth_error (pollers st) pid = Some p.
Proof.
  intros H Hl. apply (pollers_exist H) in Hl. cbn in Hl.
  destruct (nth_error (pollers st) pid) as [p|] eqn:E; eauto.
  apply nth_error_None in E. lia.
Qed.

(** The reply to a search request leaves the button enabled, whatever the
    reply. *)
Lemma reply_frees st rid r k :
  orderly (view_of st) ->
  lookup rid (inflight st) = Some k -> awaits_search k = true ->
  btn (ui (Search.step st (Response rid r))) = idle_button.
Proof.
  intros H Hl Hk. rewrite (@step_response st rid r k Hl).
  destruct k as [endpoint body|pid|pid]; try discriminate.
  - change (f_btn (face_of (perform_search_resume endpoint body r (settle rid st)))
            = idle_button).
    rewrite face_resume. destruct r; trivial. now destruct (_ || _).
  - change (f_btn (face_of (poll_retry_resume pid r (settle rid st))) = idle_button).
    rewrite face_retry_resume. cbn [pollers settle].
    destruct (poller_of_reply st rid pid H (or_intror Hl)) as [p ->].
    destruct r; trivial. now destruct (http_ok _).
Qed.

Lemma inflight_view st v : view_of st = v -> inflight st = v_inflight v.
Proof. now intros <-. Qed.

Lemma waits_perform_search st :
  orderly (view_of st) -> button_waits st -> button_waits (perform_search st).
Proof.
  intros H Hw. unfold button_waits.
  change (btn (ui (perform_search st))) with (f_btn (face_of (perform_search st))).
  rewrite face_perform_search.
  destruct (trim (input_value (frm (ui st)))) as [|c q] eqn:E.
  - rewrite view_perform_search_blank by trivial. exact Hw.
  - intros _. rewrite (inflight_view _ _ (@view_perform_search st c q E)). cbn.
    apply pending_sent; trivial. apply H.
Qed.

Lemma waits_status_resume st rid pid r :
  orderly (view_of st) -> button_waits st ->
  lookup rid (inflight st) = Some (KStatus pid) ->
  button_waits (poll_status_resume pid r (settle rid st)).
Proof.
  intros H Hw Hl. unfold button_waits.
  change (btn (ui ?s)) with (f_btn (face_of s)).
  rewrite face_status_resume. cbn [pollers settle].
  destruct (poller_of_reply st rid pid H (or_introl Hl)) as [p Hp]. rewrite Hp.
  assert (Hs : nth_error (pollers (settle rid st)) pid = Some p) by exact Hp.
  assert (Hq : disabled (f_btn (face_of (settle rid st))) = true ->
               pending (inflight (settle rid st))).
  { intros Hd. apply (pending_settled rid (KStatus pid)); auto. }
  destruct r as [msg|code msg|code data]; try discriminate.
  destruct (j_ready_for_search data) eqn:Er.
  - intros _.
    rewrite (inflight_view _ _ (@view_status_ready pid p code data _ Hs Er)). cbn.
    apply pending_sent; trivial.
    intros r Hr. now apply lookup_remove_key, H.
  - destruct (max_attempts <=? attempts p) eqn:Ea; [discriminate|].
    apply Nat.leb_gt in Ea.
    now rewrite (inflight_view _ _ (@view_status_waiting pid p code data _ Hs Er Ea)).
Qed.

Lemma waits_step st e :
  orderly (view_of st) -> button_waits st -> button_waits (Search.step st e).
Proof.
  intros H Hw. destruct e as [s| | |n|n|pid|rid r]; cbn [Search.step].
  - unfold on_input. cbv zeta. destruct (trim s); exact Hw.
  - now apply waits_perform_search.
  - exact Hw.
  - exact Hw.
  - exact Hw.
  - unfold button_waits. change (btn (ui ?s)) with (f_btn (face_of s)).
    rewrite face_poll_tick. intros Hd.
    destruct (nth_error (pollers st) pid) as [p|] eqn:Hp.
    2: { unfold poll_tick. rewrite Hp. now apply Hw. }
    destruct (timer_active p) eqn:Ha.
    + rewrite (inflight_view _ _ (@view_poll_tick pid p st Hp Ha)). cbn.
      now apply pending_more, Hw.
    + unfold poll_tick. rewrite Hp, Ha. now apply Hw.
  - destruct (lookup rid (inflight st)) as [k|] eqn:El; [|exact Hw].
    destruct (awaits_search k) eqn:Hk.
    + intros Hd. pose proof (reply_frees st rid r k H El Hk) as Hb.
      rewrite (@step_response st rid r k El) in Hb. cbv zeta in Hd.
      destruct k; rewrite Hb in Hd; discriminate.
    + destruct k as [endpoint body|pid|pid]; try discriminate.
      now apply waits_status_resume.
Qed.

End OrderFacts.

(** ** The search page *)

Module PageFacts.
Import Search SearchView SearchFacts SearchPage FaceFacts OrderFacts.

Lemma run_snoc st evs e : run st (evs ++ [e]) = step (run st evs) e.
Proof. unfold run. now rewrite fold_left_app. Qed.

Lemma page_tooltip st : page (update_search_toggle_tooltip st) = page st.
Proof.
  unfold update_search_toggle_tooltip. now destruct (current_model_info st) as [[i|]|].
Qed.

Lemma page_info_resume r st : page (fetch_model_info_resume r st) = page st.
Proof. destruct r; cbn [fetch_model_info_resume]; now rewrite ?page_tooltip. Qed.

Section Invariant.

Variable P : Search.state -> Prop.
Hypothesis P_step : forall p e, P p -> P (Search.step p e).
Hypothesis P_form : forall p f, P p -> P (set_ui (set_frm f) p).
Hypothesis P_error : forall p m, P p -> P (show_error_message m p).

Lemma invariant_step st e : P (page st) -> P (page (step st e)).
Proof.
  intros H. destruct e as [e|q| | |r]; cbn [step].
  - destruct e; try apply P_step; trivial.
    unfold toggle_search_mode. rewrite page_tooltip. now apply (P_step _ Toggle).
  - unfold on_suggestion. cbn [with_page page].
    now apply (P_step _ Submit), P_form.
  - unfold open_google_comparison. destruct (trim _); trivial.
    cbn [with_page page]. now apply P_error.
  - exact H.
  - destruct (info_pending st); trivial. now rewrite page_info_resume.
Qed.

Lemma invariant_run evs : forall st, P (page st) -> P (page (run st evs)).
Proof.
  induction evs as [|e evs IH]; intros st H; trivial.
  cbn [run fold_left]. apply IH. now apply invariant_step.
Qed.

End Invariant.

(** *** The panels *)

Lemma tidy_change f f' : face_change f f' -> tidy f -> tidy f'.
Proof.
  intros [] H; trivial; unfold tidy; cbn; try (split; [lia | reflexivity]).
  destruct (nothing_found data); cbn; split; trivial; lia.
Qed.

(** *** The requests *)

Lemma orderly_init hybrid max func :
  orderly (view_of (Search.init hybrid max func)).
Proof.
  split.
  - intros r _. reflexivity.
  - intros rid pid [H|H]; discriminate.
  - constructor.
  - constructor.
  - intros rid endpoint body H. discriminate.
Qed.

Lemma kept_run hybrid max func evs :
  let p := page (run (init hybrid max func) evs) in
  orderly (view_of p) /\ button_waits p.
Proof.
  apply (invariant_run (fun p => orderly (view_of p) /\ button_waits p)).
  - intros p e [H Hw]. split; [now apply orderly_step | now apply waits_step].
  - intros p f H. exact H.
  - intros p m [H Hw]. split.
    + rewrite view_show_error. now apply orderly_reported.
    + exact Hw.
  - split; [apply orderly_init | intros H; discriminate].
Qed.

Lemma pending_search_pending st : pending (inflight st) -> search_pending st = true.
Proof.
  intros (rid & k & Hl & Hk). apply existsb_exists. exists (rid, k).
  split; [now apply lookup_in | exact Hk].
Qed.

(** *** The tooltip *)

Lemma hybrid_tooltip st :
  is_hybrid_search (frm (ui (page (update_search_toggle_tooltip st)))) =
  is_hybrid_search (frm (ui (page st))).
Proof. now rewrite page_tooltip. Qed.





End PageFacts.

Module PageProperties.
Import Search SearchView SearchFacts SearchPage FaceFacts OrderFacts PageFacts.

(** X24: Whatever the user does and whatever the server replies, the search page
    displays at most one of the spinner, the no-results message and the
    results list, and between two events the model-loading indicator is
    hidden. *)
Theorem panels_never_overlap (hybrid : bool) (max func : nat) (evs : list event) :
  let p := pan (ui (page (run (init hybrid max func) evs))) in
  visible_panels p <= 1 /\ model_loading_hidden p = true.
Proof.
  intros p. subst p.
  change (tidy (face_of (page (run (init hybrid max func) evs)))).
  apply (invariant_run (fun p => tidy (face_of p))).
  - intros p e. apply tidy_change, face_step.
  - intros p f H. exact H.
  - intros p m. rewrite face_show_error. apply tidy_change. constructor.
  - split; [cbv; repeat constructor | reflexivity].
Qed.

(** X25: While the search button is disabled, a search request is in flight: a
    reply is still to come that will enable the button again. *)
Theorem disabled_button_awaits_reply (hybrid : bool) (max func : nat)
    (evs : list event) :
  let p := page (run (init hybrid max func) evs) in
  disabled (btn (ui p)) = true -> search_pending p = true.
Proof.
  intros p Hd. apply pending_search_pending.
  now apply (kept_run hybrid max func evs).
Qed.

Lemma disabled_button_witness :
  let p := page (run (init false 10 1) [Page (Input "cat"); Page Submit]) in
  disabled (btn (ui p)) = true /\ search_pending p = true.
Proof.
  split; [reflexivity|].
  apply (disabled_button_awaits_reply false 10 1 [Page (Input "cat"); Page Submit]).
  reflexivity.
Defined.

(** X26: The reply to a search request, the first one or the one retried once the
    model is ready, leaves the search button enabled and labelled Search,
    whether it carries results, an error or nothing readable. *)
Theorem search_reply_frees_button (hybrid : bool) (max func : nat)
    (evs : list event) (rid : nat) (r : net) (k : kont) :
  let st := run (init hybrid max func) evs in
  lookup rid (inflight (page st)) = Some k -> awaits_search k = true ->
  btn (ui (page (step st (Page (Response rid r))))) = idle_button.
Proof.
  intros st Hl Hk. cbn [step with_page page].
  apply (reply_frees _ rid r k); trivial.
  apply (kept_run hybrid max func evs).
Qed.

Lemma search_reply_frees_button_witness :
  let st := run (init false 10 1) [Page (Input "cat"); Page Submit] in
  disabled (btn (ui (page st))) = true /\
  btn (ui (page (step st (Page (Response 0 (NetError "offline")))))) = idle_button.
Proof.
  split; [reflexivity|].
  apply (search_reply_frees_button false 10 1 [Page (Input "cat"); Page Submit] 0
           (NetError "offline")
           (KPrimary "/search"
              {| query := "cat"; p_max_results := 10; p_hybrid_function := None |}));
    reflexivity.
Defined.

(** X27: Every search request the page sends, at once or after the model has
    loaded, carries a query that is trimmed and not empty, and names the
    hybrid function exactly when it goes to /search_complex. *)
Theorem sent_requests_are_sound (hybrid : bool) (max func : nat) (evs : list event) :
  Forall sound_request (search_requests (log (page (run (init hybrid max func) evs)))).
Proof.
  destruct (kept_run hybrid max func evs) as [H _].
  exact (sent_sound H).
Qed.



(** X29: Switching the mode or picking another number of results empties the
    search box: a submission right after sends no request and reports that a
    query is missing. *)
Theorem mode_change_blanks_query (st : Search.state) (n : nat) :
  let after e := Search.run st [e; Submit] in
  search_requests (log (after Toggle)) = search_requests (log st) /\
  search_requests (log (after (SelectMax n))) = search_requests (log st) /\
  errors_shown (log (after Toggle)) =
    errors_shown (log st) ++ ["Please enter a search query"] /\
  errors_shown (log (after (SelectMax n))) =
    errors_shown (log st) ++ ["Please enter a search query"].
Proof.
  assert (H : forall s, input_value (frm (ui s)) = "" ->
            view_of (perform_search s) = reported "Please enter a search query" (view_of s)).
  { intros s Hs. rewrite view_perform_search_blank by now rewrite Hs.
    apply view_show_error. }
  cbn [Search.run fold_left Search.step].
  pose proof (H (Search.toggle_search_mode st) eq_refl) as H1.
  pose proof (H (on_max_results_change n st) eq_refl) as H2.
  unfold Search.toggle_search_mode, on_max_results_change in H1, H2 |- *.
  rewrite view_clear_results, view_set_ui in H1, H2.
  repeat split.
  - exact (f_equal v_requests H1).
  - exact (f_equal v_requests H2).
  - exact (f_equal v_errors H1).
  - exact (f_equal v_errors H2).
Qed.


(** A box of no-break spaces, and a query with one after it. *)
Lemma google_button_examples :
  opened (run (init false 8 1) [Page (Input (nbsp +++ nbsp)); Compare]) = [] /\
  opened (run (init false 8 1) [Page (Input ("dogs" +++ nbsp)); Compare]) =
    [google_url "dogs"].
Proof. split; reflexivity. Qed.

End PageProperties.
